(* ===== verification/_CoqProject ===== *)
-Q . S2P
Prelude.v
PyVal.v
Json.v
Hash.v
Ledger.v
Post.v
Balances.v
Mapping.v
Signature.v
Dedupe.v
Handlers.v
Client.v
Shed.v
Gcra.v
Binary64.v
Ingest.v
System.v
Outbox.v
Book.v
Recon.v
Auditor.v
PromptText.v
Prompts.v
Triage.v
Bench.v
Events.v
Faults.v
Scenarios.v
Runner.v
Proxy.v
Reorder.v
Migrate.v
Processes.v
Stratum.v
Sweep.v
Settings.v
Loadtest.v
Site.v
Parcels.v
Observe.v
Made.v
Green.v
Alarms.v
Chaos.v
Artifact.v
Metrics.v
Scripts.v
