(* ===== verification/Prelude.v ===== *)
(** * LedgerProof: a verification development

    LedgerProof receives Stripe webhooks, posts the money they report to a
    double-entry ledger in PostgreSQL, exactly once each, and attacks itself with
    a chaos harness whose records an agent is benchmarked on.  This library is a
    shallow embedding of its Python code and of the SQL it rests on, with the
    theorems that make it correct.  Paths are those of the repository; package
    paths are below src/ledgerproof/ where no other directory is named.

    ** The program and the files that model it

    The service.  A webhook request passes the middleware and the signature check
    of ingest/app.py, is logged in [stripe_events], is handed to the queue, and a
    worker maps it to a balanced transaction that ledger/post.py, the only write path, posts.

    - Ledger.v: the schema of migrations/001 to 004: rows as records, tables as
      lists, the constraints, the append-only and the deferred triggers, the roles,
      the balance view, the seeded accounts.
    - Post.v: ledger/accounts.py and ledger/post.py.  Balances.v: ledger/balances.py and
      ledger/invariant.py.
    - Mapping.v: stripe_io/mapping.py.  Signature.v: stripe_io/signature.py, on
      Hash.v.  Client.v: stripe_io/client.py.
    - Dedupe.v: ingest/dedupe.py.  Ingest.v: ingest/app.py, ingest/queue.py, ingest/server.py.
    - Handlers.v: worker/handlers.py, worker/tasks.py, and the trace context of
      observability.py.  Metrics.v: the metrics and spans of observability.py, and the middleware
      and the task with their instrumentation.
    - System.v: ingest, queue and workers together, as a step relation.  Outbox.v: what the
      event log says over a whole history of it.  Book.v: the abstract book of posted
      transactions that it refines.  Auditor.v: the reconciler run on its reachable states.
    - Gcra.v and Shed.v: limits/gcra.py and limits/shed.py.  Binary64.v: the rounding error of
      doubles, and the limiter on them.  Loadtest.v: scripts/loadtest_shedder.py.
    - Recon.v: recon/breaks.py and recon/reconciler.py.
    - Settings.v: config.py and scripts/scan_secrets.py.  Migrate.v: scripts/migrate.py.

    The harness (harness/).  It makes signed fixtures, plans a fault over them,
    delivers the plan to a stack of its own, and judges what the ledger shows.

    - Events.v, Faults.v, Scenarios.v: events.py, faults.py, scenarios.py.
    - Runner.v: runner.py, on an interface of the stack.  Proxy.v: proxy.py.
      Reorder.v: its [_Reorderer], as a step relation.
    - Processes.v: stack.py; its two database resets are in Migrate.v.

    The harness against the service.  Site.v puts the modelled service behind the harness's
    interface: [serve] is a delivery through [_send] into the endpoint, [handle_next] a task of the worker,
    [kill_worker] a worker killed where the world says.  Parcels.v follows each
    fixture's event through the service, Observe.v reads the verdict's evidence off the
    ledger, Made.v does the fixtures of events.py, Green.v one scenario, Alarms.v each of the
    fourteen faults and a list of scenarios, and Chaos.v the [main] of runner.py.  Artifact.v follows
    the lines a run writes into the cases of the benchmark, and holds the delivery log of proxy.py.

    The triage agent and its benchmark (triage/, scripts/).

    - PromptText.v and Prompts.v: triage/prompts.py.  Triage.v: triage/schema.py,
      triage/batch.py, triage/agent.py.
    - Bench.v and Sweep.v: triage/bench.py and the loops of scripts/run_pilot.py and
      scripts/run_sweep.py.  Scripts.v: the [main] of both, and scripts/bench_design_report.py.
    - Stratum.v: scripts/build_repair_stratum.py.

    Below all of them: this file (exceptions, results, the state-and-exception
    monad [stx] and its tactic [run], sums, dictionaries, sorting), PyVal.v
    (Python values and [str]), Json.v, Hash.v.

    ** How the code is modelled

    - A function that can raise returns a [result]; one that changes state is an
      [stx] computation, which keeps the state it reached when it raises.  The
      messages of exceptions are abbreviated.  [IllTyped] marks an input outside
      the modelled domain; no theorem takes it for success.
    - A [str] is its UTF-8 bytes, with the case mapping, white space and digits of
      ASCII.  Decoded JSON is [pyval]; a float of it keeps its literal.  A
      dictionary whose order matters is an association list, otherwise a gmap.
    - Integers are unbounded, as in Python; BIGINT, CHAR(3) and the like are checked where
      the schema does.  Words of the hashes are written modulo 2^32.
    - Doubles are [spec_float] where the code's figures depend on them (limits, costs,
      the report, the load test) and rationals where a theorem is about the
      algorithm; Gcra.v has both, and Binary64.v bounds the distance.  Times are integers or rationals.
    - A database transaction is one atomic step.  What the world may do to it (serialization
      failure, connection lost before or after the commit) is an argument, so theorems hold for
      every such history.  A read sees one snapshot, and the reads of the harness after it has waited
      for quiescence see one state; JSONB gives back what was stored, and takes every
      string (PostgreSQL refuses NUL and lone surrogates); the order of
      rows the code does not ask for is immaterial.
    - Concurrency is a step relation (System.v, Reorder.v, Processes.v) or a schedule that the
      theorems quantify over (Proxy.v).  Behind the harness (Site.v) concurrent deliveries are whole
      requests in some order.
    - What is not in the repository is a parameter: Redis (class [RedisClient] with
      [RedisLaws] in Gcra.v), the egress client seen by the worker (class [egress], which Client.v
      implements), HTTP transports, operating system and brokers (class [OS] with [OSLaws]
      in Processes.v), Prometheus and OpenTelemetry (classes [Prometheus] and [Tracer] with their laws in
      Metrics.v), git (class [Workbench] with [WorkbenchLaws] in Stratum.v), pydantic, the
      model APIs and random generators.  Every set of laws has an instance,
      on which the witnesses run.  [RedisLaws] has commands take no time, and
      [WorkbenchLaws] has the repository's own harness write below artifacts/ only; what a limiter does when
      Redis fails at any point is stated without them ([check_fails_as_documented]).

    ** What the theorems show

    - The ledger: posting refines its contract under every fate of its attempts, ends, and
      keeps the invariant; every committed state passes the money check
      (Post.v, Balances.v).
    - From bytes to money: verify accepts exactly authentic recent bodies, what sign builds verifies; every mapped
      transaction balances, and which events the schema refuses is known; deduplication blocks exactly
      on its two keys; handling an event moves that event's money once; a 200 means the event is terminal or queued
      (Signature.v, Mapping.v, Dedupe.v, Handlers.v, Ingest.v).
    - The pipeline: in every reachable state, whatever is repeated, reordered, lost or cut short,
      each transaction is the image of a signed event, once per event and object, and a
      fresh event is posted in a healthy system by one request and one execution of its task (System.v); the event log tells
      the truth about every event, and an acknowledged event whose message was lost is recovered by one redelivery
      and one execution (Outbox.v); the tables
      are those of an abstract book that grows by one admissible transaction at a time, and the balances read
      are its sums (Book.v); the reconciler reports exactly the lost events (Auditor.v).
    - Limits: the limiter's decision is that of the rational algorithm, which admits exactly its
      burst; on doubles it admits its burst or one less, spaced out up to microseconds; it fails open or closed as
      documented, wherever Redis fails; the shedder converges, and a dark launch mirrors
      the live one (Gcra.v, Binary64.v, Shed.v, Loadtest.v).
    - Reconciliation reports no break exactly when ledger and source agree, as the reconciler
      matches them: the k-th balance transaction of an object with the k-th posting of it, or the first
      when there are fewer, and no posting without a transaction (Recon.v).
    - The harness tells the truth: fixtures agree with the mapping, planned
      and live faults fail or pass the signature check as they say, a record without breaks means
      exactly-once posting, the reorder buffer delivers every submission once (a submitter that gives up
      waiting excepted, whose batch is sent all the same), a start leaves all or nothing
      behind but what a child that exited by itself left, quiescence is claimed exactly at the first two idle polls in a row, its
      children are isolated up to variables that differ in case (Events.v, Faults.v, Runner.v, Proxy.v, Reorder.v, Processes.v,
      Settings.v).
    - No false alarms: against the modelled service in a world that adds no fault of its own, a whole chaos run
      ends, is green for every fault, kind and schedule, and its summary says so (Site.v to Chaos.v); together
      with the previous group, a break in the artifact is a fault of the service or of its world.
    - Observability: the instrumented request and task behave as the plain ones, every counter and histogram moves exactly as the outcome says, the gauges
      show the books (Metrics.v).
    - The benchmark is honest: prompts depend on observable evidence only, repairs reach the
      ledger only through the gate, a repair scored as right restores the books if the ledger can book it, answers are
      attributed by id, every call paid for is a line of the file and the summary is that of the answers, the report counts what it says, the projected price of a sweep is what the guard
      records, building the stratum restores the source, and the cases are those of the scenarios the harness ran, one for one
      (Prompts.v, Triage.v, Bench.v, Sweep.v, Scripts.v, Stratum.v, Artifact.v).

    Files hold further theorems under plain doc comments, some of which show where the
    code departs from its documentation: [gcra_float_burst_short],
    [charge_acceptable_iff], [rewait_may_raise], [kill_tree_skips_orphans],
    [stale_artifact_labelled], [pilot_stops_at_a_silent_model], [scan_fails_open],
    [child_env_case_leak], [unbookable_scored], [same_object_twice_unseen].

    ** Fuel and bounds

    Loops whose end depends on data take fuel, and a theorem or the caller gives enough: [json_loads] passes
    a bound on the length of its input ([json_loads_dumps]); [post_loop] takes max_attempts; the lock loop of the limiter, the
    retries of the client and of a task are bounded by their own counters; pagination and
    [pick] take fuel as an argument, with their results stated for enough of it ([pick_ends]); the waits of
    Processes.v and Sweep.v take [rounds timeout interval], which [sleep] being at least as long as asked makes enough.
    [aggregate_counts] is for reports of up to 1024 answers, for which the percentile's index is
    computed.

    ** Not modelled

    The exporters of metrics and spans, and log lines; argparse and printed progress; failures of the interpreter itself (memory,
    signals); the thread of the health probe of the runner, whose samples are those of an execution
    of the stack ([responsive] reads them); UTF-16 and UTF-32 bodies, which json.loads detects, and its
    recursion limit ([json_loads] decodes UTF-8 only); [throughput] of the load test, a timing; how the driver reads and
    writes connection strings (a parameter of [_maintenance_url]); paths. *)
From stdpp Require Export base gmap sets list strings sorting pretty.
From Stdlib Require Export ZArith Lia Ascii.

#[global] Open Scope Z_scope.

(** ** Python exceptions and results

    Every modelled operation that can raise returns a [result]; the
    constructors of [exn] are the exception classes the source raises or
    catches.  [IllTyped] marks an input outside the modelled domain (for
    instance a fractional number where the source expects minor units). *)
Inductive exn :=
  | KeyError (key : string)
  | TypeError
  | AttributeError
  | ValueError (msg : string)
  | RuntimeError (msg : string)
  | MissingFeeData (balance_transaction_id : option string)
  | SignatureVerificationError (reason : string)
  | UniqueViolation (constraint_name : string)
  | CheckViolation (constraint_name : string)
  | ForeignKeyViolation (constraint_name : string)
  | NotNullViolation (column : string)
  | DataError (what : string)
  | RaiseException (what : string)
  | InsufficientPrivilege
  | SerializationFailure
  | OperationalError
  | StripeError (message : string) (status_code : option Z)
  | RepairRejected (why : string)
  | BudgetExceeded
  | RedisError (what : string)
  | LockUnavailable (key : string)
  | OverflowError
  | TimeoutError (what : string)
  | OSError (what : string)
  | AssertionError
  | SystemExit (msg : string)
  | IllTyped (what : string).

#[export] Instance exn_eq_dec : EqDecision exn.
Proof. solve_decision. Defined.

Inductive result (A : Type) :=
  | Ok (a : A)
  | Err (e : exn).
Arguments Ok {A} a.
Arguments Err {A} e.

#[export] Instance result_eq_dec {A} `{EqDecision A} : EqDecision (result A).
Proof. solve_decision. Defined.

#[export] Instance result_ret : MRet result := λ A a, Ok a.
#[export] Instance result_bind : MBind result := λ A B f m,
  match m with Ok a => f a | Err e => Err e end.
#[export] Instance result_fmap : FMap result := λ A B f m,
  match m with Ok a => Ok (f a) | Err e => Err e end.

Definition is_ok {A} (r : result A) : bool :=
  match r with Ok _ => true | Err _ => false end.

Definition of_option {A} (e : exn) (o : option A) : result A :=
  match o with Some a => Ok a | None => Err e end.

(** [guard_or b e]: raise [e] unless [b]. *)
Definition guard_or (b : bool) (e : exn) : result () :=
  if b then Ok () else Err e.

Lemma bind_Ok {A B} (m : result A) (f : A → result B) b :
  m ≫= f = Ok b ↔ ∃ a, m = Ok a ∧ f a = Ok b.
Proof. destruct m; split; cbn; [by eauto| |done|]; intros (? & ? & ?); by simplify_eq. Qed.
Lemma bind_ok_run {A B} (a : A) (f : A → result B) : Ok a ≫= f = f a.
Proof. done. Qed.
Lemma guard_or_Ok b e u : guard_or b e = Ok u ↔ b = true.
Proof. destruct b, u; by split. Qed.
Lemma of_option_Ok {A} e (o : option A) a : of_option e o = Ok a ↔ o = Some a.
Proof. destruct o; split; cbn; congruence. Qed.

(** ** State and exceptions

    [stx S A] is a computation over a state [S] that may raise; the state it
    reached is kept when it raises, as in Python. *)
Definition stx (S A : Type) : Type := S → result A * S.

#[export] Instance stx_ret {S} : MRet (stx S) := λ A a s, (Ok a, s).
#[export] Instance stx_bind {S} : MBind (stx S) := λ A B f m s,
  match m s with
  | (Ok a, s') => f a s'
  | (Err e, s') => (Err e, s')
  end.

Definition lift {S A} (r : result A) : stx S A := λ s, (r, s).
Definition raise {S A} (e : exn) : stx S A := λ s, (Err e, s).
Definition gets {S A} (f : S → A) : stx S A := λ s, (Ok (f s), s).
Definition modify {S} (f : S → S) : stx S () := λ s, (Ok (), f s).

(** [try_except m h]: [h] handles the exception of [m] in the state [m] left. *)
Definition try_except {S A} (m : stx S A) (h : exn → stx S A) : stx S A := λ s,
  match m s with
  | (Err e, s') => h e s'
  | r => r
  end.

(** [try: m finally: f]: [f] runs in either case, and its exception wins. *)
Definition try_finally {S A} (m : stx S A) (f : stx S ()) : stx S A := λ s,
  let '(r, s') := m s in
  match f s' with
  | (Ok _, s'') => (r, s'')
  | (Err e, s'') => (Err e, s'')
  end.

(** Run a computation for each element, in order, stopping at an exception. *)
Fixpoint for_each {S A} (f : A → stx S ()) (l : list A) : stx S () :=
  match l with
  | [] => mret ()
  | x :: l => _ ← f x; for_each f l
  end.

(** Running the combinators. *)
Section run.
Context {S : Type}.
Lemma bind_run {A B} (m : stx S A) (f : A → stx S B) s :
  (m ≫= f) s = match m s with (Ok a, s') => f a s' | (Err e, s') => (Err e, s') end.
Proof. done. Qed.
Lemma ret_run {A} (a : A) (s : S) : (mret a : stx S A) s = (Ok a, s).
Proof. done. Qed.
Lemma gets_run {A} (f : S → A) s : gets f s = (Ok (f s), s).
Proof. done. Qed.
Lemma raise_run {A} e (s : S) : (raise e : stx S A) s = (Err e, s).
Proof. done. Qed.
Lemma lift_run {A} (r : result A) (s : S) : lift r s = (r, s).
Proof. done. Qed.
Lemma modify_run (f : S → S) s : modify f s = (Ok (), f s).
Proof. done. Qed.
Lemma try_except_run {A} (m : stx S A) h s :
  try_except m h s = match m s with (Err e, s') => h e s' | (Ok a, s') => (Ok a, s') end.
Proof. unfold try_except. by destruct (m s) as [[]]. Qed.
Lemma for_each_nil_run {A} (f : A → stx S ()) s : for_each f [] s = (Ok (), s).
Proof. done. Qed.
Lemma for_each_cons_run {A} (f : A → stx S ()) x l s :
  for_each f (x :: l) s = match f x s with (Ok _, s') => for_each f l s' | (Err e, s') => (Err e, s') end.
Proof. done. Qed.
End run.
Create Rewrite HintDb stx.
#[export] Hint Rewrite @bind_run @ret_run @gets_run @raise_run @lift_run @modify_run
  @try_except_run @for_each_nil_run @for_each_cons_run : stx.

(** Symbolic execution of a computation applied to a state. *)
Ltac run := autorewrite with stx.
Tactic Notation "run" "in" hyp(H) := autorewrite with stx in H.

(** ** Tactics *)

(** Case analysis on the innermost scrutinee of the goal or of a hypothesis. *)
Ltac case_goal :=
  match goal with
  | |- context [match ?x with _ => _ end] =>
      lazymatch x with
      | context [match _ with _ => _ end] => fail
      | _ => destruct x eqn:?
      end
  end.
Ltac case_hyp H :=
  match type of H with
  | context [match ?x with _ => _ end] =>
      lazymatch x with
      | context [match _ with _ => _ end] => fail
      | _ => destruct x eqn:?
      end
  end.

(** Turn the outcome of boolean tests into propositions. *)
Ltac bool_to_prop :=
  repeat match goal with
  | H : bool_decide _ = true |- _ => apply bool_decide_eq_true in H
  | H : bool_decide _ = false |- _ => apply bool_decide_eq_false in H
  | H : (_ && _)%bool = true |- _ => apply andb_true_iff in H as [? ?]
  | H : (_ || _)%bool = false |- _ => apply orb_false_iff in H as [? ?]
  | H : negb _ = true |- _ => apply negb_true_iff in H
  | H : negb _ = false |- _ => apply negb_false_iff in H
  | H : (_ =? _) = true |- _ => apply Z.eqb_eq in H
  | H : (_ =? _) = false |- _ => apply Z.eqb_neq in H
  | H : (_ <? _) = true |- _ => apply Z.ltb_lt in H
  | H : (_ <? _) = false |- _ => apply Z.ltb_ge in H
  | H : (_ <=? _) = true |- _ => apply Z.leb_le in H
  | H : (_ <=? _) = false |- _ => apply Z.leb_gt in H
  end.

(** Split a monadic computation known to succeed. *)
Ltac step_ok H :=
  repeat (first [ progress simplify_eq | progress cbn in H | case_hyp H ]);
  try discriminate.

(** Split the sequences of binds known to return into their steps. *)
Ltac inv_ok H :=
  repeat (let x := fresh "x" in let E := fresh "E" in apply bind_Ok in H as (x & E & H));
  repeat match goal with
  | E : _ ≫= _ = Ok _ |- _ =>
      let x := fresh "x" in let E' := fresh "E" in apply bind_Ok in E as (x & E' & E)
  end;
  repeat match goal with
  | E : guard_or _ _ = Ok _ |- _ => apply guard_or_Ok in E
  | E : of_option _ _ = Ok _ |- _ => apply of_option_Ok in E
  | E : mret ?x = Ok ?y |- _ => change (Ok x = Ok y) in E
  end.

(** ** Sums of integers over lists *)
Section sums.
Context {A : Type}.
Implicit Types (l k : list A) (f g : A → Z).

Definition Zsum f l : Z := foldr (λ x acc, f x + acc) 0 l.

Lemma Zsum_nil f : Zsum f [] = 0.
Proof. done. Qed.
Lemma Zsum_cons f x l : Zsum f (x :: l) = f x + Zsum f l.
Proof. done. Qed.
Lemma Zsum_app f l k : Zsum f (l ++ k) = Zsum f l + Zsum f k.
Proof. induction l; simpl; lia. Qed.
Lemma Zsum_ext f g l : (∀ x, x ∈ l → f x = g x) → Zsum f l = Zsum g l.
Proof.
  induction l as [|x l IH]; intros H; simpl; [done|].
  rewrite (H x), IH; [done| |left]. intros y Hy. apply H. by right.
Qed.
Lemma Zsum_zero f l : (∀ x, x ∈ l → f x = 0) → Zsum f l = 0.
Proof.
  intros H. rewrite (Zsum_ext f (λ _, 0) l H). induction l; simpl; [done|].
  apply IHl. intros. apply H. by right.
Qed.
Lemma Zsum_add f g l : Zsum (λ x, f x + g x) l = Zsum f l + Zsum g l.
Proof. induction l; simpl; lia. Qed.
Lemma Zsum_sub f g l : Zsum (λ x, f x - g x) l = Zsum f l - Zsum g l.
Proof. induction l; simpl; lia. Qed.
Lemma Zsum_opp f l : Zsum (λ x, - f x) l = - Zsum f l.
Proof. induction l; simpl; lia. Qed.
Lemma Zsum_nonneg f l : (∀ x, x ∈ l → 0 <= f x) → 0 <= Zsum f l.
Proof.
  induction l as [|x l IH]; intros H; simpl; [done|].
  assert (0 <= f x) by (apply H; left).
  assert (0 <= Zsum f l) by (apply IH; intros; apply H; by right). lia.
Qed.
Lemma Zsum_filter (P : A → Prop) `{∀ x, Decision (P x)} f l :
  Zsum f (filter P l) = Zsum (λ x, if decide (P x) then f x else 0) l.
Proof.
  induction l as [|x l IH]; [done|]. rewrite filter_cons. simpl.
  destruct (decide (P x)); simpl; lia.
Qed.
End sums.

#[export] Instance Zsum_perm {A} (f : A → Z) : Proper ((≡ₚ) ==> (=)) (Zsum f).
Proof. induction 1; simpl; lia. Qed.

Lemma Zsum_fmap {A B} (h : B → A) (f : A → Z) (l : list B) :
  Zsum f (h <$> l) = Zsum (λ x, f (h x)) l.
Proof. induction l as [|x l IH]; [done|]. rewrite fmap_cons, !Zsum_cons. by rewrite IH. Qed.

(** Exchanging the order of a double sum. *)
Lemma Zsum_swap {A B} (f : A → B → Z) (l : list A) (k : list B) :
  Zsum (λ x, Zsum (f x) k) l = Zsum (λ y, Zsum (λ x, f x y) l) k.
Proof.
  induction l as [|x l IH]; simpl; [by rewrite Zsum_zero|].
  by rewrite IH, <- Zsum_add.
Qed.

(** A sum with a single possibly non-zero term. *)
Lemma Zsum_unique {A} `{EqDecision A} (f : A → Z) (l : list A) (x : A) :
  NoDup l → x ∈ l → (∀ y, y ∈ l → y ≠ x → f y = 0) → Zsum f l = f x.
Proof.
  induction 1 as [|y l Hnin Hnd IH]; [by intros ?%elem_of_nil|].
  intros [->|Hx]%elem_of_cons H; simpl.
  - rewrite Zsum_zero; [lia|]. intros y' Hy'. apply H; [by right|set_solver].
  - rewrite (H y); [|left|set_solver]. rewrite IH; [lia|done|].
    intros y' ??. apply H; [by right|done].
Qed.

(** Grouping a sum by a key. *)
Lemma Zsum_group {A K} `{EqDecision K} (key : A → K) (f : A → Z) (l : list A) :
  Zsum f l = Zsum (λ k, Zsum f (filter (λ x, key x = k) l)) (remove_dups (key <$> l)).
Proof.
  transitivity (Zsum (λ x, Zsum (λ k, if decide (key x = k) then f x else 0) (remove_dups (key <$> l))) l).
  - apply Zsum_ext. intros x Hx. symmetry. rewrite (Zsum_unique _ _ (key x)).
    + by rewrite decide_True.
    + apply NoDup_remove_dups.
    + apply elem_of_remove_dups, list_elem_of_fmap. eauto.
    + intros y _ Hne. by rewrite decide_False.
  - rewrite Zsum_swap. apply Zsum_ext. intros k _. by rewrite Zsum_filter.
Qed.

(** ** Association lists: the insertion-ordered dictionaries of Python *)
Section dict.
Context {V : Type}.
Implicit Types (d : list (string * V)) (k : string).

Fixpoint dict_get k d : option V :=
  match d with
  | [] => None
  | (k', v) :: d => if decide (k' = k) then Some v else dict_get k d
  end.

(** [d[k] = v]: replaces in place, appends a new key at the end. *)
Fixpoint dict_set k (v : V) d : list (string * V) :=
  match d with
  | [] => [(k, v)]
  | (k', v') :: d => if decide (k' = k) then (k, v) :: d else (k', v') :: dict_set k v d
  end.

Definition dict_mem k d : bool := match dict_get k d with Some _ => true | None => false end.

Lemma dict_get_set_eq k v d : dict_get k (dict_set k v d) = Some v.
Proof.
  induction d as [|[k' v'] d IH]; simpl; [by rewrite decide_True|].
  case_decide; simpl; [by rewrite decide_True|by rewrite decide_False].
Qed.
Lemma dict_get_set_ne k k' v d : k ≠ k' → dict_get k' (dict_set k v d) = dict_get k' d.
Proof.
  intros Hne. induction d as [|[k'' v''] d IH]; simpl; [by rewrite decide_False|].
  destruct (decide (k'' = k)) as [->|]; simpl; [by rewrite !(decide_False (P := k = k'))|].
  by rewrite IH.
Qed.
Lemma dict_get_None k d : dict_get k d = None ↔ k ∉ d.*1.
Proof.
  induction d as [|[k' v] d IH]; simpl; [set_solver|].
  case_decide; [subst|]; set_solver.
Qed.
Lemma dict_get_elem k v d : dict_get k d = Some v → (k, v) ∈ d.
Proof.
  induction d as [|[k' v'] d IH]; simpl; [done|].
  case_decide; [intros [= ->]; subst; left|right; auto].
Qed.
Lemma dict_set_keys k v d : (dict_set k v d).*1 = if decide (k ∈ d.*1) then d.*1 else d.*1 ++ [k].
Proof.
  induction d as [|[k' v'] d IH]; [done|]. cbn [dict_set].
  destruct (decide (k' = k)) as [->|]; rewrite !fmap_cons; cbn [fst].
  - by rewrite decide_True by set_solver.
  - rewrite IH. repeat case_decide; set_solver.
Qed.
Lemma dict_set_new k v d : k ∉ d.*1 → dict_set k v d = d ++ [(k, v)].
Proof.
  induction d as [|[k' v'] d IH]; [done|]. cbn. intros H.
  rewrite decide_False by set_solver. by rewrite IH by set_solver.
Qed.
Lemma dict_set_NoDup k v d : NoDup d.*1 → NoDup (dict_set k v d).*1.
Proof.
  intros H. rewrite dict_set_keys. case_decide; [done|].
  apply NoDup_app. split_and!; [done|set_solver|apply NoDup_singleton].
Qed.
End dict.

(** ** Sorting by string keys, as [sorted] does on [str] *)
Definition string_le (s t : string) : Prop := String.leb s t = true.
#[export] Instance string_le_dec : RelDecision string_le.
Proof. intros s t. unfold string_le. apply _. Defined.
#[export] Instance string_le_total : Total string_le.
Proof.
  intros s t. unfold string_le. destruct (String.leb s t) eqn:E; [by left|right].
  destruct (String.leb_total s t); congruence.
Qed.

#[export] Instance string_le_preorder : PreOrder string_le.
Proof.
  split; [intros s|intros s t u]; unfold string_le; rewrite <- ?Is_true_true;
    [exact (reflexivity (R := String.le) s)|exact (transitivity (R := String.le) (x := s) (y := t) (z := u))].
Qed.

Definition sort_strings (l : list string) : list string := merge_sort string_le l.

Definition key_le {V} (x y : string * V) : Prop := string_le x.1 y.1.
#[export] Instance key_le_dec {V} : RelDecision (@key_le V).
Proof. intros x y. unfold key_le. apply _. Defined.
#[export] Instance key_le_total {V} : Total (@key_le V).
Proof. intros x y. unfold key_le. apply (total string_le). Qed.

(** [sorted(d.items())] for a dictionary (keys are distinct). *)
Definition sort_items {V} (d : list (string * V)) : list (string * V) := merge_sort key_le d.

Lemma sort_strings_elem x l : x ∈ sort_strings l ↔ x ∈ l.
Proof. unfold sort_strings. by rewrite merge_sort_Permutation. Qed.

(** ** Decimal rendering *)
Definition str_of_Z (z : Z) : string := pretty z.

(** The format [f"{v:+d}"]. *)
Definition signed_str (z : Z) : string :=
  if z <? 0 then str_of_Z z else String.append "+" (str_of_Z z).

(** ** Lists *)
Section filter_lemmas.
Context {A : Type} (P : A → Prop) `{∀ x, Decision (P x)}.
Lemma filter_none (l : list A) : (∀ x, x ∈ l → ¬ P x) → filter P l = [].
Proof.
  induction l as [|x l IH]; intros Hl; [done|]. rewrite filter_cons.
  case_decide; [exfalso; eapply Hl; [by left|done]|]. apply IH. intros y Hy. apply Hl. by right.
Qed.
Lemma filter_every (l : list A) : (∀ x, x ∈ l → P x) → filter P l = l.
Proof.
  induction l as [|x l IH]; intros Hl; [done|]. rewrite filter_cons.
  case_decide as Hx; [|destruct Hx; apply Hl; by left]. f_equal. apply IH. intros y Hy. apply Hl. by right.
Qed.
End filter_lemmas.
Lemma existsb_exists_stdpp {A} (f : A → bool) l : existsb f l = true ↔ ∃ x, x ∈ l ∧ f x = true.
Proof. rewrite existsb_exists. by setoid_rewrite list_elem_of_In. Qed.
Lemma existsb_false {A} (f : A → bool) l : existsb f l = false ↔ ∀ x, x ∈ l → f x = false.
Proof.
  rewrite <- not_true_iff_false, existsb_exists_stdpp. split.
  - intros H x Hx. apply not_true_iff_false. intros ?. apply H. eauto.
  - intros H (x & Hx & E). rewrite H in E; done.
Qed.
Lemma forallb_forall_stdpp {A} (f : A → bool) l : forallb f l = true ↔ ∀ x, x ∈ l → f x = true.
Proof. rewrite forallb_forall. by setoid_rewrite list_elem_of_In. Qed.

Lemma drop_app_prefix {A} (l k : list A) : drop (length l) (l ++ k) = k.
Proof. apply drop_app_length. Qed.

Create HintDb ledger discriminated.
Create Rewrite HintDb sums.
#[export] Hint Rewrite @Zsum_nil @Zsum_cons @Zsum_app : sums.
