(* ===== verification/PyVal.v ===== *)
(** Python values as the source uses them: decoded JSON ([pyval]), [str]
    operations, [int()] and the dictionary accessors with the exceptions they
    raise.  A [str] is its UTF-8 encoding; case mapping, white space and
    decimal digits are those of ASCII. *)
From Stdlib Require Import Ascii.
From S2P Require Import Prelude.

(** ** Values

    [PFloat] carries the text of a float: no modelled code computes with a
    fractional number taken from a payload. *)
Inductive pyval :=
  | PNone
  | PBool (b : bool)
  | PInt (z : Z)
  | PFloat (repr : string)
  | PStr (s : string)
  | PList (l : list pyval)
  | PDict (d : list (string * pyval)).

(** Induction through the lists and dictionaries nested in a value. *)
Section pyval_ind.
Variable P : pyval → Prop.
Hypothesis (HNone : P PNone) (HBool : ∀ b, P (PBool b)) (HInt : ∀ z, P (PInt z))
  (HFloat : ∀ r, P (PFloat r)) (HStr : ∀ s, P (PStr s))
  (HList : ∀ l, Forall P l → P (PList l))
  (HDict : ∀ d, Forall (λ kv, P kv.2) d → P (PDict d)).

Fixpoint pyval_nested_ind (v : pyval) : P v :=
  match v with
  | PNone => HNone
  | PBool b => HBool b
  | PInt z => HInt z
  | PFloat r => HFloat r
  | PStr s => HStr s
  | PList l => HList l ((fix go l := match l return Forall P l with
      | [] => Forall_nil_2 _
      | x :: l => Forall_cons_2 _ x l (pyval_nested_ind x) (go l) end) l)
  | PDict d => HDict d ((fix go d := match d return Forall (λ kv, P kv.2) d with
      | [] => Forall_nil_2 _
      | kv :: d => Forall_cons_2 _ kv d (pyval_nested_ind kv.2) (go d) end) d)
  end.
End pyval_ind.

#[export] Instance pyval_eq_dec : EqDecision pyval.
Proof.
  refine (fix go (v w : pyval) : Decision (v = w) :=
    match v, w with
    | PNone, PNone => left eq_refl
    | PBool a, PBool b => cast_if (decide (a = b))
    | PInt a, PInt b => cast_if (decide (a = b))
    | PFloat a, PFloat b => cast_if (decide (a = b))
    | PStr a, PStr b => cast_if (decide (a = b))
    | PList a, PList b => cast_if (@list_eq_dec _ go a b)
    | PDict a, PDict b => cast_if (@list_eq_dec _ (@prod_eq_dec string _ pyval go) a b)
    | _, _ => right _
    end); congruence.
Defined.

(** Whether the text of a float is that of zero. *)
Definition float_is_zero (r : string) : bool :=
  let mantissa := (fix go l := match l with
    | c :: l => if bool_decide (c ∈ ["e"; "E"]%char) then [] else c :: go l
    | [] => [] end) (String.list_ascii_of_string r) in
  let digits := filter (λ c, c ∈ ["0"; "1"; "2"; "3"; "4"; "5"; "6"; "7"; "8"; "9"]%char) mantissa in
  (negb (bool_decide (digits = [])) && forallb (λ c, bool_decide (c = "0"%char)) digits)%bool.

Definition truthy (v : pyval) : bool :=
  match v with
  | PNone => false
  | PBool b => b
  | PInt z => negb (z =? 0)
  | PFloat r => negb (float_is_zero r)
  | PStr s => negb (bool_decide (s = ""))
  | PList l => match l with [] => false | _ => true end
  | PDict d => match d with [] => false | _ => true end
  end.

Definition is_none (v : pyval) : bool := match v with PNone => true | _ => false end.
Definition is_dict (v : pyval) : bool := match v with PDict _ => true | _ => false end.
Definition is_str (v : pyval) : bool := match v with PStr _ => true | _ => false end.

(** [isinstance(v, str)], as an option. *)
Definition as_str (v : pyval) : option string := match v with PStr s => Some s | _ => None end.
Definition as_dict (v : pyval) : option (list (string * pyval)) :=
  match v with PDict d => Some d | _ => None end.

Lemma as_str_Some v s : as_str v = Some s ↔ v = PStr s.
Proof. destruct v; split; cbn; congruence. Qed.
Lemma as_dict_Some v d : as_dict v = Some d ↔ v = PDict d.
Proof. destruct v; split; cbn; congruence. Qed.

(** [v[k]] for a string key. *)
Definition py_index (v : pyval) (k : string) : result pyval :=
  match v with
  | PDict d => of_option (KeyError k) (dict_get k d)
  | _ => Err TypeError
  end.

(** [v.get(k, dflt)] and [v.get(k)]. *)
Definition py_get_default (v : pyval) (k : string) (dflt : pyval) : result pyval :=
  match v with
  | PDict d => Ok (match dict_get k d with Some x => x | None => dflt end)
  | _ => Err AttributeError
  end.
Definition py_get (v : pyval) (k : string) : result pyval := py_get_default v k PNone.

(** The integer an arithmetic operand stands for ([bool] is an [int]). *)
Definition as_num (v : pyval) : result Z :=
  match v with
  | PInt z => Ok z
  | PBool b => Ok (Z.b2z b)
  | PFloat _ => Err (IllTyped "fractional amount")
  | _ => Err TypeError
  end.

(** ** [str] operations *)
Definition chars (s : string) : list ascii := String.list_ascii_of_string s.
Definition of_chars (l : list ascii) : string := String.string_of_list_ascii l.
Definition code (a : ascii) : Z := Z.of_N (N_of_ascii a).
Definition chr (z : Z) : ascii := ascii_of_N (Z.to_N z).

(** [len(s)] *)
Definition str_len (s : string) : Z := Z.of_nat (String.length s).

Definition is_space (a : ascii) : bool :=
  let c := code a in ((9 <=? c) && (c <=? 13) || (28 <=? c) && (c <=? 32))%bool.
Definition is_digit (a : ascii) : bool := ((48 <=? code a) && (code a <=? 57))%bool.
Definition is_alpha (a : ascii) : bool :=
  ((65 <=? code a) && (code a <=? 90) || (97 <=? code a) && (code a <=? 122))%bool.

Definition upper_char (a : ascii) : ascii :=
  if ((97 <=? code a) && (code a <=? 122))%bool then chr (code a - 32) else a.
Definition lower_char (a : ascii) : ascii :=
  if ((65 <=? code a) && (code a <=? 90))%bool then chr (code a + 32) else a.
Definition upper (s : string) : string := of_chars (upper_char <$> chars s).
Definition lower (s : string) : string := of_chars (lower_char <$> chars s).

Fixpoint drop_space (l : list ascii) : list ascii :=
  match l with
  | c :: l' => if is_space c then drop_space l' else l
  | [] => []
  end.
Definition strip_chars (l : list ascii) : list ascii :=
  reverse (drop_space (reverse (drop_space l))).
(** [s.strip()] *)
Definition strip (s : string) : string := of_chars (strip_chars (chars s)).

(** [s.startswith(p)] *)
Definition startswith (p s : string) : bool := String.prefix p s.

(** [s.split(c)] for a one-character separator. *)
Fixpoint split_chars (c : ascii) (l : list ascii) : list (list ascii) :=
  match l with
  | [] => [[]]
  | x :: l =>
      if decide (x = c) then [] :: split_chars c l
      else match split_chars c l with
           | p :: ps => (x :: p) :: ps
           | [] => [[x]]
           end
  end.
Definition split (c : ascii) (s : string) : list string := of_chars <$> split_chars c (chars s).

(** [s.partition(c)]: the text before the first [c], whether [c] occurs, and
    the text after it. *)
Fixpoint partition_chars (c : ascii) (l : list ascii) : list ascii * bool * list ascii :=
  match l with
  | [] => ([], false, [])
  | x :: l =>
      if decide (x = c) then ([], true, l)
      else let '(h, sep, t) := partition_chars c l in (x :: h, sep, t)
  end.
Definition partition (c : ascii) (s : string) : string * bool * string :=
  let '(h, sep, t) := partition_chars c (chars s) in (of_chars h, sep, of_chars t).

(** [sep.join(l)] *)
Fixpoint join (sep : string) (l : list string) : string :=
  match l with
  | [] => ""
  | [s] => s
  | s :: l => s +:+ sep +:+ join sep l
  end.

(** ** [int(s)] *)

(** The interpreter refuses to convert longer digit strings. *)
Definition int_max_str_digits : Z := 4300.

Fixpoint int_digits (l : list ascii) (acc : Z) (after_digit : bool) : option Z :=
  match l with
  | [] => if after_digit then Some acc else None
  | c :: l =>
      if is_digit c then int_digits l (10 * acc + (code c - 48)) true
      else if (bool_decide (c = "_"%char) && after_digit)%bool then int_digits l acc false
      else None
  end.

Definition count_digits (l : list ascii) : Z := Zsum (λ c, if is_digit c then 1 else 0) l.

Definition int_unsigned (l : list ascii) : option Z :=
  if int_max_str_digits <? count_digits l then None else int_digits l 0 false.

Definition int_chars (l : list ascii) : option Z :=
  match l with
  | c :: l' =>
      if decide (c = "-"%char) then Z.opp <$> int_unsigned l'
      else if decide (c = "+"%char) then int_unsigned l'
      else int_unsigned l
  | [] => None
  end.

(** [int(s)]; [None] is the [ValueError]. *)
Definition int_of_str (s : string) : option Z := int_chars (strip_chars (chars s)).

(** [int(v)] *)
Definition py_int (v : pyval) : result Z :=
  match v with
  | PStr s => of_option (ValueError "invalid literal for int()") (int_of_str s)
  | _ => as_num v
  end.

(** ** Lemmas on text *)
Lemma chars_of_chars l : chars (of_chars l) = l.
Proof. apply String.list_ascii_of_string_of_list_ascii. Qed.
Lemma of_chars_chars s : of_chars (chars s) = s.
Proof. apply String.string_of_list_ascii_of_string. Qed.
Lemma chars_cons a s : chars (String a s) = a :: chars s.
Proof. done. Qed.
Lemma chars_app s t : chars (s +:+ t) = chars s ++ chars t.
Proof.
  induction s as [|a s IH]; [done|].
  change (a :: chars (s +:+ t) = a :: (chars s ++ chars t)). by rewrite IH.
Qed.
Lemma of_chars_app l k : of_chars (l ++ k) = of_chars l +:+ of_chars k.
Proof.
  induction l as [|a l IH]; [done|].
  change (String a (of_chars (l ++ k)) = String a (of_chars l +:+ of_chars k)). by rewrite IH.
Qed.
Lemma chars_length s : length (chars s) = String.length s.
Proof. induction s; simpl; congruence. Qed.

Lemma code_range a : 0 <= code a < 256.
Proof. unfold code. pose proof (N_ascii_bounded a). lia. Qed.

(** Splitting a join at the separator gives the parts back. *)
Lemma split_chars_no_sep c l : c ∉ l → split_chars c l = [l].
Proof.
  induction l as [|x l IH]; simpl; [done|]. intros H.
  rewrite decide_False by set_solver. by rewrite IH by set_solver.
Qed.
Lemma split_chars_app c l k : c ∉ l → split_chars c (l ++ c :: k) = l :: split_chars c k.
Proof.
  induction l as [|x l IH]; simpl; intros H; [by rewrite decide_True|].
  rewrite decide_False by set_solver. by rewrite IH by set_solver.
Qed.
Lemma partition_chars_app c l k :
  c ∉ l → partition_chars c (l ++ c :: k) = (l, true, k).
Proof.
  induction l as [|x l IH]; simpl; intros H; [by rewrite decide_True|].
  rewrite decide_False by set_solver. by rewrite IH by set_solver.
Qed.

Lemma split_join (c : ascii) (l : list string) :
  l ≠ [] → Forall (λ s, c ∉ chars s) l → split c (join (String c "") l) = l.
Proof.
  intros Hne HF. unfold split.
  assert (split_chars c (chars (join (String c "") l)) = chars <$> l) as ->.
  - induction HF as [|s l Hs HF IH]; [done|]. destruct l as [|t l].
    + by apply split_chars_no_sep.
    + change (join _ (s :: t :: l)) with (s +:+ (String c "" +:+ join (String c "") (t :: l))).
      rewrite !chars_app. cbn [chars String.list_ascii_of_string app].
      rewrite split_chars_app by done. rewrite IH by done. done.
  - rewrite <- list_fmap_compose. rewrite <- (list_fmap_id l) at 2.
    apply list_fmap_ext. intros ? s _. apply of_chars_chars.
Qed.

(** ** [int] inverts the decimal rendering *)
Lemma pretty_char_digit (d : N) : (d < 10)%N →
  is_digit (pretty_N_char d) = true ∧ code (pretty_N_char d) - 48 = Z.of_N d.
Proof.
  intros H. assert (d = 0 ∨ d = 1 ∨ d = 2 ∨ d = 3 ∨ d = 4 ∨ d = 5 ∨ d = 6 ∨ d = 7 ∨ d = 8 ∨ d = 9)%N
    as Hd by lia.
  repeat destruct Hd as [->|Hd]; try subst; done.
Qed.

Lemma int_digits_pretty (x : N) : (0 < x)%N → ∀ s,
  int_digits (chars (pretty_N_go x s)) 0 false = int_digits (chars s) (Z.of_N x) true.
Proof.
  induction (N.lt_wf_0 x) as [x _ IH]. intros Hx s.
  rewrite pretty_N_go_step by done.
  destruct (pretty_char_digit (x `mod` 10)%N) as [Hd Hc]; [apply N.mod_lt; lia|].
  pose proof (N.div_mod x 10 ltac:(lia)) as Hdm.
  destruct (decide (x / 10 = 0)%N) as [E|E].
  - rewrite E, pretty_N_go_0. cbn [chars String.list_ascii_of_string int_digits].
    rewrite Hd, Hc. f_equal. lia.
  - rewrite IH; [|apply N.div_lt; lia|by apply N.neq_0_lt_0].
    cbn [chars String.list_ascii_of_string int_digits]. rewrite Hd, Hc. f_equal. lia.
Qed.

Lemma count_digits_pretty (k : nat) : ∀ (x : N) s, (Z.of_N x < 10 ^ Z.of_nat k) →
  count_digits (chars (pretty_N_go x s)) <= Z.of_nat k + count_digits (chars s).
Proof.
  induction k as [|k IH]; intros x s Hx.
  - assert (x = 0%N) as -> by lia. rewrite pretty_N_go_0. lia.
  - destruct (decide (x = 0%N)) as [->|Hne]; [rewrite pretty_N_go_0; lia|].
    rewrite pretty_N_go_step by lia. rewrite Nat2Z.inj_succ, Z.pow_succ_r in Hx by lia.
    etrans; [apply IH; rewrite N2Z.inj_div; apply Z.div_lt_upper_bound; lia|].
    rewrite chars_cons. unfold count_digits. rewrite Zsum_cons. case_match; lia.
Qed.

Lemma pretty_N_go_digits x : ∀ s,
  Forall (λ c, is_digit c = true) (chars s) →
  Forall (λ c, is_digit c = true) (chars (pretty_N_go x s)).
Proof.
  induction (N.lt_wf_0 x) as [x _ IH]. intros s Hs.
  destruct (decide (x = 0%N)) as [->|Hne]; [by rewrite pretty_N_go_0|].
  rewrite pretty_N_go_step by lia. apply IH; [apply N.div_lt; lia|].
  rewrite chars_cons. constructor; [|done]. apply pretty_char_digit, N.mod_lt. lia.
Qed.

Lemma pretty_N_digits (x : N) :
  Forall (λ c, is_digit c = true) (chars (pretty x)).
Proof.
  unfold pretty, pretty_N. case_decide; [by repeat constructor|].
  apply pretty_N_go_digits. constructor.
Qed.

(** The decimal text of an integer: digits, after a sign if negative. *)
Lemma str_of_Z_chars z :
  Forall (λ c, is_digit c = true ∨ c = "-"%char) (chars (str_of_Z z)).
Proof.
  unfold str_of_Z. destruct z as [|p|p]; cbn [pretty pretty_Z].
  - repeat constructor.
  - eapply Forall_impl; [apply pretty_N_digits|]. by left.
  - rewrite chars_app. apply Forall_app. split; [by repeat constructor; right|].
    eapply Forall_impl; [apply pretty_N_digits|]. by left.
Qed.

Lemma drop_space_id l : Forall (λ c, is_space c = false) l → drop_space l = l.
Proof. by destruct 1 as [|c l Hc]; simpl; [|rewrite Hc]. Qed.
Lemma strip_chars_id l : Forall (λ c, is_space c = false) l → strip_chars l = l.
Proof.
  intros H. unfold strip_chars. rewrite (drop_space_id l), drop_space_id, reverse_involutive; try done.
  by apply Forall_reverse.
Qed.
Lemma digit_not_space c : is_digit c = true → is_space c = false.
Proof.
  unfold is_digit, is_space. intros. bool_to_prop.
  apply orb_false_iff; split; apply andb_false_iff; right; apply Z.leb_gt; lia.
Qed.
Lemma digit_neq c d : is_digit c = true → is_digit d = false → c ≠ d.
Proof. intros ?? ->. congruence. Qed.

Lemma int_unsigned_pretty (x : N) : Z.of_N x < 10 ^ int_max_str_digits →
  int_unsigned (chars (pretty x)) = Some (Z.of_N x).
Proof.
  intros Hx. unfold int_unsigned.
  assert (count_digits (chars (pretty x)) <= int_max_str_digits).
  { unfold pretty, pretty_N. case_decide; [done|].
    etrans; [apply (count_digits_pretty 4300)|]; [exact Hx|]. done. }
  rewrite (proj2 (Z.ltb_ge _ _)) by done.
  unfold pretty, pretty_N. case_decide as E; [by rewrite E|].
  rewrite int_digits_pretty by lia. done.
Qed.

(** [int(str(z)) == z], for every integer the interpreter will convert. *)
Lemma int_of_str_of_Z z : Z.abs z < 10 ^ int_max_str_digits →
  int_of_str (str_of_Z z) = Some z.
Proof.
  intros Hz. unfold int_of_str. rewrite strip_chars_id.
  2:{ eapply Forall_impl; [apply str_of_Z_chars|]. intros c [Hc| ->]; [|done].
      by apply digit_not_space. }
  destruct z as [|p|p]; [done| |].
  - unfold str_of_Z. cbn [pretty pretty_Z].
    pose proof (int_unsigned_pretty (N.pos p) Hz) as Hu.
    pose proof (pretty_N_digits (N.pos p)) as Hd.
    change (pretty p) with (pretty (N.pos p)).
    destruct (chars (pretty (N.pos p))) as [|c l]; [done|].
    apply Forall_cons in Hd as [Hc _]. cbn [int_chars].
    rewrite !decide_False by (by apply digit_neq). exact Hu.
  - unfold str_of_Z. cbn [pretty pretty_Z]. rewrite chars_app. cbn [chars String.list_ascii_of_string app].
    cbn [int_chars]. rewrite decide_True by done.
    change (Z.opp <$> int_unsigned (chars (pretty (N.pos p))) = Some (Z.neg p)).
    by rewrite (int_unsigned_pretty (N.pos p) Hz).
Qed.
