(* ===== verification/Json.v ===== *)
(** The parts of Python's [json] the source uses: [json.loads] on a UTF-8 body
    (ingest/app.py, harness/proxy.py) and [json.dumps] with compact separators
    (harness/events.py).  [None] is the [ValueError] of [json.loads].  A float
    keeps its literal; nesting is bounded by the input only. *)
From S2P Require Import Prelude PyVal.

Definition dquote : ascii := chr 34.
Definition backslash : ascii := chr 92.

(** ** UTF-8 *)
Definition utf8 (z : Z) : list ascii :=
  if z <? 0x80 then [chr z]
  else if z <? 0x800 then [chr (0xc0 + Z.shiftr z 6); chr (0x80 + Z.land z 63)]
  else if z <? 0x10000 then
    [chr (0xe0 + Z.shiftr z 12); chr (0x80 + Z.land (Z.shiftr z 6) 63); chr (0x80 + Z.land z 63)]
  else [chr (0xf0 + Z.shiftr z 18); chr (0x80 + Z.land (Z.shiftr z 12) 63);
        chr (0x80 + Z.land (Z.shiftr z 6) 63); chr (0x80 + Z.land z 63)].

Definition is_cont (a : ascii) : bool := Z.land (code a) 0xc0 =? 0x80.
Definition cont_bits (a : ascii) : Z := Z.land (code a) 0x3f.

(** Decode strictly: no overlong form, no surrogate, at most U+10FFFF. *)
Fixpoint utf8_decode (l : list ascii) : option (list Z) :=
  match l with
  | [] => Some []
  | a :: l1 =>
      let x := code a in
      if x <? 0x80 then cons x <$> utf8_decode l1
      else match l1 with
      | b :: l2 =>
          if ((0xc2 <=? x) && (x <=? 0xdf) && is_cont b)%bool
          then cons (Z.shiftl (Z.land x 31) 6 + cont_bits b) <$> utf8_decode l2
          else match l2 with
          | c :: l3 =>
              let z3 := Z.shiftl (Z.land x 15) 12 + Z.shiftl (cont_bits b) 6 + cont_bits c in
              if ((0xe0 <=? x) && (x <=? 0xef) && is_cont b && is_cont c && (0x800 <=? z3) &&
                  negb ((0xd800 <=? z3) && (z3 <=? 0xdfff)))%bool
              then cons z3 <$> utf8_decode l3
              else match l3 with
              | d :: l4 =>
                  let z4 := Z.shiftl (Z.land x 7) 18 + Z.shiftl (cont_bits b) 12 +
                            Z.shiftl (cont_bits c) 6 + cont_bits d in
                  if ((0xf0 <=? x) && (x <=? 0xf4) && is_cont b && is_cont c && is_cont d &&
                      (0x10000 <=? z4) && (z4 <=? 0x10ffff))%bool
                  then cons z4 <$> utf8_decode l4 else None
              | [] => None
              end
          | [] => None
          end
      | [] => None
      end
  end.

(** ** Scanning *)
Definition hexval (c : ascii) : option Z :=
  let x := code c in
  if ((48 <=? x) && (x <=? 57))%bool then Some (x - 48)
  else if ((97 <=? x) && (x <=? 102))%bool then Some (x - 87)
  else if ((65 <=? x) && (x <=? 70))%bool then Some (x - 55)
  else None.
Definition hex4 (a b c d : ascii) : option Z :=
  x ← hexval a; y ← hexval b; z ← hexval c; w ← hexval d; Some (4096 * x + 256 * y + 16 * z + w).

Definition high_surrogate (u : Z) : bool := ((0xd800 <=? u) && (u <=? 0xdbff))%bool.
Definition low_surrogate (u : Z) : bool := ((0xdc00 <=? u) && (u <=? 0xdfff))%bool.

Definition simple_escape (e : ascii) : option ascii :=
  if decide (e = dquote) then Some dquote
  else if decide (e = backslash) then Some backslash
  else if decide (e = "/"%char) then Some "/"%char
  else if decide (e = "b"%char) then Some (chr 8)
  else if decide (e = "f"%char) then Some (chr 12)
  else if decide (e = "n"%char) then Some (chr 10)
  else if decide (e = "r"%char) then Some (chr 13)
  else if decide (e = "t"%char) then Some (chr 9)
  else None.

Definition prepend (p : list ascii) (r : option (list ascii * list ascii)) : option (list ascii * list ascii) :=
  '(s, l) ← r; Some (p ++ s, l).

(** The text of a string literal after its opening quote, and what follows. *)
Fixpoint scan_string (l : list ascii) : option (list ascii * list ascii) :=
  match l with
  | [] => None
  | x :: l1 =>
      if decide (x = dquote) then Some ([], l1)
      else if decide (x = backslash) then
        match l1 with
        | [] => None
        | e :: l2 =>
            if decide (e = "u"%char) then
              match l2 with
              | a :: b :: c :: d :: l3 =>
                  match hex4 a b c d with
                  | None => None
                  | Some u =>
                      match l3 with
                      | bs :: u' :: e :: f :: g :: h :: l4 =>
                          match (if (high_surrogate u && bool_decide (bs = backslash) && bool_decide (u' = "u"%char))%bool
                                 then hex4 e f g h else None) with
                          | Some v =>
                              if low_surrogate v
                              then prepend (utf8 (0x10000 + Z.lor (Z.shiftl (u - 0xd800) 10) (v - 0xdc00)))
                                           (scan_string l4)
                              else prepend (utf8 u) (scan_string l3)
                          | None => prepend (utf8 u) (scan_string l3)
                          end
                      | _ => prepend (utf8 u) (scan_string l3)
                      end
                  end
              | _ => None
              end
            else match simple_escape e with
                 | Some c => prepend [c] (scan_string l2)
                 | None => None
                 end
        end
      else if code x <? 32 then None
      else prepend [x] (scan_string l1)
  end.

Fixpoint span_digits (l : list ascii) : list ascii * list ascii :=
  match l with
  | c :: l' => if is_digit c then let '(ds, r) := span_digits l' in (c :: ds, r) else ([], l)
  | [] => ([], [])
  end.

(** The optional fraction and exponent of a number. *)
Definition scan_frac (l : list ascii) : list ascii * list ascii :=
  match l with
  | c :: l' => if decide (c = "."%char) then
      match span_digits l' with ([], _) => ([], l) | (ds, r) => (c :: ds, r) end else ([], l)
  | [] => ([], [])
  end.
Definition scan_exp (l : list ascii) : list ascii * list ascii :=
  match l with
  | c :: l' => if decide (c = "e"%char ∨ c = "E"%char) then
      let '(sign, l'') := match l' with
        | s :: l'' => if decide (s = "+"%char ∨ s = "-"%char) then ([s], l'') else ([], l')
        | [] => ([], []) end in
      match span_digits l'' with ([], _) => ([], l) | (ds, r) => (c :: sign ++ ds, r) end else ([], l)
  | [] => ([], [])
  end.

(** An integer without leading zeros, then the optional parts; an [int] unless
    one of them is there. *)
Definition scan_unsigned (sign l1 : list ascii) : option (pyval * list ascii) :=
  let '(ds, l2) := match l1 with
    | c :: l' => if decide (c = "0"%char) then ([c], l') else span_digits l1 | [] => ([], []) end in
  match ds with
  | [] => None
  | _ =>
      let '(frac, l3) := scan_frac l2 in
      let '(exp, l4) := scan_exp l3 in
      match frac, exp with
      | [], [] => z ← int_chars (sign ++ ds); Some (PInt z, l4)
      | _, _ => Some (PFloat (of_chars (sign ++ ds ++ frac ++ exp)), l4)
      end
  end.
Definition scan_number (l : list ascii) : option (pyval * list ascii) :=
  match l with
  | c :: l' => if decide (c = "-"%char) then scan_unsigned [c] l' else scan_unsigned [] l
  | [] => scan_unsigned [] []
  end.

Fixpoint skip_ws (l : list ascii) : list ascii :=
  match l with
  | c :: l' => if bool_decide (c ∈ [" "%char; chr 9; chr 10; chr 13]) then skip_ws l' else l
  | [] => []
  end.

Definition eat (w : string) (l : list ascii) : option (list ascii) :=
  if bool_decide (take (String.length w) l = chars w) then Some (drop (String.length w) l) else None.

Definition constants : list (string * pyval) :=
  [("null", PNone); ("true", PBool true); ("false", PBool false); ("NaN", PFloat "nan");
   ("Infinity", PFloat "inf"); ("-Infinity", PFloat "-inf")].

Definition scan_constant (l : list ascii) : option (pyval * list ascii) :=
  head (omap (λ '(w, v), r ← eat w l; Some (v, r)) constants).

(** ** Values, by fuel *)
Fixpoint value (n : nat) (l : list ascii) : option (pyval * list ascii) :=
  match n with
  | O => None
  | S n =>
      match l with
      | [] => None
      | c :: l' =>
          if decide (c = dquote) then '(s, r) ← scan_string l'; Some (PStr (of_chars s), r)
          else if decide (c = "{"%char) then
            match skip_ws l' with
            | c' :: r => if decide (c' = "}"%char) then Some (PDict [], r) else members n [] (c' :: r)
            | [] => None
            end
          else if decide (c = "["%char) then
            match skip_ws l' with
            | c' :: r => if decide (c' = "]"%char) then Some (PList [], r) else elements n [] (c' :: r)
            | [] => None
            end
          else match scan_number l with
               | Some r => Some r
               | None => scan_constant l
               end
      end
  end
with members (n : nat) (acc : list (string * pyval)) (l : list ascii) : option (pyval * list ascii) :=
  match n with
  | O => None
  | S n =>
      match l with
      | q :: l' =>
          if decide (q = dquote) then
            '(k, r) ← scan_string l';
            match skip_ws r with
            | colon :: r =>
                if decide (colon = ":"%char) then
                  '(v, r) ← value n (skip_ws r);
                  let acc := dict_set (of_chars k) v acc in
                  match skip_ws r with
                  | c :: r =>
                      if decide (c = "}"%char) then Some (PDict acc, r)
                      else if decide (c = ","%char) then members n acc (skip_ws r)
                      else None
                  | [] => None
                  end
                else None
            | [] => None
            end
          else None
      | [] => None
      end
  end
with elements (n : nat) (acc : list pyval) (l : list ascii) : option (pyval * list ascii) :=
  match n with
  | O => None
  | S n =>
      '(v, r) ← value n l;
      let acc := acc ++ [v] in
      match skip_ws r with
      | c :: r =>
          if decide (c = "]"%char) then Some (PList acc, r)
          else if decide (c = ","%char) then elements n acc (skip_ws r)
          else None
      | [] => None
      end
  end.

Definition strip_bom (l : list ascii) : list ascii :=
  if bool_decide (take 3 l = [chr 0xef; chr 0xbb; chr 0xbf]) then drop 3 l else l.

(** [json.loads(raw)] *)
Definition json_loads (raw : string) : option pyval :=
  let l := strip_bom (chars raw) in
  match utf8_decode l with
  | None => None
  | Some _ =>
      match value (2 * length l + 2) (skip_ws l) with
      | Some (v, r) => match skip_ws r with [] => Some v | _ => None end
      | None => None
      end
  end.

(** ** [json.dumps(v, separators=(",", ":"))] *)
Definition hexc (x : Z) : ascii := chr (if x <? 10 then 48 + x else 87 + x).
Definition u_escape (z : Z) : list ascii :=
  [backslash; "u"%char; hexc (Z.land (Z.shiftr z 12) 15); hexc (Z.land (Z.shiftr z 8) 15);
   hexc (Z.land (Z.shiftr z 4) 15); hexc (Z.land z 15)].

Definition escape (z : Z) : list ascii :=
  if z =? 34 then [backslash; dquote]
  else if z =? 92 then [backslash; backslash]
  else if z =? 10 then [backslash; "n"%char]
  else if z =? 13 then [backslash; "r"%char]
  else if z =? 9 then [backslash; "t"%char]
  else if z =? 12 then [backslash; "f"%char]
  else if z =? 8 then [backslash; "b"%char]
  else if ((32 <=? z) && (z <=? 126))%bool then [chr z]
  else if z <? 0x10000 then u_escape z
  else u_escape (0xd800 + Z.shiftr (z - 0x10000) 10) ++ u_escape (0xdc00 + Z.land (z - 0x10000) 0x3ff).

Definition dump_string (s : string) : list ascii :=
  dquote :: match utf8_decode (chars s) with
            | Some l => l ≫= escape
            | None => chars s ≫= (λ c, escape (code c))
            end ++ [dquote].

Fixpoint commas (l : list (list ascii)) : list ascii :=
  match l with
  | [] => []
  | [x] => x
  | x :: l => x ++ ","%char :: commas l
  end.

Fixpoint dump (v : pyval) : list ascii :=
  match v with
  | PNone => chars "null"
  | PBool true => chars "true"
  | PBool false => chars "false"
  | PInt z => chars (str_of_Z z)
  | PFloat r => chars r
  | PStr s => dump_string s
  | PList l => "["%char :: commas (List.map dump l) ++ ["]"%char]
  | PDict d => "{"%char :: commas (List.map (λ kv, dump_string kv.1 ++ ":"%char :: dump kv.2) d) ++ ["}"%char]
  end.

Definition json_dumps (v : pyval) : string := of_chars (dump v).

(** ** Round trip *)

(** What [json_loads] gives back: ASCII text, integers the interpreter
    converts, floats whose text is a number with a fraction or an exponent,
    distinct keys. *)
Definition ascii_text (s : string) : Prop := Forall (λ c, code c < 128) (chars s).

Inductive safe : pyval → Prop :=
  | safe_none : safe PNone
  | safe_bool b : safe (PBool b)
  | safe_int z : Z.abs z < 10 ^ int_max_str_digits → safe (PInt z)
  | safe_float r : scan_number (chars r) = Some (PFloat r, []) → safe (PFloat r)
  | safe_str s : ascii_text s → safe (PStr s)
  | safe_list l : Forall safe l → safe (PList l)
  | safe_dict d : NoDup d.*1 → Forall (λ kv, ascii_text kv.1 ∧ safe kv.2) d → safe (PDict d).

Lemma chr_code a : chr (code a) = a.
Proof. unfold chr, code. rewrite N2Z.id. apply ascii_N_embedding. Qed.
Lemma code_chr z : 0 <= z < 256 → code (chr z) = z.
Proof. intros H. unfold chr, code. rewrite N_ascii_embedding by lia. lia. Qed.

Lemma utf8_decode_ascii l : Forall (λ c, code c < 128) l → utf8_decode l = Some (code <$> l).
Proof.
  induction 1 as [|c l Hc Hl IH]; [done|]. cbn [utf8_decode].
  rewrite (proj2 (Z.ltb_lt (code c) 0x80)) by done. by rewrite IH.
Qed.

Lemma scan_u a b c d u l : hex4 a b c d = Some u → high_surrogate u = false →
  scan_string (backslash :: "u"%char :: a :: b :: c :: d :: l) = prepend (utf8 u) (scan_string l).
Proof.
  intros Hh Hs.
  change (scan_string (backslash :: "u"%char :: a :: b :: c :: d :: l)) with
    (match hex4 a b c d with
     | None => None
     | Some u =>
         match l with
         | bs :: u' :: e :: f :: g :: h :: l4 =>
             match (if (high_surrogate u && bool_decide (bs = backslash) && bool_decide (u' = "u"%char))%bool
                    then hex4 e f g h else None) with
             | Some v =>
                 if low_surrogate v
                 then prepend (utf8 (0x10000 + Z.lor (Z.shiftl (u - 0xd800) 10) (v - 0xdc00))) (scan_string l4)
                 else prepend (utf8 u) (scan_string l)
             | None => prepend (utf8 u) (scan_string l)
             end
         | _ => prepend (utf8 u) (scan_string l)
         end
     end).
  rewrite Hh, Hs. cbn [andb]. by do 6 (destruct l as [|? l]; [done|]).
Qed.

Lemma u_escape_ascii z : 0 <= z < 128 →
  (a ← hexval (hexc (Z.land (Z.shiftr z 12) 15)); b ← hexval (hexc (Z.land (Z.shiftr z 8) 15));
   c ← hexval (hexc (Z.land (Z.shiftr z 4) 15)); d ← hexval (hexc (Z.land z 15));
   Some (4096 * a + 256 * b + 16 * c + d)) = Some z.
Proof.
  intros H. assert (z ∈ seqZ 0 128) as Hin by (apply elem_of_seqZ; lia).
  clear H. revert z Hin. apply Forall_forall. apply (bool_decide_unpack _). vm_compute. exact I.
Qed.

Lemma scan_escape c l : code c < 128 → scan_string (escape (code c) ++ l) = prepend [c] (scan_string l).
Proof.
  intros Hc. pose proof (code_range c) as Hr. unfold escape.
  assert (∀ z, code c = z → c = chr z) as Hz by (intros z <-; by rewrite chr_code).
  repeat match goal with
  | |- context [if code c =? ?z then _ else _] =>
      destruct (code c =? z) eqn:?; bool_to_prop;
      [match goal with H : code c = z |- _ => apply Hz in H as -> end; reflexivity|]
  end.
  destruct (_ && _)%bool eqn:Ep.
  - bool_to_prop. rewrite chr_code. cbn [app scan_string].
    rewrite decide_False by (intros E%(f_equal code); change (code dquote) with 34 in E; lia).
    rewrite decide_False by (intros E%(f_equal code); change (code backslash) with 92 in E; lia).
    by rewrite (proj2 (Z.ltb_ge (code c) 32)).
  - rewrite (proj2 (Z.ltb_lt (code c) 0x10000)) by lia. unfold u_escape. cbn [app].
    rewrite (scan_u _ _ _ _ (code c)); [|apply u_escape_ascii; lia|].
    + unfold utf8. rewrite (proj2 (Z.ltb_lt (code c) 0x80)) by done. by rewrite chr_code.
    + unfold high_surrogate. by rewrite (proj2 (Z.leb_gt _ _)) by lia.
Qed.

Lemma scan_escapes l rest : Forall (λ c, code c < 128) l →
  scan_string (((code <$> l) ≫= escape) ++ dquote :: rest) = Some (l, rest).
Proof.
  induction 1 as [|c l Hc Hl IH]; [done|].
  change ((code <$> c :: l) ≫= escape) with (escape (code c) ++ ((code <$> l) ≫= escape)).
  rewrite <- app_assoc, scan_escape by done. by rewrite IH.
Qed.

Lemma dump_string_ascii s : ascii_text s →
  dump_string s = dquote :: ((code <$> chars s) ≫= escape) ++ [dquote].
Proof. intros Hs. unfold dump_string. by rewrite utf8_decode_ascii. Qed.

Lemma scan_dump_string s rest : ascii_text s →
  ∃ l, dump_string s ++ rest = dquote :: l ∧ scan_string l = Some (chars s, rest).
Proof.
  intros Hs. rewrite dump_string_ascii by done.
  exists (((code <$> chars s) ≫= escape) ++ dquote :: rest). split; [|by apply scan_escapes].
  rewrite <- app_comm_cons. by rewrite <- app_assoc.
Qed.

(** *** Numbers *)
Definition stops (l : list ascii) : Prop :=
  match l with [] => True | c :: _ => c ∈ [","; "]"; "}"]%char end.

Lemma stops_digit l : stops l → span_digits l = ([], l).
Proof.
  destruct l as [|c l]; [done|]. cbn. intros H.
  assert (is_digit c = false) as ->; [|done]. repeat (apply elem_of_cons in H as [->|H]; [done|]).
  by apply not_elem_of_nil in H.
Qed.
Lemma span_digits_app ds l : Forall (λ c, is_digit c = true) ds → stops l → span_digits (ds ++ l) = (ds, l).
Proof.
  intros H Hl. induction H as [|c ds Hc H IH]; cbn; [by apply stops_digit|]. by rewrite Hc, IH.
Qed.
Lemma stops_tail l : stops l → scan_frac l = ([], l) ∧ scan_exp l = ([], l).
Proof.
  destruct l as [|c l]; [done|]. cbn. intros H.
  repeat (apply elem_of_cons in H as [->|H]; [done|]). by apply not_elem_of_nil in H.
Qed.

(** Scanning a number does not depend on what follows it. *)
Lemma span_digits_stop l rest : stops rest → span_digits (l ++ rest) = ((span_digits l).1, (span_digits l).2 ++ rest).
Proof.
  intros Hr. induction l as [|c l IH]; cbn; [by rewrite stops_digit|]. rewrite IH.
  destruct (is_digit c); [|done]. by destruct (span_digits l).
Qed.
Lemma scan_frac_stop l rest : stops rest → scan_frac (l ++ rest) = ((scan_frac l).1, (scan_frac l).2 ++ rest).
Proof.
  intros Hr. destruct l as [|c l]; [cbn [app]; by destruct (stops_tail rest Hr) as [-> _]|]. cbn. case_decide; [|done].
  rewrite span_digits_stop by done. by destruct (span_digits l) as [[|] ?].
Qed.
Lemma scan_exp_stop l rest : stops rest → scan_exp (l ++ rest) = ((scan_exp l).1, (scan_exp l).2 ++ rest).
Proof.
  intros Hr. destruct l as [|c l]; [cbn [app]; by destruct (stops_tail rest Hr) as [_ ->]|]. cbn. case_decide; [|done].
  destruct l as [|x l]; cbn.
  - destruct rest as [|y rest]; [done|]. cbn in Hr. rewrite !elem_of_cons, elem_of_nil in Hr.
    destruct Hr as [->|[->|[->|[]]]]; done.
  - case_decide; [|change (x :: l ++ rest) with ((x :: l) ++ rest)]; rewrite span_digits_stop by done; by destruct (span_digits _) as [[|] ?].
Qed.
Lemma scan_number_stop l v r rest : stops rest → scan_number l = Some (v, r) → scan_number (l ++ rest) = Some (v, r ++ rest).
Proof.
  intros Hr. assert (∀ sign k, scan_unsigned sign k = Some (v, r) → scan_unsigned sign (k ++ rest) = Some (v, r ++ rest)) as Hu.
  { intros sign k. unfold scan_unsigned. destruct k as [|c k]; [done|]. cbn [app].
    change (c :: k ++ rest) with ((c :: k) ++ rest). rewrite span_digits_stop by done.
    set (start := if decide (c = "0"%char) then ([c], k) else span_digits (c :: k)).
    assert ((if decide (c = "0"%char) then ([c], k ++ rest) else ((span_digits (c :: k)).1, (span_digits (c :: k)).2 ++ rest)) =
      (start.1, start.2 ++ rest)) as -> by (unfold start; by case_decide).
    destruct start as [ds l2]. cbn [fst snd]. destruct ds; [done|]. rewrite scan_frac_stop by done.
    destruct (scan_frac l2) as [frac l3]. cbn [fst snd]. rewrite scan_exp_stop by done. destruct (scan_exp l3) as [exp l4]. cbn [fst snd].
    destruct frac, exp; try (by intros [= <- <-]). destruct (int_chars _); [|done]. by intros [= <- <-]. }
  unfold scan_number. destruct l as [|c l]; [done|]. cbn [app]. case_decide; [apply Hu|]. apply (Hu [] (c :: l)).
Qed.

(** A number starts with a digit or a sign. *)
Lemma scan_number_head l v r : scan_number l = Some (v, r) → ∃ c l', l = c :: l' ∧ (is_digit c = true ∨ c = "-"%char).
Proof.
  destruct l as [|c l]; [done|]. unfold scan_number. case_decide as E; [intros _; exists c, l; auto|].
  unfold scan_unsigned. case_decide as E0; [intros _; exists c, l; subst; auto|]. cbn [span_digits].
  destruct (is_digit c) eqn:Ed; [intros _; exists c, l; auto|done].
Qed.

(** The digits of a positive number start with a non-zero one. *)
Lemma pretty_head (x : N) : (0 < x)%N → ∀ s, ∃ c l,
  chars (pretty_N_go x s) = c :: l ∧ is_digit c = true ∧ c ≠ "0"%char.
Proof.
  induction (N.lt_wf_0 x) as [x _ IH]. intros Hx s. rewrite pretty_N_go_step by done.
  destruct (decide (x / 10 = 0)%N) as [E|E].
  - rewrite E, pretty_N_go_0, chars_cons.
    destruct (pretty_char_digit (x `mod` 10)%N) as [Hd Hc]; [apply N.mod_lt; lia|].
    eexists _, _. split_and!; [done|done|]. intros E0. rewrite E0 in Hc.
    change (code "0" - 48) with 0 in Hc. pose proof (N.div_mod x 10 ltac:(lia)). lia.
  - apply IH; [apply N.div_lt; lia|by apply N.neq_0_lt_0].
Qed.

Lemma scan_unsigned_pos (p : positive) sign rest : stops rest →
  scan_unsigned sign (chars (pretty (N.pos p)) ++ rest) =
  z ← int_chars (sign ++ chars (pretty (N.pos p))); Some (PInt z, rest).
Proof.
  intros Hr. unfold scan_unsigned. pose proof (pretty_N_digits (N.pos p)) as Hd.
  destruct (pretty_head (N.pos p) ltac:(lia) "") as (c & l & Hc & Hcd & Hc0).
  change (pretty_N_go (N.pos p) "") with (pretty (N.pos p)) in Hc. rewrite Hc in Hd |- *. cbn [app].
  rewrite decide_False by done. change (c :: l ++ rest) with ((c :: l) ++ rest).
  rewrite span_digits_app by done. destruct (stops_tail rest Hr) as [Hf He]. by rewrite Hf, He.
Qed.

Lemma scan_number_int z rest : Z.abs z < 10 ^ int_max_str_digits → stops rest →
  scan_number (chars (str_of_Z z) ++ rest) = Some (PInt z, rest).
Proof.
  intros Hz Hr. pose proof (int_of_str_of_Z z Hz) as Hi. unfold int_of_str in Hi.
  rewrite strip_chars_id in Hi.
  2:{ eapply Forall_impl; [apply str_of_Z_chars|]. intros c [H| ->]; [|done]. by apply digit_not_space. }
  destruct z as [|p|p].
  - change (chars (str_of_Z 0)) with ["0"%char]. unfold scan_number. cbn [app].
    rewrite decide_False by done. unfold scan_unsigned. rewrite decide_True by done.
    destruct (stops_tail rest Hr) as [Hf He]. by rewrite Hf, He.
  - change (str_of_Z (Z.pos p)) with (pretty (N.pos p)) in *.
    pose proof (scan_unsigned_pos p [] rest Hr) as Hs. cbn [app] in Hs. rewrite Hi in Hs.
    destruct (pretty_head (N.pos p) ltac:(lia) "") as (c & l & Hc & Hcd & Hc0).
    change (pretty_N_go (N.pos p) "") with (pretty (N.pos p)) in Hc. unfold scan_number.
    rewrite Hc in Hs |- *. cbn [app] in Hs |- *. rewrite decide_False by by apply digit_neq. exact Hs.
  - change (chars (str_of_Z (Z.neg p))) with ("-"%char :: chars (pretty (N.pos p))) in *.
    unfold scan_number. cbn [app]. rewrite decide_True by done. rewrite scan_unsigned_pos by done.
    cbn [app]. by rewrite Hi.
Qed.

(** *** Values *)

(** Fuel that is enough to read a value back. *)
Fixpoint need (v : pyval) : nat :=
  match v with
  | PList l => 2 + list_sum (List.map (λ x, S (need x)) l)
  | PDict d => 2 + list_sum (List.map (λ kv, S (need kv.2)) d)
  | _ => 1
  end.

(** [json.dumps] with a separator: [sp] follows each comma and each colon. *)
Section layout.
Context (sp : list ascii).

Fixpoint commas_with (l : list (list ascii)) : list ascii :=
  match l with [] => [] | [x] => x | x :: l => x ++ ","%char :: sp ++ commas_with l end.
Fixpoint dump_with (v : pyval) : list ascii :=
  match v with
  | PList l => "["%char :: commas_with (List.map dump_with l) ++ ["]"%char]
  | PDict d => "{"%char :: commas_with (List.map (λ kv, dump_string kv.1 ++ ":"%char :: sp ++ dump_with kv.2) d) ++ ["}"%char]
  | v => dump v
  end.

Context (Hsp : ∀ l, skip_ws (sp ++ l) = skip_ws l) (Hsp7 : Forall (λ c, 32 <= code c < 128) sp).

Lemma commas_cons x l : commas_with (x :: l) = x ++ match l with [] => [] | _ => ","%char :: sp ++ commas_with l end.
Proof. destruct l; [by rewrite app_nil_r|done]. Qed.

Lemma skip_digit c l : is_digit c = true → skip_ws (c :: l) = c :: l.
Proof.
  intros Hd. cbn [skip_ws]. rewrite bool_decide_false; [done|].
  rewrite !elem_of_cons, elem_of_nil. intros [->|[->|[->|[->|[]]]]]; done.
Qed.
Lemma value_float n r rest : scan_number (chars r) = Some (PFloat r, []) → stops rest →
  value (S n) (chars r ++ rest) = Some (PFloat r, rest).
Proof.
  intros Hs Hr. pose proof (scan_number_stop _ _ _ _ Hr Hs) as Hn. destruct (scan_number_head _ _ _ Hs) as (c & l & E & Hc).
  rewrite E in Hn |- *. cbn [app] in *. cbn [value]. rewrite Hn.
  assert (∀ d, is_digit d = false → d ≠ "-"%char → c ≠ d) as Hne by (intros d Hd1 Hd2 ->; destruct Hc; congruence).
  by rewrite !decide_False by by apply Hne.
Qed.

(** Reading [v] back in front of anything that stops a number. *)
Definition reads (v : pyval) : Prop := ∀ n rest, (need v <= n)%nat → stops rest →
  value n (dump_with v ++ rest) = Some (v, rest).

(** The first character of a value, which is not white space. *)
Definition starts_value (l : list ascii) : Prop :=
  ∃ c l', l = c :: l' ∧ skip_ws l = l ∧ c ≠ "]"%char ∧ c ≠ "}"%char.

Lemma value_int_nonempty z : Z.abs z < 10 ^ int_max_str_digits → chars (str_of_Z z) ≠ [].
Proof. intros Hz%int_of_str_of_Z E. unfold int_of_str in Hz. by rewrite E in Hz. Qed.

Lemma value_int n z rest : Z.abs z < 10 ^ int_max_str_digits → stops rest →
  value (S n) (chars (str_of_Z z) ++ rest) = Some (PInt z, rest).
Proof.
  intros Hz Hr. pose proof (scan_number_int z rest Hz Hr) as Hs. cbn [value].
  pose proof (str_of_Z_chars z) as Hc. destruct (chars (str_of_Z z)) as [|c l] eqn:E0; [by apply value_int_nonempty in Hz|].
  apply Forall_cons in Hc as [Hc _]. cbn [app] in *. rewrite Hs.
  assert (∀ d, is_digit d = false → d ≠ "-"%char → c ≠ d) as Hne.
  { intros d Hd1 Hd2 ->. destruct Hc; congruence. }
  by rewrite !decide_False by by apply Hne.
Qed.

Lemma value_str n s rest : ascii_text s → value (S n) (dump_string s ++ rest) = Some (PStr s, rest).
Proof.
  intros Hs. destruct (scan_dump_string s rest Hs) as (l & -> & Hl). cbn [value].
  rewrite decide_True by done. rewrite Hl. cbn. by rewrite of_chars_chars.
Qed.

Lemma starts_dump v rest : safe v → starts_value (dump_with v ++ rest).
Proof.
  assert (∀ c l, skip_ws (c :: l) = c :: l → c ≠ "]"%char → c ≠ "}"%char → starts_value (c :: l)) as H.
  { intros c l ???. by exists c, l. }
  intros Hs. destruct Hs as [|[]|z Hz|r Hr|s Hs|l Hl|d Hd]; try (by apply H).
  2:{ destruct (scan_number_head _ _ _ Hr) as (c & l & E & Hc). cbn [dump_with dump]. rewrite E. cbn [app]. by apply H; destruct Hc as [Hc| ->]; first [done|apply skip_digit|apply digit_neq]. }
  cbn [dump_with dump]. pose proof (str_of_Z_chars z) as Hc.
  destruct (chars (str_of_Z z)) as [|c l] eqn:E; [by apply value_int_nonempty in Hz|].
  apply Forall_cons in Hc as [Hc _]. cbn [app].
  assert (∀ d, is_digit d = false → d ≠ "-"%char → c ≠ d) as Hne.
  { intros d Hd1 Hd2 ->. destruct Hc; congruence. }
  apply H; [|by apply Hne..]. cbn [skip_ws]. rewrite bool_decide_false; [done|].
  rewrite !elem_of_cons, elem_of_nil. intros [Hx|[Hx|[Hx|[Hx|[]]]]]; by apply Hne in Hx.
Qed.

Lemma stops_close c rest : c ∈ [","; "]"; "}"]%char → stops (c :: rest).
Proof. done. Qed.

Lemma elements_reads l : Forall reads l → Forall safe l → l ≠ [] → ∀ n acc rest,
  (S (list_sum (List.map (λ x, S (need x)) l)) <= n)%nat →
  elements n acc (commas_with (List.map dump_with l) ++ "]"%char :: rest) = Some (PList (acc ++ l), rest).
Proof.
  induction l as [|v l IH]; intros Hr Hs Hne n acc rest Hn; [done|].
  apply Forall_cons in Hr as [Hv Hr]. apply Forall_cons in Hs as [Hsv Hs].
  destruct n as [|n]; [lia|]. cbn [List.map list_sum foldr] in Hn.
  assert (need v <= n)%nat as Hnv by (unfold list_sum in Hn; cbn in Hn; lia).
  cbn [List.map elements]. rewrite commas_cons, <- app_assoc.
  destruct l as [|w l]; cbn [List.map app].
  - by rewrite (Hv n ("]"%char :: rest) Hnv ltac:(apply stops_close; set_solver)).
  - rewrite (Hv n _ Hnv) by (apply stops_close; set_solver). cbn [mbind option_bind skip_ws].
    rewrite bool_decide_false by set_solver. rewrite decide_False, decide_True by done.
    assert (skip_ws ((sp ++ commas_with (dump_with w :: List.map dump_with l)) ++ "]"%char :: rest) =
            commas_with (dump_with w :: List.map dump_with l) ++ "]"%char :: rest) as ->.
    { rewrite <- app_assoc, Hsp, commas_cons, <- app_assoc. apply Forall_cons in Hs as [Hw _].
      by destruct (starts_dump w (match List.map dump_with l with [] => [] | _ => ","%char :: sp ++ commas_with (List.map dump_with l) end
        ++ "]"%char :: rest) Hw) as (? & ? & _ & ? & _). }
    change (dump_with w :: List.map dump_with l) with (List.map dump_with (w :: l)).
    rewrite IH; [by rewrite <- app_assoc|done..|]. unfold list_sum in *; cbn in *; lia.
Qed.

Definition dump_pair (kv : string * pyval) : list ascii := dump_string kv.1 ++ ":"%char :: sp ++ dump_with kv.2.

Lemma pairs_start d rest : d ≠ [] → Forall (λ kv, ascii_text kv.1 ∧ safe kv.2) d →
  ∃ l, commas_with (List.map dump_pair d) ++ rest = dquote :: l.
Proof.
  destruct d as [|[k v] d]; [done|]. intros _ [[Hk _] _]%Forall_cons. cbn [List.map fst snd] in *.
  rewrite commas_cons. unfold dump_pair at 1. rewrite <- !app_assoc. cbn [fst snd].
  match goal with |- context [dump_string k ++ ?r] => destruct (scan_dump_string k r Hk) as (l & E & _) end.
  exists l. exact E.
Qed.

Lemma members_reads d : Forall (λ kv, reads kv.2) d → Forall (λ kv, ascii_text kv.1 ∧ safe kv.2) d →
  d ≠ [] → ∀ n acc rest, NoDup (acc ++ d).*1 →
  (S (list_sum (List.map (λ kv, S (need kv.2)) d)) <= n)%nat →
  members n acc (commas_with (List.map dump_pair d) ++ "}"%char :: rest) = Some (PDict (acc ++ d), rest).
Proof.
  induction d as [|[k v] d IH]; intros Hr Hs Hne n acc rest Hnd Hn; [done|].
  apply Forall_cons in Hr as [Hv Hr]. apply Forall_cons in Hs as [[Hk Hsv] Hs]. cbn in Hv, Hk, Hsv.
  destruct n as [|n]; [lia|].
  assert (need v <= n)%nat as Hnv by (unfold list_sum in Hn; cbn in Hn; lia).
  assert (dict_set k v acc = acc ++ [(k, v)]) as Hset.
  { apply dict_set_new. rewrite fmap_app in Hnd. apply NoDup_app in Hnd as (_ & Hnd & _).
    intros Hin. apply (Hnd k Hin). left. }
  cbn [List.map]. rewrite commas_cons. unfold dump_pair at 1. cbn [fst snd].
  rewrite <- !app_assoc. destruct (scan_dump_string k
    ((":"%char :: sp ++ dump_with v) ++ (match List.map dump_pair d with [] => [] | _ => ","%char :: sp ++ commas_with (List.map dump_pair d) end)
     ++ "}"%char :: rest) Hk) as (l & -> & Hl).
  cbn [members]. rewrite decide_True by done. rewrite Hl. cbn [mbind option_bind app skip_ws].
  rewrite bool_decide_false by set_solver. rewrite decide_True by done.
  rewrite of_chars_chars, <- app_assoc, Hsp.
  match goal with |- context [skip_ws (dump_with v ++ ?r)] =>
    destruct (starts_dump v r Hsv) as (? & ? & _ & -> & _) end.
  rewrite (Hv n _ Hnv) by (destruct d; apply stops_close; set_solver). cbn [mbind option_bind].
  rewrite Hset. destruct d as [|[k' v'] d]; cbn [List.map app skip_ws].
  - rewrite bool_decide_false by set_solver. by rewrite decide_True.
  - rewrite bool_decide_false by set_solver. rewrite decide_False, decide_True by done.
    assert (skip_ws ((sp ++ commas_with (dump_pair (k', v') :: List.map dump_pair d)) ++ "}"%char :: rest) =
            commas_with (dump_pair (k', v') :: List.map dump_pair d) ++ "}"%char :: rest) as ->.
    { rewrite <- app_assoc, Hsp. change (dump_pair (k', v') :: List.map dump_pair d) with (List.map dump_pair ((k', v') :: d)).
      by destruct (pairs_start ((k', v') :: d) ("}"%char :: rest) ltac:(done) Hs) as [? ->]. }
    change (dump_pair (k', v') :: List.map dump_pair d) with (List.map dump_pair ((k', v') :: d)).
    rewrite IH; [by rewrite <- app_assoc|done..|by rewrite <- app_assoc|].
    unfold list_sum in *; cbn in *; lia.
Qed.

Lemma reads_safe v : safe v → reads v.
Proof.
  induction v as [| | | | |l IH|d IH] using pyval_nested_ind; intros Hs n rest Hn Hr;
    (destruct n as [|n]; [cbn in Hn; lia|]); inversion Hs; subst.
  - done.
  - by destruct b.
  - by apply value_int.
  - by apply value_float.
  - by apply value_str.
  - cbn [dump_with dump]. rewrite <- app_comm_cons, <- app_assoc. cbn [value app].
    rewrite decide_False, decide_False, decide_True by done.
    destruct l as [|v l]; [done|].
    assert (skip_ws (commas_with (List.map dump_with (v :: l)) ++ "]"%char :: rest) =
            commas_with (List.map dump_with (v :: l)) ++ "]"%char :: rest ∧
            ∃ c l', commas_with (List.map dump_with (v :: l)) ++ "]"%char :: rest = c :: l' ∧ c ≠ "]"%char)
      as [-> (c & l' & E & Hc)].
    { cbn [List.map]. rewrite commas_cons, <- app_assoc.
      match goal with H : Forall safe _ |- _ => apply Forall_cons in H as [Hv _] end.
      match goal with |- context [dump_with v ++ ?r] => destruct (starts_dump v r Hv) as (? & ? & -> & ? & ? & _) end.
      eauto. }
    rewrite E. rewrite decide_False by done. rewrite <- E.
    rewrite elements_reads; [done| |done|done|cbn in *; lia].
    rewrite Forall_forall in *. auto.
  - cbn [dump_with dump]. rewrite <- app_comm_cons, <- app_assoc. cbn [value app].
    rewrite decide_False, decide_True by done.
    destruct d as [|[k v] d]; [done|]. fold dump_pair.
    assert (skip_ws (commas_with (List.map dump_pair ((k, v) :: d)) ++ "}"%char :: rest) =
            commas_with (List.map dump_pair ((k, v) :: d)) ++ "}"%char :: rest ∧
            ∃ c l', commas_with (List.map dump_pair ((k, v) :: d)) ++ "}"%char :: rest = c :: l' ∧ c ≠ "}"%char)
      as [Hw (c & l' & E & Hc)].
    { match goal with H : Forall _ ((k, v) :: d) |- _ =>
        destruct (pairs_start ((k, v) :: d) ("}"%char :: rest) ltac:(done) H) as [l ->] end. eauto. }
    change (List.map (λ kv, dump_string kv.1 ++ ":"%char :: sp ++ dump_with kv.2) ((k, v) :: d)) with
      (List.map dump_pair ((k, v) :: d)). rewrite Hw, E. rewrite decide_False by done. rewrite <- E.
    rewrite members_reads; [done| |done|done|done|cbn in *; lia].
    rewrite Forall_forall in *. intros kv Hin. apply IH; [done|].
    match goal with H : ∀ x, x ∈ _ → _ ∧ safe _ |- _ => by apply H end.
Qed.

(** What a dump is made of: no line ends in it. *)
Definition printable (c : ascii) : Prop := 32 <= code c < 128.

Lemma escape_ascii z : 0 <= z < 128 → Forall printable (escape z).
Proof.
  intros H. assert (z ∈ seqZ 0 128) as Hin by (apply elem_of_seqZ; lia).
  clear H. revert z Hin. apply Forall_forall. unfold printable. apply (bool_decide_unpack _).
  vm_compute. exact I.
Qed.
Lemma dump_string_printable s : ascii_text s → Forall printable (dump_string s).
Proof.
  intros Hs. rewrite dump_string_ascii by done. constructor; [done|].
  apply Forall_app. split; [|by repeat constructor].
  apply Forall_bind, Forall_fmap. eapply Forall_impl; [exact Hs|]. intros c Hc. apply escape_ascii.
  pose proof (code_range c). cbn in *. lia.
Qed.
Lemma commas_printable l : Forall (Forall printable) l → Forall printable (commas_with l).
Proof.
  induction 1 as [|x l Hx Hl IH]; [constructor|]. rewrite commas_cons.
  apply Forall_app. split; [done|]. destruct l; [constructor|]. constructor; [done|]. by apply Forall_app.
Qed.
Lemma span_digits_parts l : (span_digits l).1 ++ (span_digits l).2 = l ∧ Forall printable (span_digits l).1.
Proof.
  induction l as [|c l [E H]]; cbn; [by split|]. destruct (is_digit c) eqn:Ed; [|by split].
  destruct (span_digits l) as [ds r]. cbn in *. split; [by rewrite E|]. constructor; [|done].
  unfold is_digit in Ed. unfold printable. bool_to_prop. lia.
Qed.
Lemma scan_frac_printable l : Forall printable (scan_frac l).1.
Proof.
  destruct l as [|c l]; cbn; [constructor|]. case_decide as E; [|constructor]. destruct (span_digits_parts l) as [_ H].
  destruct (span_digits l) as [[|d ds] r]; [constructor|]. cbn in *. subst. by constructor.
Qed.
Lemma scan_exp_printable l : Forall printable (scan_exp l).1.
Proof.
  destruct l as [|c l]; cbn; [constructor|]. case_decide as E; [|constructor].
  assert (printable c) as Hc by (by destruct E as [->| ->]).
  destruct l as [|x l]; [constructor|]. case_decide as Ex.
  - destruct (span_digits_parts l) as [_ H]. destruct (span_digits l) as [[|d ds] r]; [constructor|]. cbn in *.
    constructor; [done|]. constructor; [by destruct Ex as [->| ->]|done].
  - destruct (span_digits_parts (x :: l)) as [_ H]. destruct (span_digits (x :: l)) as [[|d ds] r]; [constructor|]. cbn in *.
    by constructor.
Qed.
Lemma float_printable l r : scan_number l = Some (PFloat r, []) → Forall printable (chars r).
Proof.
  assert (∀ sign k, Forall printable sign → scan_unsigned sign k = Some (PFloat r, []) → Forall printable (chars r)) as Hu.
  { intros sign k Hsign. unfold scan_unsigned. destruct k as [|c k]; [done|].
    set (start := if decide (c = "0"%char) then ([c], k) else span_digits (c :: k)).
    assert (Forall printable start.1) as Hstart.
    { unfold start. case_decide; [subst; by repeat constructor|]. apply span_digits_parts. }
    destruct start as [ds l2]. cbn [fst] in Hstart. destruct ds; [done|]. pose proof (scan_frac_printable l2) as Hf.
    destruct (scan_frac l2) as [frac l3]. pose proof (scan_exp_printable l3) as He. destruct (scan_exp l3) as [exp l4]. cbn [fst] in *.
    assert (Forall printable (sign ++ (a :: ds) ++ frac ++ exp)) as Hall by (repeat (apply Forall_app; split; [done|]); done).
    destruct frac, exp; [by destruct (int_chars _)|..]; intros [= <- _]; by rewrite chars_of_chars. }
  unfold scan_number. destruct l as [|c l]; [done|]. case_decide as E; [subst; apply Hu; by repeat constructor|by apply Hu].
Qed.
Lemma dump_printable v : safe v → Forall printable (dump_with v).
Proof.
  induction v as [| | | | |l IH|d IH] using pyval_nested_ind; intros Hs; inversion Hs; subst; cbn [dump_with dump].
  - by repeat constructor.
  - destruct b; by repeat constructor.
  - eapply Forall_impl; [apply str_of_Z_chars|]. intros c [Hc| ->]; [|done].
    unfold is_digit in Hc. unfold printable. bool_to_prop. lia.
  - by eapply float_printable.
  - by apply dump_string_printable.
  - constructor; [done|]. apply Forall_app. split; [|by repeat constructor].
    apply commas_printable. change (List.map dump_with l) with (dump_with <$> l). apply Forall_fmap.
    rewrite Forall_forall in *. intros x Hx. apply IH; auto.
  - constructor; [done|]. apply Forall_app. split; [|by repeat constructor].
    apply commas_printable. change (List.map ?f d) with (f <$> d). apply Forall_fmap.
    rewrite Forall_forall in *. intros [k x] Hx. unfold compose. cbn [fst snd].
    match goal with H : ∀ x, x ∈ d → ascii_text _ ∧ safe _ |- _ => destruct (H _ Hx) as [Hk Hv] end.
    apply Forall_app. split; [by apply dump_string_printable|]. constructor; [done|]. apply Forall_app. split; [done|]. by apply (IH _ Hx).
Qed.

(** The fuel of [json_loads] is enough. *)
Lemma commas_need {A} (f : A → list ascii) (m : A → nat) l :
  Forall (λ x, (m x <= 2 * length (f x))%nat) l →
  (list_sum (List.map (λ x, S (m x)) l) <= 2 * length (commas_with (List.map f l)) + 1)%nat.
Proof.
  induction 1 as [|x l Hx Hl IH]; [cbn; lia|]. cbn [List.map]. rewrite commas_cons, length_app.
  unfold list_sum in *. cbn [foldr] in *. destruct l; cbn [List.map length foldr] in *; rewrite ?length_app in *; cbn in *; lia.
Qed.
Lemma dump_need v : safe v → (need v <= 2 * length (dump_with v))%nat.
Proof.
  induction v as [| | | | |l IH|d IH] using pyval_nested_ind; intros Hs; inversion Hs; subst; cbn [dump_with dump need].
  - cbn. lia.
  - destruct b; cbn; lia.
  - match goal with H : _ < _ |- _ => apply value_int_nonempty in H end. destruct (chars _); cbn; [done|lia].
  - match goal with H : scan_number _ = _ |- _ => destruct (scan_number_head _ _ _ H) as (c & l & -> & _) end. cbn. lia.
  - unfold dump_string. cbn. lia.
  - assert (list_sum (List.map (λ x, S (need x)) l) <= 2 * length (commas_with (List.map dump_with l)) + 1)%nat as H.
    { apply (commas_need dump_with need). rewrite Forall_forall in *. auto. }
    cbn [length]. rewrite length_app. cbn. lia.
  - assert (list_sum (List.map (λ kv, S (need kv.2)) d) <= 2 * length (commas_with (List.map dump_pair d)) + 1)%nat as H.
    { apply (commas_need dump_pair (λ kv, need kv.2)). rewrite Forall_forall in *. intros [k x] Hx.
      match goal with H : ∀ x, x ∈ d → ascii_text _ ∧ safe _ |- _ => destruct (H _ Hx) as [_ Hv] end.
      specialize (IH _ Hx Hv). unfold dump_pair. rewrite length_app. cbn [fst snd length] in *. rewrite length_app. lia. }
    cbn [length]. rewrite length_app. cbn [length].
    change (List.map (λ kv, dump_string kv.1 ++ ":"%char :: sp ++ dump_with kv.2) d) with (List.map dump_pair d). lia.
Qed.

(** What is dumped is read back. *)
Lemma dumped_with_loads v : safe v → json_loads (of_chars (dump_with v)) = Some v.
Proof.
  intros Hs. unfold json_loads. rewrite chars_of_chars.
  pose proof (dump_printable v Hs) as Ha. pose proof (dump_need v Hs) as Hn.
  destruct (starts_dump v [] Hs) as (c & l & E & Hw & _). rewrite app_nil_r in E, Hw.
  assert (strip_bom (dump_with v) = dump_with v) as ->.
  { unfold strip_bom. rewrite bool_decide_false; [done|]. rewrite E in Ha |- *.
    apply Forall_cons in Ha as [[_ Ha] _]. cbn. intros [= -> _]. done. }
  rewrite utf8_decode_ascii by (eapply Forall_impl; [exact Ha|by intros ? []]). rewrite Hw.
  pose proof (reads_safe v Hs (2 * length (dump_with v) + 2)%nat [] ltac:(lia) I) as Hr.
  rewrite app_nil_r in Hr. by rewrite Hr.
Qed.
End layout.

(** Without a space it is the compact form. *)
Lemma dump_with_nil v : dump_with [] v = dump v.
Proof.
  assert (∀ l, commas_with [] l = commas l) as Hc.
  { induction l as [|x [|y l] IH]; [done..|]. cbn [commas_with commas app] in *. by rewrite IH. }
  induction v as [| | | | |l IH|d IH] using pyval_nested_ind; [done..| |]; cbn [dump_with dump]; rewrite Hc.
  - assert (List.map (dump_with []) l = List.map dump l) as ->; [|done]. apply map_ext_in. intros x Hx. rewrite Forall_forall in IH. by apply IH, list_elem_of_In.
  - rewrite (map_ext_in _ (λ kv, dump_string kv.1 ++ ":"%char :: dump kv.2)); [done|]. intros [k x] Hx. rewrite Forall_forall in IH. pose proof (IH (k, x) ltac:(by apply list_elem_of_In)) as E. cbn in *. by rewrite E.
Qed.

Lemma dumped_loads v : safe v → json_loads (json_dumps v) = Some v.
Proof. intros Hs. unfold json_dumps. rewrite <- dump_with_nil. by apply dumped_with_loads; [|constructor|]. Qed.

(** ** Property *)

(** C36: [json.loads] gives back every value [json.dumps] wrote: any nesting of
    lists and dictionaries with distinct keys, of ASCII text, integers the
    interpreter converts, floats, booleans and None. *)
Theorem json_loads_dumps v : safe v → json_loads (json_dumps v) = Some v.
Proof. apply dumped_loads. Qed.

Lemma json_loads_dumps_witness :
  json_loads (json_dumps (PDict [("id", PStr "evt_1"); ("amounts", PList [PInt (-5); PNone])])) =
  Some (PDict [("id", PStr "evt_1"); ("amounts", PList [PInt (-5); PNone])]).
Proof.
  apply (json_loads_dumps (PDict [("id", PStr "evt_1"); ("amounts", PList [PInt (-5); PNone])])).
  apply safe_dict.
  - apply (bool_decide_unpack _). vm_compute. exact I.
  - apply Forall_cons. split; [split; [by repeat constructor|apply safe_str; by repeat constructor]|].
    apply Forall_cons. split; [split; [by repeat constructor|]|by apply Forall_nil].
    apply safe_list, Forall_cons. split; [|apply Forall_cons; split; [constructor|by apply Forall_nil]].
    apply safe_int, (Z.lt_le_trans _ (10 ^ 1)); [simpl; lia|]. by apply Z.pow_le_mono_r.
Defined.
