(* ===== verification/Hash.v ===== *)
(** The parts of Python's [hashlib], [hmac] and [uuid] the source uses:
    SHA-1, SHA-256, HMAC-SHA256, [hexdigest] and [uuid5], executable and
    checked against the test vectors of FIPS 180, RFC 4231 and CPython.
    A byte is a Z in [0, 256), a word a Z in [0, 2^32). *)
From S2P Require Import Prelude PyVal.

Definition w32 (x : Z) : Z := Z.land x 0xffffffff.
Definition add32 (x y : Z) : Z := w32 (x + y).
Definition rotr (n x : Z) : Z := Z.lor (Z.shiftr x n) (w32 (Z.shiftl x (32 - n))).
Definition rotl (n x : Z) : Z := rotr (32 - n) x.
Definition shr (n x : Z) : Z := Z.shiftr x n.
Definition not32 (x : Z) : Z := Z.lxor x 0xffffffff.
Definition ch (x y z : Z) : Z := Z.lxor (Z.land x y) (Z.land (not32 x) z).
Definition maj (x y z : Z) : Z := Z.lxor (Z.lxor (Z.land x y) (Z.land x z)) (Z.land y z).
Definition parity (x y z : Z) : Z := Z.lxor (Z.lxor x y) z.

(** ** Bytes and words *)
Fixpoint be_bytes (n : nat) (x : Z) : list Z :=
  match n with
  | O => []
  | S n => Z.land (Z.shiftr x (8 * Z.of_nat n)) 255 :: be_bytes n x
  end.

Fixpoint words (n : nat) (l : list Z) : list Z :=
  match n, l with
  | S n, a :: b :: c :: d :: l =>
      Z.lor (Z.shiftl a 24) (Z.lor (Z.shiftl b 16) (Z.lor (Z.shiftl c 8) d)) :: words n l
  | _, _ => []
  end.

(** Append 0x80, zeros and the 64-bit bit length, to a multiple of 64 bytes. *)
Definition pad (l : list Z) : list Z :=
  let n := Z.of_nat (length l) in
  l ++ 128 :: replicate (Z.to_nat ((55 - n) mod 64)) 0 ++ be_bytes 8 (8 * n).

(** ** Message schedules, newest word first in [acc] *)
Fixpoint schedule (next : list Z → Z) (n : nat) (acc : list Z) : list Z :=
  match n with
  | O => reverse acc
  | S n => schedule next n (next acc :: acc)
  end.

Definition nthz (l : list Z) (i : nat) : Z := nth i l 0.

Definition next256 (acc : list Z) : Z :=
  let s0 x := Z.lxor (Z.lxor (rotr 7 x) (rotr 18 x)) (shr 3 x) in
  let s1 x := Z.lxor (Z.lxor (rotr 17 x) (rotr 19 x)) (shr 10 x) in
  w32 (s1 (nthz acc 1) + nthz acc 6 + s0 (nthz acc 14) + nthz acc 15).

Definition next1 (acc : list Z) : Z :=
  rotl 1 (Z.lxor (Z.lxor (nthz acc 2) (nthz acc 7)) (Z.lxor (nthz acc 13) (nthz acc 15))).

(** ** SHA-256 *)
(** The constants: the fractional parts, to 32 bits, of the square and cube
    roots of the first primes. *)
Fixpoint cube_root (n : nat) (x r : Z) : Z :=
  match n with
  | O => r
  | S n => let r' := r + 2 ^ Z.of_nat n in cube_root n x (if r' * r' * r' <=? x then r' else r)
  end.
Definition is_prime (p : Z) : bool :=
  forallb (λ d, negb (p mod d =? 0)) (filter (λ d, d * d <= p) (seqZ 2 20)).
Definition primes : list Z := take 64 (filter (λ p, is_prime p = true) (seqZ 2 320)).

Definition k256 : list Z :=
  Eval vm_compute in (λ p, w32 (cube_root 36 (p * 2 ^ 96) 0)) <$> primes.
Definition h256 : list Z :=
  Eval vm_compute in (λ p, w32 (Z.sqrt (p * 2 ^ 64))) <$> take 8 primes.

Definition round256 (s : list Z) (kw : Z * Z) : list Z :=
  match s with
  | [a; b; c; d; e; f; g; h] =>
      let s1 := Z.lxor (Z.lxor (rotr 6 e) (rotr 11 e)) (rotr 25 e) in
      let s0 := Z.lxor (Z.lxor (rotr 2 a) (rotr 13 a)) (rotr 22 a) in
      let t1 := h + s1 + ch e f g + kw.1 + kw.2 in
      [w32 (t1 + s0 + maj a b c); a; b; c; add32 d t1; e; f; g]
  | _ => s
  end.

Definition compress256 (s block : list Z) : list Z :=
  let w := schedule next256 48 (reverse (words 16 block)) in
  zip_with add32 s (foldl round256 s (zip k256 w)).

(** ** SHA-1 *)
Definition h1 : list Z := [0x67452301; 0xefcdab89; 0x98badcfe; 0x10325476; 0xc3d2e1f0].

Definition round1 (f : Z → Z → Z → Z) (k : Z) (s : list Z) (w : Z) : list Z :=
  match s with
  | [a; b; c; d; e] => [w32 (rotl 5 a + f b c d + e + k + w); a; rotl 30 b; c; d]
  | _ => s
  end.

Definition compress1 (s block : list Z) : list Z :=
  let w := schedule next1 64 (reverse (words 16 block)) in
  let part i := take 20 (drop (20 * i) w) in
  zip_with add32 s
    (foldl (round1 parity 0xca62c1d6) (foldl (round1 maj 0x8f1bbcdc)
      (foldl (round1 parity 0x6ed9eba1) (foldl (round1 ch 0x5a827999) s (part 0%nat)) (part 1%nat))
      (part 2%nat)) (part 3%nat)).

(** ** The digests *)
Fixpoint digest_blocks (compress : list Z → list Z → list Z) (n : nat) (s l : list Z) : list Z :=
  match n with
  | O => s
  | S n => digest_blocks compress n (compress s (take 64 l)) (drop 64 l)
  end.

Definition digest (compress : list Z → list Z → list Z) (init l : list Z) : list Z :=
  let p := pad l in
  s ← digest_blocks compress (Nat.div (length p) 64) init p; be_bytes 4 s.

Definition sha256 (l : list Z) : list Z := digest compress256 h256 l.
Definition sha1 (l : list Z) : list Z := digest compress1 h1 l.

Definition bytes_of (s : string) : list Z := code <$> chars s.
Definition str_of_bytes (l : list Z) : string := of_chars (chr <$> l).

Definition hex_digit (x : Z) : ascii := chr (if x <? 10 then 48 + x else 87 + x).
Definition hexdigest (l : list Z) : string :=
  of_chars (x ← l; [hex_digit (Z.shiftr x 4); hex_digit (Z.land x 15)]).

(** [hmac.new(key, msg, hashlib.sha256).digest()] *)
Definition hmac_sha256 (key msg : list Z) : list Z :=
  let key := if (64 <? length key)%nat then sha256 key else key in
  let key := key ++ replicate (64 - length key) 0 in
  sha256 ((Z.lxor 0x5c <$> key) ++ sha256 ((Z.lxor 0x36 <$> key) ++ msg)).

(** [uuid.uuid5(uuid.NAMESPACE_URL, name)], in its canonical text. *)
Definition namespace_url : list Z :=
  [0x6b; 0xa7; 0xb8; 0x11; 0x9d; 0xad; 0x11; 0xd1; 0x80; 0xb4; 0x00; 0xc0; 0x4f; 0xd4; 0x30; 0xc8].

Definition uuid_text (l : list Z) : string :=
  let h i j := hexdigest (take j (drop i l)) in
  join "-" [h 0 4; h 4 2; h 6 2; h 8 2; h 10 6]%nat.

Definition uuid5 (name : string) : string :=
  let l := take 16 (sha1 (namespace_url ++ bytes_of name)) in
  uuid_text (imap (λ i b, if decide (i = 6%nat) then Z.lor (Z.land b 0x0f) 0x50
                          else if decide (i = 8%nat) then Z.lor (Z.land b 0x3f) 0x80 else b) l).

(** ** Test vectors *)
Example sha256_abc : hexdigest (sha256 (bytes_of "abc")) =
  "ba7816bf8f01cfea414140de5dae2223b00361a396177a9cb410ff61f20015ad".
Proof. vm_compute. reflexivity. Qed.
Example hmac_rfc4231_2 : hexdigest (hmac_sha256 (bytes_of "Jefe") (bytes_of "what do ya want for nothing?")) =
  "5bdcc146bf60754e6a042426089575c75a003f089d2739839dec58b964ec3843".
Proof. vm_compute. reflexivity. Qed.
Example hmac_long_key : hexdigest (hmac_sha256 (replicate 70 107) (replicate 130 122)) =
  "adb3e0f7482a4d0109d6ef89c8dba931c89009eb8fc085db27126328bef6ed09".
Proof. vm_compute. reflexivity. Qed.
Example sha1_fox : hexdigest (sha1 (bytes_of "The quick brown fox jumps over the lazy dog")) =
  "2fd4e1c67a2d28fced849ee1bb76e7391b93eb12".
Proof. vm_compute. reflexivity. Qed.
Example uuid5_evt : uuid5 "ledgerproof:evt_1" = "87d10987-1960-5911-8feb-38c7c4e57114".
Proof. vm_compute. reflexivity. Qed.

#[global] Arguments uuid5 : simpl never.
#[global] Arguments sha256 : simpl never.
#[global] Arguments hmac_sha256 : simpl never.
#[global] Arguments hexdigest : simpl never.
