(* ===== verification/Ledger.v ===== *)
(** The database of migrations/001, 002, 003 and 004: the tables with their
    constraints, the append-only triggers and revoked grants, the deferred
    triggers judged at COMMIT, and the [account_balances] view.

    A table is the list of its rows in insertion order.  Surrogate entry ids
    and [recorded_at] / [received_at], which no code reads back, are left out.
    A constraint that fails aborts the whole database transaction. *)
From S2P Require Import Prelude PyVal.

(** ** Tables *)
Inductive direction := Debit | Credit.
#[export] Instance direction_eq_dec : EqDecision direction.
Proof. solve_decision. Defined.

Definition direction_name (d : direction) : string :=
  match d with Debit => "debit" | Credit => "credit" end.

Record account := Account {
  acc_id : Z; acc_name : string; acc_kind : string;
  acc_normal : direction; acc_currency : string }.

Record txn_row := TxnRow {
  t_id : string; t_event : option string; t_object : option string;
  t_type : option string; t_occurred_at : Z; t_memo : option string }.

Record entry_row := EntryRow {
  e_txn : string; e_account : Z; e_dir : direction;
  e_amount : Z; e_currency : string }.

(** Values the CHECK on [stripe_events.status] admits. *)
Inductive event_status := Received | Queued | Processed | NoMoneyMoved | Failed.
#[export] Instance event_status_eq_dec : EqDecision event_status.
Proof. solve_decision. Defined.

Definition status_name (s : event_status) : string :=
  match s with
  | Received => "received" | Queued => "queued" | Processed => "processed"
  | NoMoneyMoved => "no_money_moved" | Failed => "failed"
  end.

Record event_row := EventRow {
  ev_id : string; ev_type : string; ev_object : option string;
  ev_payload : pyval; ev_status : event_status }.

#[export] Instance account_eq_dec : EqDecision account.
Proof. solve_decision. Defined.
#[export] Instance txn_row_eq_dec : EqDecision txn_row.
Proof. solve_decision. Defined.
#[export] Instance entry_row_eq_dec : EqDecision entry_row.
Proof. solve_decision. Defined.

Record database := Database {
  accounts : list account;
  transactions : list txn_row;
  entries : list entry_row;
  stripe_events : list event_row }.

Definition set_transactions (l : list txn_row) (d : database) : database :=
  Database (accounts d) l (entries d) (stripe_events d).
Definition set_entries (l : list entry_row) (d : database) : database :=
  Database (accounts d) (transactions d) l (stripe_events d).
Definition set_stripe_events (l : list event_row) (d : database) : database :=
  Database (accounts d) (transactions d) (entries d) l.

(** migrations/002_seed_accounts.sql *)
Definition seed_accounts : list account := [
  Account 1 "stripe_balance" "asset" Debit "USD";
  Account 2 "bank" "asset" Debit "USD";
  Account 3 "processing_fees" "expense" Debit "USD";
  Account 4 "dispute_losses" "expense" Debit "USD";
  Account 5 "refunds_contra" "expense" Debit "USD";
  Account 6 "revenue" "revenue" Credit "USD";
  Account 7 "customer_liability" "liability" Credit "USD" ].

Definition empty_db : database := Database seed_accounts [] [] [].

(** CHECK (kind IN ...) and the constraint [normal_matches_kind]. *)
Definition normal_matches_kind (a : account) : bool :=
  match acc_normal a with
  | Debit => bool_decide (acc_kind a ∈ ["asset"; "expense"])
  | Credit => bool_decide (acc_kind a ∈ ["liability"; "equity"; "revenue"])
  end.

(** ** Column types *)

(** BIGINT *)
Definition bigint_min : Z := - 2 ^ 63.
Definition bigint_max : Z := 2 ^ 63 - 1.
Definition is_bigint (z : Z) : bool := ((bigint_min <=? z) && (z <=? bigint_max))%bool.

(** CHAR(3): shorter text is blank-padded, surplus blanks are dropped, any
    other surplus is refused. *)
Definition char3 (s : string) : result string :=
  let l := chars s in
  if bool_decide (Forall (λ c, c = " "%char) (drop 3 l))
  then Ok (of_chars (take 3 (l ++ [" "; " "; " "]%char)))
  else Err (DataError "value too long for type character(3)").

(** ** Roles and statements on the ledger tables *)
Inductive role := Owner | LedgerApp.
Inductive tg_op := OpUpdate | OpDelete | OpTruncate.
Inductive ledger_table := TTransactions | TEntries.

Inductive statement :=
  | InsertTransaction (t : txn_row)
  | InsertEntry (e : entry_row)
  | Mutate (op : tg_op) (table : ledger_table).

(** A non-NULL value already present under UNIQUE. *)
Definition clashes {A} `{EqDecision A} (x y : option A) : bool :=
  match x, y with Some a, Some b => bool_decide (a = b) | _, _ => false end.

(** The constraints [transactions_pkey], [dedupe_event] and [dedupe_object],
    in the order their indexes were created. *)
Definition insert_transaction (t : txn_row) : stx database () := λ d,
  let rows := transactions d in
  if existsb (λ r, bool_decide (t_id r = t_id t)) rows then
    (Err (UniqueViolation "transactions_pkey"), d)
  else if existsb (λ r, clashes (t_event r) (t_event t)) rows then
    (Err (UniqueViolation "dedupe_event"), d)
  else if existsb (λ r, clashes (t_type r) (t_type t) && clashes (t_object r) (t_object t))%bool rows then
    (Err (UniqueViolation "dedupe_object"), d)
  else (Ok (), set_transactions (rows ++ [t]) d).

(** Column types, CHECK (amount_minor > 0), then the three foreign keys. *)
Definition insert_entry (e : entry_row) : stx database () := λ d,
  match char3 (e_currency e) with
  | Err x => (Err x, d)
  | Ok cur =>
      if negb (is_bigint (e_amount e)) then (Err (DataError "bigint out of range"), d)
      else if negb (0 <? e_amount e) then (Err (CheckViolation "entries_amount_minor_check"), d)
      else if negb (existsb (λ t, bool_decide (t_id t = e_txn e)) (transactions d)) then
        (Err (ForeignKeyViolation "entries_transaction_id_fkey"), d)
      else if negb (existsb (λ a, acc_id a =? e_account e) (accounts d)) then
        (Err (ForeignKeyViolation "entries_account_id_fkey"), d)
      else if negb (existsb (λ a, (acc_id a =? e_account e) && bool_decide (acc_currency a = cur))%bool
                            (accounts d)) then
        (Err (ForeignKeyViolation "entries_currency_matches_account"), d)
      else (Ok (), set_entries (entries d ++
              [EntryRow (e_txn e) (e_account e) (e_dir e) (e_amount e) cur]) d)
  end.

(** [forbid_mutation], fired by every UPDATE, DELETE or TRUNCATE statement. *)
Definition forbid_mutation (op : tg_op) (table : ledger_table) : exn :=
  RaiseException "ledger is append-only".

(** The application role holds INSERT and SELECT only; its other statements
    fail on privilege before a trigger runs. *)
Definition exec (r : role) (s : statement) : stx database () :=
  match s with
  | InsertTransaction t => insert_transaction t
  | InsertEntry e => insert_entry e
  | Mutate op table =>
      raise (match r with LedgerApp => InsufficientPrivilege | Owner => forbid_mutation op table end)
  end.

(** ** Deferred triggers *)
Definition side_total (dir : direction) (cur : string) (l : list entry_row) : Z :=
  Zsum (λ e, if bool_decide (e_dir e = dir ∧ e_currency e = cur) then e_amount e else 0) l.

Definition entries_of (txn : string) (l : list entry_row) : list entry_row :=
  filter (λ e, e_txn e = txn) l.

(** [assert_txn_balanced]: per currency of the transaction's entries, debits
    equal credits. *)
Definition assert_txn_balanced (txn : string) (d : database) : result () :=
  let l := entries_of txn (entries d) in
  if existsb (λ cur, negb (side_total Debit cur l =? side_total Credit cur l)) (e_currency <$> l)
  then Err (RaiseException "unbalanced transaction") else Ok ().

(** [assert_txn_min_entries] *)
Definition assert_txn_min_entries (txn : string) (d : database) : result () :=
  if Z.of_nat (length (entries_of txn (entries d))) <? 2
  then Err (RaiseException "a balanced transaction needs at least 2 entries") else Ok ().

Fixpoint all_pass (l : list (result ())) : result () :=
  match l with
  | [] => Ok ()
  | Ok _ :: l => all_pass l
  | Err e :: _ => Err e
  end.

(** COMMIT of a database transaction that started in [d0] and reached [d]:
    the deferred triggers of every row it inserted. *)
Definition commit_checks (d0 d : database) : result () :=
  let new_txns := drop (length (transactions d0)) (transactions d) in
  let new_entries := drop (length (entries d0)) (entries d) in
  all_pass (((λ t, assert_txn_min_entries (t_id t) d) <$> new_txns) ++
            ((λ e, assert_txn_balanced (e_txn e) d) <$> new_entries)).

(** Run a body as one database transaction: all or nothing. *)
Definition transactional {A} (body : stx database A) : stx database A := λ d0,
  match body d0 with
  | (Err e, _) => (Err e, d0)
  | (Ok a, d) =>
      match commit_checks d0 d with
      | Ok _ => (Ok a, d)
      | Err e => (Err e, d0)
      end
  end.

(** One session of statements by a role, committed at the end. *)
Definition session (r : role) (l : list statement) : stx database () :=
  transactional (for_each (exec r) l).

(** ** The view [account_balances] *)
Definition balance_minor (a : account) (l : list entry_row) : Z :=
  Zsum (λ e, if bool_decide (e_account e = acc_id a)
             then (if bool_decide (e_dir e = acc_normal a) then e_amount e else - e_amount e)
             else 0) l.

(** ** The ledger invariant *)

(** What every row satisfies as soon as its INSERT succeeded. *)
Record rows_ok (d : database) : Prop := {
  ok_account_ids : NoDup (acc_id <$> accounts d);
  ok_txn_ids : NoDup (t_id <$> transactions d);
  ok_events : NoDup (omap t_event (transactions d));
  ok_objects : NoDup (omap (λ t, ty ← t_type t; o ← t_object t; Some (ty, o)) (transactions d));
  ok_amounts : ∀ e, e ∈ entries d → 0 < e_amount e <= bigint_max;
  ok_entry_txn : ∀ e, e ∈ entries d → e_txn e ∈ t_id <$> transactions d;
  ok_entry_account : ∀ e, e ∈ entries d →
    ∃ a, a ∈ accounts d ∧ acc_id a = e_account e ∧ acc_currency a = e_currency e }.

Definition txn_balanced (txn : string) (d : database) : Prop :=
  ∀ cur, side_total Debit cur (entries_of txn (entries d)) =
         side_total Credit cur (entries_of txn (entries d)).

(** What every committed state satisfies. *)
Record ledger_ok (d : database) : Prop := {
  ok_rows : rows_ok d;
  ok_balanced : ∀ txn, txn_balanced txn d;
  ok_min_entries : ∀ t, t ∈ transactions d → 2 <= Z.of_nat (length (entries_of (t_id t) (entries d))) }.

(** [d] is [d0] with rows appended to the ledger tables. *)
Definition extends (d0 d : database) : Prop :=
  accounts d = accounts d0 ∧ stripe_events d = stripe_events d0 ∧
  (∃ ts, transactions d = transactions d0 ++ ts) ∧ (∃ es, entries d = entries d0 ++ es).

#[export] Instance extends_preorder : PreOrder extends.
Proof.
  split.
  - intros d. split_and!; try done; exists []; by rewrite app_nil_r.
  - intros d1 d2 d3 (?&?&[ts1 H1]&[es1 H2]) (?&?&[ts2 H3]&[es2 H4]).
    split_and!; try congruence.
    + exists (ts1 ++ ts2). by rewrite H3, H1, app_assoc.
    + exists (es1 ++ es2). by rewrite H4, H2, app_assoc.
Qed.

Lemma for_each_inv {S A} (P : S → Prop) (f : A → stx S ()) l s :
  P s → (∀ x s, P s → P (f x s).2) → P (for_each f l s).2.
Proof.
  intros Hs Hf. revert s Hs. induction l as [|x l IH]; intros s Hs; [done|].
  simpl. unfold mbind, stx_bind. specialize (Hf x s Hs) as Hx.
  destruct (f x s) as [[[]|e] s']; simpl in *; auto.
Qed.

Lemma omap_snoc {A B} (f : A → option B) l x :
  omap f (l ++ [x]) = omap f l ++ match f x with Some y => [y] | None => [] end.
Proof. rewrite omap_app. simpl. by destruct (f x). Qed.

Lemma NoDup_snoc {A} (l : list A) x : NoDup l → x ∉ l → NoDup (l ++ [x]).
Proof. intros. apply NoDup_app. split_and!; [done|set_solver|apply NoDup_singleton]. Qed.

Lemma clashes_true {A} `{EqDecision A} (x y : option A) :
  clashes x y = true ↔ ∃ a, x = Some a ∧ y = Some a.
Proof.
  destruct x, y; simpl; rewrite ?bool_decide_eq_true; split; intros; destruct_and?; naive_solver.
Qed.

Lemma insert_transaction_spec t d :
  match insert_transaction t d with
  | (Err _, d') => d' = d
  | (Ok _, d') => d' = set_transactions (transactions d ++ [t]) d ∧ (rows_ok d → rows_ok d')
  end.
Proof.
  unfold insert_transaction.
  destruct (existsb _ _) eqn:E1; [done|]. destruct (existsb _ _) eqn:E2 in |- *; [done|].
  destruct (existsb _ _) eqn:E3 in |- *; [done|]. split; [done|].
  rewrite existsb_false in E1, E2, E3. intros [H1 H2 H3 H4 H5 H6 H7].
  split; cbn [accounts transactions entries set_transactions set_entries]; try done.
  - rewrite fmap_app. apply NoDup_snoc; [done|].
    intros (r & Hr & Hin)%list_elem_of_fmap. apply E1 in Hin. by apply bool_decide_eq_false in Hin.
  - rewrite omap_snoc. destruct (t_event t) as [ev|] eqn:Et; [|by rewrite app_nil_r].
    apply NoDup_snoc; [done|]. intros (r & Hin & Hr)%list_elem_of_omap.
    apply E2 in Hin. apply not_true_iff_false in Hin. destruct Hin. apply clashes_true. eauto.
  - rewrite omap_snoc. destruct (t_type t) as [ty|] eqn:Et; simpl; [|by rewrite app_nil_r].
    destruct (t_object t) as [o|] eqn:Eo; simpl; [|by rewrite app_nil_r].
    apply NoDup_snoc; [done|]. intros (r & Hin & Hr)%list_elem_of_omap.
    apply E3 in Hin. apply not_true_iff_false in Hin. destruct Hin.
    destruct (t_type r) as [ty'|] eqn:?; [|done]. destruct (t_object r) as [o'|] eqn:?; [|done].
    simpl in Hr. simplify_eq. apply andb_true_iff. rewrite !clashes_true. split; eauto.
  - intros e He. rewrite fmap_app. apply elem_of_app. left. by apply H6.
Qed.

Lemma insert_entry_spec e d :
  match insert_entry e d with
  | (Err _, d') => d' = d
  | (Ok _, d') => ∃ cur, char3 (e_currency e) = Ok cur ∧ 0 < e_amount e ∧
      d' = set_entries (entries d ++ [EntryRow (e_txn e) (e_account e) (e_dir e) (e_amount e) cur]) d ∧
      (rows_ok d → rows_ok d')
  end.
Proof.
  unfold insert_entry. destruct (char3 _) as [cur|] eqn:Ec; [|done].
  destruct (is_bigint _) eqn:Eb; simpl; [|done]. destruct (0 <? _) eqn:E0; simpl; [|done].
  destruct (existsb _ (transactions d)) eqn:Et; simpl; [|done].
  destruct (existsb _ (accounts d)) eqn:Ea; simpl; [|done].
  destruct (existsb (λ a, _ && _)%bool _) eqn:Ef; simpl; [|done].
  exists cur. unfold is_bigint in Eb. bool_to_prop. split_and!; try done.
  apply existsb_exists_stdpp in Et as (t & Ht & Etid), Ef as (a & Ha & Haid). bool_to_prop.
  intros [K1 K2 K3 K4 K5 K6 K7].
  split; cbn [accounts transactions entries set_transactions set_entries]; try done;
    intros e' [He'|He']%elem_of_app; auto; apply list_elem_of_singleton in He' as ->; simpl.
  - lia.
  - apply list_elem_of_fmap. eauto.
  - eauto.
Qed.

Lemma exec_extends r s d : extends d (exec r s d).2.
Proof.
  destruct s as [t|e|op tb]; simpl; [| |done].
  - pose proof (insert_transaction_spec t d) as H.
    destruct (insert_transaction t d) as [[u|x] d']; cbn in *; [|by subst].
    destruct H as [-> _]. split_and!; try done; [by eexists|]. exists []. by rewrite app_nil_r.
  - pose proof (insert_entry_spec e d) as H.
    destruct (insert_entry e d) as [[u|x] d']; cbn in *; [|by subst].
    destruct H as (cur & _ & _ & -> & _). split_and!; try done; [|by eexists].
    exists []. by rewrite app_nil_r.
Qed.

Lemma exec_rows_ok r s d : rows_ok d → rows_ok (exec r s d).2.
Proof.
  intros Hok. destruct s as [t|e|op tb]; simpl; [| |done].
  - pose proof (insert_transaction_spec t d) as H.
    destruct (insert_transaction t d) as [[u|x] d']; cbn in *; [|by subst]. by apply H.
  - pose proof (insert_entry_spec e d) as H.
    destruct (insert_entry e d) as [[u|x] d']; cbn in *; [|by subst].
    destruct H as (cur & _ & _ & _ & H). by apply H.
Qed.

Lemma all_pass_app l k : all_pass (l ++ k) = Ok () ↔ all_pass l = Ok () ∧ all_pass k = Ok ().
Proof.
  induction l as [|[[]|e] l IH]; simpl; [|done|].
  - split; [by intros|by intros [_ ?]].
  - split; [done|by intros [? _]].
Qed.
Lemma all_pass_fmap {A} (f : A → result ()) l :
  all_pass (f <$> l) = Ok () ↔ ∀ x, x ∈ l → f x = Ok ().
Proof.
  induction l as [|x l IH]; simpl; [by split; [intros _ ? ?%not_elem_of_nil|]|].
  rewrite <- Forall_forall, Forall_cons, Forall_forall.
  destruct (f x) as [[]|e] eqn:E; [rewrite IH|]; naive_solver.
Qed.

Lemma side_total_absent dir cur l : cur ∉ e_currency <$> l → side_total dir cur l = 0.
Proof.
  intros H. apply Zsum_zero. intros e He. case_bool_decide as Hd; [|done].
  destruct H. apply list_elem_of_fmap. naive_solver.
Qed.

Lemma assert_txn_balanced_ok txn d : assert_txn_balanced txn d = Ok () ↔ txn_balanced txn d.
Proof.
  unfold assert_txn_balanced, txn_balanced. set (l := entries_of _ _). split.
  - destruct (existsb _ _) eqn:E; [done|]. intros _ cur. rewrite existsb_false in E.
    destruct (decide (cur ∈ e_currency <$> l)) as [Hin|Hnin].
    + apply E in Hin. by bool_to_prop.
    + by rewrite !side_total_absent.
  - intros H. destruct (existsb _ _) eqn:E; [|done].
    apply existsb_exists_stdpp in E as (cur & _ & E). bool_to_prop. by rewrite H in E.
Qed.

Lemma assert_txn_min_entries_ok txn d :
  assert_txn_min_entries txn d = Ok () ↔ 2 <= Z.of_nat (length (entries_of txn (entries d))).
Proof.
  unfold assert_txn_min_entries. destruct (_ <? 2) eqn:E; bool_to_prop; split; (done || lia).
Qed.

Lemma entries_of_app txn l k : entries_of txn (l ++ k) = entries_of txn l ++ entries_of txn k.
Proof. apply filter_app. Qed.

Lemma entries_of_none txn l : (∀ e, e ∈ l → e_txn e ≠ txn) → entries_of txn l = [].
Proof.
  unfold entries_of. induction l as [|e l IH]; intros H; [done|].
  rewrite filter_cons_False by (apply H; left). apply IH. intros. apply H. by right.
Qed.

(** Committing appended rows keeps the invariant, whoever wrote them. *)
Lemma commit_ok d0 d :
  ledger_ok d0 → extends d0 d → rows_ok d → commit_checks d0 d = Ok () → ledger_ok d.
Proof.
  intros [Hr0 Hb0 Hm0] (_ & _ & [ts Ht] & [es He]) Hrows Hc.
  unfold commit_checks in Hc. rewrite Ht, He, !drop_app_prefix in Hc.
  apply all_pass_app in Hc as [Hmin Hbal]. rewrite all_pass_fmap in Hmin. rewrite all_pass_fmap in Hbal.
  split; [done| |].
  - intros txn. destruct (decide (Exists (λ e, e_txn e = txn) es)) as [(e & Hin & <-)%Exists_exists|Hno].
    + by apply assert_txn_balanced_ok, Hbal.
    + assert (entries_of txn (entries d) = entries_of txn (entries d0)) as E.
      { rewrite He, entries_of_app, (entries_of_none txn es); [by rewrite app_nil_r|].
        intros e Hin Heq. apply Hno, Exists_exists. eauto. }
      intros cur. rewrite E. apply Hb0.
  - intros t. rewrite Ht. intros [Hin|Hin]%elem_of_app.
    + specialize (Hm0 t Hin). rewrite He, entries_of_app, length_app. lia.
    + by apply assert_txn_min_entries_ok, Hmin.
Qed.

Lemma transactional_ok {A} (body : stx database A) d :
  ledger_ok d → extends d (body d).2 → rows_ok (body d).2 → ledger_ok (transactional body d).2.
Proof.
  intros Hok Hext Hrows. unfold transactional.
  destruct (body d) as [[a|e] d'] eqn:E; simpl in *; [|done].
  destruct (commit_checks d d') as [[]|] eqn:Ec; simpl; [|done]. by eapply commit_ok.
Qed.

Lemma transactional_extends {A} (body : stx database A) d :
  extends d (body d).2 → extends d (transactional body d).2.
Proof.
  intros Hext. unfold transactional. destruct (body d) as [[a|e] d']; simpl in *; [|done].
  by destruct (commit_checks d d') as [[]|].
Qed.

Lemma empty_db_ok : ledger_ok empty_db.
Proof.
  split; [split|..]; simpl; try (by intros ? ?%not_elem_of_nil); try apply NoDup_nil_2.
  - apply (bool_decide_unpack _). vm_compute. exact I.
  - intros txn cur. done.
Qed.

(** Any sequence of committed or refused sessions, by any roles. *)
Definition run_sessions (l : list (role * list statement)) (d : database) : database :=
  foldl (λ d '(r, sts), (session r sts d).2) d l.

Lemma session_keeps r sts d : ledger_ok d →
  ledger_ok (session r sts d).2 ∧ extends d (session r sts d).2.
Proof.
  intros Hok.
  assert (extends d (for_each (exec r) sts d).2 ∧ rows_ok (for_each (exec r) sts d).2) as [He Hr].
  { apply (for_each_inv (λ d', extends d d' ∧ rows_ok d')); [split; [done|apply Hok]|].
    intros s d' [??]. split; [etrans; [done|apply exec_extends]|by apply exec_rows_ok]. }
  split; [by apply transactional_ok|by apply transactional_extends].
Qed.

(** ** Conservation of money over the view *)
Definition signed_amount (e : entry_row) : Z :=
  match e_dir e with Debit => e_amount e | Credit => - e_amount e end.

(** Debit-normal minus credit-normal balances of one currency. *)
Definition currency_difference (cur : string) (accs : list account) (l : list entry_row) : Z :=
  Zsum (λ a, if bool_decide (acc_currency a = cur) then
               match acc_normal a with Debit => balance_minor a l | Credit => - balance_minor a l end
             else 0) accs.

Lemma side_totals_net cur l :
  side_total Debit cur l - side_total Credit cur l =
  Zsum (λ e, if bool_decide (e_currency e = cur) then signed_amount e else 0) l.
Proof.
  unfold side_total. rewrite <- Zsum_sub. apply Zsum_ext. intros e _. unfold signed_amount.
  destruct (e_dir e); do 3 case_bool_decide; first [lia | exfalso; naive_solver].
Qed.

Lemma balanced_total_zero cur d : (∀ txn, txn_balanced txn d) →
  Zsum (λ e, if bool_decide (e_currency e = cur) then signed_amount e else 0) (entries d) = 0.
Proof.
  intros H. rewrite (Zsum_group e_txn). apply Zsum_zero. intros txn _.
  specialize (H txn cur). rewrite <- side_totals_net. unfold entries_of in H. lia.
Qed.

Lemma account_by_id d a a' : rows_ok d →
  a ∈ accounts d → a' ∈ accounts d → acc_id a = acc_id a' → a = a'.
Proof.
  intros Hr [i Hi]%list_elem_of_lookup [j Hj]%list_elem_of_lookup E.
  assert (i = j) as ->; [|congruence].
  eapply (NoDup_lookup _ _ _ (acc_id a) (ok_account_ids d Hr));
    rewrite list_lookup_fmap; [by rewrite Hi|rewrite Hj; simpl; congruence].
Qed.

Lemma conservation d cur : ledger_ok d → currency_difference cur (accounts d) (entries d) = 0.
Proof.
  intros [Hr Hb _]. rewrite <- (balanced_total_zero cur d Hb).
  transitivity (Zsum (λ a, Zsum (λ e,
    if bool_decide (e_account e = acc_id a ∧ acc_currency a = cur) then signed_amount e else 0)
    (entries d)) (accounts d)).
  - apply Zsum_ext. intros a _. unfold balance_minor.
    case_bool_decide as Hc.
    + rewrite <- (Zsum_opp _ (entries d)).
      destruct (acc_normal a); apply Zsum_ext; intros e _; unfold signed_amount;
        destruct (e_dir e); repeat case_bool_decide; first [lia | exfalso; naive_solver].
    + symmetry. apply Zsum_zero. intros e _. by rewrite bool_decide_false by naive_solver.
  - rewrite Zsum_swap. apply Zsum_ext. intros e He.
    destruct (ok_entry_account d Hr e He) as (a & Ha & Hid & Hcur).
    rewrite (Zsum_unique _ _ a); [|by eapply NoDup_fmap_1, Hr|done|].
    + rewrite <- Hcur. by do 2 case_bool_decide; try naive_solver.
    + intros a' Ha' Hne. rewrite bool_decide_false; [done|]. intros [E _]. apply Hne.
      eapply account_by_id; eauto. congruence.
Qed.
