(* ===== verification/Post.v ===== *)
(** src/ledgerproof/ledger/accounts.py and ledger/post.py: account lookup and
    the only write path into the ledger tables.

    An attempt is one SERIALIZABLE database transaction, so it is an atomic
    step; its [fate] says what the outside world does to it: nothing, a
    serialization failure (SQLSTATE 40001), or a connection lost at COMMIT,
    which may or may not have taken effect. *)
From Stdlib Require Import QArith Qminmax Lqa.
From S2P Require Import Prelude PyVal Ledger.
#[local] Open Scope Z_scope.

(** ** accounts.py *)
Definition all_accounts (d : database) : list (string * account) :=
  foldl (λ m a, dict_set (acc_name a) a m) [] (accounts d).

Definition find_account (name : string) (d : database) : option account :=
  head (filter (λ a, acc_name a = name) (accounts d)).

Definition get_account (name : string) (d : database) : result account :=
  of_option (KeyError name) (find_account name d).

(** ** post.py *)
Record entry := Entry {
  account_name : string; dir : direction; amount_minor : Z; currency : string }.

Record ledger_transaction := LedgerTransaction {
  lt_id : string; occurred_at : Z; lt_entries : list entry;
  stripe_event_id : option string; stripe_object_id : option string;
  event_type : option string; memo : option string }.

#[export] Instance entry_eq_dec : EqDecision entry.
Proof. solve_decision. Defined.
#[export] Instance ledger_transaction_eq_dec : EqDecision ledger_transaction.
Proof. solve_decision. Defined.

Inductive post_outcome := POSTED | DUPLICATE.
#[export] Instance post_outcome_eq_dec : EqDecision post_outcome.
Proof. solve_decision. Defined.

Inductive fate := Undisturbed | Conflicts | ConnectionLost (committed : bool).

Definition dedupe_constraints : list string := ["dedupe_event"; "dedupe_object"].

(** The loop that resolves each distinct account name once. *)
Fixpoint resolve_accounts (l : list entry) (ids : list (string * Z)) : stx database (list (string * Z)) :=
  match l with
  | [] => mret ids
  | e :: l =>
      if dict_mem (account_name e) ids then resolve_accounts l ids
      else
        a ← gets (find_account (account_name e));
        match a with
        | None => raise (ValueError "unknown account")
        | Some a => resolve_accounts l (dict_set (account_name e) (acc_id a) ids)
        end
  end.

Definition txn_row_of (txn : ledger_transaction) : txn_row :=
  TxnRow (lt_id txn) (stripe_event_id txn) (stripe_object_id txn) (event_type txn)
         (occurred_at txn) (memo txn).

(** Resolve the accounts, insert the transaction row, then its entries. *)
Definition attempt_body (txn : ledger_transaction) : stx database () :=
  ids ← resolve_accounts (lt_entries txn) [];
  _ ← insert_transaction (txn_row_of txn);
  for_each (λ e,
    match dict_get (account_name e) ids with
    | None => raise (KeyError (account_name e))
    | Some id => insert_entry (EntryRow (lt_id txn) id (dir e) (amount_minor e) (currency e))
    end) (lt_entries txn).

(** A unique violation on a dedupe key is an idempotent no-op; any other
    exception rolls back and propagates. *)
Definition _attempt (f : fate) (txn : ledger_transaction) : stx database post_outcome :=
  match f with
  | Conflicts => raise SerializationFailure
  | ConnectionLost committed => λ d,
      (Err OperationalError, if committed then (transactional (attempt_body txn) d).2 else d)
  | Undisturbed =>
      try_except
        (_ ← transactional (attempt_body txn); mret POSTED)
        (λ e, match e with
              | UniqueViolation c =>
                  if bool_decide (c ∈ dedupe_constraints) then mret DUPLICATE else raise e
              | _ => raise e
              end)
  end.

(** The delay before retry number [attempt] for a draw [u] of [rng.random()],
    in seconds (exact rationals). *)
Definition backoff_base : Q := 1 # 20.
Definition backoff_cap : Q := 2.
Definition backoff (attempt : Z) (u : Q) : Q :=
  (Qmin (backoff_base * inject_Z (2 ^ (attempt - 1))) backoff_cap * ((1 # 2) + u))%Q.

(** The retry loop: [retries] is [max_attempts - attempt].  The result carries
    the delays slept, [fates] and [draws] what the world and the generator
    answer to each attempt. *)
Fixpoint post_loop (retries : nat) (attempt : Z) (fates : list fate) (draws : list Q)
    (txn : ledger_transaction) (d : database) : (result post_outcome * database) * list Q :=
  match _attempt (default Undisturbed (head fates)) txn d with
  | (Err SerializationFailure, d') =>
      match retries with
      | O => ((Err SerializationFailure, d'), [])
      | S retries =>
          let '(r, sleeps) := post_loop retries (attempt + 1) (tail fates) (tail draws) txn d' in
          (r, backoff attempt (default 0%Q (head draws)) :: sleeps)
      end
  | r => (r, [])
  end.

Definition default_max_attempts : Z := 5.

Definition post_transaction (max_attempts : Z) (fates : list fate) (draws : list Q)
    (txn : ledger_transaction) (d : database) : (result post_outcome * database) * list Q :=
  post_loop (Z.to_nat (max_attempts - 1)) 1 fates draws txn d.

(** [post_transaction] with its default arguments, as a database computation. *)
Definition post (fates : list fate) (txn : ledger_transaction) : stx database post_outcome := λ d,
  (post_transaction default_max_attempts fates [] txn d).1.

(** ** Specification *)

(** A transaction the schema admits in [d]. *)
Definition entry_acceptable (d : database) (e : entry) : Prop :=
  0 < amount_minor e <= bigint_max ∧
  ∃ a, find_account (account_name e) d = Some a ∧ char3 (currency e) = Ok (acc_currency a).

Definition entries_total (dr : direction) (cur : string) (l : list entry) : Z :=
  Zsum (λ e, if bool_decide (dir e = dr ∧ char3 (currency e) = Ok cur) then amount_minor e else 0) l.

Definition entries_balanced (l : list entry) : Prop :=
  ∀ cur, entries_total Debit cur l = entries_total Credit cur l.

(** No committed row holds the id or a dedupe key of the transaction. *)
Definition fresh_txn (d : database) (txn : ledger_transaction) : Prop :=
  ∀ r, r ∈ transactions d →
    t_id r ≠ lt_id txn ∧ clashes (t_event r) (stripe_event_id txn) = false ∧
    (clashes (t_type r) (event_type txn) && clashes (t_object r) (stripe_object_id txn))%bool = false.

#[export] Instance fresh_txn_dec d txn : Decision (fresh_txn d txn).
Proof.
  refine (cast_if (decide (Forall (λ r, t_id r ≠ lt_id txn ∧
    clashes (t_event r) (stripe_event_id txn) = false ∧
    (clashes (t_type r) (event_type txn) && clashes (t_object r) (stripe_object_id txn))%bool = false)
    (transactions d)))); unfold fresh_txn; by rewrite <- Forall_forall.
Defined.

Definition acceptable (d : database) (txn : ledger_transaction) : Prop :=
  fresh_txn d txn ∧ Forall (entry_acceptable d) (lt_entries txn) ∧
  entries_balanced (lt_entries txn) ∧ (2 <= length (lt_entries txn))%nat.

Definition entry_row_of (d : database) (id : string) (e : entry) : entry_row :=
  EntryRow id (match find_account (account_name e) d with Some a => acc_id a | None => 0 end) (dir e) (amount_minor e)
    (match char3 (currency e) with Ok c => c | Err _ => currency e end).

(** The state a posted transaction leaves. *)
Definition posted_db (d : database) (txn : ledger_transaction) : database :=
  Database (accounts d) (transactions d ++ [txn_row_of txn])
    (entries d ++ (entry_row_of d (lt_id txn) <$> lt_entries txn)) (stripe_events d).

(** ** Account lookup *)
Lemma find_account_Some n d a : find_account n d = Some a → a ∈ accounts d ∧ acc_name a = n.
Proof. intros H%head_Some_elem_of. apply list_elem_of_filter in H as [-> ?]. done. Qed.

Section resolve.
Context (d : database).
Definition resolved (ids : list (string * Z)) : Prop :=
  ∀ n v, dict_get n ids = Some v → ∃ a, find_account n d = Some a ∧ acc_id a = v.

Lemma resolve_accounts_spec l : ∀ ids, resolved ids →
  match resolve_accounts l ids d with
  | (Ok ids', d') => d' = d ∧ resolved ids' ∧
      (∀ n v, dict_get n ids = Some v → dict_get n ids' = Some v) ∧
      (∀ e, e ∈ l → is_Some (dict_get (account_name e) ids'))
  | (Err x, d') => d' = d ∧ x = ValueError "unknown account" ∧
      ∃ e, e ∈ l ∧ find_account (account_name e) d = None
  end.
Proof.
  induction l as [|e l IH]; intros ids Hids; cbn.
  { split_and!; try done. by intros ? ?%not_elem_of_nil. }
  unfold dict_mem. destruct (dict_get (account_name e) ids) as [v|] eqn:Eg.
  - specialize (IH ids Hids). destruct (resolve_accounts l ids d) as [[ids'|x] d'].
    + destruct IH as (-> & Hr & Hm & Ha). split_and!; try done.
      intros e' [->|?]%elem_of_cons; [|by apply Ha]. eauto.
    + destruct IH as (-> & -> & e' & ? & ?). split_and!; [done..|]. exists e'. split; [by right|done].
  - run. destruct (find_account (account_name e) d) as [a|] eqn:Ef.
    2:{ split_and!; [done..|]. exists e. split; [left|done]. }
    assert (resolved (dict_set (account_name e) (acc_id a) ids)) as Hids'.
    { intros n v. destruct (decide (account_name e = n)) as [<-|Hne].
      - rewrite dict_get_set_eq. naive_solver.
      - rewrite dict_get_set_ne by done. apply Hids. }
    specialize (IH _ Hids'). destruct (resolve_accounts l _ d) as [[ids'|x] d'].
    + destruct IH as (-> & Hr & Hm & Ha). split_and!; try done.
      * intros n v Hn. apply Hm. destruct (decide (account_name e = n)) as [<-|Hne]; [congruence|].
        by rewrite dict_get_set_ne.
      * intros e' [->|?]%elem_of_cons; [|by apply Ha]. eexists. apply Hm, dict_get_set_eq.
    + destruct IH as (-> & -> & e' & ? & ?). split_and!; [done..|]. exists e'. split; [by right|done].
Qed.
End resolve.

(** ** One attempt *)
Lemma insert_transaction_fresh txn d : fresh_txn d txn →
  insert_transaction (txn_row_of txn) d = (Ok (), set_transactions (transactions d ++ [txn_row_of txn]) d).
Proof.
  intros Hf. unfold insert_transaction.
  rewrite (proj2 (existsb_false _ _)); [|intros r Hr; by apply bool_decide_eq_false, Hf].
  rewrite (proj2 (existsb_false _ _)); [|intros r Hr; by apply Hf].
  rewrite (proj2 (existsb_false _ _)); [done|intros r Hr; by apply Hf].
Qed.

Lemma insert_transaction_clash txn d : ¬ fresh_txn d txn →
  ∃ c, insert_transaction (txn_row_of txn) d = (Err (UniqueViolation c), d) ∧
    (c ∈ dedupe_constraints → ∃ r, r ∈ transactions d ∧
       (clashes (t_event r) (stripe_event_id txn) = true ∨
        clashes (t_type r) (event_type txn) = true ∧ clashes (t_object r) (stripe_object_id txn) = true)).
Proof.
  intros Hf. unfold insert_transaction.
  destruct (existsb _ _) eqn:E1; [eexists; split; [done|]; set_solver|].
  destruct (existsb _ _) eqn:E2 in |- *.
  { eexists; split; [done|]. intros _. apply existsb_exists_stdpp in E2 as (r & ? & ?). eauto. }
  destruct (existsb _ _) eqn:E3 in |- *.
  { eexists; split; [done|]. intros _. apply existsb_exists_stdpp in E3 as (r & ? & ?).
    bool_to_prop. eauto 10. }
  destruct Hf. rewrite existsb_false in E1, E2, E3. intros r Hr.
  split_and!; [|by apply E2|by apply E3].
  specialize (E1 r Hr). by bool_to_prop.
Qed.

Lemma insert_entry_acceptable d txn_id ids e :
  rows_ok d → resolved d ids → is_Some (dict_get (account_name e) ids) →
  txn_id ∈ t_id <$> transactions d →
  match dict_get (account_name e) ids with
  | None => False
  | Some id => match insert_entry (EntryRow txn_id id (dir e) (amount_minor e) (currency e)) d with
      | (Ok _, d') => entry_acceptable d e ∧ d' = set_entries (entries d ++ [entry_row_of d txn_id e]) d
      | (Err x, d') => ¬ entry_acceptable d e ∧ d' = d ∧ ∀ c, x ≠ UniqueViolation c
      end
  end.
Proof.
  intros Hrows Hids [id Hid] Hin. rewrite Hid.
  destruct (Hids _ _ Hid) as (a & Hf & <-). destruct (find_account_Some _ _ _ Hf) as [Ha _].
  unfold insert_entry, entry_acceptable, entry_row_of. cbn [e_currency e_amount e_txn e_account e_dir].
  rewrite Hf. destruct (char3 (currency e)) as [cur|x] eqn:Ec.
  2:{ split_and!; [naive_solver|done|]. unfold char3 in Ec. case_bool_decide; naive_solver. }
  unfold is_bigint, bigint_min, bigint_max in *.
  destruct (_ <=? amount_minor e) eqn:E1, (amount_minor e <=? _) eqn:E2, (0 <? amount_minor e) eqn:E3;
    simpl; bool_to_prop; try (split_and!; [intros [? _]; lia|done|done]).
  assert (existsb (λ t, bool_decide (t_id t = txn_id)) (transactions d) = true) as ->.
  { apply list_elem_of_fmap in Hin as (t & -> & Ht). apply existsb_exists_stdpp. exists t.
    by rewrite bool_decide_eq_true. }
  assert (existsb (λ a0, acc_id a0 =? acc_id a) (accounts d) = true) as ->.
  { apply existsb_exists_stdpp. exists a. by rewrite Z.eqb_refl. }
  simpl. destruct (existsb (λ _, _ && _)%bool _) eqn:Ex; simpl.
  - split; [|done]. apply existsb_exists_stdpp in Ex as (a' & Ha' & Ex). bool_to_prop.
    assert (a' = a) as -> by (by eapply account_by_id). split; [lia|]. exists a. split; congruence.
  - split_and!; [|done|done]. intros (_ & a' & ? & ?). simplify_eq.
    rewrite existsb_false in Ex. specialize (Ex a' Ha).
    by rewrite Z.eqb_refl, bool_decide_true in Ex.
Qed.

(** Lookups only depend on the accounts. *)
Lemma find_account_accounts n d d' : accounts d = accounts d' → find_account n d = find_account n d'.
Proof. unfold find_account. by intros ->. Qed.
Lemma entry_acceptable_accounts d d' e : accounts d = accounts d' →
  entry_acceptable d e → entry_acceptable d' e.
Proof. unfold entry_acceptable. intros E. by rewrite (find_account_accounts _ _ _ E). Qed.
Lemma entry_row_of_accounts d d' id e : accounts d = accounts d' →
  entry_row_of d id e = entry_row_of d' id e.
Proof. unfold entry_row_of. intros E. by rewrite (find_account_accounts _ _ _ E). Qed.

Definition insert_entries (txn_id : string) (ids : list (string * Z)) (l : list entry) : stx database () :=
  for_each (λ e,
    match dict_get (account_name e) ids with
    | None => raise (KeyError (account_name e))
    | Some id => insert_entry (EntryRow txn_id id (dir e) (amount_minor e) (currency e))
    end) l.

Lemma insert_entries_spec txn_id ids l : ∀ d,
  rows_ok d → resolved d ids → (∀ e, e ∈ l → is_Some (dict_get (account_name e) ids)) →
  txn_id ∈ t_id <$> transactions d →
  match insert_entries txn_id ids l d with
  | (Ok _, d') => Forall (entry_acceptable d) l ∧
      d' = set_entries (entries d ++ (entry_row_of d txn_id <$> l)) d ∧ rows_ok d'
  | (Err x, _) => ¬ Forall (entry_acceptable d) l ∧ ∀ c, x ≠ UniqueViolation c
  end.
Proof.
  unfold insert_entries. induction l as [|e l IH]; intros d Hrows Hids Hl Hin; cbn.
  { split_and!; [done| |done]. destruct d; simpl. by rewrite app_nil_r. }
  pose proof (insert_entry_acceptable d txn_id ids e Hrows Hids (Hl e ltac:(left)) Hin) as He.
  destruct (dict_get (account_name e) ids) as [id|] eqn:Eid; [|done].
  run.
  pose proof (insert_entry_spec (EntryRow txn_id id (dir e) (amount_minor e) (currency e)) d) as Hi.
  destruct (insert_entry _ d) as [[u|x] d1]; [|by split; [rewrite Forall_cons; naive_solver|naive_solver]].
  destruct He as [Hacc ->], Hi as (_ & _ & _ & _ & Hrows1). specialize (Hrows1 Hrows).
  set (d1 := set_entries _ d) in *.
  specialize (IH d1 Hrows1 Hids ltac:(set_solver) Hin).
  destruct (for_each _ l d1) as [[u'|x] d2].
  - destruct IH as (Hall & -> & Hr). split_and!; [| |done].
    + constructor; [done|]. eapply Forall_impl; [done|]. intros e'. by apply entry_acceptable_accounts.
    + subst d1. unfold set_entries. simpl. f_equal. by rewrite <- app_assoc.
  - destruct IH as [Hn ?]. split; [|done]. rewrite Forall_cons. intros [_ ?]. apply Hn.
    eapply Forall_impl; [done|]. intros e'. by apply entry_acceptable_accounts.
Qed.

Lemma attempt_body_spec txn d : rows_ok d →
  match attempt_body txn d with
  | (Ok _, d') => fresh_txn d txn ∧ Forall (entry_acceptable d) (lt_entries txn) ∧
      d' = posted_db d txn ∧ rows_ok d'
  | (Err x, _) => (¬ fresh_txn d txn ∨ ¬ Forall (entry_acceptable d) (lt_entries txn)) ∧
      (∀ c, x = UniqueViolation c → ¬ fresh_txn d txn ∧ (c ∈ dedupe_constraints → ∃ r, r ∈ transactions d ∧
         (clashes (t_event r) (stripe_event_id txn) = true ∨
          clashes (t_type r) (event_type txn) = true ∧ clashes (t_object r) (stripe_object_id txn) = true)))
  end.
Proof.
  intros Hrows. unfold attempt_body. run.
  pose proof (resolve_accounts_spec d (lt_entries txn) [] ltac:(by intros ??)) as Hres.
  destruct (resolve_accounts _ _ d) as [[ids|x] d0].
  2:{ destruct Hres as (-> & -> & e & He & Hn). split.
      - right. rewrite Forall_forall. intros H. destruct (H e He) as (_ & a & ? & _). congruence.
      - naive_solver. }
  destruct Hres as (-> & Hids & _ & Hall). run.
  destruct (decide (fresh_txn d txn)) as [Hf|Hf].
  - rewrite insert_transaction_fresh by done.
    pose proof (insert_transaction_spec (txn_row_of txn) d) as Hi.
    rewrite insert_transaction_fresh in Hi by done. destruct Hi as [_ Hrows1]. specialize (Hrows1 Hrows).
    set (d1 := set_transactions _ d) in *. fold (insert_entries (lt_id txn) ids (lt_entries txn)).
    pose proof (insert_entries_spec (lt_id txn) ids (lt_entries txn) d1 Hrows1 Hids Hall) as Hspec.
    specialize (Hspec ltac:(simpl; rewrite fmap_app; set_solver)).
    destruct (insert_entries _ _ _ d1) as [[u|x] d2].
    + destruct Hspec as (Hacc & -> & ?). split_and!; try done.
    + destruct Hspec as [Hn Hx]. split; [by right|]. intros c ->. by destruct (Hx c).
  - destruct (insert_transaction_clash txn d Hf) as (c & -> & Hc).
    split; [by left|]. intros ? [= ->]. done.
Qed.

(** A committed row holds one of the dedupe keys. *)
Definition key_taken (d : database) (txn : ledger_transaction) : Prop :=
  ∃ r, r ∈ transactions d ∧
    (clashes (t_event r) (stripe_event_id txn) = true ∨
     clashes (t_type r) (event_type txn) = true ∧ clashes (t_object r) (stripe_object_id txn) = true).

Lemma key_taken_not_fresh d txn : key_taken d txn → ¬ fresh_txn d txn.
Proof.
  intros (r & Hr & Hc) Hf. destruct (Hf r Hr) as (_ & H1 & H2).
  apply andb_false_iff in H2. destruct Hc as [?|[??]], H2; congruence.
Qed.

Lemma new_entries_of d txn : rows_ok d → fresh_txn d txn →
  entries_of (lt_id txn) (entries (posted_db d txn)) = entry_row_of d (lt_id txn) <$> lt_entries txn.
Proof.
  intros Hr Hf. simpl. rewrite entries_of_app, (entries_of_none _ (entries d)).
  - simpl. generalize (lt_entries txn). intros l. induction l as [|e l IH]; [done|].
    simpl. unfold entries_of in *. rewrite filter_cons_True by done. by f_equal.
  - intros e He Heq. apply (ok_entry_txn d Hr) in He.
    apply list_elem_of_fmap in He as (r & E & Hin). destruct (Hf r Hin) as [Hne _]. congruence.
Qed.

Lemma side_total_rows d id dr cur l : Forall (entry_acceptable d) l →
  side_total dr cur (entry_row_of d id <$> l) = entries_total dr cur l.
Proof.
  intros H. unfold side_total, entries_total. rewrite Zsum_fmap. apply Zsum_ext.
  intros e He. rewrite Forall_forall in H. destruct (H e He) as (_ & a & _ & Hc).
  unfold entry_row_of. rewrite Hc. cbn. do 2 case_bool_decide; naive_solver.
Qed.

Lemma commit_posted d txn : rows_ok d → fresh_txn d txn → Forall (entry_acceptable d) (lt_entries txn) →
  commit_checks d (posted_db d txn) = Ok () ↔
  entries_balanced (lt_entries txn) ∧ (2 <= length (lt_entries txn))%nat.
Proof.
  intros Hr Hf Hacc. unfold commit_checks.
  assert (transactions (posted_db d txn) = transactions d ++ [txn_row_of txn]) as -> by done.
  rewrite drop_app_prefix. cbn [fmap list_fmap].
  assert (drop (length (entries d)) (entries (posted_db d txn)) = entry_row_of d (lt_id txn) <$> lt_entries txn)
    as -> by apply drop_app_prefix.
  rewrite all_pass_app, all_pass_fmap.
  assert (∀ e, e ∈ entry_row_of d (lt_id txn) <$> lt_entries txn → e_txn e = lt_id txn) as Hid.
  { by intros e (e' & -> & _)%list_elem_of_fmap. }
  pose proof (assert_txn_min_entries_ok (lt_id txn) (posted_db d txn)) as Hmin.
  rewrite new_entries_of, length_fmap in Hmin by done.
  pose proof (assert_txn_balanced_ok (lt_id txn) (posted_db d txn)) as Hbal.
  unfold txn_balanced in Hbal. rewrite new_entries_of in Hbal by done.
  setoid_rewrite side_total_rows in Hbal; [|done..]. fold (entries_balanced (lt_entries txn)) in Hbal.
  cbn [all_pass t_id txn_row_of]. split.
  - intros [H1 H2]. destruct (assert_txn_min_entries _ _) as [[]|]; [|done].
    assert (2 <= length (lt_entries txn))%nat by (apply Nat2Z.inj_le, Hmin; done).
    split; [|done]. apply Hbal. destruct (lt_entries txn) as [|e l]; [simpl in *; lia|].
    rewrite <- (Hid (entry_row_of d (lt_id txn) e)) by left. apply H2. left.
  - intros [H1 H2]. rewrite (proj2 Hmin) by lia. split; [done|].
    intros e He. rewrite (Hid e He). by apply Hbal.
Qed.

Lemma attempt_body_extends txn d : rows_ok d →
  extends d (attempt_body txn d).2 ∧ rows_ok (attempt_body txn d).2.
Proof.
  intros Hr. unfold attempt_body. run.
  pose proof (resolve_accounts_spec d (lt_entries txn) [] ltac:(by intros ??)) as Hres.
  destruct (resolve_accounts _ _ d) as [[ids|x] d0]; destruct Hres as [-> _]; run; [|done].
  pose proof (exec_extends Owner (InsertTransaction (txn_row_of txn)) d) as He.
  pose proof (exec_rows_ok Owner (InsertTransaction (txn_row_of txn)) d Hr) as Hr1. simpl in *.
  destruct (insert_transaction (txn_row_of txn) d) as [[u|x] d1]; [|done].
  apply (for_each_inv (λ d', extends d d' ∧ rows_ok d')); [done|].
  intros e d' [??]. destruct (dict_get _ ids); [|done].
  split; [etrans; [done|apply (exec_extends Owner (InsertEntry _))]
         |by apply (exec_rows_ok Owner (InsertEntry _))].
Qed.

Lemma transactional_body_spec txn d : ledger_ok d →
  match transactional (attempt_body txn) d with
  | (Ok _, d') => acceptable d txn ∧ d' = posted_db d txn
  | (Err x, d') => d' = d ∧ ¬ acceptable d txn ∧
      ∀ c, x = UniqueViolation c → ¬ fresh_txn d txn ∧ (c ∈ dedupe_constraints → key_taken d txn)
  end.
Proof.
  intros [Hr _ _]. pose proof (attempt_body_spec txn d Hr) as Hb. unfold transactional.
  destruct (attempt_body txn d) as [[u|x] d1].
  - destruct Hb as (Hf & Hacc & -> & _). pose proof (commit_posted d txn Hr Hf Hacc) as Hc.
    destruct (commit_checks d (posted_db d txn)) as [[]|x] eqn:E.
    + split; [|done]. by destruct (proj1 Hc eq_refl).
    + split_and!; [done| |].
      * intros (_ & _ & Hbal). discriminate (proj2 Hc Hbal).
      * intros c ->. exfalso. unfold commit_checks in E. clear -E.
        revert E. generalize (drop (length (transactions d)) (transactions (posted_db d txn))).
        generalize (drop (length (entries d)) (entries (posted_db d txn))). intros es ts.
        induction ts as [|t ts IH]; simpl.
        { induction es as [|e es IH]; simpl; [done|].
          unfold assert_txn_balanced at 1. destruct (existsb _ _); [done|auto]. }
        unfold assert_txn_min_entries at 1. destruct (_ <? 2); [done|auto].
  - destruct Hb as [Hn Hk]. split_and!; [done| |].
    + intros (Hf & Hacc & _). naive_solver.
    + intros c Hc. destruct (Hk c Hc) as [Hnf Hr']. by split.
Qed.

(** ** The contract of [post_transaction] *)

(** What a call may answer, and the state it then leaves. *)
Inductive post_spec (d : database) (txn : ledger_transaction) : result post_outcome → database → Prop :=
  | spec_posted : acceptable d txn → post_spec d txn (Ok POSTED) (posted_db d txn)
  | spec_duplicate : key_taken d txn → post_spec d txn (Ok DUPLICATE) d
  | spec_refused e : e ≠ OperationalError → (e = SerializationFailure ∨ ¬ acceptable d txn) →
      post_spec d txn (Err e) d
  | spec_lost d' : d' = d ∨ acceptable d txn ∧ d' = posted_db d txn →
      post_spec d txn (Err OperationalError) d'.

Lemma attempt_spec f txn d : ledger_ok d →
  post_spec d txn (_attempt f txn d).1 (_attempt f txn d).2.
Proof.
  intros Hok. pose proof (transactional_body_spec txn d Hok) as Ht.
  destruct f as [| |[]]; cbn [_attempt]; run.
  - destruct (transactional (attempt_body txn) d) as [[u|x] d']; run.
    { destruct Ht as [? ->]. by constructor. }
    destruct Ht as (-> & Hn & Hk).
    destruct (decide (x = OperationalError)) as [->|]; [by apply spec_lost; left|].
    destruct x; try (by constructor; [|right]).
    case_bool_decide; run; [|by constructor; [|right]]. constructor. by destruct (Hk _ eq_refl) as [_ Hk']; apply Hk'.
  - constructor; [done|by left].
  - apply spec_lost. destruct (transactional (attempt_body txn) d) as [[u|x] d']; [by right|]. left. apply Ht.
  - apply spec_lost. by left.
Qed.

(** Any unique violation means the transaction's identity is taken. *)
Lemma attempt_conflict f txn d c : ledger_ok d →
  (_attempt f txn d).1 = Err (UniqueViolation c) → ¬ fresh_txn d txn.
Proof.
  intros Hok. pose proof (transactional_body_spec txn d Hok) as Ht.
  destruct f as [| |[]]; cbn [_attempt]; run; try done.
  destruct (transactional (attempt_body txn) d) as [[u|x] d']; run; [done|].
  destruct Ht as (_ & _ & Hk). destruct x; run; try done.
  case_bool_decide; run; [done|]. intros _. by destruct (Hk _ eq_refl).
Qed.

Lemma attempt_acceptable txn d : ledger_ok d → acceptable d txn →
  _attempt Undisturbed txn d = (Ok POSTED, posted_db d txn).
Proof.
  intros Hok Hacc. pose proof (transactional_body_spec txn d Hok) as Ht.
  cbn [_attempt]. run. destruct (transactional _ d) as [[u|x] d']; run; [by destruct Ht as [_ ->]|].
  by destruct Ht as (_ & [] & _).
Qed.

Lemma attempt_keeps f txn d : ledger_ok d →
  ledger_ok (_attempt f txn d).2 ∧ extends d (_attempt f txn d).2.
Proof.
  intros Hok. destruct (attempt_body_extends txn d (ok_rows d Hok)) as [He Hr].
  pose proof (transactional_ok _ d Hok He Hr) as H1. pose proof (transactional_extends _ d He) as H2.
  destruct f as [| |[]]; cbn [_attempt]; run; try done.
  destruct (transactional _ d) as [[u|x] d']; run; [done|].
  destruct x; run; try done. case_bool_decide; by run.
Qed.

(** Induction on the retries: only a serialization failure, which leaves the
    state alone, leads to another attempt. *)
Lemma post_loop_attempt retries attempt fates draws txn d : ledger_ok d →
  ∃ f, (post_loop retries attempt fates draws txn d).1 = _attempt f txn d.
Proof.
  intros Hok. revert attempt fates draws.
  induction retries as [|n IH]; intros attempt fates draws; cbn [post_loop].
  all: pose proof (attempt_spec (default Undisturbed (head fates)) txn d Hok) as Hs.
  all: destruct (_attempt _ txn d) as [[o|x] d'] eqn:E; [by eexists; rewrite E|].
  all: destruct x; try (by eexists; rewrite E).
  assert (d' = d) as -> by (by inversion Hs).
  specialize (IH (attempt + 1) (tail fates) (tail draws)).
  destruct (post_loop n _ _ _ txn d) as [r sl]. exact IH.
Qed.

Lemma post_transaction_attempt max_attempts fates draws txn d : ledger_ok d →
  ∃ f, (post_transaction max_attempts fates draws txn d).1 = _attempt f txn d.
Proof. apply post_loop_attempt. Qed.

Lemma post_keeps fates txn d : ledger_ok d →
  ledger_ok (post fates txn d).2 ∧ extends d (post fates txn d).2.
Proof.
  intros Hok. unfold post.
  destruct (post_transaction_attempt default_max_attempts fates [] txn d Hok) as [f ->].
  by apply attempt_keeps.
Qed.

Lemma post_loop_conflict n attempt rest draws txn d :
  post_loop (S n) attempt (Conflicts :: rest) draws txn d =
  (let '(r, sleeps) := post_loop n (attempt + 1) rest (tail draws) txn d in
   (r, backoff attempt (default 0%Q (head draws)) :: sleeps)).
Proof. done. Qed.

Lemma post_loop_conflicts k : ∀ retries attempt rest draws txn d,
  let r := post_loop retries attempt (replicate k Conflicts ++ rest) draws txn d in
  if decide (k <= retries)%nat then
    let r' := post_loop (retries - k) (attempt + Z.of_nat k) rest (drop k draws) txn d in
    r.1 = r'.1 ∧ length r.2 = (k + length r'.2)%nat
  else r.1 = (Err SerializationFailure, d) ∧ length r.2 = retries.
Proof.
  induction k as [|k IH]; intros retries attempt rest draws txn d.
  { rewrite decide_True by lia. simpl. by rewrite Nat.sub_0_r, Z.add_0_r. }
  destruct retries as [|n]; [by rewrite decide_False by lia|].
  cbn [replicate app]. rewrite post_loop_conflict.
  specialize (IH n (attempt + 1) rest (tail draws) txn d). cbn zeta in IH |- *.
  replace (drop (S k) draws) with (drop k (tail draws)) by (destruct draws; [apply drop_nil|done]).
  destruct (post_loop n _ _ _ txn d) as [r sl]. cbn [fst snd length] in *.
  destruct (decide (k <= n)%nat), (decide (S k <= S n)%nat); try lia.
  - destruct IH as [H1 H2]. replace (attempt + Z.of_nat (S k)) with (attempt + 1 + Z.of_nat k) by lia.
    rewrite Nat.sub_succ. split; [exact H1|]. by rewrite H2.
  - destruct IH as [H1 H2]. split; [exact H1|]. by rewrite H2.
Qed.

Lemma post_loop_acceptable n attempt draws txn d : ledger_ok d → acceptable d txn →
  post_loop n attempt [] draws txn d = ((Ok POSTED, posted_db d txn), []).
Proof. intros. destruct n; cbn [post_loop head default]; by rewrite attempt_acceptable. Qed.

(** A draw of [rng.random()]. *)
Definition is_draw (u : Q) : Prop := (0 <= u < 1)%Q.

Lemma backoff_bounds attempt u : 1 <= attempt → is_draw u →
  (0 < backoff attempt u < 3 # 1)%Q.
Proof.
  intros Ha [Hu0 Hu1]. unfold backoff.
  set (b := Qmin _ _). set (w := ((1 # 2) + u)%Q).
  assert (0 < b)%Q as Hb0.
  { unfold b, backoff_base, backoff_cap. apply Q.min_glb_lt; [|done].
    assert (1 <= 2 ^ (attempt - 1)) by (pose proof (Z.pow_pos_nonneg 2 (attempt - 1)); lia).
    apply Qmult_lt_0_compat; [done|]. rewrite <- (Zlt_Qlt 0). lia. }
  assert (b <= 2)%Q as Hb2 by apply Q.le_min_r.
  assert (0 < w)%Q by (unfold w; lra). assert (w < 3 # 2)%Q by (unfold w; lra).
  split; [by apply Qmult_lt_0_compat|].
  apply (Qle_lt_trans _ (2 * w)); [apply Qmult_le_compat_r; lra|lra].
Qed.

Lemma post_loop_sleeps retries : ∀ attempt fates draws txn d, 1 <= attempt → Forall is_draw draws →
  Forall (λ s, (0 < s < 3 # 1)%Q) (post_loop retries attempt fates draws txn d).2.
Proof.
  induction retries as [|n IH]; intros attempt fates draws txn d Ha Hd; cbn [post_loop].
  all: destruct (_attempt _ txn d) as [[o|x] d']; [constructor|].
  all: destruct x; try constructor.
  specialize (IH (attempt + 1) (tail fates) (tail draws) txn d' ltac:(lia)).
  destruct (post_loop n _ _ _ txn d') as [r sl]. constructor.
  - apply backoff_bounds; [done|]. destruct Hd; [by split|done].
  - apply IH. by destruct Hd.
Qed.

(** Posting what is already posted changes nothing. *)
Lemma posted_not_acceptable d txn txn' :
  (lt_id txn' = lt_id txn ∨
   (∃ ev, stripe_event_id txn = Some ev ∧ stripe_event_id txn' = Some ev) ∨
   (∃ ty o, event_type txn = Some ty ∧ event_type txn' = Some ty ∧
            stripe_object_id txn = Some o ∧ stripe_object_id txn' = Some o)) →
  ¬ acceptable (posted_db d txn) txn'.
Proof.
  intros H [Hf _]. destruct (Hf (txn_row_of txn)) as (H1 & H2 & H3).
  { simpl. set_solver. }
  simpl in *. destruct H as [H|[(ev & E1 & E2)|(ty & o & E1 & E2 & E3 & E4)]]; [congruence| |].
  - rewrite E1, E2 in H2. simpl in H2. by case_bool_decide.
  - rewrite E1, E2, E3, E4 in H3. simpl in H3. by do 2 case_bool_decide.
Qed.

(** A sale of 100.00 USD, net of a fee of 3.20. *)
Definition sample_txn : ledger_transaction :=
  LedgerTransaction "txn-1" 1700000000
    [Entry "stripe_balance" Debit 9680 "USD"; Entry "processing_fees" Debit 320 "USD";
     Entry "revenue" Credit 10000 "USD"]
    (Some "evt_1") (Some "ch_1") (Some "charge.succeeded") None.

Lemma sample_acceptable : acceptable empty_db sample_txn.
Proof.
  split_and!.
  - intros r Hr. by apply not_elem_of_nil in Hr.
  - repeat constructor; unfold bigint_max; simpl; try lia; by eexists.
  - intros cur. unfold entries_total, Zsum. simpl.
    repeat case_bool_decide; first [lia | exfalso; naive_solver].
  - simpl. lia.
Qed.

Lemma sample_posted_ok : ledger_ok (posted_db empty_db sample_txn).
Proof.
  pose proof (attempt_keeps Undisturbed sample_txn empty_db empty_db_ok) as [H _].
  by rewrite attempt_acceptable in H by (apply empty_db_ok || apply sample_acceptable).
Qed.

(** ** Properties *)

(** C1: whatever the world does to its attempts, [post_transaction] answers as
    its contract says: POSTED only for a transaction the schema admits, leaving
    exactly its row and its entries appended; DUPLICATE only when a committed
    row holds one of its dedupe keys, leaving the database as it was; every
    other exception leaves the database as it was, except a connection lost at
    COMMIT, after which the whole transaction is there or nothing of it. *)
Theorem post_transaction_refines max_attempts fates draws txn d :
  ledger_ok d →
  let r := (post_transaction max_attempts fates draws txn d).1 in
  post_spec d txn r.1 r.2.
Proof.
  intros Hok. cbn zeta.
  destruct (post_transaction_attempt max_attempts fates draws txn d Hok) as [f ->].
  by apply attempt_spec.
Qed.

Lemma post_transaction_refines_witness :
  post_spec empty_db sample_txn
    (post_transaction 5 [Conflicts; ConnectionLost true] [] sample_txn empty_db).1.1
    (post_transaction 5 [Conflicts; ConnectionLost true] [] sample_txn empty_db).1.2.
Proof. exact (post_transaction_refines 5 _ [] sample_txn empty_db empty_db_ok). Defined.

(** C24: an admissible transaction whose attempts are disturbed by fewer than
    [max_attempts] serialization failures is posted, after one sleep per
    failure; with [max_attempts] failures or more the failure is raised after
    [max_attempts - 1] sleeps and nothing is written.  Every delay slept is
    positive and below three seconds. *)
Theorem post_transaction_retries max_attempts (k : nat) draws txn d :
  ledger_ok d → acceptable d txn → 1 <= max_attempts → Forall is_draw draws →
  let r := post_transaction max_attempts (replicate k Conflicts) draws txn d in
  Forall (λ s, (0 < s < 3 # 1)%Q) r.2 ∧
  if decide (Z.of_nat k < max_attempts)
  then r.1 = (Ok POSTED, posted_db d txn) ∧ length r.2 = k
  else r.1 = (Err SerializationFailure, d) ∧ Z.of_nat (length r.2) = max_attempts - 1.
Proof.
  intros Hok Hacc Hm Hd. cbn zeta. unfold post_transaction.
  split; [by apply post_loop_sleeps|].
  pose proof (post_loop_conflicts k (Z.to_nat (max_attempts - 1)) 1 [] draws txn d) as H.
  cbn zeta in H. rewrite app_nil_r in H.
  destruct (decide (k <= _)%nat), (decide (Z.of_nat k < max_attempts)); try lia.
  - destruct H as [-> ->]. rewrite post_loop_acceptable by done. simpl. split; (done || lia).
  - destruct H as [-> ->]. split; [done|lia].
Qed.

Lemma post_transaction_retries_witness :
  (post_transaction 5 (replicate 4 Conflicts) [0; 1 # 2]%Q sample_txn empty_db).1 =
    (Ok POSTED, posted_db empty_db sample_txn).
Proof.
  refine (proj1 (proj2 (post_transaction_retries 5 4 [0; 1 # 2]%Q sample_txn empty_db
    empty_db_ok sample_acceptable _ _))); [lia|].
  repeat constructor; unfold is_draw; lra.
Defined.

(** Once a transaction is posted, posting any transaction with its id, its
    event id or its (type, object) key changes nothing, whatever the fates. *)
Theorem post_transaction_replay max_attempts fates draws d txn txn' :
  ledger_ok (posted_db d txn) →
  (lt_id txn' = lt_id txn ∨
   (∃ ev, stripe_event_id txn = Some ev ∧ stripe_event_id txn' = Some ev) ∨
   (∃ ty o, event_type txn = Some ty ∧ event_type txn' = Some ty ∧
            stripe_object_id txn = Some o ∧ stripe_object_id txn' = Some o)) →
  let r := (post_transaction max_attempts fates draws txn' (posted_db d txn)).1 in
  r.2 = posted_db d txn ∧ r.1 ≠ Ok POSTED.
Proof.
  intros Hok Hk%(posted_not_acceptable d). cbn zeta.
  destruct (post_transaction_attempt max_attempts fates draws txn' _ Hok) as [f ->].
  pose proof (attempt_spec f txn' _ Hok) as Hs.
  destruct Hs as [|? |e|d' [->|[? ->]]]; done.
Qed.

Lemma post_transaction_replay_witness :
  let d := posted_db empty_db sample_txn in
  (post_transaction 5 [] [] sample_txn d).1.2 = d.
Proof.
  refine (proj1 (post_transaction_replay 5 [] [] empty_db sample_txn sample_txn sample_posted_ok _)).
  by left.
Defined.
