(* ===== verification/Balances.v ===== *)
(** src/ledgerproof/ledger/balances.py and ledger/invariant.py: reading the
    derived balances and checking that money is conserved.  A connection is
    the database it reads; opening and closing one has no effect on it. *)
From S2P Require Import Prelude PyVal Ledger Post.

(** ** balances.py *)

(** The rows of the view [account_balances]. *)
Definition account_balances (d : database) : list (account * Z) :=
  (λ a, (a, balance_minor a (entries d))) <$> accounts d.

Definition all_balances (d : database) : list (string * Z) :=
  foldl (λ m '(a, bal), dict_set (acc_name a) bal m) [] (account_balances d).

Definition balance (name : string) (d : database) : result Z :=
  match filter (λ r, acc_name r.1 = name) (account_balances d) with
  | [] => Err (KeyError name)
  | (_, bal) :: _ => Ok bal
  end.

(** ** invariant.py *)
Record CurrencyCheck := MkCurrencyCheck {
  cc_currency : string; sum_debit_normal : Z; sum_credit_normal : Z }.

Definition difference (c : CurrencyCheck) : Z := sum_debit_normal c - sum_credit_normal c.
Definition cc_ok (c : CurrencyCheck) : bool := difference c =? 0.

Definition InvariantResult : Type := list CurrencyCheck.
Definition invariant_ok (r : InvariantResult) : bool := forallb cc_ok r.

Definition as_dict (r : InvariantResult) : pyval :=
  PDict [("ok", PBool (invariant_ok r));
         ("per_currency", PList ((λ c, PDict [
            ("currency", PStr (cc_currency c)); ("sum_debit_normal", PInt (sum_debit_normal c));
            ("sum_credit_normal", PInt (sum_credit_normal c)); ("difference", PInt (difference c));
            ("ok", PBool (cc_ok c))]) <$> r))].

(** SUM over one side of a currency group of the view. *)
Definition normal_sum (side : direction) (cur : string) (d : database) : Z :=
  Zsum (λ '(a, bal), if bool_decide (acc_currency a = cur ∧ acc_normal a = side) then bal else 0)
       (account_balances d).

(** GROUP BY currency ORDER BY currency *)
Definition check (d : database) : InvariantResult :=
  (λ cur, MkCurrencyCheck cur (normal_sum Debit cur d) (normal_sum Credit cur d)) <$>
  sort_strings (remove_dups (acc_currency <$> accounts d)).

(** ** Lemmas *)
Lemma difference_conserved cur d :
  normal_sum Debit cur d - normal_sum Credit cur d = currency_difference cur (accounts d) (entries d).
Proof.
  unfold normal_sum, account_balances, currency_difference.
  rewrite !Zsum_fmap, <- Zsum_sub. apply Zsum_ext. intros a _.
  destruct (acc_normal a); repeat case_bool_decide; first [lia | exfalso; naive_solver].
Qed.

Lemma check_currency c d : c ∈ check d →
  cc_currency c ∈ acc_currency <$> accounts d ∧
  difference c = currency_difference (cc_currency c) (accounts d) (entries d).
Proof.
  unfold check. intros (cur & -> & Hcur)%list_elem_of_fmap. split; simpl.
  - by rewrite sort_strings_elem, elem_of_remove_dups in Hcur.
  - apply difference_conserved.
Qed.

(** Reading a balance by name. *)
Lemma balance_find name d :
  balance name d = match find_account name d with
                   | Some a => Ok (balance_minor a (entries d)) | None => Err (KeyError name) end.
Proof.
  unfold balance, account_balances, find_account. induction (accounts d) as [|a l IH]; [done|].
  rewrite fmap_cons, !filter_cons. simpl. by case_decide.
Qed.

Section fold_dict.
Context {A V : Type} (name : A → string) (val : A → V).
Definition dict_of (l : list A) (m : list (string * V)) : list (string * V) :=
  foldl (λ m a, dict_set (name a) (val a) m) m l.

Lemma dict_of_get l : ∀ m k, NoDup (name <$> l) → k ∉ name <$> l →
  dict_get k (dict_of l m) = dict_get k m.
Proof.
  induction l as [|a l IH]; intros m k Hnd Hk; [done|]. simpl in *.
  apply NoDup_cons in Hnd as [??]. rewrite IH by set_solver.
  rewrite dict_get_set_ne; [done|set_solver].
Qed.
Lemma dict_of_find l : ∀ m k, NoDup (name <$> l) →
  dict_get k (dict_of l m) =
    match head (filter (λ a, name a = k) l) with Some a => Some (val a) | None => dict_get k m end.
Proof.
  induction l as [|a l IH]; intros m k Hnd; [done|]. simpl in Hnd.
  apply NoDup_cons in Hnd as [Hnin Hnd]. rewrite filter_cons. simpl. case_decide as E.
  - subst k. simpl. change (dict_get (name a) (dict_of l (dict_set (name a) (val a) m)) = Some (val a)).
    rewrite dict_of_get by done. apply dict_get_set_eq.
  - etrans; [apply IH; done|]. by rewrite dict_get_set_ne.
Qed.
End fold_dict.

Lemma all_balances_get d name : NoDup (acc_name <$> accounts d) →
  dict_get name (all_balances d) = match balance name d with Ok b => Some b | Err _ => None end.
Proof.
  intros Hnd. unfold all_balances, account_balances. rewrite balance_find.
  assert (∀ l m, foldl (λ m '(a, bal), dict_set (acc_name a) bal m) m
                   ((λ a, (a, balance_minor a (entries d))) <$> l) =
                 dict_of acc_name (λ a, balance_minor a (entries d)) l m) as ->.
  { unfold dict_of. induction l as [|a l IH]; intros m; [done|]. apply IH. }
  rewrite dict_of_find by done. unfold find_account. by destruct (head _).
Qed.

(** The chart of accounts has both keys. *)
Lemma seed_names_NoDup : NoDup (acc_name <$> seed_accounts).
Proof. apply (bool_decide_unpack _). vm_compute. exact I. Qed.
Lemma seed_ids_NoDup : NoDup (acc_id <$> seed_accounts).
Proof. apply (bool_decide_unpack _). vm_compute. exact I. Qed.

(** What an entry does to the balance of an account. *)
Definition entry_effect (a : account) (e : entry) : Z :=
  if bool_decide (account_name e = acc_name a)
  then (if bool_decide (dir e = acc_normal a) then amount_minor e else - amount_minor e) else 0.

(** What the row of an entry does to the balance of an account. *)
Definition row_effect (a : account) (e : entry_row) : Z :=
  if bool_decide (e_account e = acc_id a) then (if bool_decide (e_dir e = acc_normal a) then e_amount e else - e_amount e) else 0.

Lemma entry_row_effect d id a e : rows_ok d → entry_acceptable d e → find_account (acc_name a) d = Some a →
  row_effect a (entry_row_of d id e) = entry_effect a e.
Proof.
  intros Hr (_ & a' & Hf & _) Ha. unfold row_effect, entry_row_of, entry_effect. rewrite Hf. simpl.
  destruct (find_account_Some _ _ _ Hf) as [Hin' Hn'], (find_account_Some _ _ _ Ha) as [Hin _].
  destruct (decide (account_name e = acc_name a)) as [E|E].
  - assert (a = a') as <- by (rewrite E, Ha in Hf; congruence).
    by rewrite (bool_decide_true (acc_id a = _)), (bool_decide_true (account_name e = _)) by done.
  - rewrite (bool_decide_false (account_name e = _)) by done. rewrite bool_decide_false; [done|].
    intros E'. assert (a' = a) as -> by (by eapply account_by_id). congruence.
Qed.

Lemma balance_posted d txn a : rows_ok d → acceptable d txn →
  find_account (acc_name a) d = Some a →
  balance_minor a (entries (posted_db d txn)) =
    balance_minor a (entries d) + Zsum (entry_effect a) (lt_entries txn).
Proof.
  intros Hr (_ & Hacc & _) Ha. unfold balance_minor. simpl. rewrite Zsum_app, Zsum_fmap. f_equal.
  apply Zsum_ext. intros e He. rewrite Forall_forall in Hacc. apply (entry_row_effect d (lt_id txn) a e); auto.
Qed.

(** ** Properties *)

(** C12: in every state the database can commit, the invariant check passes: it
    reports each currency of the chart of accounts with a difference of zero
    between its debit-normal and its credit-normal balances. *)
Theorem check_passes d : ledger_ok d →
  invariant_ok (check d) = true ∧
  (∀ cur, cur ∈ acc_currency <$> accounts d → ∃ c, c ∈ check d ∧ cc_currency c = cur ∧ difference c = 0).
Proof.
  intros Hok. split.
  - apply forallb_forall_stdpp. intros c [_ Hc]%check_currency. unfold cc_ok.
    by rewrite Hc, conservation.
  - intros cur Hcur. exists (MkCurrencyCheck cur (normal_sum Debit cur d) (normal_sum Credit cur d)).
    split_and!; [|done|].
    + apply list_elem_of_fmap. eexists. split; [done|]. by rewrite sort_strings_elem, elem_of_remove_dups.
    + unfold difference. simpl. rewrite difference_conserved. by apply conservation.
Qed.

Lemma check_passes_witness : invariant_ok (check (posted_db empty_db sample_txn)) = true.
Proof. exact (proj1 (check_passes _ sample_posted_ok)). Defined.

(** Posting an admissible transaction moves the balance read for each
    account by exactly what its entries say: up for an entry on the account's
    normal side, down for the other side, and not at all for an account it does
    not name; an account name that does not exist stays a KeyError. *)
Theorem balance_after_post d txn name : ledger_ok d → acceptable d txn →
  balance name (post [] txn d).2 =
  match find_account name d with
  | Some a => b ← balance name d; mret (b + Zsum (entry_effect a) (lt_entries txn))
  | None => Err (KeyError name)
  end.
Proof.
  intros Hok Hacc. unfold post, post_transaction. rewrite post_loop_acceptable by done. simpl.
  rewrite !balance_find. rewrite (find_account_accounts name (posted_db d txn) d) by done.
  destruct (find_account name d) as [a|] eqn:Ha; [|done]. cbn. f_equal.
  destruct (find_account_Some _ _ _ Ha) as [_ <-]. by apply balance_posted; [apply Hok| |].
Qed.

Lemma balance_after_post_witness :
  balance "revenue" (post [] sample_txn empty_db).2 = Ok 10000.
Proof. exact (balance_after_post empty_db sample_txn "revenue" empty_db_ok sample_acceptable). Defined.
