(* ===== verification/Mapping.v ===== *)
(** src/ledgerproof/stripe_io/mapping.py: from a Stripe event envelope to a
    balanced ledger transaction.  Amounts are JSON integers; any other number
    in an amount field is outside the modelled domain ([IllTyped]). *)
From S2P Require Import Prelude PyVal Hash Ledger Post.

(** ** Reading the envelope *)

(** An amount in minor units. *)
Definition minor_units (v : pyval) : result Z :=
  match v with PInt z => Ok z | _ => Err (IllTyped "amount is not an integer") end.

(** [for x in v] *)
Definition py_iter (v : pyval) : result (list pyval) :=
  match v with
  | PList l => Ok l
  | PDict d => Ok (PStr <$> d.*1)
  | PStr _ => Err (IllTyped "iteration over the characters of a str")
  | _ => Err TypeError
  end.

(** [v or dflt] *)
Definition py_or (v dflt : pyval) : pyval := if truthy v then v else dflt.

Definition _newest_refund (obj : list (string * pyval)) : option (list (string * pyval)) :=
  match dict_get "refunds" obj with
  | Some (PDict refunds) =>
      match dict_get "data" refunds with
      | Some (PList (PDict refund :: _)) => Some refund
      | _ => None
      end
  | _ => None
  end.

Definition money_movement_object_id (event : pyval) : result (option string) :=
  data ← py_get_default event "data" (PDict []);
  obj ← py_get data "object";
  match obj with
  | PDict d =>
      etype ← py_get event "type";
      let newest_id :=
        if bool_decide (as_str etype = Some "charge.refunded") then
          r ← _newest_refund d; i ← dict_get "id" r; as_str i
        else None in
      mret (match newest_id with
            | Some rid => Some rid
            | None => i ← dict_get "id" d; as_str i
            end)
  | _ => mret None
  end.

Definition _charge_fee (obj : pyval) (fee_minor : option Z) : result Z :=
  bt ← py_get obj "balance_transaction";
  bt ← (if is_none bt then
          latest_charge ← py_get obj "latest_charge";
          if is_dict latest_charge then py_get latest_charge "balance_transaction" else mret bt
        else mret bt);
  if is_dict bt then fee ← py_index bt "fee"; py_int fee
  else match fee_minor with
       | Some fee => mret fee
       | None => Err (MissingFeeData (as_str bt))
       end.

(** [sum(int(bt["fee"]) for bt in bts)] *)
Fixpoint sum_fees (bts : list pyval) (acc : Z) : result Z :=
  match bts with
  | [] => mret acc
  | bt :: bts => fee ← py_index bt "fee"; fee ← py_int fee; sum_fees bts (acc + fee)
  end.

Definition _dispute_fee (obj : pyval) (fee_minor : option Z) : result Z :=
  bts ← py_get obj "balance_transactions";
  bts ← py_iter (py_or bts (PList []));
  if (truthy (PList bts) && forallb is_dict bts)%bool then sum_fees bts 0
  else match fee_minor with
       | Some fee => mret fee
       | None => Err (MissingFeeData (head (omap as_str bts)))
       end.

(** The local [add]: zero amounts are skipped. *)
Definition add (currency account : string) (d : direction) (amount : Z) : list entry :=
  if negb (amount =? 0) then [Entry account d amount currency] else [].

Definition handled : list string :=
  ["charge.succeeded"; "payment_intent.succeeded"; "charge.refunded";
   "charge.dispute.created"; "payout.paid"].

(** [datetime.fromtimestamp(v, tz=UTC)], as seconds since the epoch.  What does
    not fit a 64-bit time is an OverflowError, a year outside 1 to 9999 a
    ValueError. *)
Definition min_timestamp : Z := -62135596800.
Definition max_timestamp : Z := 253402300799.
Definition fromtimestamp (v : pyval) : result Z :=
  ts ← as_num v;
  _ ← guard_or ((min_timestamp <=? ts) && (ts <=? max_timestamp))%bool
    (if ((- 2 ^ 63 <=? ts) && (ts <? 2 ^ 63))%bool then ValueError "year is out of range" else OverflowError);
  mret ts.

Definition charge_entries (etype currency : string) (obj : pyval) (fee_minor : option Z) : result (list entry) :=
  gross ← py_index obj (if bool_decide (etype = "payment_intent.succeeded") then "amount_received" else "amount");
  fee ← _charge_fee obj fee_minor;
  gross ← minor_units gross;
  mret (add currency "stripe_balance" Debit (gross - fee) ++
        add currency "processing_fees" Debit fee ++
        add currency "revenue" Credit gross).

Definition refund_entries (currency : string) (obj : pyval) : result (list entry) :=
  let refund := d ← as_dict obj; _newest_refund d in
  amount ← match refund with
           | Some r => match dict_get "amount" r with
                       | Some a => mret a
                       | None => py_index obj "amount_refunded"
                       end
           | None => py_index obj "amount_refunded"
           end;
  amount ← minor_units amount;
  mret (add currency "refunds_contra" Debit amount ++ add currency "stripe_balance" Credit amount).

Definition dispute_entries (currency : string) (obj : pyval) (fee_minor : option Z) : result (list entry) :=
  amount ← py_index obj "amount";
  fee ← _dispute_fee obj fee_minor;
  amount ← minor_units amount;
  mret (add currency "dispute_losses" Debit amount ++
        add currency "processing_fees" Debit fee ++
        add currency "stripe_balance" Credit (amount + fee)).

Definition payout_entries (currency : string) (obj : pyval) : result (list entry) :=
  amount ← py_index obj "amount";
  amount ← minor_units amount;
  mret (add currency "bank" Debit amount ++ add currency "stripe_balance" Credit amount).

(** [event["id"]] where text is concatenated to it. *)
Definition event_id_of (event : pyval) : result string :=
  i ← py_index event "id"; of_option TypeError (as_str i).

Definition build_transaction (event : pyval) (fee_minor : option Z) : result (option ledger_transaction) :=
  etype ← py_index event "type";
  data ← py_index event "data";
  obj ← py_index data "object";
  match etype with
  | PList _ | PDict _ => Err TypeError
  | PStr etype =>
      if bool_decide (etype = "invoice.payment_failed") then mret None
      else
        _ ← guard_or (bool_decide (etype ∈ handled)) (ValueError "unhandled event type");
        cur ← py_index obj "currency";
        cur ← of_option AttributeError (as_str cur);
        let currency := upper cur in
        entries ← (if bool_decide (etype = "charge.succeeded" ∨ etype = "payment_intent.succeeded")
                   then charge_entries etype currency obj fee_minor
                   else if bool_decide (etype = "charge.refunded") then refund_entries currency obj
                   else if bool_decide (etype = "charge.dispute.created")
                        then dispute_entries currency obj fee_minor
                   else payout_entries currency obj);
        event_id ← event_id_of event;
        created ← py_index event "created";
        occurred_at ← fromtimestamp created;
        object_id ← money_movement_object_id event;
        mret (Some (LedgerTransaction (uuid5 ("ledgerproof:" +:+ event_id)) occurred_at entries
                      (Some event_id) object_id (Some etype) None))
  | _ => Err (ValueError "unhandled event type")
  end.

(** ** The shape of what is built *)

(** A part: an account, a side and an amount that may be zero. *)
Definition part : Type := string * direction * Z.
Definition part_side (dr : direction) (p : part) : Z := if bool_decide (p.1.2 = dr) then p.2 else 0.
Definition adds (cur : string) (parts : list part) : list entry :=
  p ← parts; add cur p.1.1 p.1.2 p.2.

Definition seeded (name : string) : Prop := name ∈ acc_name <$> seed_accounts.

(** Parts that balance, on accounts of the chart. *)
Definition parts_ok (parts : list part) : Prop :=
  Zsum (part_side Debit) parts = Zsum (part_side Credit) parts ∧ Forall (λ p, seeded p.1.1) parts.

Definition charge_parts (gross fee : Z) : list part :=
  [("stripe_balance", Debit, gross - fee); ("processing_fees", Debit, fee); ("revenue", Credit, gross)].
Definition refund_parts (amount : Z) : list part :=
  [("refunds_contra", Debit, amount); ("stripe_balance", Credit, amount)].
Definition dispute_parts (amount fee : Z) : list part :=
  [("dispute_losses", Debit, amount); ("processing_fees", Debit, fee); ("stripe_balance", Credit, amount + fee)].
Definition payout_parts (amount : Z) : list part :=
  [("bank", Debit, amount); ("stripe_balance", Credit, amount)].

Lemma parts_ok_intro parts :
  bool_decide (Forall (λ p, p.1.1 ∈ acc_name <$> seed_accounts) parts) = true →
  Zsum (part_side Debit) parts = Zsum (part_side Credit) parts → parts_ok parts.
Proof. intros H%bool_decide_eq_true. by split. Qed.

Ltac parts_tac :=
  apply parts_ok_intro; [done|]; cbn; unfold part_side; cbn;
  repeat case_bool_decide; first [lia | congruence].

Lemma charge_parts_ok g f : parts_ok (charge_parts g f).
Proof. parts_tac. Qed.
Lemma refund_parts_ok a : parts_ok (refund_parts a).
Proof. parts_tac. Qed.
Lemma dispute_parts_ok a f : parts_ok (dispute_parts a f).
Proof. parts_tac. Qed.
Lemma payout_parts_ok a : parts_ok (payout_parts a).
Proof. parts_tac. Qed.
#[export] Hint Resolve charge_parts_ok refund_parts_ok dispute_parts_ok payout_parts_ok : ledger.

Ltac parts_inv H ex :=
  inv_ok H; injection H as <-; ex; cbn; by rewrite ?app_nil_r.

Lemma charge_entries_parts etype cur obj fee l : charge_entries etype cur obj fee = Ok l →
  ∃ g f, l = adds cur (charge_parts g f).
Proof. unfold charge_entries. intros H. parts_inv H ltac:(do 2 eexists). Qed.
Lemma refund_entries_parts cur obj l : refund_entries cur obj = Ok l →
  ∃ a, l = adds cur (refund_parts a).
Proof. unfold refund_entries. intros H. parts_inv H ltac:(eexists). Qed.
Lemma dispute_entries_parts cur obj fee l : dispute_entries cur obj fee = Ok l →
  ∃ a f, l = adds cur (dispute_parts a f).
Proof. unfold dispute_entries. intros H. parts_inv H ltac:(do 2 eexists). Qed.
Lemma payout_entries_parts cur obj l : payout_entries cur obj = Ok l →
  ∃ a, l = adds cur (payout_parts a).
Proof. unfold payout_entries. intros H. parts_inv H ltac:(eexists). Qed.

(** Everything a built transaction says of its event. *)
Record built (event : pyval) (t : ledger_transaction) : Prop := {
  built_type : ∃ ty, py_index event "type" = Ok (PStr ty) ∧ event_type t = Some ty ∧ ty ∈ handled;
  built_id : ∃ i, py_index event "id" = Ok (PStr i) ∧ stripe_event_id t = Some i ∧
                  lt_id t = uuid5 ("ledgerproof:" +:+ i);
  built_object : money_movement_object_id event = Ok (stripe_object_id t);
  built_entries : ∃ cur parts, parts_ok parts ∧ lt_entries t = adds (upper cur) parts ∧
                  ∃ data obj, py_index event "data" = Ok data ∧ py_index data "object" = Ok obj ∧
                              py_index obj "currency" = Ok (PStr cur) }.

Lemma build_transaction_built event fee t :
  build_transaction event fee = Ok (Some t) → built event t.
Proof.
  unfold build_transaction, event_id_of. intros H. apply bind_Ok in H as (ty & Ety & H).
  apply bind_Ok in H as (data & Edata & H). apply bind_Ok in H as (obj & Eobj & H).
  destruct ty as [| | | |ty| |]; try done.
  destruct (bool_decide (ty = _)); [done|]. inv_ok H. simplify_eq. bool_to_prop.
  repeat match goal with E : as_str _ = Some _ |- _ => apply as_str_Some in E as -> end.
  match goal with E : py_index obj _ = Ok (PStr ?c) |- _ => rename c into cur end.
  match goal with E : (if _ then _ else _) = Ok ?l |- _ => rename E into Hl; set (entries := l) in * end.
  split; cbn.
  - exists ty. by split_and!.
  - eauto.
  - done.
  - assert (∃ parts, parts_ok parts ∧ entries = adds (upper cur) parts) as (parts & ? & ?); [|by eauto 10].
    clear -Hl. repeat case_bool_decide.
    + apply charge_entries_parts in Hl as (? & ? & ?). eauto with ledger.
    + apply refund_entries_parts in Hl as (? & ?). eauto with ledger.
    + apply dispute_entries_parts in Hl as (? & ? & ?). eauto with ledger.
    + apply payout_entries_parts in Hl as (? & ?). eauto with ledger.
Qed.

(** ** When the schema admits what is built *)
Lemma add_total dr c cur acct sd z :
  entries_total dr c (add cur acct sd z) =
  if bool_decide (sd = dr ∧ char3 cur = Ok c) then z else 0.
Proof.
  unfold add, entries_total. destruct (z =? 0) eqn:E; cbn; bool_to_prop.
  - subst. by case_bool_decide.
  - lia.
Qed.
Lemma adds_total dr c cur parts :
  entries_total dr c (adds cur parts) =
  if bool_decide (char3 cur = Ok c) then Zsum (part_side dr) parts else 0.
Proof.
  induction parts as [|p parts IH]; [by case_bool_decide|].
  change (adds cur (p :: parts)) with (add cur p.1.1 p.1.2 p.2 ++ adds cur parts).
  unfold entries_total at 1. rewrite Zsum_app.
  fold (entries_total dr c (add cur p.1.1 p.1.2 p.2)) (entries_total dr c (adds cur parts)).
  rewrite IH, add_total, Zsum_cons. unfold part_side.
  repeat case_bool_decide; first [lia | exfalso; naive_solver].
Qed.
Lemma adds_balanced cur parts : parts_ok parts → entries_balanced (adds cur parts).
Proof. intros [H _] c. rewrite !adds_total. case_bool_decide; congruence. Qed.
Lemma adds_elem e cur parts : parts_ok parts → e ∈ adds cur parts →
  seeded (account_name e) ∧ currency e = cur ∧ amount_minor e ≠ 0.
Proof.
  intros [_ Hs] (p & He & Hp)%list_elem_of_bind. unfold add in He. rewrite Forall_forall in Hs.
  destruct (p.2 =? 0) eqn:E; cbn in He; [by apply not_elem_of_nil in He|].
  apply list_elem_of_singleton in He as ->. bool_to_prop. split_and!; [by apply Hs|done|done].
Qed.

Lemma find_seeded name d : accounts d = seed_accounts → seeded name →
  ∃ a, find_account name d = Some a ∧ acc_currency a = "USD".
Proof.
  unfold seeded, find_account. intros ->. cbn.
  repeat (intros [->|H]%elem_of_cons; [by eexists|revert H]). by intros ?%not_elem_of_nil.
Qed.

(** Balanced, positive and not empty: at least two entries. *)
Lemma balanced_two l : entries_balanced l → l ≠ [] →
  Forall (λ e, 0 < amount_minor e ∧ is_ok (char3 (currency e)) = true) l → (2 <= length l)%nat.
Proof.
  intros Hb Hne Hp. destruct l as [|e [|e' l]]; [done| |simpl; lia].
  apply Forall_cons in Hp as [[Hpos Hok] _].
  destruct (char3 (currency e)) as [c|] eqn:Ec; [|done]. specialize (Hb c).
  unfold entries_total in Hb. cbn in Hb. rewrite Ec in Hb.
  destruct (dir e) eqn:Ed; repeat case_bool_decide; naive_solver lia.
Qed.

Lemma built_acceptable d t event : built event t → accounts d = seed_accounts →
  acceptable d t ↔
  fresh_txn d t ∧ lt_entries t ≠ [] ∧
  Forall (λ e, 0 < amount_minor e <= bigint_max ∧ char3 (currency e) = Ok "USD") (lt_entries t).
Proof.
  intros [_ _ _ (cur & parts & Hp & He & _)] Ha.
  assert (Forall (entry_acceptable d) (lt_entries t) ↔
    Forall (λ e, 0 < amount_minor e <= bigint_max ∧ char3 (currency e) = Ok "USD") (lt_entries t)) as Hiff.
  { rewrite !Forall_forall. split; intros H e Hin; specialize (H e Hin); rewrite He in Hin;
      destruct (adds_elem _ _ _ Hp Hin) as (Hs & _); destruct (find_seeded _ d Ha Hs) as (a & Hf & Hu).
    - destruct H as (? & a' & ? & ?). split; [done|congruence].
    - destruct H as [? ?]. split; [done|]. exists a. split; [done|congruence]. }
  unfold acceptable. rewrite Hiff. split.
  - intros (? & ? & _ & Hl). split_and!; try done. intros E. rewrite E in Hl. simpl in Hl. lia.
  - intros (? & Hne & Hall). assert (entries_balanced (lt_entries t)) as Hb by (rewrite He; by apply adds_balanced).
    split_and!; try done. apply balanced_two; [done..|].
    eapply Forall_impl; [exact Hall|]. intros e [[? _] Hc]. cbn. split; [done|]. by rewrite Hc.
Qed.

(** ** Fees *)

Definition no_missing {A} (r : result A) : bool :=
  match r with Err (MissingFeeData _) => false | _ => true end.

Lemma no_missing_bind {A B} (m : result A) (f : A → result B) :
  no_missing m = true → (∀ a, no_missing (f a) = true) → no_missing (m ≫= f) = true.
Proof. destruct m; cbn; auto. Qed.
Lemma no_missing_of_option {A} e (o : option A) :
  no_missing (A := A) (Err e) = true → no_missing (of_option e o) = true.
Proof. by destruct o. Qed.
Lemma no_missing_guard b e : no_missing (A := ()) (Err e) = true → no_missing (guard_or b e) = true.
Proof. by destruct b. Qed.
Lemma no_missing_index v k : no_missing (py_index v k) = true.
Proof. destruct v; try done. by apply no_missing_of_option. Qed.
Lemma no_missing_get v k x : no_missing (py_get_default v k x) = true.
Proof. by destruct v. Qed.
Lemma no_missing_num v : no_missing (as_num v) = true.
Proof. by destruct v. Qed.
Lemma no_missing_int v : no_missing (py_int v) = true.
Proof. destruct v; try done. by apply no_missing_of_option. Qed.
Lemma no_missing_minor v : no_missing (minor_units v) = true.
Proof. by destruct v. Qed.
Lemma no_missing_iter v : no_missing (py_iter v) = true.
Proof. by destruct v. Qed.
Lemma no_missing_ok {A} (a : A) : no_missing (mret a) = true.
Proof. done. Qed.
Create HintDb fees discriminated.
#[export] Hint Resolve no_missing_index no_missing_get no_missing_num no_missing_int
  no_missing_minor no_missing_iter no_missing_ok : fees.

(** Walk through a computation whose steps never miss a fee. *)
Ltac fees :=
  repeat first
    [ progress auto with fees nocore
    | apply no_missing_bind; [|intros ?]
    | apply no_missing_of_option; reflexivity
    | apply no_missing_guard; reflexivity
    | reflexivity
    | case_match ].

Lemma no_missing_sum bts : ∀ acc, no_missing (sum_fees bts acc) = true.
Proof. induction bts as [|b bts IH]; intros acc; cbn [sum_fees]; fees. Qed.
#[export] Hint Resolve no_missing_sum : fees.

Lemma no_missing_object event : no_missing (money_movement_object_id event) = true.
Proof. unfold money_movement_object_id, py_get. fees. Qed.
Lemma no_missing_charge obj fee : no_missing (_charge_fee obj (Some fee)) = true.
Proof. unfold _charge_fee, py_get. fees. Qed.
Lemma no_missing_dispute obj fee : no_missing (_dispute_fee obj (Some fee)) = true.
Proof. unfold _dispute_fee, py_get. fees. Qed.
#[export] Hint Resolve no_missing_object no_missing_charge no_missing_dispute : fees.

(** ** A charge event *)

(** The fields of a charge.succeeded event the mapping reads; [bt] is its
    balance transaction, an id or an expanded object. *)
Definition charge_event (event_id charge_id cur : string) (gross created : Z) (bt : pyval) : pyval :=
  PDict [("id", PStr event_id); ("type", PStr "charge.succeeded"); ("created", PInt created);
         ("data", PDict [("object", PDict [("id", PStr charge_id); ("amount", PInt gross);
            ("currency", PStr cur); ("balance_transaction", bt)])])].

Lemma build_charge event_id charge_id gross fee created bt fee_minor :
  min_timestamp <= created <= max_timestamp →
  (bt = PDict [("fee", PInt fee)] ∨ (∃ s, bt = PStr s) ∧ fee_minor = Some fee) →
  build_transaction (charge_event event_id charge_id "usd" gross created bt) fee_minor =
  Ok (Some (LedgerTransaction (uuid5 ("ledgerproof:" +:+ event_id)) created
    (adds "USD" (charge_parts gross fee)) (Some event_id) (Some charge_id) (Some "charge.succeeded") None)).
Proof.
  intros Hc Hbt.
  set (obj := PDict [("id", PStr charge_id); ("amount", PInt gross);
                     ("currency", PStr "usd"); ("balance_transaction", bt)]).
  assert (charge_entries "charge.succeeded" "USD" obj fee_minor = Ok (adds "USD" (charge_parts gross fee))) as He.
  { unfold adds, charge_parts. destruct Hbt as [->|[[s ->] ->]]; cbn; by rewrite app_nil_r. }
  assert (fromtimestamp (PInt created) = Ok created) as Ht.
  { unfold fromtimestamp. cbn. by rewrite !(proj2 (Z.leb_le _ _)) by lia. }
  set (event := charge_event _ _ _ _ _ _).
  assert (money_movement_object_id event = Ok (Some charge_id)) as Ho by reflexivity.
  unfold build_transaction, event_id_of. rewrite Ho.
  change (py_index event "type") with (Ok (PStr "charge.succeeded")).
  change (py_index event "data") with (Ok (PDict [("object", obj)])).
  change (py_index event "id") with (Ok (PStr event_id)).
  change (py_index event "created") with (Ok (PInt created)).
  rewrite !bind_ok_run. change (py_index (PDict [("object", obj)]) "object") with (Ok obj).
  rewrite bind_ok_run, bool_decide_false by done.
  change (py_index obj "currency") with (Ok (PStr "usd")).
  rewrite (bool_decide_true (_ ∈ handled)) by set_solver. cbn [guard_or as_str of_option].
  rewrite !bind_ok_run. cbn [as_str of_option]. rewrite bind_ok_run. cbv zeta.
  change (upper "usd") with "USD". rewrite bool_decide_true by by left. rewrite He. rewrite !bind_ok_run. by rewrite Ht.
Qed.

(** ** Properties *)

(** Every transaction built from an event balances in each currency, has
    no zero entry, names accounts of the chart only, and carries an id derived
    from the event id alone, whatever the fee. *)
Theorem build_transaction_balanced event fee t :
  build_transaction event fee = Ok (Some t) →
  entries_balanced (lt_entries t) ∧
  Forall (λ e, amount_minor e ≠ 0 ∧ seeded (account_name e)) (lt_entries t) ∧
  ∃ i, py_index event "id" = Ok (PStr i) ∧ stripe_event_id t = Some i ∧
       lt_id t = uuid5 ("ledgerproof:" +:+ i).
Proof.
  intros [_ Hid _ (cur & parts & Hp & -> & _)]%build_transaction_built.
  split_and!; [by apply adds_balanced| |done].
  apply Forall_forall. intros e He. by destruct (adds_elem _ _ _ Hp He) as (? & _ & ?).
Qed.

Lemma build_transaction_balanced_witness :
  ∃ t, build_transaction (charge_event "evt_1" "ch_1" "usd" 100 1700000000 (PDict [("fee", PInt 3)])) None
       = Ok (Some t) ∧ entries_balanced (lt_entries t).
Proof.
  eexists. split; [apply (build_charge "evt_1" "ch_1" 100 3); [done|by left]|].
  refine (proj1 (build_transaction_balanced
    (charge_event "evt_1" "ch_1" "usd" 100 1700000000 (PDict [("fee", PInt 3)])) None _ _)).
  apply build_charge; [done|by left].
Defined.

(** C16: on the seeded chart of accounts, posting what an event maps to can fail
    for four reasons only: its id or a dedupe key is taken, every amount is
    zero, an amount is negative or too large, or the currency is not USD. *)
Theorem build_transaction_acceptable event fee t d :
  build_transaction event fee = Ok (Some t) → accounts d = seed_accounts →
  acceptable d t ↔
  fresh_txn d t ∧ lt_entries t ≠ [] ∧
  Forall (λ e, 0 < amount_minor e <= bigint_max ∧ char3 (currency e) = Ok "USD") (lt_entries t).
Proof. intros Hb%build_transaction_built. by apply built_acceptable with event. Qed.

Lemma build_transaction_acceptable_witness :
  ∃ t, build_transaction (charge_event "evt_1" "ch_1" "usd" 100 1700000000 (PDict [("fee", PInt 3)])) None
       = Ok (Some t) ∧ acceptable empty_db t.
Proof.
  eexists. split; [apply (build_charge "evt_1" "ch_1" 100 3); [done|by left]|].
  apply (build_transaction_acceptable
    (charge_event "evt_1" "ch_1" "usd" 100 1700000000 (PDict [("fee", PInt 3)])) None).
  - apply build_charge; [done|by left].
  - done.
  - split_and!; [|done|by repeat constructor].
    intros r Hr. by apply not_elem_of_nil in Hr.
Defined.

(** A charge of a positive gross in USD is mapped, and the schema admits it
    exactly when its fee lies between zero and the gross: a fee above the gross
    gives a negative net entry, which no table row may hold. *)
Theorem charge_acceptable_iff event_id charge_id gross fee created bt fee_minor d :
  0 < gross <= bigint_max → min_timestamp <= created <= max_timestamp →
  (bt = PDict [("fee", PInt fee)] ∨ (∃ s, bt = PStr s) ∧ fee_minor = Some fee) →
  accounts d = seed_accounts →
  ∃ t, build_transaction (charge_event event_id charge_id "usd" gross created bt) fee_minor = Ok (Some t) ∧
       (fresh_txn d t → acceptable d t ↔ 0 <= fee <= gross).
Proof.
  intros Hg Hc Hbt Ha.
  assert (Hb : ∃ t, build_transaction (charge_event event_id charge_id "usd" gross created bt) fee_minor
      = Ok (Some t) ∧ lt_entries t = adds "USD" (charge_parts gross fee)).
  { eexists. by rewrite (build_charge _ _ gross fee) by done. }
  destruct Hb as (t & Ht & He). exists t. split; [done|]. intros Hf.
  rewrite (built_acceptable d t _ (build_transaction_built _ _ _ Ht) Ha), He.
  unfold adds, charge_parts, add. cbn.
  destruct (gross - fee =? 0) eqn:E1, (fee =? 0) eqn:E2, (gross =? 0) eqn:E3; cbn;
    rewrite ?Forall_cons, ?Forall_nil; cbn [amount_minor currency]; bool_to_prop;
    split; intros; destruct_and?; split_and?; (done || lia).
Qed.

Lemma charge_acceptable_iff_witness :
  ∃ t, build_transaction (charge_event "evt_1" "ch_1" "usd" 25 1700000000 (PStr "txn_1")) (Some 30) = Ok (Some t) ∧
       (fresh_txn empty_db t → acceptable empty_db t ↔ 0 <= 30 <= 25).
Proof.
  apply (charge_acceptable_iff "evt_1" "ch_1" 25 30 1700000000 (PStr "txn_1") (Some 30) empty_db).
  - unfold bigint_max. lia.
  - unfold min_timestamp, max_timestamp. lia.
  - right. split; [by eexists|done].
  - done.
Defined.

(** The mapping returns None for invoice.payment_failed only, and ValueError
    for a type it does not handle; it asks for a fee (MissingFeeData) only when
    none was given, so the fetch-and-retry of the worker asks at most once. *)
Theorem build_transaction_errors event ty data obj fee :
  py_index event "type" = Ok (PStr ty) → py_index event "data" = Ok data →
  py_index data "object" = Ok obj →
  (build_transaction event fee = Ok None ↔ ty = "invoice.payment_failed") ∧
  (ty ≠ "invoice.payment_failed" → ty ∉ handled →
     build_transaction event fee = Err (ValueError "unhandled event type")) ∧
  (∀ b, build_transaction event fee = Err (MissingFeeData b) → fee = None).
Proof.
  intros Ety Edata Eobj. split_and!.
  - split; [|by intros ->; unfold build_transaction; rewrite Ety, Edata; cbn; rewrite Eobj].
    unfold build_transaction. rewrite Ety, Edata. cbn. rewrite Eobj. cbn.
    case_bool_decide as E; [done|]. intros H. inv_ok H. done.
  - intros H1 H2. unfold build_transaction. rewrite Ety, Edata. cbn. rewrite Eobj. cbn.
    rewrite (bool_decide_false (ty = "invoice.payment_failed")) by done.
    by rewrite (bool_decide_false (ty ∈ handled)).
  - intros b H. destruct fee as [fee|]; [exfalso|done].
    assert (no_missing (build_transaction event (Some fee)) = true) as Hn; [|by rewrite H in Hn].
    unfold build_transaction, event_id_of, fromtimestamp, charge_entries, refund_entries,
      dispute_entries, payout_entries. fees.
Qed.

Lemma build_transaction_errors_witness :
  build_transaction (charge_event "evt_1" "ch_1" "usd" 100 1700000000 PNone) (Some 30) ≠
    Err (MissingFeeData None).
Proof.
  intros H. discriminate (proj2 (proj2 (build_transaction_errors
    (charge_event "evt_1" "ch_1" "usd" 100 1700000000 PNone) "charge.succeeded" _ _ (Some 30)
    eq_refl eq_refl eq_refl)) None H).
Defined.
