(* ===== verification/Signature.v ===== *)
(** src/ledgerproof/stripe_io/signature.py: building and verifying the
    Stripe-Signature header.  [time.time()] is the argument [clock]. *)
From S2P Require Import Prelude PyVal Hash.

Definition DEFAULT_TOLERANCE_SECONDS : Z := 300.

(** What is passed as the body: bytes, or something else. *)
Inductive raw_body := RawBytes (s : string) | NotBytes.

Definition _v1_digest (payload secret : string) (timestamp : Z) : string :=
  hexdigest (hmac_sha256 (bytes_of secret) (bytes_of (str_of_Z timestamp +:+ "." +:+ payload))).

(** ** sign *)
Definition signature_schemes (payload secret : string) (ts : Z) (extra_v1_secrets : list string)
    (include_v0 : bool) (only_schemes : option (list string)) : list (string * string) :=
  let schemes := (λ s, ("v1", _v1_digest payload s ts)) <$> secret :: extra_v1_secrets in
  let wants_v0 :=
    (include_v0 || match only_schemes with Some l => bool_decide ("v0" ∈ l) | None => false end)%bool in
  let schemes := if wants_v0 then schemes ++ [("v0", _v1_digest payload secret ts)] else schemes in
  match only_schemes with
  | Some l => filter (λ kv, kv.1 ∈ l) schemes
  | None => schemes
  end.

Definition header_item (kv : string * string) : string := kv.1 +:+ "=" +:+ kv.2.

Definition sign (payload secret : string) (timestamp : option Z) (clock : Z)
    (extra_v1_secrets : list string) (include_v0 : bool) (only_schemes : option (list string)) : string :=
  let ts := default clock timestamp in
  join "," (header_item <$> ("t", str_of_Z ts) ::
            signature_schemes payload secret ts extra_v1_secrets include_v0 only_schemes).

(** ** verify *)
Definition reject {A} (reason : string) : result A := Err (SignatureVerificationError reason).

(** The loop over the comma-separated items. *)
Fixpoint parse_items (items : list string) (timestamps : list Z) (v1_candidates : list string)
    : result (list Z * list string) :=
  match items with
  | [] => mret (timestamps, v1_candidates)
  | item :: items =>
      let '(key, sep, value) := partition "=" item in
      if (negb sep || bool_decide (key = "") || bool_decide (value = ""))%bool
      then reject "malformed header item"
      else if bool_decide (key = "t") then
        match int_of_str value with
        | Some t => parse_items items (timestamps ++ [t]) v1_candidates
        | None => reject "non-integer timestamp"
        end
      else if bool_decide (key = "v1") then parse_items items timestamps (v1_candidates ++ [value])
      else parse_items items timestamps v1_candidates
  end.

(** Every candidate is compared; any match accepts. *)
Definition any_match (expected : string) (v1_candidates : list string) : bool :=
  foldl (λ matched candidate, if bool_decide (expected = candidate) then true else matched)
        false v1_candidates.

Definition verify (payload : raw_body) (sig_header secret : string) (tolerance : Z)
    (now : option Z) (clock : Z) : result () :=
  if tolerance <=? 0 then Err (ValueError "tolerance must be a positive number of seconds")
  else match payload with
  | NotBytes => reject "payload must be the raw request body bytes"
  | RawBytes payload =>
      if bool_decide (payload = "") then reject "empty body"
      else
        parsed ← parse_items (split "," sig_header) [] [];
        let '(timestamps, v1_candidates) := parsed in
        match timestamps with
        | [ts] =>
            if bool_decide (v1_candidates = []) then reject "no v1 signatures in header"
            else
              let now_s := default clock now in
              if tolerance <? Z.abs (now_s - ts) then reject "timestamp outside tolerance"
              else if any_match (_v1_digest payload secret ts) v1_candidates then mret ()
              else reject "no v1 signature matched"
        | _ => reject "header must carry exactly one t=<unix> item"
        end
  end.

(** ** Specification: what a header says *)
Definition item_of (s : string) : option (string * string) :=
  let '(key, sep, value) := partition "=" s in
  if (sep && negb (bool_decide (key = "")) && negb (bool_decide (value = "")))%bool
  then Some (key, value) else None.

Definition timestamps_of (items : list (string * string)) : list (option Z) :=
  (λ kv, int_of_str kv.2) <$> filter (λ kv, kv.1 = "t") items.
Definition candidates_of (items : list (string * string)) : list string :=
  snd <$> filter (λ kv, kv.1 = "v1") items.

(** The header is well-formed, dated [ts], and carries a v1 signature of the
    payload under the secret. *)
Definition authentic (payload sig_header secret : string) (ts : Z) : Prop :=
  ∃ items, mapM item_of (split "," sig_header) = Some items ∧
           timestamps_of items = [Some ts] ∧ _v1_digest payload secret ts ∈ candidates_of items.

(** ** Lemmas *)
#[global] Arguments any_match : simpl never.
Lemma any_match_true e l : any_match e l = true ↔ e ∈ l.
Proof.
  unfold any_match. assert (∀ b, foldl (λ matched candidate,
    if bool_decide (e = candidate) then true else matched) b l = true ↔ b = true ∨ e ∈ l) as H.
  { induction l as [|x l IH]; intros b; simpl; [set_solver|].
    rewrite IH, elem_of_cons. case_bool_decide; naive_solver. }
  rewrite H. naive_solver.
Qed.

Lemma timestamps_cons k v items : timestamps_of ((k, v) :: items) =
  if decide (k = "t") then int_of_str v :: timestamps_of items else timestamps_of items.
Proof. unfold timestamps_of. rewrite filter_cons. simpl. by case_decide. Qed.
Lemma candidates_cons k v items : candidates_of ((k, v) :: items) =
  if decide (k = "v1") then v :: candidates_of items else candidates_of items.
Proof. unfold candidates_of. rewrite filter_cons. simpl. by case_decide. Qed.

Lemma parse_items_spec l : ∀ ts cs,
  match parse_items l ts cs with
  | Ok (ts', cs') => ∃ items new, mapM item_of l = Some items ∧
      timestamps_of items = Some <$> new ∧ ts' = ts ++ new ∧ cs' = cs ++ candidates_of items
  | Err x => (∃ r, x = SignatureVerificationError r) ∧
      ∀ items, mapM item_of l = Some items → None ∈ timestamps_of items
  end.
Proof.
  induction l as [|s l IH]; intros ts cs; cbn [parse_items mapM].
  { exists [], []. split_and!; [done|done|by rewrite app_nil_r|symmetry; apply app_nil_r]. }
  destruct (partition "=" s) as [[key sep] value] eqn:Ep.
  assert (item_of s = if (sep && negb (bool_decide (key = "")) && negb (bool_decide (value = "")))%bool
                      then Some (key, value) else None) as Hi by (unfold item_of; by rewrite Ep).
  rewrite !Hi. clear Ep Hi.
  destruct sep; simpl; [|split; [by eexists|done]].
  destruct (bool_decide (key = "")) eqn:E1; simpl; [split; [by eexists|done]|].
  destruct (bool_decide (value = "")) eqn:E2; simpl; [split; [by eexists|done]|].
  destruct (bool_decide (key = "t")) eqn:Ht; bool_to_prop; [subst key|].
  - destruct (int_of_str value) as [t|] eqn:Ev.
    + specialize (IH (ts ++ [t]) cs). destruct (parse_items l _ _) as [[ts' cs']|x].
      * destruct IH as (items & new & -> & H1 & -> & ->). exists (("t", value) :: items), (t :: new).
        split_and!; [done| |by rewrite <- app_assoc|done].
        by rewrite timestamps_cons, decide_True, H1, Ev by done.
      * destruct IH as [H1 H2]. split; [done|]. intros items (items' & Hm & [= <-])%bind_Some.
        rewrite timestamps_cons, decide_True by done. right. by apply H2.
    + split; [by eexists|]. intros items (items' & Hm & [= <-])%bind_Some.
      rewrite timestamps_cons, decide_True, Ev by done. left.
  - assert (∀ items, timestamps_of ((key, value) :: items) = timestamps_of items) as Hskip.
    { intros items. by rewrite timestamps_cons, decide_False. }
    set (cs1 := if bool_decide (key = "v1") then cs ++ [value] else cs).
    assert (∀ items, cs1 ++ candidates_of items = cs ++ candidates_of ((key, value) :: items)) as Hcs.
    { intros items. unfold cs1. rewrite candidates_cons.
      case_decide; [rewrite bool_decide_true by done; by rewrite <- app_assoc|by rewrite bool_decide_false]. }
    assert ((if bool_decide (key = "v1") then parse_items l ts (cs ++ [value]) else parse_items l ts cs)
            = parse_items l ts cs1) as -> by (by unfold cs1; case_bool_decide).
    specialize (IH ts cs1). destruct (parse_items l ts cs1) as [[ts' cs']|x].
    + destruct IH as (items & new & -> & H1 & -> & ->). exists ((key, value) :: items), new.
      split_and!; [done|by rewrite Hskip|done|done].
    + destruct IH as [H1 H2]. split; [done|]. intros items (items' & Hm & [= <-])%bind_Some.
      rewrite Hskip. by apply H2.
Qed.

(** Hexadecimal text has none of the header's separators. *)
Lemma hex_digit_plain x : 0 <= x < 16 → hex_digit x ≠ ","%char ∧ hex_digit x ≠ "="%char.
Proof.
  intros H. assert (x ∈ seqZ 0 16) as Hin by (apply elem_of_seqZ; lia).
  clear H. revert x Hin. apply Forall_forall. apply (bool_decide_unpack _). vm_compute. exact I.
Qed.

Definition plain (c : ascii) : Prop := c ≠ ","%char ∧ c ≠ "="%char.

Lemma hexdigest_plain l : Forall (λ x, 0 <= x < 256) l → Forall plain (chars (hexdigest l)).
Proof.
  intros H. unfold hexdigest. rewrite chars_of_chars. induction H as [|x l Hx H IH]; [constructor|].
  cbn. constructor; [|constructor; [|exact IH]]; apply hex_digit_plain.
  - rewrite Z.shiftr_div_pow2 by done. split; [apply Z.div_pos; lia|apply Z.div_lt_upper_bound; lia].
  - change 15 with (Z.ones 4). rewrite Z.land_ones by done. by apply Z.mod_pos_bound.
Qed.

Lemma be_bytes_range n x : Forall (λ x, 0 <= x < 256) (be_bytes n x).
Proof.
  induction n as [|n IH]; cbn [be_bytes]; constructor; [|done].
  change 255 with (Z.ones 8). rewrite Z.land_ones by done. by apply Z.mod_pos_bound.
Qed.
Lemma digest_range compress init l : Forall (λ x, 0 <= x < 256) (digest compress init l).
Proof.
  unfold digest. apply Forall_bind, Forall_true. intros. apply be_bytes_range.
Qed.
Lemma v1_digest_plain payload secret ts : Forall plain (chars (_v1_digest payload secret ts)).
Proof. apply hexdigest_plain, digest_range. Qed.

(** A digest is not empty. *)
Lemma round256_length s kw : length s = 8%nat → length (round256 s kw) = 8%nat.
Proof. do 9 (destruct s as [|? s]; try done). Qed.
Lemma compress256_length s b : length s = 8%nat → length (compress256 s b) = 8%nat.
Proof.
  intros Hs. unfold compress256. rewrite length_zip_with.
  assert (∀ l s, length s = 8%nat → length (foldl round256 s l) = 8%nat) as H.
  { induction l as [|x l IH]; intros s' ?; [done|]. by apply IH, round256_length. }
  rewrite H by done. lia.
Qed.
Lemma sha256_nonempty l : sha256 l ≠ [].
Proof.
  unfold sha256, digest.
  assert (∀ n s m, length s = 8%nat → length (digest_blocks compress256 n s m) = 8%nat) as H.
  { induction n as [|n IH]; intros s m ?; [done|]. by apply IH, compress256_length. }
  specialize (H (length (pad l) / 64)%nat h256 (pad l) eq_refl).
  by destruct (digest_blocks _ _ _ _).
Qed.
Lemma v1_digest_nonempty payload secret ts : _v1_digest payload secret ts ≠ "".
Proof.
  unfold _v1_digest, hexdigest, hmac_sha256. cbv zeta. intros H%(f_equal chars). rewrite chars_of_chars in H.
  set (l := sha256 _) in H. destruct l eqn:E; [by apply sha256_nonempty in E|done].
Qed.

Lemma str_of_Z_plain z : Forall plain (chars (str_of_Z z)).
Proof.
  eapply Forall_impl; [apply str_of_Z_chars|]. intros c [H| ->]; [|done].
  split; by apply digit_neq.
Qed.
Lemma str_of_Z_nonempty z : Z.abs z < 10 ^ int_max_str_digits → str_of_Z z ≠ "".
Proof. intros H%int_of_str_of_Z E. by rewrite E in H. Qed.

(** Reading back the items of a header. *)
Definition good_item (kv : string * string) : Prop :=
  kv.1 ≠ "" ∧ kv.2 ≠ "" ∧ Forall plain (chars kv.1) ∧ Forall plain (chars kv.2).

Lemma plain_no c l : (c = ","%char ∨ c = "="%char) → Forall plain l → c ∉ l.
Proof. intros Hc H Hin. rewrite Forall_forall in H. destruct (H c Hin). naive_solver. Qed.

Lemma item_of_header kv : good_item kv → item_of (header_item kv) = Some kv.
Proof.
  destruct kv as [k v]. intros (H1 & H2 & H3 & H4). cbn in *. unfold item_of, header_item, partition. cbn [fst snd].
  rewrite !chars_app. change (chars "=") with ["="%char]. cbn [app].
  rewrite partition_chars_app by (apply plain_no; [by right|done]).
  rewrite !of_chars_chars. by rewrite !bool_decide_false by done.
Qed.
Lemma header_parse items : items ≠ [] → Forall good_item items →
  mapM item_of (split "," (join "," (header_item <$> items))) = Some items.
Proof.
  intros Hne H. rewrite split_join.
  - clear Hne. induction H as [|kv items Hkv H IH]; [done|].
    cbn [fmap list_fmap mapM]. rewrite item_of_header by done. simpl. by rewrite IH.
  - by destruct items.
  - apply Forall_fmap. eapply Forall_impl; [exact H|]. intros kv (_ & _ & H1 & H2). unfold compose, header_item.
    rewrite !chars_app. apply not_elem_of_app. split; [by apply plain_no; [left|]|].
    apply not_elem_of_app. split; [set_solver|by apply plain_no; [left|]].
Qed.

Lemma schemes_good payload secret ts extra v0 only kv :
  kv ∈ signature_schemes payload secret ts extra v0 only → kv.1 ∈ ["v1"; "v0"] ∧
  ∃ s, kv.2 = _v1_digest payload s ts.
Proof.
  unfold signature_schemes. intros H.
  assert (∀ kv, kv ∈ (λ s, ("v1", _v1_digest payload s ts)) <$> secret :: extra →
    kv.1 ∈ ["v1"; "v0"] ∧ ∃ s, kv.2 = _v1_digest payload s ts) as H1.
  { intros kv' (s & -> & _)%list_elem_of_fmap. cbn. split; [left|by eexists]. }
  assert (kv ∈ ((λ s, ("v1", _v1_digest payload s ts)) <$> secret :: extra) ++ [("v0", _v1_digest payload secret ts)]) as Hin.
  { destruct only; [apply list_elem_of_filter in H as [_ H]|]; destruct (_ || _)%bool; set_solver. }
  apply elem_of_app in Hin as [?| ->%list_elem_of_singleton]; [by apply H1|].
  cbn. split; [set_solver|by eexists].
Qed.

Lemma schemes_good_secret payload secret ts v0 kv :
  kv ∈ signature_schemes payload secret ts [] v0 None → kv.2 = _v1_digest payload secret ts.
Proof. unfold signature_schemes. destruct v0; cbn; set_solver. Qed.

Definition renders (z : Z) : Prop := Z.abs z < 10 ^ int_max_str_digits.

Lemma renders_small z : Z.abs z < 10 ^ 20 → renders z.
Proof.
  unfold renders. intros H. apply (Z.lt_le_trans _ _ _ H). by apply Z.pow_le_mono_r.
Qed.

Lemma sign_parse payload secret timestamp clock extra v0 only : renders (default clock timestamp) →
  mapM item_of (split "," (sign payload secret timestamp clock extra v0 only)) =
  Some (("t", str_of_Z (default clock timestamp)) ::
        signature_schemes payload secret (default clock timestamp) extra v0 only).
Proof.
  intros Hts. unfold sign. cbv zeta. set (ts := default clock timestamp) in *.
  apply header_parse; [done|]. constructor.
  - split_and!; [done|by apply str_of_Z_nonempty|by repeat constructor|apply str_of_Z_plain].
  - apply Forall_forall. intros [k v] [Hk [s Hv]]%schemes_good. cbn in *. subst v.
    split_and!; cbn; [|apply v1_digest_nonempty| |apply v1_digest_plain].
    + intros ->. set_solver.
    + apply elem_of_cons in Hk as [->| ->%list_elem_of_singleton]; by repeat constructor.
Qed.

Lemma sign_timestamps payload secret ts extra v0 only :
  timestamps_of (("t", str_of_Z ts) :: signature_schemes payload secret ts extra v0 only) = [int_of_str (str_of_Z ts)].
Proof.
  rewrite timestamps_cons, decide_True by done. f_equal. unfold timestamps_of.
  assert (filter (λ kv : string * string, kv.1 = "t") (signature_schemes payload secret ts extra v0 only) = []) as ->; [|done].
  apply elem_of_nil_inv. intros kv [E [Hk _]%schemes_good]%list_elem_of_filter. rewrite E in Hk. set_solver.
Qed.

(** The checks of [verify], as a specification. *)
Lemma verify_spec payload hdr secret tol now clock : 0 < tol →
  match verify (RawBytes payload) hdr secret tol now clock with
  | Ok _ => payload ≠ "" ∧ ∃ ts, authentic payload hdr secret ts ∧ Z.abs (default clock now - ts) <= tol
  | Err x => (∃ r, x = SignatureVerificationError r) ∧
      (payload = "" ∨ ∀ ts, authentic payload hdr secret ts → tol < Z.abs (default clock now - ts))
  end.
Proof.
  intros Htol. unfold verify, authentic. rewrite (proj2 (Z.leb_gt _ _)) by done.
  case_bool_decide as Hp; [split; [by eexists|by left]|].
  pose proof (parse_items_spec (split "," hdr) [] []) as Hs.
  destruct (parse_items _ _ _) as [[tss cs]|x]; cbn.
  2:{ destruct Hs as [Hx Hn]. split; [done|]. right. intros ts (items & Hm & Ht & _).
      specialize (Hn items Hm). rewrite Ht in Hn. set_solver. }
  destruct Hs as (items & new & Hm & Hts & -> & ->). cbn.
  assert (∀ ts, (∃ items, mapM item_of (split "," hdr) = Some items ∧ timestamps_of items = [Some ts] ∧
      _v1_digest payload secret ts ∈ candidates_of items) →
    new = [ts] ∧ _v1_digest payload secret ts ∈ candidates_of items) as Hinv.
  { intros ts (items' & Hm' & Ht' & Hc'). simplify_eq. split; [|done].
    rewrite Hts in Ht'. destruct new as [|? [|]]; by simplify_eq/=. }
  destruct new as [|ts [|]]; [split; [by eexists|]; right; by intros ? [? _]%Hinv| |
                              split; [by eexists|]; right; by intros ? [? _]%Hinv].
  case_bool_decide as Hcs.
  { split; [by eexists|]. right. intros ? [_ Hc]%Hinv. rewrite Hcs in Hc. set_solver. }
  destruct (tol <? _) eqn:Et; bool_to_prop.
  { split; [by eexists|]. right. by intros ? [[= ->] _]%Hinv. }
  destruct (any_match (_v1_digest payload secret ts) (candidates_of items)) eqn:Ea; cbn.
  - apply any_match_true in Ea. split; [done|]. exists ts. split; [|lia]. by exists items.
  - split; [by eexists|]. right. intros ? [[= ->] Hc]%Hinv.
    apply any_match_true in Hc. congruence.
Qed.

(** A header built by [sign], read by [verify]. *)
Lemma signed_accepted payload secret secret' timestamp clock extra v0 tol now clock' :
  0 < tol → payload ≠ "" → renders (default clock timestamp) →
  Z.abs (default clock' now - default clock timestamp) <= tol → secret' ∈ secret :: extra →
  verify (RawBytes payload) (sign payload secret timestamp clock extra v0 None) secret' tol now clock' = Ok ().
Proof.
  intros Htol Hp Hr Hd Hs.
  pose proof (verify_spec payload (sign payload secret timestamp clock extra v0 None) secret' tol now clock' Htol) as H.
  destruct (verify _ _ _ _ _ _) as [[]|x]; [done|exfalso].
  destruct H as [_ [H|H]]; [done|]. apply (Zle_not_lt _ _ Hd), H.
  eexists. rewrite sign_parse, sign_timestamps by done. split_and!; [done|by rewrite int_of_str_of_Z|].
  rewrite candidates_cons, decide_False by done. unfold candidates_of.
  apply list_elem_of_fmap. exists ("v1", _v1_digest payload secret' (default clock timestamp)).
  split; [done|]. apply list_elem_of_filter. split; [done|]. unfold signature_schemes. cbv zeta.
  assert (("v1", _v1_digest payload secret' (default clock timestamp)) ∈
    (λ s, ("v1", _v1_digest payload s (default clock timestamp))) <$> secret :: extra) by
    (apply list_elem_of_fmap; eauto).
  case_match; [apply elem_of_app; by left|done].
Qed.

Lemma v0_refused payload secret secret' timestamp clock extra v0 tol now clock' :
  0 < tol → renders (default clock timestamp) →
  verify (RawBytes payload) (sign payload secret timestamp clock extra v0 (Some ["v0"])) secret' tol now clock' ≠ Ok ().
Proof.
  intros Htol Hr.
  intros H. pose proof (verify_spec payload (sign payload secret timestamp clock extra v0 (Some ["v0"]))
    secret' tol now clock' Htol) as Hv. rewrite H in Hv.
  destruct Hv as (_ & ts & (items & Hm & _ & Hc) & _). rewrite sign_parse in Hm by done. simplify_eq.
  rewrite candidates_cons, decide_False in Hc by done. unfold candidates_of in Hc.
  apply list_elem_of_fmap in Hc as (kv & _ & [Hk Hin]%list_elem_of_filter).
  unfold signature_schemes in Hin. apply list_elem_of_filter in Hin as [Hin _]. rewrite Hk in Hin. set_solver.
Qed.

Lemma signed_collision payload payload' secret timestamp clock v0 tol now clock' :
  0 < tol → renders (default clock timestamp) →
  verify (RawBytes payload') (sign payload secret timestamp clock [] v0 None) secret tol now clock' = Ok () →
  _v1_digest payload' secret (default clock timestamp) = _v1_digest payload secret (default clock timestamp).
Proof.
  intros Htol Hr H. pose proof (verify_spec payload' (sign payload secret timestamp clock [] v0 None)
    secret tol now clock' Htol) as Hv. rewrite H in Hv.
  destruct Hv as (_ & ts & (items & Hm & Ht & Hc) & _). rewrite sign_parse in Hm by done. simplify_eq.
  rewrite sign_timestamps, int_of_str_of_Z in Ht by done. simplify_eq.
  rewrite candidates_cons, decide_False in Hc by done. unfold candidates_of in Hc.
  apply list_elem_of_fmap in Hc as ([k v] & -> & [_ Hin]%list_elem_of_filter).
  apply schemes_good_secret in Hin. by cbn in *.
Qed.

(** A header signed at a time outside the tolerance. *)
Lemma signed_stale payload payload' secret secret' timestamp clock extra v0 tol now clock' :
  0 < tol → renders (default clock timestamp) → tol < Z.abs (default clock' now - default clock timestamp) →
  verify (RawBytes payload') (sign payload secret timestamp clock extra v0 None) secret' tol now clock' ≠ Ok ().
Proof.
  intros Htol Hr Hd H. pose proof (verify_spec payload' (sign payload secret timestamp clock extra v0 None)
    secret' tol now clock' Htol) as Hv. rewrite H in Hv.
  destruct Hv as (_ & ts & (items & Hm & Ht & _) & Hts). rewrite sign_parse in Hm by done. simplify_eq.
  rewrite sign_timestamps, int_of_str_of_Z in Ht by done. simplify_eq. lia.
Qed.

(** ** Properties *)

(** C13: verification accepts exactly the non-empty bodies whose header is
    well-formed, dated once, within the tolerance of the clock, and carries
    under v1 the digest of the raw body under the secret; everything else is a
    SignatureVerificationError, never another exception. *)
Theorem verify_iff payload hdr secret tol now clock : 0 < tol →
  (verify (RawBytes payload) hdr secret tol now clock = Ok () ↔
     payload ≠ "" ∧ ∃ ts, authentic payload hdr secret ts ∧ Z.abs (default clock now - ts) <= tol) ∧
  (verify (RawBytes payload) hdr secret tol now clock = Ok () ∨
     ∃ r, verify (RawBytes payload) hdr secret tol now clock = Err (SignatureVerificationError r)).
Proof.
  intros Htol. pose proof (verify_spec payload hdr secret tol now clock Htol) as H.
  destruct (verify _ _ _ _ _ _) as [[]|x]; [by split; [|left]|].
  destruct H as [[r ->] H]. split; [|right; by eexists].
  split; [done|]. intros (Hp & ts & Ha & Hd). destruct H as [|H]; [done|]. apply H in Ha. lia.
Qed.

Lemma verify_iff_witness :
  let hdr := sign "{}" "whsec" (Some 1700000000) 0 [] false None in
  (∃ ts, authentic "{}" hdr "whsec" ts ∧ Z.abs (1700000100 - ts) <= 300) ∧
  (∃ r, verify (RawBytes "{}") hdr "whsec" 300 (Some 1700009999) 0 = Err (SignatureVerificationError r)).
Proof.
  intros hdr. split.
  - apply (proj1 (verify_iff "{}" hdr "whsec" 300 (Some 1700000100) 0 ltac:(lia))). vm_compute. reflexivity.
  - destruct (proj2 (verify_iff "{}" hdr "whsec" 300 (Some 1700009999) 0 ltac:(lia))) as [H|H]; [|exact H].
    assert (Hn : is_ok (verify (RawBytes "{}") hdr "whsec" 300 (Some 1700009999) 0) = false) by (vm_compute; reflexivity).
    rewrite H in Hn. discriminate Hn.
Defined.

(** A header built by [sign] verifies under the signing secret and under
    every extra (rotated) secret, for any body, as long as the clock stays within
    the tolerance; restricted to the v0 scheme it never verifies. *)
Theorem sign_verify payload secret secret' timestamp clock extra v0 tol now clock' :
  0 < tol → payload ≠ "" → renders (default clock timestamp) →
  Z.abs (default clock' now - default clock timestamp) <= tol → secret' ∈ secret :: extra →
  verify (RawBytes payload) (sign payload secret timestamp clock extra v0 None) secret' tol now clock' = Ok () ∧
  verify (RawBytes payload) (sign payload secret timestamp clock extra v0 (Some ["v0"])) secret' tol now clock' ≠ Ok ().
Proof. intros. split; [by apply signed_accepted|by apply v0_refused]. Qed.

Lemma sign_verify_witness :
  verify (RawBytes "{}") (sign "{}" "new" (Some 1700000000) 0 ["old"] false None) "old" 300 (Some 1700000300) 0 = Ok ().
Proof.
  refine (proj1 (sign_verify "{}" "new" "old" (Some 1700000000) 0 ["old"] false 300 (Some 1700000300) 0 _ _ _ _ _));
    [lia|done|apply renders_small; simpl; lia|simpl; lia|right; left].
Defined.

(** If a body other than the signed one is accepted with a header [sign] built
    under one secret, the two bodies have the same HMAC-SHA256 digest. *)
Theorem tampered_body_collides payload payload' secret timestamp clock v0 tol now clock' :
  0 < tol → renders (default clock timestamp) →
  verify (RawBytes payload') (sign payload secret timestamp clock [] v0 None) secret tol now clock' = Ok () →
  _v1_digest payload' secret (default clock timestamp) = _v1_digest payload secret (default clock timestamp).
Proof. apply signed_collision. Qed.

Lemma tampered_body_collides_witness :
  let hdr := sign "{}" "k" (Some 1700000000) 0 [] false None in
  _v1_digest "{}" "k" 1700000000 = _v1_digest "{}" "k" 1700000000.
Proof.
  refine (tampered_body_collides "{}" "{}" "k" (Some 1700000000) 0 false 300 (Some 1700000001) 0 _ _ _);
    [lia|apply renders_small; simpl; lia|vm_compute; reflexivity].
Defined.
