(* ===== verification/Dedupe.v ===== *)
(** src/ledgerproof/ingest/dedupe.py: the [stripe_events] log as the fast-path
    deduplicator.  Each call is one database transaction, run in a world that
    may disturb it ([disturbed]).  A payload stored as JSONB is read back as
    the same value. *)
From S2P Require Import Prelude PyVal Ledger Post Mapping.

(** A database transaction run under a [fate]. *)
Definition disturbed {A} (f : fate) (m : stx database A) : stx database A :=
  match f with
  | Undisturbed => m
  | Conflicts => raise SerializationFailure
  | ConnectionLost committed => λ d, (Err OperationalError, if committed then (m d).2 else d)
  end.

(** A value bound to a TEXT column. *)
Definition text_param (v : pyval) : result (option string) :=
  match v with
  | PNone => Ok None
  | PStr s => Ok (Some s)
  | _ => Err (IllTyped "text column")
  end.
Definition not_null (column : string) (o : option string) : result string :=
  of_option (NotNullViolation column) o.

(** The constraints [stripe_events_pkey] and [stripe_events_object_dedupe]. *)
Definition same_id (r : event_row) (row : event_row) : bool := bool_decide (ev_id row = ev_id r).
Definition same_object (r : event_row) (row : event_row) : bool :=
  (bool_decide (ev_type row = ev_type r) && clashes (ev_object row) (ev_object r))%bool.

Definition insert_event (r : event_row) : stx database () := λ d,
  if existsb (same_id r) (stripe_events d) then (Err (UniqueViolation "stripe_events_pkey"), d)
  else if existsb (same_object r) (stripe_events d) then
    (Err (UniqueViolation "stripe_events_object_dedupe"), d)
  else (Ok (), set_stripe_events (stripe_events d ++ [r]) d).

(** The row an INSERT of the event would write. *)
Definition event_row_of (event : pyval) (status : event_status) : result event_row :=
  object_id ← money_movement_object_id event;
  id ← py_index event "id"; ty ← py_index event "type";
  id ← text_param id; ty ← text_param ty;
  id ← not_null "id" id; ty ← not_null "event_type" ty;
  mret (EventRow id ty object_id event status).

(** ** Deduper *)
Record DedupeResult := MkDedupeResult {
  new : bool; existing_id : option string; existing_status : option event_status;
  existing_payload : option pyval }.

(** SELECT ... ORDER BY (id = %(id)s) DESC LIMIT 1 *)
Definition blocking_row (r : event_row) (d : database) : option event_row :=
  head (filter (λ row, same_id r row) (stripe_events d) ++
        filter (λ row, same_object r row) (stripe_events d)).

Definition found (row : option event_row) : DedupeResult :=
  match row with
  | None => MkDedupeResult false None None None
  | Some row => MkDedupeResult false (Some (ev_id row)) (Some (ev_status row)) (Some (ev_payload row))
  end.

Definition check_and_record (event : pyval) : stx database DedupeResult :=
  r ← lift (event_row_of event Received);
  try_except
    (_ ← insert_event r; mret (MkDedupeResult true None None None))
    (λ e, match e with
          | UniqueViolation _ => row ← gets (blocking_row r); mret (found row)
          | _ => raise e
          end).

Definition update_status (p : event_row → bool) (s : event_status) (row : event_row) : event_row :=
  if p row then EventRow (ev_id row) (ev_type row) (ev_object row) (ev_payload row) s else row.

Definition mark_queued (event_id : string) : stx database () :=
  modify (λ d, set_stripe_events
    (update_status (λ row, bool_decide (ev_id row = event_id) && bool_decide (ev_status row = Received))%bool
       Queued <$> stripe_events d) d).

(** ** Invariant of the event log: both keys are unique *)
Definition object_key (r : event_row) : option (string * string) :=
  o ← ev_object r; Some (ev_type r, o).

Record events_ok (d : database) : Prop := {
  ok_event_ids : NoDup (ev_id <$> stripe_events d);
  ok_event_objects : NoDup (omap object_key (stripe_events d)) }.

(** Only the event log differs. *)
Definition same_ledger (d d' : database) : Prop :=
  accounts d' = accounts d ∧ transactions d' = transactions d ∧ entries d' = entries d.

#[export] Instance same_ledger_preorder : PreOrder same_ledger.
Proof. split; [done|]. intros ??? (?&?&?) (?&?&?). split_and!; congruence. Qed.

Lemma same_ledger_ok d d' : same_ledger d d' → ledger_ok d → ledger_ok d'.
Proof.
  destruct d, d'. intros (E1 & E2 & E3) [[] ? ?]; cbn in *; subst. split; [split|..]; assumption.
Qed.

Lemma same_object_key r row : same_object r row = true ↔
  ∃ k, object_key row = Some k ∧ object_key r = Some k.
Proof.
  unfold same_object, object_key. rewrite andb_true_iff, bool_decide_eq_true, clashes_true.
  split.
  - intros (E & o & -> & ->). rewrite E. by eexists.
  - intros (k & H1 & H2). destruct (ev_object row), (ev_object r); simplify_eq/=. eauto.
Qed.

Lemma insert_event_spec r d :
  match insert_event r d with
  | (Ok _, d') => d' = set_stripe_events (stripe_events d ++ [r]) d ∧ (events_ok d → events_ok d') ∧
      ∀ row, row ∈ stripe_events d → same_id r row = false ∧ same_object r row = false
  | (Err x, d') => d' = d ∧ (∃ c, x = UniqueViolation c) ∧
      ∃ row, row ∈ stripe_events d ∧ (same_id r row || same_object r row)%bool = true
  end.
Proof.
  unfold insert_event. destruct (existsb (same_id r) _) eqn:E1.
  { split_and!; [done|by eexists|]. apply existsb_exists_stdpp in E1 as (row & Hin & Hs). exists row. by rewrite Hs. }
  destruct (existsb (same_object r) _) eqn:E2.
  { split_and!; [done|by eexists|]. apply existsb_exists_stdpp in E2 as (row & Hin & Hs). exists row.
    by rewrite Hs, orb_true_r. }
  rewrite existsb_false in E1, E2. split_and!; [done| |by auto].
  intros [H1 H2]. split; cbn [set_stripe_events stripe_events].
  - rewrite fmap_app. apply NoDup_snoc; [done|].
    intros (row & Hr & Hin)%list_elem_of_fmap. apply E1 in Hin. unfold same_id in Hin. by bool_to_prop.
  - rewrite omap_snoc. destruct (object_key r) as [k|] eqn:Ek; [|by rewrite app_nil_r].
    apply NoDup_snoc; [done|]. intros (row & Hin & Hr)%list_elem_of_omap.
    apply E2, not_true_iff_false in Hin. apply Hin, same_object_key. eauto.
Qed.

Lemma update_status_id p s row : ev_id (update_status p s row) = ev_id row.
Proof. unfold update_status. by destruct (p row). Qed.
Lemma update_status_key p s row : object_key (update_status p s row) = object_key row.
Proof. unfold update_status. by destruct (p row). Qed.

Lemma update_all_ok p s d : events_ok d →
  events_ok (set_stripe_events (update_status p s <$> stripe_events d) d).
Proof.
  intros [H1 H2]. split; cbn [set_stripe_events stripe_events].
  - assert (ev_id <$> (update_status p s <$> stripe_events d) = ev_id <$> stripe_events d) as ->; [|done].
    rewrite <- list_fmap_compose. apply list_fmap_ext. intros ? row _. apply update_status_id.
  - assert (omap object_key (update_status p s <$> stripe_events d) = omap object_key (stripe_events d)) as ->; [|done].
    clear. induction (stripe_events d) as [|row l IH]; [done|]. cbn. rewrite update_status_key.
    by destruct (object_key row); rewrite IH.
Qed.

Lemma blocking_row_spec r d :
  match blocking_row r d with
  | Some row => row ∈ stripe_events d ∧ (same_id r row || same_object r row)%bool = true ∧
      ((∃ row', row' ∈ stripe_events d ∧ ev_id row' = ev_id r) → ev_id row = ev_id r)
  | None => ∀ row, row ∈ stripe_events d → (same_id r row || same_object r row)%bool = false
  end.
Proof.
  unfold blocking_row. destruct (filter (λ row, same_id r row) _) as [|row l] eqn:E1; cbn [app head].
  - assert (∀ row, row ∈ stripe_events d → same_id r row = false) as Hno.
    { intros row Hin. destruct (same_id r row) eqn:Es; [|done]. exfalso.
      apply (not_elem_of_nil row). rewrite <- E1. apply list_elem_of_filter. by rewrite Es. }
    destruct (filter (λ row, same_object r row) _) as [|row l] eqn:E2; cbn [head].
    + intros row Hin. rewrite Hno by done. destruct (same_object r row) eqn:Es; [|done]. exfalso.
      apply (not_elem_of_nil row). rewrite <- E2. apply list_elem_of_filter. by rewrite Es.
    + assert (row ∈ row :: l) as Hin by left. rewrite <- E2 in Hin.
      apply list_elem_of_filter in Hin as [Hs Hin]. apply Is_true_true in Hs.
      split_and!; [done|by rewrite Hs, orb_true_r|]. intros (row' & Hin' & E).
      specialize (Hno row' Hin'). unfold same_id in Hno. by bool_to_prop.
  - assert (row ∈ row :: l) as Hin by left. rewrite <- E1 in Hin.
    apply list_elem_of_filter in Hin as [Hs Hin]. apply Is_true_true in Hs.
    split_and!; [done|by rewrite Hs|]. intros _. unfold same_id in Hs. by bool_to_prop.
Qed.

(** What [check_and_record] answers. *)
Lemma check_and_record_spec event d :
  match check_and_record event d with
  | (Ok res, d') => ∃ r, event_row_of event Received = Ok r ∧
      if new res
      then d' = set_stripe_events (stripe_events d ++ [r]) d ∧ (events_ok d → events_ok d') ∧
           ∀ row, row ∈ stripe_events d → same_id r row = false ∧ same_object r row = false
      else d' = d ∧ ∃ row, row ∈ stripe_events d ∧ res = found (Some row) ∧
           (same_id r row || same_object r row)%bool = true ∧
           ((∃ row', row' ∈ stripe_events d ∧ ev_id row' = ev_id r) → ev_id row = ev_id r)
  | (Err x, d') => d' = d ∧ event_row_of event Received = Err x
  end.
Proof.
  unfold check_and_record. run. destruct (event_row_of event Received) as [r|x]; [|done]. run.
  pose proof (insert_event_spec r d) as Hi. destruct (insert_event r d) as [[u|x] d1]; run.
  { exists r. split; [done|]. cbn. destruct Hi as (? & ? & ?). by split_and!. }
  destruct Hi as (-> & [c ->] & row0 & Hin0 & Hs0). run. exists r. split; [done|].
  pose proof (blocking_row_spec r d) as Hb. destruct (blocking_row r d) as [row|].
  - cbn. split; [done|]. exists row. by destruct Hb as (? & ? & ?).
  - exfalso. specialize (Hb row0 Hin0). congruence.
Qed.

Lemma disturbed_inv {A} (P : database → Prop) f (m : stx database A) d :
  P d → P (m d).2 → P (disturbed f m d).2.
Proof. by destruct f as [| |[]]. Qed.

Lemma check_and_record_keeps event d :
  same_ledger d (check_and_record event d).2 ∧ (events_ok d → events_ok (check_and_record event d).2).
Proof.
  pose proof (check_and_record_spec event d) as H.
  destruct (check_and_record event d) as [[res|x] d']; cbn.
  - destruct H as (r & _ & H). destruct (new res); [destruct H as (-> & ? & _)|destruct H as [-> _]]; done.
  - by destruct H as [-> _].
Qed.
Lemma mark_queued_keeps id d :
  same_ledger d (mark_queued id d).2 ∧ (events_ok d → events_ok (mark_queued id d).2).
Proof. split; [done|apply update_all_ok]. Qed.

(** ** Property *)

(** C25: on an event log whose keys are unique, recording an event either adds one row
    with status received, exactly when no row has its id or its (type, object)
    key, or leaves the log alone and describes a row that blocks it, the row of
    the same id if there is one; the keys stay unique. *)
Theorem check_and_record_exact event r d :
  events_ok d → event_row_of event Received = Ok r →
  let '(res, d') := check_and_record event d in
  events_ok d' ∧
  if existsb (λ row, same_id r row || same_object r row)%bool (stripe_events d)
  then d' = d ∧ ∃ row, row ∈ stripe_events d ∧ res = Ok (found (Some row)) ∧
         ((∃ row', row' ∈ stripe_events d ∧ ev_id row' = ev_id r) → ev_id row = ev_id r)
  else res = Ok (MkDedupeResult true None None None) ∧
       d' = set_stripe_events (stripe_events d ++ [r]) d.
Proof.
  intros Hok Hr. pose proof (check_and_record_spec event d) as H.
  pose proof (check_and_record_keeps event d) as [_ Hk].
  unfold check_and_record in *. rewrite Hr in *. revert H Hk. run. intros H Hk.
  pose proof (insert_event_spec r d) as Hi. destruct (insert_event r d) as [[u|x] d1]; run in H; run in Hk; run.
  - split; [by apply Hk|]. destruct Hi as (-> & _ & Hi).
    rewrite (proj2 (existsb_false _ _)); [done|]. intros row Hin. by destruct (Hi row Hin) as [-> ->].
  - destruct Hi as (-> & [c ->] & row0 & Hin0 & Hs0). run in H. run in Hk. run.
    split; [done|]. rewrite (proj2 (existsb_exists_stdpp _ _)) by eauto.
    destruct H as (r' & [= <-] & H). destruct (blocking_row r d) as [row|] eqn:Eb; cbn in H.
    + destruct H as (_ & row' & Hin & Hf & _ & Hid). split; [done|]. exists row. injection Hf as E1 E2 E3.
      pose proof (blocking_row_spec r d) as Hb. rewrite Eb in Hb. destruct Hb as (? & ? & ?). by split_and!.
    + by destruct H as (_ & row & _ & ? & _).
Qed.

Definition sample_event (id ch : string) : pyval :=
  charge_event id ch "usd" 10000 1700000000 (PDict [("fee", PInt 320)]).

Lemma check_and_record_exact_witness :
  (check_and_record (sample_event "evt_1" "ch_1") empty_db).1 = Ok (MkDedupeResult true None None None).
Proof.
  pose proof (check_and_record_exact (sample_event "evt_1" "ch_1")
    (EventRow "evt_1" "charge.succeeded" (Some "ch_1") (sample_event "evt_1" "ch_1") Received) empty_db
    ltac:(split; apply NoDup_nil_2) eq_refl) as H.
  destruct (check_and_record _ _) as [res d']. exact (proj1 (proj2 H)).
Defined.
