(* ===== verification/Handlers.v ===== *)
(** src/ledgerproof/worker/handlers.py and worker/tasks.py, with the trace
    context helpers of observability.py: what the worker does with one queued
    message.  The egress client is an interface ([egress]); Client.v gives its
    implementation. *)
From Stdlib Require Import QArith Qminmax Lqa.
From S2P Require Import Prelude PyVal Hash Ledger Post Mapping Dedupe.
#[local] Open Scope Z_scope.

(** ** Trace context (observability.py) *)
Definition TRACE_CONTEXT_KEY : string := "__trace_context__".

(** [carrier] is what the propagator injects for the current span. *)
Definition inject_trace_context (carrier : list (string * pyval)) (payload : pyval) : result pyval :=
  match carrier with
  | [] => Ok payload
  | _ => match payload with
         | PDict d => Ok (PDict (dict_set TRACE_CONTEXT_KEY (PDict carrier) d))
         | _ => Err TypeError
         end
  end.

Definition extract_trace_context (payload : pyval) : result (option (list (string * pyval))) :=
  c ← py_get payload TRACE_CONTEXT_KEY; mret (as_dict c).

Definition strip_trace_context (payload : pyval) : result pyval :=
  match payload with
  | PDict d =>
      if dict_mem TRACE_CONTEXT_KEY d
      then Ok (PDict (filter (λ kv, kv.1 ≠ TRACE_CONTEXT_KEY) d)) else Ok payload
  | _ => Err TypeError
  end.

(** ** The egress client *)
Record egress := Egress { get : string → list (string * pyval) → result pyval }.

(** ** handlers.py *)
Definition HANDLED_EVENT_TYPES : list string :=
  ["charge.succeeded"; "charge.refunded"; "charge.dispute.created"; "payout.paid";
   "invoice.payment_failed"].

Inductive handling := HPosted | HDuplicate | HNoMoneyMoved | HIgnored.
#[export] Instance handling_eq_dec : EqDecision handling.
Proof. solve_decision. Defined.

Definition handling_name (h : handling) : string :=
  match h with
  | HPosted => "posted" | HDuplicate => "duplicate"
  | HNoMoneyMoved => "no_money_moved" | HIgnored => "ignored"
  end.

(** A fetched fee, passed on as [fee_minor]. *)
Definition fee_param (v : pyval) : result (option Z) :=
  match v with
  | PInt z => Ok (Some z)
  | PNone => Ok None
  | _ => Err (IllTyped "fee is not an integer")
  end.

Definition _resolve_fee (event : pyval) (bt_id : option string) (client : egress) : result (option Z) :=
  match bt_id with
  | Some id =>
      r ← get client ("/v1/balance_transactions/" +:+ id) [];
      fee ← py_index r "fee"; fee_param fee
  | None =>
      data ← py_get_default event "data" (PDict []);
      obj ← py_get_default data "object" (PDict []);
      obj_id ← py_get obj "id";
      ty ← py_get event "type";
      match (if bool_decide (ty = PStr "charge.succeeded") then as_str obj_id else None) with
      | Some id =>
          charge ← get client ("/v1/charges/" +:+ id) [("expand", PList [PStr "balance_transaction"])];
          bt ← py_get charge "balance_transaction";
          if is_dict bt then fee ← py_index bt "fee"; fee ← py_int fee; mret (Some fee)
          else Err (MissingFeeData None)
      | None => Err (MissingFeeData None)
      end
  end.

(** The mapping, with one fetch when the payload lacks the fee. *)
Definition map_event (client : option egress) (event : pyval) : result (option ledger_transaction) :=
  match build_transaction event None with
  | Err (MissingFeeData bt_id) =>
      match client with
      | None => Err (MissingFeeData bt_id)
      | Some c => fee ← _resolve_fee event bt_id c; build_transaction event fee
      end
  | r => r
  end.

(** The row the upsert of [_mark_status] writes. *)
Definition upsert_row_of (event : pyval) (status : event_status) : result event_row :=
  id ← py_index event "id"; ty ← py_get event "type";
  object_id ← money_movement_object_id event;
  id ← text_param id; ty ← text_param ty;
  id ← not_null "id" id; ty ← not_null "event_type" ty;
  mret (EventRow id ty object_id event status).

Definition set_status (id : option string) (s : event_status) : stx database () :=
  modify (λ d, set_stripe_events
    (update_status (λ row, bool_decide (Some (ev_id row) = id)) s <$> stripe_events d) d).

(** UPDATE; then, if no row had the id, INSERT ... ON CONFLICT (id) DO UPDATE,
    a conflict on the object key being rolled back and dropped. *)
Definition _mark_status (event : pyval) (status : event_status) : stx database () :=
  id ← lift (py_index event "id");
  id ← lift (text_param id);
  rowcount ← gets (λ d, existsb (λ row, bool_decide (Some (ev_id row) = id)) (stripe_events d));
  if (rowcount : bool) then set_status id status
  else
    r ← lift (upsert_row_of event status);
    try_except (insert_event r)
      (λ e, match e with
            | UniqueViolation c =>
                if bool_decide (c = "stripe_events_pkey") then set_status (Some (ev_id r)) status
                else mret ()
            | _ => raise e
            end).

Definition hashable (v : pyval) : bool := match v with PList _ | PDict _ => false | _ => true end.

Definition pkey_is_duplicate (e : exn) : stx database post_outcome :=
  match e with
  | UniqueViolation c => if bool_decide (c ≠ "transactions_pkey") then raise e else mret DUPLICATE
  | _ => raise e
  end.

(** [posts] are the fates of the posting attempts, [mark] that of the status
    update. *)
Definition handle_event (event : pyval) (client : option egress) (posts : list fate) (mark : fate)
    : stx database handling :=
  event_type ← lift (py_get_default event "type" (PStr ""));
  _ ← lift (guard_or (hashable event_type) TypeError);
  if negb (bool_decide (event_type ∈ PStr <$> HANDLED_EVENT_TYPES)) then
    _ ← disturbed mark (_mark_status event NoMoneyMoved);
    mret HIgnored
  else
    txn ← lift (map_event client event);
    match txn with
    | None => _ ← disturbed mark (_mark_status event NoMoneyMoved); mret HNoMoneyMoved
    | Some t =>
        outcome ← try_except (post posts t) pkey_is_duplicate;
        _ ← disturbed mark (_mark_status event Processed);
        mret (if bool_decide (outcome = POSTED) then HPosted else HDuplicate)
    end.

(** ** tasks.py *)
Definition max_retries : Z := 5.

Inductive task_end := Acked (h : handling) | Retried (e : exn) (countdown : Q) | Exhausted (e : exn).

Definition countdown (retries : Z) (draw : Q) : Q :=
  (inject_Z (Z.min (2 ^ retries) 60) * ((1 # 2) + draw))%Q.

(** One execution of the task.  [retries] is [self.request.retries], [draw] the
    draw of [random.random()], [mark_failed] the fate of the last update, whose
    own failure is logged and dropped. *)
Definition process_event (client : option egress) (posts : list fate) (mark mark_failed : fate)
    (retries : Z) (draw : Q) (message : pyval) : stx database task_end :=
  _ ← lift (extract_trace_context message);
  event ← lift (strip_trace_context message);
  try_except
    (h ← handle_event event client posts mark; mret (Acked h))
    (λ e,
      if retries <? max_retries then mret (Retried e (countdown retries draw))
      else
        _ ← try_except (disturbed mark_failed (_mark_status event Failed)) (λ _, mret ());
        mret (Exhausted e)).

(** ** The event log under the worker *)
Definition log_keeps (d d' : database) : Prop := same_ledger d d' ∧ (events_ok d → events_ok d').

Lemma log_keeps_refl d : log_keeps d d.
Proof. by split. Qed.

Lemma set_status_keeps id s d : log_keeps d (set_status id s d).2.
Proof. split; [done|apply update_all_ok]. Qed.

Lemma mark_status_keeps event s d : log_keeps d (_mark_status event s d).2.
Proof.
  unfold _mark_status. run. destruct (py_index event "id") as [v|]; run; [|apply log_keeps_refl].
  destruct (text_param v) as [id|]; run; [|apply log_keeps_refl].
  destruct (existsb _ _); run; [apply set_status_keeps|].
  destruct (upsert_row_of event s) as [r|]; run; [|apply log_keeps_refl].
  pose proof (insert_event_spec r d) as Hi. destruct (insert_event r d) as [[u|x] d1]; run.
  - destruct Hi as (-> & ? & _). by split.
  - destruct Hi as (-> & [c ->] & _). case_bool_decide; run; [apply set_status_keeps|apply log_keeps_refl].
Qed.
Lemma disturbed_mark_keeps f event s d : log_keeps d (disturbed f (_mark_status event s) d).2.
Proof. apply (disturbed_inv (log_keeps d)); [apply log_keeps_refl|apply mark_status_keeps]. Qed.

(** The status an undisturbed update leaves on the event's own row. *)
Lemma set_status_elem id s row d : row ∈ stripe_events (set_status id s d).2 → Some (ev_id row) = id →
  ev_status row = s.
Proof.
  cbn. intros (row0 & -> & _)%list_elem_of_fmap. unfold update_status. by case_bool_decide.
Qed.

Definition marked (id : string) (s : event_status) (d : database) : Prop :=
  ∀ row, row ∈ stripe_events d → ev_id row = id → ev_status row = s.

Lemma mark_status_marked event s id d d' : py_index event "id" = Ok (PStr id) →
  _mark_status event s d = (Ok (), d') → marked id s d'.
Proof.
  intros Hid. unfold _mark_status. run. rewrite Hid. run. cbn [text_param]. run.
  destruct (existsb _ _) eqn:Ee; run.
  { intros [= <-] row Hin Hr. eapply set_status_elem; [exact Hin|]. congruence. }
  destruct (upsert_row_of event s) as [r|] eqn:Er; run; [|done].
  assert (ev_id r = id ∧ ev_status r = s) as [Hrid Hrs].
  { unfold upsert_row_of, not_null in Er. rewrite Hid, bind_ok_run in Er. inv_ok Er.
    by simplify_eq/=. }
  assert (∀ row, row ∈ stripe_events d → ev_id row ≠ id) as Hno.
  { rewrite existsb_false in Ee. intros row Hin. specialize (Ee row Hin). bool_to_prop. congruence. }
  pose proof (insert_event_spec r d) as Hi. destruct (insert_event r d) as [[[]|x] d1]; run.
  - destruct Hi as (-> & _). intros [= <-] row Hin Hr. cbn in Hin.
    apply elem_of_app in Hin as [Hin| ->%list_elem_of_singleton]; [by apply Hno in Hin|done].
  - destruct Hi as (-> & [c ->] & _). case_bool_decide; run.
    + intros [= <-] row Hin Hr. eapply set_status_elem; [exact Hin|]. congruence.
    + intros [= <-] row Hin Hr. by apply Hno in Hin.
Qed.

(** An update that raises found no row of the event's id. *)
Lemma mark_status_failed event s id d d' y : py_index event "id" = Ok (PStr id) →
  _mark_status event s d = (Err y, d') → marked id s d'.
Proof.
  intros Hid. unfold _mark_status. run. rewrite Hid. run. cbn [text_param]. run.
  destruct (existsb _ _) eqn:Ee; run; [done|].
  assert (marked id s d) as Hno.
  { rewrite existsb_false in Ee. intros row Hin Hr. specialize (Ee row Hin). bool_to_prop. congruence. }
  destruct (upsert_row_of event s) as [r|]; run; [|by intros [= _ <-]].
  pose proof (insert_event_spec r d) as Hi. destruct (insert_event r d) as [[[]|x] d1]; run; [done|].
  destruct Hi as (-> & [c ->] & _). by case_bool_decide; run.
Qed.

(** ** What handling does to the ledger *)

(** Rows that record the identity of a transaction: its id, its event id or its
    (type, object) key. *)
Definition identity_taken (d : database) (t : ledger_transaction) : Prop := ¬ fresh_txn d t.

Lemma identity_same_ledger d d' t : same_ledger d d' → fresh_txn d t ↔ fresh_txn d' t.
Proof. intros (_ & E & _). unfold fresh_txn. by rewrite E. Qed.

Lemma map_event_built client event t : map_event client event = Ok (Some t) → built event t.
Proof.
  unfold map_event. destruct (build_transaction event None) as [o|x] eqn:E.
  - intros [= ->]. by eapply build_transaction_built.
  - destruct x; try done. destruct client as [c|]; [|done]. intros (fee & _ & H)%bind_Ok.
    by eapply build_transaction_built.
Qed.

(** What the mapping makes of an event, for some answer to the fee lookup. *)
Definition mapped (event : pyval) (t : ledger_transaction) : Prop := ∃ client, map_event client event = Ok (Some t).
Lemma mapped_built event t : mapped event t → built event t.
Proof. intros [client H]. by eapply map_event_built. Qed.

(** Two transactions mapped from one event have one identity. *)
Lemma mapped_identity event t t' d : mapped event t → mapped event t' → fresh_txn d t → fresh_txn d t'.
Proof.
  intros Hm Hm'. destruct (mapped_built _ _ Hm) as [(ty & H1 & H2 & _) (i & H3 & H4 & H5) H6 _], (mapped_built _ _ Hm') as [(ty' & H1' & H2' & _) (i' & H3' & H4' & H5') H6' _].
  unfold fresh_txn. rewrite H2, H4, H5, H2', H4', H5'.
  assert (ty' = ty) as -> by congruence. assert (i' = i) as -> by congruence.
  by assert (stripe_object_id t = stripe_object_id t') as -> by congruence.
Qed.

(** The posting step of the handler. *)
Definition post_event (posts : list fate) (t : ledger_transaction) : stx database post_outcome :=
  try_except (post posts t) pkey_is_duplicate.

Lemma post_event_spec posts t d : ledger_ok d →
  ledger_ok (post_event posts t d).2 ∧ extends d (post_event posts t d).2 ∧
  match post_event posts t d with
  | (Ok POSTED, d') => acceptable d t ∧ d' = posted_db d t
  | (Ok DUPLICATE, d') => d' = d ∧ identity_taken d t
  | (Err _, d') => d' = d ∨ acceptable d t ∧ d' = posted_db d t
  end.
Proof.
  intros Hok. pose proof (post_keeps posts t d Hok) as [Hl He]. unfold post_event. run.
  unfold post in *. destruct (post_transaction_attempt default_max_attempts posts [] t d Hok) as [f Ef].
  rewrite Ef in *. pose proof (attempt_spec f t d Hok) as Hs.
  pose proof (λ c, attempt_conflict f t d c Hok) as Hk.
  destruct (_attempt f t d) as [[o|x] d']; cbn [fst snd] in *; run.
  - split_and!; [done..|]. inversion Hs; subst; [done|]. split; [done|]. by apply key_taken_not_fresh.
  - assert (ledger_ok (pkey_is_duplicate x d').2 ∧ extends d (pkey_is_duplicate x d').2) as [H1 H2].
    { destruct x; cbn; try done. by case_bool_decide. }
    split_and!; [done..|]. destruct x; cbn; try (by inversion Hs; subst; auto).
    case_bool_decide; cbn; [by inversion Hs; subst; auto|].
    inversion Hs; subst. split; [done|]. by eapply Hk.
Qed.

(** The ledger moved by at most the event's own transaction. *)
Definition posted_from (event : pyval) (d d' : database) : Prop :=
  ∃ t, mapped event t ∧ acceptable d t ∧ same_ledger (posted_db d t) d'.

Record worker_step (event : pyval) (d d' : database) : Prop := {
  ws_ledger : ledger_ok d';
  ws_events : events_ok d → events_ok d';
  ws_moves : same_ledger d d' ∨ posted_from event d d' }.

Lemma log_step event d d' : ledger_ok d → log_keeps d d' → worker_step event d d'.
Proof. intros Hok [Hs He]. split; [by eapply same_ledger_ok|done|by left]. Qed.

Lemma handle_event_step event client posts mark d : ledger_ok d →
  worker_step event d (handle_event event client posts mark d).2 ∧
  match handle_event event client posts mark d with
  | (Ok HPosted, d') => posted_from event d d'
  | (Ok HDuplicate, d') => same_ledger d d' ∧ ∃ t, mapped event t ∧ identity_taken d t
  | (Ok _, d') => same_ledger d d'
  | (Err _, _) => True
  end.
Proof.
  intros Hok. unfold handle_event. run.
  destruct (py_get_default event "type" (PStr "")) as [ty|]; run; [|split; [by apply log_step, log_keeps_refl|done]].
  destruct (guard_or (hashable ty) TypeError); run; [|split; [by apply log_step, log_keeps_refl|done]].
  case_bool_decide; cbn [negb].
  2:{ run. pose proof (disturbed_mark_keeps mark event NoMoneyMoved d) as Hm.
      destruct (disturbed _ _ d) as [[[]|] d1]; run; (split; [by apply log_step|]); [apply Hm|done]. }
  run. destruct (map_event client event) as [[t|]|] eqn:Em; run; [| |split; [by apply log_step, log_keeps_refl|done]].
  2:{ pose proof (disturbed_mark_keeps mark event NoMoneyMoved d) as Hm.
      destruct (disturbed _ _ d) as [[[]|] d1]; run; (split; [by apply log_step|]); [apply Hm|done]. }
  assert (mapped event t) as Hmap by (by exists client). fold (post_event posts t).
  pose proof (post_event_spec posts t d Hok) as (Hl & He & Hp). unfold post_event in *. run in Hl. run in He. run in Hp.
  set (r := match post posts t d with (Err e, s') => pkey_is_duplicate e s' | (Ok a, s') => (Ok a, s') end) in *.
  destruct r as [[o|x] d1]; cbn [fst snd] in *.
  2:{ split; [|done]. split; [done| |].
      - destruct Hp as [->|[_ ->]]; [done|]. by intros [].
      - destruct Hp as [->|[? ->]]; [by left|right]. exists t. split_and!; done. }
  run. pose proof (disturbed_mark_keeps mark event Processed d1) as [Hm1 Hm2].
  assert (worker_step event d (disturbed mark (_mark_status event Processed) d1).2) as Hws.
  { split.
    - by eapply same_ledger_ok.
    - intros Hev. apply Hm2. destruct o; [destruct Hp as [_ ->]; by destruct Hev|by destruct Hp as [-> _]].
    - destruct o; [|destruct Hp as [-> _]; by left]. destruct Hp as [? ->]. right. by exists t. }
  destruct (disturbed _ _ d1) as [[[]|] d2]; run; cbn [fst snd] in *; (split; [done|]); [|done].
  destruct o; cbn.
  - destruct Hp as [? ->]. by exists t.
  - destruct Hp as [-> ?]. split; [done|]. by exists t.
Qed.

Lemma process_event_step client posts mark mark_failed retries draw message d : ledger_ok d →
  ∀ event, strip_trace_context message = Ok event →
  worker_step event d (process_event client posts mark mark_failed retries draw message d).2.
Proof.
  intros Hok event He. unfold process_event. run.
  destruct (extract_trace_context message); run; [|by apply log_step, log_keeps_refl].
  rewrite He. run. destruct (handle_event_step event client posts mark d Hok) as [Hs _].
  destruct (handle_event event client posts mark d) as [[h|x] d1]; run; [done|]. cbn [snd] in Hs.
  destruct (retries <? max_retries); run; [done|].
  pose proof (disturbed_mark_keeps mark_failed event Failed d1) as [Hm1 Hm2].
  destruct Hs as [H1 H2 H3].
  assert (worker_step event d (disturbed mark_failed (_mark_status event Failed) d1).2) as Hf.
  { split; [by eapply same_ledger_ok|auto|]. destruct H3 as [H3|(t & ? & ? & H3)].
    - left. by etrans.
    - right. exists t. split_and!; [done..|by etrans]. }
  destruct (disturbed _ _ d1) as [[[]|] d2]; by run.
Qed.

Lemma identity_monotone d d' t : (∀ r, r ∈ transactions d → r ∈ transactions d') →
  identity_taken d t → identity_taken d' t.
Proof. unfold identity_taken, fresh_txn. intros Hsub Hn Hf. apply Hn. auto. Qed.

Lemma posted_identity event d d' : posted_from event d d' → ∃ t, mapped event t ∧ identity_taken d' t.
Proof.
  intros (t & Hb & _ & _ & E & _). exists t. split; [done|]. intros Hf.
  destruct (Hf (txn_row_of t)) as [H _]; [|done]. rewrite E. cbn. set_solver.
Qed.

(** ** Properties *)

(** C7: handling an event, whatever the world does to the posting attempts and
    to the status update, keeps the ledger invariant and the unique keys of the
    event log, and changes the ledger tables by at most the one transaction
    built from this event: exactly that transaction when it answers posted, and
    nothing when it answers duplicate, no_money_moved or ignored. *)
Theorem handle_event_effect event client posts mark d :
  ledger_ok d → events_ok d →
  let '(res, d') := handle_event event client posts mark d in
  ledger_ok d' ∧ events_ok d' ∧
  (same_ledger d d' ∨ posted_from event d d') ∧
  match res with
  | Ok HPosted => posted_from event d d'
  | Ok _ => same_ledger d d'
  | Err _ => True
  end.
Proof.
  intros Hok Hev. destruct (handle_event_step event client posts mark d Hok) as [[H1 H2 H3] H4].
  destruct (handle_event event client posts mark d) as [res d']. cbn [snd] in *.
  split_and!; [done|by auto|done|]. destruct res as [[]|]; try done. by destruct H4.
Qed.

Lemma empty_events_ok : events_ok empty_db.
Proof. split; apply NoDup_nil_2. Qed.

Lemma handle_event_effect_witness :
  ledger_ok (handle_event (sample_event "evt_1" "ch_1") None [Conflicts; ConnectionLost true] Undisturbed empty_db).2.
Proof.
  pose proof (handle_event_effect (sample_event "evt_1" "ch_1") None [Conflicts; ConnectionLost true] Undisturbed
    empty_db empty_db_ok empty_events_ok) as H.
  destruct (handle_event _ _ _ _ _) as [res d']. exact (proj1 H).
Defined.

(** C14: once an event has been handled as posted or duplicate, handling it
    again in any later state of the ledger, with any client and whatever the
    world does, moves no money and never answers posted. *)
Theorem handle_event_replay event client posts mark h d d' d'' client' posts' mark' :
  ledger_ok d → handle_event event client posts mark d = (Ok h, d') → h = HPosted ∨ h = HDuplicate →
  ledger_ok d'' → (∀ r, r ∈ transactions d' → r ∈ transactions d'') →
  same_ledger d'' (handle_event event client' posts' mark' d'').2 ∧
  (handle_event event client' posts' mark' d'').1 ≠ Ok HPosted.
Proof.
  intros Hok Hh Hcase Hok'' Hsub.
  assert (∃ t, mapped event t ∧ identity_taken d'' t) as (t & Hb & Hid).
  { destruct (handle_event_step event client posts mark d Hok) as [_ H]. rewrite Hh in H.
    assert (∃ t, mapped event t ∧ identity_taken d' t) as (t & Hb & Hid).
    { destruct Hcase as [-> | ->]; [by eapply posted_identity|].
      destruct H as [(_ & E & _) (t & Hb & Hid)]. exists t. split; [done|].
      eapply identity_monotone; [|done]. by rewrite E. }
    exists t. split; [done|]. by eapply identity_monotone. }
  assert (∀ d3, ¬ posted_from event d'' d3) as Hno.
  { intros d3 (t' & Hb' & (Hf & _) & _). apply Hid. by eapply mapped_identity. }
  destruct (handle_event_step event client' posts' mark' d'' Hok'') as [[_ _ Hm] H].
  destruct (handle_event event client' posts' mark' d'') as [res d3]. cbn [fst snd] in *.
  split; [destruct Hm as [?|Hp]; [done|by apply Hno in Hp]|].
  intros ->. by apply Hno in H.
Qed.

Lemma handle_event_replay_witness :
  let ev := sample_event "evt_1" "ch_1" in
  let d := (handle_event ev None [] Undisturbed empty_db).2 in
  (handle_event ev None [] Undisturbed d).1 ≠ Ok HPosted.
Proof.
  refine (proj2 (handle_event_replay (sample_event "evt_1" "ch_1") None [] Undisturbed HPosted empty_db
    (handle_event (sample_event "evt_1" "ch_1") None [] Undisturbed empty_db).2 _ None [] Undisturbed
    empty_db_ok _ _ _ _)).
  - vm_compute. reflexivity.
  - by left.
  - apply (handle_event_step _ None [] Undisturbed empty_db empty_db_ok).
  - done.
Defined.

(** C26: executing a task on a queued object always ends in one of three ways: the
    handler's answer is acknowledged; its exception is retried, only while
    fewer than five retries were made, after a positive delay below 24 seconds;
    or the retries are exhausted, and then an undisturbed final update leaves
    every row of the event id with status failed. *)
Theorem process_event_ends client posts mark mark_failed retries draw m event d :
  0 <= retries → is_draw draw → strip_trace_context (PDict m) = Ok event →
  match process_event client posts mark mark_failed retries draw (PDict m) d with
  | (Ok (Acked h), d') => handle_event event client posts mark d = (Ok h, d')
  | (Ok (Retried e c), d') => handle_event event client posts mark d = (Err e, d') ∧
      retries < 5 ∧ (0 < c < 24 # 1)%Q
  | (Ok (Exhausted e), d') => (handle_event event client posts mark d).1 = Err e ∧ 5 <= retries ∧
      (mark_failed = Undisturbed → ∀ id, py_index event "id" = Ok (PStr id) → marked id Failed d')
  | (Err _, _) => False
  end.
Proof.
  intros Hr [Hu0 Hu1] He. unfold process_event. run.
  change (extract_trace_context (PDict m)) with (Ok (as_dict (match dict_get TRACE_CONTEXT_KEY m with Some x => x | None => PNone end))).
  run. rewrite He. run. destruct (handle_event event client posts mark d) as [[h|x] d1]; run; [done|].
  unfold max_retries. destruct (retries <? 5) eqn:Er; run; bool_to_prop.
  - split_and!; [done|done| |].
    + unfold countdown. apply Qmult_lt_0_compat; [|lra]. rewrite <- (Zlt_Qlt 0).
      apply Z.min_glb_lt; [|lia]. by apply Z.pow_pos_nonneg.
    + unfold countdown. assert (2 ^ retries <= 16) by (apply (Z.pow_le_mono_r 2 retries 4); lia).
      apply (Qle_lt_trans _ (16 * ((1 # 2) + draw))); [|lra].
      apply Qmult_le_compat_r; [|lra]. change 16%Q with (inject_Z 16). rewrite <- Zle_Qle. lia.
  - destruct (disturbed mark_failed (_mark_status event Failed) d1) as [[[]|y] d2] eqn:Em; run;
      (split_and!; [done|done|]); intros -> id Hid; cbn [disturbed] in Em.
    + by eapply mark_status_marked.
    + by eapply mark_status_failed.
Qed.

Definition sample_fields (event : pyval) : list (string * pyval) :=
  match event with PDict m => m | _ => [] end.

Lemma process_event_ends_witness :
  match process_event None (replicate 5 Conflicts) Undisturbed Undisturbed 2 (1 # 2)
          (PDict (sample_fields (sample_event "evt_1" "ch_1"))) empty_db with
  | (Ok (Retried e c), _) => (0 < c < 24 # 1)%Q | _ => False end.
Proof.
  pose proof (process_event_ends None (replicate 5 Conflicts) Undisturbed Undisturbed 2 (1 # 2)
    (sample_fields (sample_event "evt_1" "ch_1")) (sample_event "evt_1" "ch_1") empty_db
    ltac:(lia) ltac:(unfold is_draw; lra) eq_refl) as H.
  assert (∃ e c d', process_event None (replicate 5 Conflicts) Undisturbed Undisturbed
    2 (1 # 2) (PDict (sample_fields (sample_event "evt_1" "ch_1"))) empty_db = (Ok (Retried e c), d')) as (e & c & d' & E).
  { eexists _, _, _. vm_compute. reflexivity. }
  rewrite E in H |- *. exact (proj2 (proj2 H)).
Defined.
