(* ===== verification/Client.v ===== *)
(** src/ledgerproof/stripe_io/client.py: the egress client and its
    idempotent-retry matrix, with the form encoding of [urllib.parse].  httpx is
    a parameter: [transport n req] is what sending [req] as the n-th request of
    a call gives.  [draws] are the draws of the generator. *)
From Stdlib Require Import QArith Qminmax Lqa.
From S2P Require Import Prelude PyVal Json Ledger Post Handlers.
#[local] Open Scope Z_scope.

(** ** Bracket notation *)
Definition bracket (key index : string) : string := key +:+ "[" +:+ index +:+ "]".

Fixpoint _flatten_value (key : string) (value : pyval) : list (string * string) :=
  match value with
  | PDict d =>
      (fix go d := match d with
       | [] => []
       | kv :: d => _flatten_value (if bool_decide (key = "") then kv.1 else bracket key kv.1) kv.2 ++ go d
       end) d
  | PList l =>
      (fix go (i : Z) l := match l with
       | [] => []
       | item :: l => _flatten_value (bracket key (str_of_Z i)) item ++ go (i + 1) l
       end) 0 l
  | PBool b => [(key, if b then "true" else "false")]
  | PNone => [(key, "")]
  | PInt z => [(key, str_of_Z z)]
  | PFloat r => [(key, r)]
  | PStr s => [(key, s)]
  end.

Definition _flatten_params (params : list (string * pyval)) (prefix : string) : list (string * string) :=
  kv ← params; _flatten_value (if bool_decide (prefix = "") then kv.1 else bracket prefix kv.1) kv.2.

(** ** [urllib.parse.urlencode] *)
Definition always_safe (c : ascii) : bool :=
  (is_alpha c || is_digit c || bool_decide (c ∈ ["_"; "."; "-"; "~"]%char))%bool.
Definition hex_upper (x : Z) : ascii := chr (if x <? 10 then 48 + x else 55 + x).
Definition quote_char (c : ascii) : list ascii :=
  if always_safe c then [c]
  else if decide (c = " "%char) then ["+"%char]
  else ["%"%char; hex_upper (Z.shiftr (code c) 4); hex_upper (Z.land (code c) 15)].
Definition quote_plus (s : string) : string := of_chars (chars s ≫= quote_char).
Definition urlencode (pairs : list (string * string)) : string :=
  join "&" ((λ kv, quote_plus kv.1 +:+ "=" +:+ quote_plus kv.2) <$> pairs).

(** ** Requests and replies *)
Record http_request := HttpRequest {
  method : string; path : string; req_headers : list (string * string);
  content : option string; query : option (list (string * string)) }.
#[export] Instance http_request_eq_dec : EqDecision http_request.
Proof. solve_decision. Defined.

Record response := Response { status_code : Z; res_headers : list (string * string); body : string }.

Inductive reply := TransportError (what : string) | Replied (r : response).

(** [headers.get(name)]: names match whatever their case, and the values of a
    repeated header are joined. *)
Definition header (name : string) (r : response) : option string :=
  match filter (λ kv, lower kv.1 = lower name) (res_headers r) with
  | [] => None
  | kvs => Some (join ", " kvs.*2)
  end.
Definition is_success (r : response) : bool := ((200 <=? status_code r) && (status_code r <=? 299))%bool.

Definition is_replay (r : response) : bool :=
  bool_decide (lower (strip (default "" (header "Idempotent-Replayed" r))) = "true").

Definition _retryable (r : response) : bool :=
  match header "Stripe-Should-Retry" r with
  | Some h =>
      let normalized := lower (strip h) in
      if bool_decide (normalized = "true") then true
      else if bool_decide (normalized = "false") then false
      else (500 <=? status_code r)
  | None => (500 <=? status_code r)
  end.

Definition _error_from_response (r : response) : exn :=
  let payload := default (PDict []) (json_loads (body r)) in
  let error := match payload with
               | PDict d => match dict_get "error" d with Some (PDict e) => e | _ => [] end
               | _ => []
               end in
  let message := match default PNone (dict_get "message" error) with
                 | PStr s => if bool_decide (s = "") then None else Some s
                 | v => if truthy v then Some "message that is not a text" else None
                 end in
  StripeError (default ("Stripe returned HTTP " +:+ str_of_Z (status_code r)) message) (Some (status_code r)).

Definition _BACKOFF_BASE_SECONDS : Q := 1 # 2.
Definition _BACKOFF_CAP_SECONDS : Q := 8.
Definition _backoff_delay (retry_index : Z) (draw : Q) : Q :=
  (Qmin (_BACKOFF_BASE_SECONDS * inject_Z (2 ^ retry_index)) _BACKOFF_CAP_SECONDS * draw)%Q.

(** ** The client *)
Record StripeEgressClient := MkClient { api_key : string; max_retries : Z }.

(** What a call did: its result, the requests sent, the delays slept and the
    replays counted. *)
Record call_log := CallLog {
  outcome : result pyval; sent : list http_request; slept : list Q; replayed : Z }.

Definition retry_log (req : http_request) (delay : Q) (replay : bool) (l : call_log) : call_log :=
  CallLog (outcome l) (req :: sent l) (delay :: slept l) (Z.b2z replay + replayed l).
Definition final_log (req : http_request) (replay : bool) (r : result pyval) : call_log :=
  CallLog r [req] [] (Z.b2z replay).

Section client.
Context (transport : nat → http_request → reply).

(** The loop: [retries] is the number of attempts left after this one. *)
Fixpoint request_loop (retries : nat) (attempt : nat) (draws : list Q) (req : http_request) : call_log :=
  let delay := _backoff_delay (Z.of_nat attempt) (default 0%Q (head draws)) in
  let again replay last := match retries with
    | O => final_log req replay last
    | S retries => retry_log req delay replay (request_loop retries (S attempt) (tail draws) req)
    end in
  match transport attempt req with
  | TransportError _ => again false (Err (StripeError "network error talking to Stripe" None))
  | Replied r =>
      if is_success r then
        final_log req (is_replay r)
          (of_option (StripeError "malformed success response body" (Some (status_code r))) (json_loads (body r)))
      else if negb (_retryable r) then final_log req (is_replay r) (Err (_error_from_response r))
      else again (is_replay r) (Err (_error_from_response r))
  end.

Definition _request (c : StripeEgressClient) (draws : list Q) (req : http_request) : call_log :=
  if max_retries c <? 0 then CallLog (Err (RuntimeError "unreachable: loop either returns or raises")) [] [] 0
  else request_loop (Z.to_nat (max_retries c)) 0 draws req.

Definition authorization (c : StripeEgressClient) : string * string :=
  ("Authorization", "Bearer " +:+ api_key c).

(** [fresh_key] is the UUID4 minted when no key is given. *)
Definition post (c : StripeEgressClient) (draws : list Q) (path : string) (params : list (string * pyval))
    (idempotency_key : option string) (fresh_key : string) : call_log :=
  _request c draws (HttpRequest "POST" path
    [authorization c; ("Content-Type", "application/x-www-form-urlencoded");
     ("Idempotency-Key", default fresh_key idempotency_key)]
    (Some (urlencode (_flatten_params params ""))) None).

Definition get (c : StripeEgressClient) (draws : list Q) (path : string) (params : list (string * pyval)) : call_log :=
  _request c draws (HttpRequest "GET" path [authorization c] None
    (match params with [] => None | _ => Some (_flatten_params params "") end)).

(** The client as the worker's handlers see it. *)
Definition client_egress (c : StripeEgressClient) (draws : list Q) : egress :=
  Egress (λ path params, outcome (get c draws path params)).

(** ** Specification: the first conclusive reply decides *)

(** A reply after which the loop stops, with its result. *)
Definition conclusive (p : reply) : option (result pyval) :=
  match p with
  | TransportError _ => None
  | Replied r =>
      if is_success r then
        Some (of_option (StripeError "malformed success response body" (Some (status_code r))) (json_loads (body r)))
      else if _retryable r then None else Some (Err (_error_from_response r))
  end.

(** The error of a reply that is not conclusive. *)
Definition transient_error (p : reply) : exn :=
  match p with
  | TransportError _ => StripeError "network error talking to Stripe" None
  | Replied r => _error_from_response r
  end.

Lemma request_loop_spec retries : ∀ attempt draws req,
  let l := request_loop retries attempt draws req in
  ∃ n, (n <= retries)%nat ∧ sent l = replicate (S n) req ∧ length (slept l) = n ∧
    (∀ i, (i < n)%nat → conclusive (transport (attempt + i) req) = None) ∧
    match conclusive (transport (attempt + n) req) with
    | Some r => outcome l = r
    | None => n = retries ∧ outcome l = Err (transient_error (transport (attempt + n) req))
    end.
Proof.
  induction retries as [|k IH]; intros attempt draws req; cbn zeta.
  - exists 0%nat. rewrite Nat.add_0_r. unfold conclusive, transient_error. cbn [request_loop].
    destruct (transport attempt req) as [w|r]; [split_and!; try done; lia|].
    destruct (is_success r); [split_and!; try done; lia|].
    destruct (_retryable r); cbn; (split_and!; try done; lia).
  - destruct (conclusive (transport attempt req)) as [res|] eqn:Ec.
    + exists 0%nat. rewrite Nat.add_0_r, Ec. cbn [request_loop]. unfold conclusive in Ec.
      destruct (transport attempt req) as [w|r]; [done|].
      destruct (is_success r); [injection Ec as <-; cbn; split_and!; try done; lia|].
      destruct (_retryable r); [done|]. injection Ec as <-. cbn. split_and!; try done; lia.
    + destruct (IH (S attempt) (tail draws) req) as (n & H1 & H2 & H3 & H4 & H5).
      exists (S n). set (l := request_loop (S k) attempt draws req).
      assert (∃ delay replay, l = retry_log req delay replay (request_loop k (S attempt) (tail draws) req)) as (delay & replay & ->).
      { unfold l. cbn [request_loop]. unfold conclusive in Ec. destruct (transport attempt req) as [w|r]; [by eexists _, _|].
        destruct (is_success r); [done|]. destruct (_retryable r); [cbn; by eexists _, _|done]. }
      replace (attempt + S n)%nat with (S attempt + n)%nat by lia.
      split_and!; [lia|cbn; by rewrite H2|cbn; by rewrite H3| |].
      * intros [|i] Hi; [by rewrite Nat.add_0_r|].
        replace (attempt + S i)%nat with (S attempt + i)%nat by lia. apply H4. lia.
      * cbn [retry_log outcome].
        destruct (conclusive (transport (S attempt + n)%nat req)); [done|].
        destruct H5 as [-> H5]. by split.
Qed.

Lemma backoff_delay_bounds attempt draw : 0 <= attempt → is_draw draw → (0 <= _backoff_delay attempt draw < 8)%Q.
Proof.
  intros Ha [H0 H1]. unfold _backoff_delay. set (b := Qmin _ _).
  assert (0 <= b)%Q as Hb0.
  { unfold b, _BACKOFF_BASE_SECONDS, _BACKOFF_CAP_SECONDS. apply Q.min_glb; [|lra].
    apply Qmult_le_0_compat; [lra|]. rewrite <- (Zle_Qle 0). by apply Z.pow_nonneg. }
  assert (b <= 8)%Q as Hb8 by apply Q.le_min_r.
  split; [by apply Qmult_le_0_compat|].
  assert (0 < b ∨ b == 0)%Q as [Hb|Hb].
  { apply Qle_lt_or_eq in Hb0 as [?|E]; [by left|right; by symmetry]. }
  - apply (Qle_lt_trans _ (8 * draw)); [by apply Qmult_le_compat_r|lra].
  - rewrite Hb. lra.
Qed.

Lemma request_loop_sleeps retries : ∀ attempt draws req, Forall is_draw draws →
  Forall (λ s, (0 <= s < 8)%Q) (slept (request_loop retries attempt draws req)).
Proof.
  induction retries as [|k IH]; intros attempt draws req Hd; cbn [request_loop].
  - destruct (transport attempt req) as [w|r]; [constructor|]. destruct (is_success r); [constructor|].
    destruct (_retryable r); constructor.
  - assert (Forall (λ s, (0 <= s < 8)%Q) (slept (retry_log req (_backoff_delay (Z.of_nat attempt) (default 0%Q (head draws)))
      true (request_loop k (S attempt) (tail draws) req)))) as Hr.
    { constructor; [|apply IH; by destruct Hd]. apply backoff_delay_bounds; [lia|]. destruct Hd; [by split|done]. }
    destruct (transport attempt req) as [w|r]; [done|]. destruct (is_success r); [constructor|].
    destruct (_retryable r); [done|constructor].
Qed.
End client.

(** ** Form encoding *)
Definition form_char (c : ascii) : Prop :=
  always_safe c = true ∨ c ∈ ["+"; "%"; "="; "&"]%char.

Lemma quote_char_form c : Forall form_char (quote_char c).
Proof.
  assert (c ∈ (ascii_of_nat <$> seq 0 256)) as Hin.
  { apply list_elem_of_fmap. exists (nat_of_ascii c). split; [by rewrite ascii_nat_embedding|].
    apply elem_of_seq. pose proof (nat_ascii_bounded c). lia. }
  revert c Hin. apply Forall_forall. unfold form_char. apply (bool_decide_unpack _). vm_compute. exact I.
Qed.
Lemma quote_plus_form s : Forall form_char (chars (quote_plus s)).
Proof.
  unfold quote_plus. rewrite chars_of_chars. apply Forall_bind, Forall_true. apply quote_char_form.
Qed.
Lemma urlencode_form pairs : Forall form_char (chars (urlencode pairs)).
Proof.
  unfold urlencode. induction pairs as [|kv pairs IH]; [constructor|]. cbn [fmap list_fmap].
  assert (Forall form_char (chars (quote_plus kv.1 +:+ "=" +:+ quote_plus kv.2))) as Hkv.
  { rewrite !chars_app. repeat (apply Forall_app; split); try apply quote_plus_form.
    constructor; [right; set_solver|constructor]. }
  destruct pairs as [|kv' pairs]; [done|]. cbn [fmap list_fmap] in *.
  set (x := quote_plus kv.1 +:+ "=" +:+ quote_plus kv.2) in *. set (y := quote_plus kv'.1 +:+ _) in *.
  match goal with |- context [join "&" (x :: y :: ?l)] =>
    change (join "&" (x :: y :: l)) with (x +:+ ("&" +:+ join "&" (y :: l))) end.
  rewrite (chars_app x), (chars_app "&"). apply Forall_app. split; [done|]. apply Forall_app. split; [|done].
  constructor; [right; set_solver|constructor].
Qed.

(** ** Properties *)

(** C27: a call sends one and the same request each time, with its idempotency
    key and its body unchanged, at most [max_retries + 1] times; the first
    conclusive reply (a success, or an error Stripe says not to retry) decides
    its result; with none, the error of the last reply is raised after all the
    attempts.  It sleeps once between two attempts, less than eight seconds. *)
Theorem request_decided transport c draws req : 0 <= max_retries c → Forall is_draw draws →
  let l := _request transport c draws req in
  ∃ n, Z.of_nat n <= max_retries c ∧ sent l = replicate (S n) req ∧
    length (slept l) = n ∧ Forall (λ s, (0 <= s < 8)%Q) (slept l) ∧
    (∀ i, (i < n)%nat → conclusive (transport i req) = None) ∧
    match conclusive (transport n req) with
    | Some r => outcome l = r
    | None => Z.of_nat n = max_retries c ∧ outcome l = Err (transient_error (transport n req))
    end.
Proof.
  intros Hm Hd. cbn zeta. unfold _request. rewrite (proj2 (Z.ltb_ge _ _)) by done.
  destruct (request_loop_spec transport (Z.to_nat (max_retries c)) 0 draws req) as (n & H1 & H2 & H3 & H4 & H5).
  exists n. split_and!; [lia|done|done|by apply request_loop_sleeps|done|].
  cbn [Nat.add] in H5. destruct (conclusive _); [done|]. destruct H5 as [-> ?]. split; [lia|done].
Qed.

Definition flaky_transport (n : nat) (req : http_request) : reply :=
  if (n <? 2)%nat then TransportError "timeout" else Replied (Response 200 [] "{}").

Lemma request_decided_witness :
  ∃ n, sent (_request flaky_transport (MkClient "sk_test" 4) [] (HttpRequest "GET" "/v1/charges/ch_1" [] None None)) =
       replicate (S n) (HttpRequest "GET" "/v1/charges/ch_1" [] None None).
Proof.
  destruct (request_decided flaky_transport (MkClient "sk_test" 4) [] (HttpRequest "GET" "/v1/charges/ch_1" [] None None))
    as (n & _ & H & _); [simpl; lia|constructor|]. by exists n.
Defined.

(** The body of every POST is plain ASCII form data, whatever the parameters,
    so encoding it cannot fail; every attempt of one call carries the same
    idempotency key. *)
Theorem post_body_ascii transport c draws path params key fresh_key r :
  r ∈ sent (post transport c draws path params key fresh_key) →
  (∃ b, content r = Some b ∧ Forall (λ x, code x < 128) (chars b)) ∧
  dict_get "Idempotency-Key" (req_headers r) = Some (default fresh_key key).
Proof.
  unfold post, _request. case_match; [by intros ?%not_elem_of_nil|].
  destruct (request_loop_spec transport (Z.to_nat (max_retries c)) 0 draws (HttpRequest "POST" path
      [authorization c; ("Content-Type", "application/x-www-form-urlencoded");
       ("Idempotency-Key", default fresh_key key)]
      (Some (urlencode (_flatten_params params ""))) None)) as (n & _ & -> & _).
  intros [-> _]%elem_of_replicate. split; [|done]. eexists. split; [done|].
  eapply Forall_impl; [apply urlencode_form|]. intros x [Hx|Hx].
  - unfold always_safe, is_alpha, is_digit in Hx. apply orb_true_iff in Hx as [Hx|Hx].
    + rewrite !orb_true_iff, !andb_true_iff, !Z.leb_le in Hx. lia.
    + bool_to_prop. repeat (apply elem_of_cons in Hx as [->|Hx]; [done|]). by apply not_elem_of_nil in Hx.
  - repeat (apply elem_of_cons in Hx as [->|Hx]; [done|]). by apply not_elem_of_nil in Hx.
Qed.

Lemma post_body_ascii_witness :
  ∃ r, r ∈ sent (post flaky_transport (MkClient "sk_test" 0) [] "/v1/charges" [("amount", PInt 100)] None "k-1") ∧
       dict_get "Idempotency-Key" (req_headers r) = Some "k-1".
Proof.
  eexists. split; [left|].
  refine (proj2 (post_body_ascii flaky_transport (MkClient "sk_test" 0) [] "/v1/charges" [("amount", PInt 100)] None "k-1" _ _)).
  left.
Defined.
