(* ===== verification/Shed.v ===== *)
(** src/ledgerproof/limits/shed.py: tiered load shedding.  A pressure is a
    rational; the default thresholds are the exact values of the source's
    double literals.  Log lines are left out. *)
From Stdlib Require Import QArith.
From S2P Require Import Prelude PyVal.
#[local] Open Scope Z_scope.

(** ** Tiers, in shed-first order *)
Inductive Tier := TEST_MODE | GET | POST | CRITICAL.
#[export] Instance Tier_eq_dec : EqDecision Tier.
Proof. solve_decision. Defined.

Definition tier_int (t : Tier) : Z :=
  match t with TEST_MODE => 0 | GET => 1 | POST => 2 | CRITICAL => 3 end.
Definition tier_name (t : Tier) : string :=
  match t with TEST_MODE => "TEST_MODE" | GET => "GET" | POST => "POST" | CRITICAL => "CRITICAL" end.
Definition tiers : list Tier := [TEST_MODE; GET; POST; CRITICAL].

(** 0.60, 0.75, 0.90 and 0.98 *)
Definition DEFAULT_THRESHOLDS (t : Tier) : Q :=
  match t with
  | TEST_MODE => 5404319552844595 # 9007199254740992
  | GET => 3 # 4
  | POST => 8106479329266893 # 9007199254740992
  | CRITICAL => 8827055269646172 # 9007199254740992
  end.

Definition ESCALATE_AFTER : Z := 2.
Definition RECOVER_AFTER : Z := 5.

Record ShedDecision := MkShedDecision {
  shed : bool; sd_tier : Tier; sd_level : Z; sd_pressure : Q; enforced : bool; reason : string }.

Record LoadShedder := MkLoadShedder {
  thresholds : Tier → Q; enforce : bool; escalate_after : Z; recover_after : Z;
  level : Z; pressure : Q; enabled : bool; _hot : Z; _calm : Z; counts : gmap string Z }.

(** The dataclass defaults. *)
Definition fresh_shedder (th : Tier → Q) (enf : bool) (esc rec : Z) : LoadShedder :=
  MkLoadShedder th enf esc rec 0 0 true 0 0 ∅.

Definition with_levels (s : LoadShedder) (lvl : Z) (p : Q) (en : bool) (hot calm : Z) : LoadShedder :=
  MkLoadShedder (thresholds s) (enforce s) (escalate_after s) (recover_after s) lvl p en hot calm (counts s).

(** ** Kill switch *)
Definition disable (s : LoadShedder) : LoadShedder := with_levels s 0 (pressure s) false 0 0.
Definition enable (s : LoadShedder) : LoadShedder :=
  with_levels s (level s) (pressure s) true (_hot s) (_calm s).

(** ** Pressure *)
Definition _target_level (s : LoadShedder) (p : Q) : Z :=
  Zsum (λ t, if Qle_bool (thresholds s t) p then 1 else 0) tiers.

Definition observe (p : Q) (s : LoadShedder) : Z * LoadShedder :=
  let s := with_levels s (level s) p (enabled s) (_hot s) (_calm s) in
  let s' :=
    if negb (enabled s) then s
    else
      let target := _target_level s p in
      if level s <? target then
        let hot := _hot s + 1 in
        if escalate_after s <=? hot then with_levels s (level s + 1) p true 0 0
        else with_levels s (level s) p true hot 0
      else if target <? level s then
        let calm := _calm s + 1 in
        if recover_after s <=? calm then with_levels s (level s - 1) p true 0 0
        else with_levels s (level s) p true 0 calm
      else with_levels s (level s) p true 0 0 in
  (level s', s').

(** ** Decision *)
Definition count (key : string) (m : gmap string Z) : gmap string Z :=
  <[key := default 0 (m !! key) + 1]> m.

Definition with_counts (s : LoadShedder) (m : gmap string Z) : LoadShedder :=
  MkLoadShedder (thresholds s) (enforce s) (escalate_after s) (recover_after s) (level s) (pressure s)
    (enabled s) (_hot s) (_calm s) m.

Definition should_shed (t : Tier) (s : LoadShedder) : ShedDecision * LoadShedder :=
  if negb (enabled s) then (MkShedDecision false t (level s) (pressure s) false "kill_switch", s)
  else
    let would_shed := tier_int t <? level s in
    let s' :=
      if would_shed then
        let m := count ("would_shed:" +:+ tier_name t) (counts s) in
        with_counts s (count ((if negb (enforce s) then "dark_launch_allowed:" else "shed:") +:+ tier_name t) m)
      else with_counts s (count ("allowed:" +:+ tier_name t) (counts s)) in
    (MkShedDecision (would_shed && enforce s) t (level s) (pressure s) (enforce s)
       (if would_shed then "shed_by_tier" else ""), s').

(** ** Snapshot *)

(** [round(p, 4)], in ten-thousandths, ties to even. *)
Definition round4 (p : Q) : Z :=
  let n := 20000 * Qnum p + Zpos (Qden p) in
  let d := 2 * Zpos (Qden p) in
  let r := n / d in
  if ((n mod d =? 0) && Z.odd r)%bool then r - 1 else r.

Inductive snapshot_value := SInt (z : Z) | STenThousandths (z : Z) | SBool (b : bool).

Definition snapshot (s : LoadShedder) : list (string * snapshot_value) :=
  [("level", SInt (level s)); ("pressure", STenThousandths (round4 (pressure s)));
   ("enforce", SBool (enforce s)); ("enabled", SBool (enabled s))] ++
  ((λ kv, (kv.1, SInt kv.2)) <$> sort_items (map_to_list (counts s))).

(** ** Invariant *)
Definition configured (s : LoadShedder) : Prop := 1 <= escalate_after s ∧ 1 <= recover_after s.

Record shedder_ok (s : LoadShedder) : Prop := {
  sh_configured : configured s;
  sh_level : 0 <= level s <= 4;
  sh_hot : 0 <= _hot s < escalate_after s;
  sh_calm : 0 <= _calm s < recover_after s }.

Lemma target_range s p : 0 <= _target_level s p <= 4.
Proof. unfold _target_level. cbn. repeat case_match; lia. Qed.

Lemma target_with s p lvl q en h c : _target_level (with_levels s lvl q en h c) p = _target_level s p.
Proof. done. Qed.

(** Fields [observe] computes, by the position of the level. *)
Lemma observe_cases p s :
  let s' := (observe p s).2 in
  let t := _target_level s p in
  thresholds s' = thresholds s ∧ enforce s' = enforce s ∧ escalate_after s' = escalate_after s ∧
  recover_after s' = recover_after s ∧ enabled s' = enabled s ∧ counts s' = counts s ∧ pressure s' = p ∧
  (observe p s).1 = level s' ∧
  if enabled s then
    (level s < t → _calm s' = 0 ∧
       if decide (escalate_after s <= _hot s + 1) then level s' = level s + 1 ∧ _hot s' = 0
       else level s' = level s ∧ _hot s' = _hot s + 1) ∧
    (t < level s → _hot s' = 0 ∧
       if decide (recover_after s <= _calm s + 1) then level s' = level s - 1 ∧ _calm s' = 0
       else level s' = level s ∧ _calm s' = _calm s + 1) ∧
    (t = level s → level s' = level s ∧ _hot s' = 0 ∧ _calm s' = 0)
  else level s' = level s ∧ _hot s' = _hot s ∧ _calm s' = _calm s.
Proof.
  unfold observe. cbv zeta. cbn [with_levels level enabled escalate_after recover_after _hot _calm fst snd].
  rewrite target_with. generalize (_target_level s p). intros t.
  destruct (enabled s) eqn:Ee; cbn [negb]; [|split_and!; done].
  destruct (level s <? t) eqn:E1; bool_to_prop.
  { destruct (escalate_after s <=? _hot s + 1) eqn:E2; bool_to_prop; cbn;
      split_and!; try (done || congruence); intros; try (exfalso; lia); (split; [done|]);
      case_decide; (done || (exfalso; lia)). }
  destruct (t <? level s) eqn:E2; bool_to_prop.
  { destruct (recover_after s <=? _calm s + 1) eqn:E3; bool_to_prop; cbn;
      split_and!; try (done || congruence); intros; try (exfalso; lia); (split; [done|]);
      case_decide; (done || (exfalso; lia)). }
  cbn. split_and!; try (done || congruence); intros; exfalso; lia.
Qed.

Lemma observe_ok p s : shedder_ok s → shedder_ok (observe p s).2.
Proof.
  intros [[H1 H2] H3 H4 H5].
  destruct (observe_cases p s) as (_ & _ & E1 & E2 & _ & _ & _ & _ & H).
  pose proof (target_range s p) as Ht. set (t := _target_level s p) in *.
  assert (1 <= escalate_after (observe p s).2 ∧ 1 <= recover_after (observe p s).2) as Hconf by lia.
  destruct (enabled s).
  - destruct H as (Ha & Hb & Hc). destruct (Z.lt_trichotomy (level s) t) as [Hlt|[Heq|Hgt]].
    + destruct (Ha Hlt) as [Hcalm Hx]. case_decide; destruct Hx; split; (exact Hconf || lia).
    + destruct (Hc (eq_sym Heq)) as (? & ? & ?). split; (exact Hconf || lia).
    + destruct (Hb Hgt) as [Hhot Hx]. case_decide; destruct Hx; split; (exact Hconf || lia).
  - destruct H as (? & ? & ?). split; (exact Hconf || lia).
Qed.

Lemma disable_ok s : shedder_ok s → shedder_ok (disable s).
Proof. intros [[H1 H2] H3 H4 H5]. split; cbn; [split; done|lia..]. Qed.
Lemma enable_ok s : shedder_ok s → shedder_ok (enable s).
Proof. by intros []. Qed.
Lemma should_shed_ok t s : shedder_ok s → shedder_ok (should_shed t s).2.
Proof.
  intros [H1 H2 H3 H4]. unfold should_shed. destruct (enabled s); cbn; [|by split].
  destruct (_ <? _); by split.
Qed.

(** ** Convergence *)
Fixpoint observe_n (n : nat) (p : Q) (s : LoadShedder) : LoadShedder :=
  match n with O => s | S n => (observe p (observe_n n p s)).2 end.

(** Observations of one pressure still needed to reach its target level. *)
Definition distance (p : Q) (s : LoadShedder) : Z :=
  let t := _target_level s p in
  if level s <? t then (t - level s) * escalate_after s - _hot s
  else if t <? level s then (level s - t) * recover_after s - _calm s else 0.

Lemma target_thresholds s s' p : thresholds s' = thresholds s → _target_level s' p = _target_level s p.
Proof. unfold _target_level. by intros ->. Qed.

Lemma observe_distance p s : shedder_ok s → enabled s = true →
  let s' := (observe p s).2 in
  0 <= distance p s ∧ distance p s' = Z.max 0 (distance p s - 1) ∧ (distance p s = 0 → level s = _target_level s p).
Proof.
  intros [[H1 H2] H3 H4 H5] Hen. cbv zeta.
  destruct (observe_cases p s) as (Eth & _ & E1 & E2 & _ & _ & _ & _ & H). rewrite Hen in H.
  unfold distance. rewrite (target_thresholds s _ p Eth), E1, E2.
  generalize dependent (_target_level s p). intros t (Ha & Hb & Hc).
  destruct (Z.lt_trichotomy (level s) t) as [Hlt|[Heq|Hgt]].
  - destruct (Ha Hlt) as [Hcalm Hx]. rewrite (proj2 (Z.ltb_lt (level s) t)) by done.
    case_decide; destruct Hx as [-> ->].
    + assert (_hot s = escalate_after s - 1) by lia.
      destruct (level s + 1 <? t) eqn:E; bool_to_prop; [split_and!; nia|].
      rewrite (proj2 (Z.ltb_ge t (level s + 1))) by lia. split_and!; nia.
    + rewrite (proj2 (Z.ltb_lt (level s) t)) by done. split_and!; nia.
  - destruct (Hc (eq_sym Heq)) as (-> & ? & ?).
    rewrite (proj2 (Z.ltb_ge (level s) t)) by lia. rewrite (proj2 (Z.ltb_ge t (level s))) by lia. lia.
  - destruct (Hb Hgt) as [Hhot Hx]. rewrite (proj2 (Z.ltb_ge (level s) t)) by lia.
    rewrite (proj2 (Z.ltb_lt t (level s))) by done.
    case_decide; destruct Hx as [-> ->].
    + assert (_calm s = recover_after s - 1) by lia.
      rewrite (proj2 (Z.ltb_ge (level s - 1) t)) by lia.
      destruct (t <? level s - 1) eqn:E; bool_to_prop; split_and!; nia.
    + rewrite (proj2 (Z.ltb_ge (level s) t)) by lia. rewrite (proj2 (Z.ltb_lt t (level s))) by done.
      split_and!; nia.
Qed.

Lemma observe_n_spec n p s : shedder_ok s → enabled s = true →
  let s' := observe_n n p s in
  shedder_ok s' ∧ enabled s' = true ∧ thresholds s' = thresholds s ∧
  distance p s' = Z.max 0 (distance p s - Z.of_nat n).
Proof.
  intros Hok Hen. cbv zeta. induction n as [|n IH].
  - cbn. split_and!; try done. destruct (observe_distance p s Hok Hen) as [? _]. lia.
  - destruct IH as (I1 & I2 & I3 & I4). cbn [observe_n]. set (s1 := observe_n n p s) in *.
    pose proof (observe_distance p s1 I1 I2) as Hd. cbv zeta in Hd. destruct Hd as (? & -> & _).
    destruct (observe_cases p s1) as (Eth & _ & _ & _ & Een & _).
    split_and!; [by apply observe_ok|congruence|congruence|lia].
Qed.

Lemma distance_bound p s : shedder_ok s →
  distance p s <= 4 * Z.max (escalate_after s) (recover_after s).
Proof.
  intros [[H1 H2] H3 H4 H5]. pose proof (target_range s p). unfold distance.
  destruct (level s <? _) eqn:E1; [|destruct (_ <? level s) eqn:E2]; bool_to_prop; nia.
Qed.

(** ** Runs *)
Inductive shed_op := Observe (p : Q) | Disable | Enable | Ask (t : Tier).

Definition shed_step (s : LoadShedder) (o : shed_op) : LoadShedder :=
  match o with
  | Observe p => (observe p s).2
  | Disable => disable s
  | Enable => enable s
  | Ask t => (should_shed t s).2
  end.
Definition shed_run (l : list shed_op) (s : LoadShedder) : LoadShedder := foldl shed_step s l.

Lemma should_shed_same t s : let s' := (should_shed t s).2 in
  level s' = level s ∧ thresholds s' = thresholds s ∧ enforce s' = enforce s ∧ enabled s' = enabled s.
Proof. unfold should_shed. destruct (enabled s) eqn:E; cbn; [|done]. by destruct (_ <? _). Qed.

Lemma shed_step_level s o : level (shed_step s o) <= Z.max 0 (level s) ∨
  ∃ p, o = Observe p ∧ level (shed_step s o) <= _target_level s p.
Proof.
  destruct o as [p| | |t]; cbn [shed_step].
  - destruct (observe_cases p s) as (_ & _ & _ & _ & _ & _ & _ & _ & H).
    destruct (enabled s); [|left; lia]. destruct H as (Ha & Hb & Hc).
    destruct (Z.lt_trichotomy (level s) (_target_level s p)) as [Hlt|[Heq|Hgt]].
    + destruct (Ha Hlt) as [_ Hx]. right. exists p. split; [done|]. case_decide; lia.
    + destruct (Hc (eq_sym Heq)). left. lia.
    + destruct (Hb Hgt) as [_ Hx]. left. case_decide; lia.
  - left. cbn. lia.
  - left. cbn. lia.
  - left. destruct (should_shed_same t s) as (-> & _). lia.
Qed.

Lemma shed_step_thresholds s o : thresholds (shed_step s o) = thresholds s.
Proof.
  destruct o as [p| | |t]; cbn [shed_step]; try done; [by destruct (observe_cases p s)|].
  by destruct (should_shed_same t s) as (_ & -> & _).
Qed.

Lemma shed_run_level l : ∀ s, level s <= 0 →
  thresholds (shed_run l s) = thresholds s ∧
  (level (shed_run l s) <= 0 ∨ ∃ p, Observe p ∈ l ∧ level (shed_run l s) <= _target_level s p).
Proof.
  unfold shed_run. induction l as [|o l IH] using rev_ind; intros s Hs; [split; [done|by left]|].
  rewrite foldl_app. cbn [foldl]. destruct (IH s Hs) as [Eth Hl]. set (s1 := foldl shed_step s l) in *.
  rewrite shed_step_thresholds. split; [done|].
  destruct (shed_step_level s1 o) as [H|(p & -> & H)].
  - destruct Hl as [Hl|(p & Hp & Hl)]; [left; lia|].
    pose proof (target_range s p). destruct (decide (level s1 <= 0)); [left; lia|].
    right. exists p. split; [set_solver|lia].
  - right. exists p. split; [set_solver|]. by rewrite <- (target_thresholds s s1).
Qed.

Lemma target_reaches s p t : (∀ a b, tier_int a <= tier_int b → (thresholds s a <= thresholds s b)%Q) →
  tier_int t < _target_level s p → (thresholds s t <= p)%Q.
Proof.
  intros Hmono Ht. destruct (Qle_bool (thresholds s t) p) eqn:E; [by apply Qle_bool_iff|exfalso].
  assert (∀ u, tier_int t <= tier_int u → Qle_bool (thresholds s u) p = false) as Hno.
  { intros u Hu. destruct (Qle_bool (thresholds s u) p) eqn:Eu; [|done]. apply Qle_bool_iff in Eu.
    rewrite (proj2 (Qle_bool_iff _ _)) in E; [done|]. eapply Qle_trans; [by apply Hmono|done]. }
  unfold _target_level in Ht. cbn in Ht.
  destruct t; cbn in *;
    repeat match type of Ht with context [Qle_bool (thresholds s ?u) p] =>
      first [rewrite (Hno u) in Ht by (cbn; lia) | destruct (Qle_bool (thresholds s u) p)] end; lia.
Qed.

(** ** Properties *)

(** C33: fed one pressure, an enabled shedder reaches the level that pressure
    asks for after at most four times the slower of its two patience counts, and
    moves at most one tier per observation on the way. *)
Theorem observe_converges n p s : shedder_ok s → enabled s = true →
  4 * Z.max (escalate_after s) (recover_after s) <= Z.of_nat n →
  level (observe_n n p s) = _target_level s p ∧
  Z.abs (level (observe p s).2 - level s) <= 1.
Proof.
  intros Hok Hen Hn. split.
  - pose proof (observe_n_spec n p s Hok Hen) as H. cbv zeta in H. destruct H as (I1 & I2 & I3 & I4).
    pose proof (distance_bound p s Hok). pose proof (observe_distance p s Hok Hen) as [Hd0 _].
    rewrite <- (target_thresholds s (observe_n n p s) p I3).
    apply (observe_distance p _ I1 I2). lia.
  - destruct (observe_cases p s) as (_ & _ & _ & _ & _ & _ & _ & _ & H). rewrite Hen in H.
    destruct H as (Ha & Hb & Hc). destruct (Z.lt_trichotomy (level s) (_target_level s p)) as [Hlt|[Heq|Hgt]].
    + destruct (Ha Hlt) as [_ Hx]. case_decide; lia.
    + destruct (Hc (eq_sym Heq)). lia.
    + destruct (Hb Hgt) as [_ Hx]. case_decide; lia.
Qed.

Lemma fresh_shedder_ok th enf esc rec : 1 <= esc → 1 <= rec → shedder_ok (fresh_shedder th enf esc rec).
Proof. intros. split; cbn; [by split|lia..]. Qed.

Lemma observe_converges_witness :
  level (observe_n 20 (19 # 20) (fresh_shedder DEFAULT_THRESHOLDS true ESCALATE_AFTER RECOVER_AFTER)) = 3.
Proof.
  refine (proj1 (observe_converges 20 (19 # 20) (fresh_shedder DEFAULT_THRESHOLDS true ESCALATE_AFTER RECOVER_AFTER) _ _ _)).
  - by apply fresh_shedder_ok.
  - done.
  - vm_compute. discriminate.
Defined.

(** A tier is shed only after some observed pressure reached its
    threshold, whatever the sequence of observations, decisions, disabling and
    enabling; in particular the money path is shed only after a pressure of at
    least the CRITICAL threshold. *)
Theorem shed_only_under_pressure l th enf esc rec t :
  (∀ a b, tier_int a <= tier_int b → (th a <= th b)%Q) →
  shed (should_shed t (shed_run l (fresh_shedder th enf esc rec))).1 = true →
  ∃ p, Observe p ∈ l ∧ (th t <= p)%Q.
Proof.
  intros Hmono. set (s0 := fresh_shedder th enf esc rec).
  destruct (shed_run_level l s0 ltac:(cbn; lia)) as [Eth Hl]. set (s := shed_run l s0) in *.
  unfold should_shed. destruct (enabled s); cbn; [|done]. intros [Ht _]%andb_true_iff. bool_to_prop.
  destruct Hl as [Hl|(p & Hp & Hl)]; [destruct t; cbn in Ht; lia|].
  exists p. split; [done|]. apply (target_reaches s0 p t Hmono). lia.
Qed.

Lemma shed_only_under_pressure_witness :
  ∃ p, Observe p ∈ [Observe 1; Observe 1; Ask TEST_MODE] ∧ (DEFAULT_THRESHOLDS TEST_MODE <= p)%Q.
Proof.
  apply (shed_only_under_pressure [Observe 1; Observe 1; Ask TEST_MODE] DEFAULT_THRESHOLDS true 2 5 TEST_MODE).
  - intros [] [] H; cbn in H; try lia; by apply Qle_bool_iff.
  - vm_compute. reflexivity.
Defined.

(** Decisions are ordered and the two switches hold: shedding a tier means
    shedding every cheaper one; a dark launch never sheds and counts the same
    would-be sheds as enforcement; a disabled shedder sheds nothing and counts
    nothing. *)
Theorem should_shed_policy s t t' :
  (shed (should_shed t s).1 = true → tier_int t' <= tier_int t → shed (should_shed t' s).1 = true) ∧
  (enforce s = false → shed (should_shed t s).1 = false) ∧
  (∀ key, counts (should_shed t s).2 !! ("would_shed:" +:+ key) =
          counts (should_shed t (with_counts (MkLoadShedder (thresholds s) (negb (enforce s)) (escalate_after s)
            (recover_after s) (level s) (pressure s) (enabled s) (_hot s) (_calm s) ∅) (counts s))).2
          !! ("would_shed:" +:+ key)) ∧
  (shed (should_shed t (disable s)).1 = false ∧ (should_shed t (disable s)).2 = disable s).
Proof.
  unfold should_shed. split_and!; try done.
  - destruct (enabled s); cbn; [|done]. intros [H1 ->]%andb_true_iff H2. bool_to_prop.
    rewrite (proj2 (Z.ltb_lt _ _)) by lia. done.
  - intros ->. destruct (enabled s); cbn; [|done]. by rewrite andb_false_r.
  - intros key. destruct (enabled s); cbn; [|done]. destruct (_ <? _); cbn; [|done].
    assert (∀ m enf, count ((if negb enf then "dark_launch_allowed:" else "shed:") +:+ tier_name t) m
      !! ("would_shed:" +:+ key) = m !! ("would_shed:" +:+ key)) as Hc.
    { intros m enf. unfold count. apply lookup_insert_ne.
      intros H%(f_equal (String.get 0)). by destruct enf. }
    by rewrite !Hc.
Qed.
