(* ===== verification/Gcra.v ===== *)
(** src/ledgerproof/limits/gcra.py: the GCRA limiter.  Its arithmetic is over a
    class of numbers ([Arith]) with two instances: exact rationals, for what
    the algorithm promises, and IEEE binary64 ([spec_float]), for what the
    doubles of the interpreter do.  The Redis client is an interface
    ([RedisClient]) with the documented behaviour of its commands as laws
    ([RedisLaws]). *)
From Stdlib Require Import QArith Qminmax Qround Lqa SpecFloat.
From S2P Require Import Prelude PyVal.
#[local] Open Scope Z_scope.

(** ** Numbers *)
Class Arith (F : Type) := {
  f_of_Z : Z → F;
  f_add : F → F → F;
  f_sub : F → F → F;
  f_mul : F → F → F;
  f_div : F → F → F;
  f_lt : F → F → bool;
  f_trunc : F → result Z;             (* int(x) *)
  f_floordiv : F → F → result Z       (* int(x // y) *)
}.

#[export] Instance Q_arith : Arith Q := {
  f_of_Z := inject_Z; f_add := Qplus; f_sub := Qminus; f_mul := Qmult; f_div := Qdiv;
  f_lt x y := negb (Qle_bool y x);
  f_trunc x := Ok (Z.quot (Qnum x) (Zpos (Qden x)));
  f_floordiv x y := Ok (Qfloor (x / y)) }.

(** binary64 *)
Definition sf_num (m : positive) (e : Z) : Q := inject_Z (Zpos m) * (if e <? 0 then / inject_Z (2 ^ (- e)) else inject_Z (2 ^ e)).
Definition sf_to_Q (x : spec_float) : result Q :=
  match x with
  | S754_zero _ => Ok 0%Q
  | S754_finite s m e => Ok (if s then - sf_num m e else sf_num m e)%Q
  | S754_infinity _ => Err OverflowError
  | S754_nan => Err (ValueError "cannot convert float NaN to integer")
  end.

(** [int(x // y)] is the floor of the exact quotient, which is what [//] gives
    while that floor is below 2^53. *)
#[export] Instance binary64_arith : Arith spec_float := {
  f_of_Z z := match z with
              | Z0 => S754_zero false
              | _ => binary_normalize 53 1024 z 0 false
              end;
  f_add := SFadd 53 1024; f_sub := SFsub 53 1024; f_mul := SFmul 53 1024; f_div := SFdiv 53 1024;
  f_lt := SFltb;
  f_trunc x := q ← sf_to_Q x; Ok (Z.quot (Qnum q) (Zpos (Qden q)));
  f_floordiv x y := a ← sf_to_Q x; b ← sf_to_Q y; Ok (Qfloor (a / b)) }.

(** [max(x, y)] *)
Definition py_max {F} `{Arith F} (x y : F) : F := if f_lt x y then y else x.

(** ** Redis *)

(** A stored text: the [repr] of a float, which [float] reads back exactly, or
    text it refuses. *)
Inductive redis_value (F : Type) := VFloat (x : F) | VText (s : string).
Arguments VFloat {F} x.
Arguments VText {F} s.

Definition to_float {F} (v : redis_value F) : result F :=
  match v with VFloat x => Ok x | VText _ => Err (ValueError "could not convert string to float") end.

Class RedisClient (F R : Type) := {
  r_time : stx R (Z * Z);                                 (* TIME: seconds, microseconds *)
  r_set_nx : string → string → Z → stx R bool;            (* SET key token NX PX *)
  r_get : string → stx R (option (redis_value F));        (* GET *)
  r_set : string → redis_value F → Z → stx R ();          (* SET key value PX *)
  r_release : string → string → stx R ();                 (* EVAL _RELEASE 1 key token *)
  r_delete : string → stx R ()                            (* DEL *)
}.

Definition LOCK_TTL_MS : Z := 500.

(** ** Decisions *)
Record Decision {F : Type} := MkDecision {
  allowed : bool; limit : Z; remaining : Z; retry_after_s : F; d_reason : string }.
Arguments Decision F : clear implicits.
Arguments MkDecision {F} allowed limit remaining retry_after_s d_reason.

Section gcra.
Context {F R : Type} `{HA : Arith F} `{HR : RedisClient F R}.

Definition f_ratio (a b : Z) : F := f_div (f_of_Z a) (f_of_Z b).

Definition headers (d : Decision F) : result (list (string * string)) :=
  let out := [("RateLimit-Limit", str_of_Z (limit d)); ("RateLimit-Remaining", str_of_Z (Z.max 0 (remaining d)))] in
  if negb (allowed d) then
    n ← f_trunc (f_add (retry_after_s d) (f_ratio 999 1000));
    mret (out ++ [("Retry-After", str_of_Z (Z.max 1 n))])
  else mret out.

(** The attributes [__init__] sets. *)
Record GCRALimiter := MkGCRALimiter {
  rate : Z; period : F; burst : Z; _namespace : string; _fail_open : bool;
  emission_interval : F; tolerance : F }.

Definition init (rate : Z) (period : F) (burst : Z) (namespace : string) (fail_open : bool) : result GCRALimiter :=
  _ ← guard_or ((0 <? rate) && f_lt (f_of_Z 0) period)%bool (ValueError "rate and period must be positive");
  _ ← guard_or (1 <=? burst) (ValueError "burst must be at least 1 (1 = no burst allowance)");
  let T := f_div period (f_of_Z rate) in
  mret (MkGCRALimiter rate period burst namespace fail_open T (f_mul T (f_of_Z (burst - 1)))).

(** What a call reads and writes: the counters and Redis. *)
Record limiter_state := LimiterState { fail_open_count : Z; fail_closed_count : Z; redis : R }.

Definition on_redis {A} (m : stx R A) : stx limiter_state A := λ s,
  let '(r, x) := m (redis s) in (r, LimiterState (fail_open_count s) (fail_closed_count s) x).

Context (L : GCRALimiter).

Definition _now : stx limiter_state F :=
  '(seconds, microseconds) ← on_redis r_time;
  mret (f_add (f_of_Z seconds) (f_div (f_of_Z microseconds) (f_of_Z 1000000))).

(** Poll for the lock; [readings] are the readings of [time.monotonic()]
    after each failed attempt, the clock being past the deadline when they run
    out. *)
Fixpoint acquire_loop (lock_key token : string) (deadline : F) (readings : list F) : stx limiter_state string :=
  ok ← on_redis (r_set_nx lock_key token LOCK_TTL_MS);
  if (ok : bool) then mret token
  else match readings with
       | [] => raise (LockUnavailable lock_key)
       | m :: readings =>
           if negb (f_lt m deadline) then raise (LockUnavailable lock_key)
           else acquire_loop lock_key token deadline readings
       end.
Definition _acquire (lock_key token : string) (start : F) (readings : list F) : stx limiter_state string :=
  acquire_loop lock_key token (f_add start (f_ratio 5 100)) readings.

(** A Redis error is logged and dropped: the lock will expire. *)
Definition _release (lock_key token : string) : stx limiter_state () :=
  try_except (on_redis (r_release lock_key token))
    (λ e, match e with RedisError _ => mret () | _ => raise e end).

Definition _remaining (now tat : F) : result Z :=
  if negb (f_lt (f_of_Z 0) (emission_interval L)) then mret (burst L)
  else
    let ahead := f_sub tat now in
    n ← f_floordiv (f_sub (f_add (tolerance L) (emission_interval L)) ahead) (emission_interval L);
    mret (Z.max 0 n).

Definition _fail_open_decision : stx limiter_state (Decision F) :=
  if negb (_fail_open L) then
    mret (MkDecision false (rate L) 0 (emission_interval L) "limiter_error_fail_closed")
  else
    _ ← modify (λ s, LimiterState (fail_open_count s + 1) (fail_closed_count s) (redis s));
    mret (MkDecision true (rate L) (rate L) (f_of_Z 0) "limiter_error_fail_open").

Definition tat_key (key : string) : string := _namespace L +:+ ":tat:{" +:+ key +:+ "}".
Definition lock_key (key : string) : string := _namespace L +:+ ":lock:{" +:+ key +:+ "}".

(** Read, decide and write the TAT under the lock. *)
Definition check_locked (key : string) : stx limiter_state (Decision F) :=
  now ← _now;
  raw ← on_redis (r_get (tat_key key));
  tat ← lift (match raw with Some v => to_float v | None => Ok now end);
  let allow_at := f_sub tat (tolerance L) in
  if f_lt now allow_at then
    mret (MkDecision false (rate L) 0 (f_sub allow_at now) "rate_limited")
  else
    let new_tat := f_add (py_max now tat) (emission_interval L) in
    let ttl_s := py_max (f_add (f_sub new_tat now) (tolerance L)) (emission_interval L) in
    px ← lift (f_trunc (f_mul ttl_s (f_of_Z 1000)));
    _ ← on_redis (r_set (tat_key key) (VFloat new_tat) (px + 1000));
    rem ← lift (_remaining now new_tat);
    mret (MkDecision true (rate L) rem (f_of_Z 0) "").

(** [finally: m] *)
Definition finally {A} (body : stx limiter_state A) (m : stx limiter_state ()) : stx limiter_state A := λ s,
  let '(r, s) := body s in
  match m s with
  | (Ok _, s) => (r, s)
  | (Err e, s) => (Err e, s)
  end.

Definition check (token : string) (start : F) (readings : list F) (key : string) : stx limiter_state (Decision F) := λ s,
  match _acquire (lock_key key) token start readings s with
  | (Err (LockUnavailable _), s) =>
      (Ok (MkDecision false (rate L) 0 (emission_interval L) "lock_contended"),
       LimiterState (fail_open_count s) (fail_closed_count s + 1) (redis s))
  | (Err (RedisError _), s) => _fail_open_decision s
  | (Err e, s) => (Err e, s)
  | (Ok token, s) =>
      finally
        (try_except (check_locked key)
          (λ e, match e with
                | RedisError _ | ValueError _ => _fail_open_decision
                | _ => raise e
                end))
        (_release (lock_key key) token) s
  end.

Definition reset (key : string) : stx limiter_state () := on_redis (r_delete (tat_key key)).

(** The decision on one TAT: the next TAT, or the refusal. *)
Definition next_tat (now : F) (tat : option F) : option F :=
  let t := default now tat in
  if f_lt now (f_sub t (tolerance L)) then None
  else Some (f_add (py_max now t) (emission_interval L)).

(** Requests at the given times: those admitted. *)
Fixpoint admitted (ts : list F) (tat : option F) : list F :=
  match ts with
  | [] => []
  | now :: ts =>
      match next_tat now tat with
      | Some t' => now :: admitted ts (Some t')
      | None => admitted ts tat
      end
  end.
End gcra.
Arguments GCRALimiter F : clear implicits.
Arguments limiter_state R : clear implicits.

(** ** What the source relies on of Redis *)

(** Every command either answers or raises a RedisError. *)
Definition only_redis_errors {R A} (m : stx R A) : Prop :=
  ∀ r e, (m r).1 = Err e → ∃ w, e = RedisError w.

Class RedisSafe (F R : Type) `{RedisClient F R} := {
  safe_time : only_redis_errors (r_time (F:=F) (R:=R));
  safe_set_nx k t px : only_redis_errors (r_set_nx (F:=F) (R:=R) k t px);
  safe_get k : only_redis_errors (r_get (F:=F) (R:=R) k);
  safe_set k v px : only_redis_errors (r_set (F:=F) (R:=R) k v px);
  safe_release k t : only_redis_errors (r_release (F:=F) (R:=R) k t) }.

(** A Redis that is up: commands are atomic, take no time, and act on the live
    keys as documented. *)
Class RedisLaws (F R : Type) `{RedisClient F R} := {
  clock : R → Z;                                     (* microseconds *)
  alive : R → string → option (redis_value F);
  law_time r : ∃ r', r_time (F:=F) (R:=R) r = (Ok (clock r / 1000000, clock r mod 1000000), r') ∧
    clock r' = clock r ∧ ∀ k, alive r' k = alive r k;
  law_set_nx k t px r : 0 < px → alive r k = None → ∃ r', r_set_nx (F:=F) (R:=R) k t px r = (Ok true, r') ∧
    clock r' = clock r ∧ ∀ k', alive r' k' = if decide (k' = k) then Some (VText t) else alive r k';
  law_get k r : ∃ r', r_get (F:=F) (R:=R) k r = (Ok (alive r k), r') ∧ clock r' = clock r ∧ ∀ k', alive r' k' = alive r k';
  law_set k v px r : 0 < px → ∃ r', r_set (F:=F) (R:=R) k v px r = (Ok (), r') ∧
    clock r' = clock r ∧ ∀ k', alive r' k' = if decide (k' = k) then Some v else alive r k';
  law_release k t r : alive r k = Some (VText t) → ∃ r', r_release (F:=F) (R:=R) k t r = (Ok (), r') ∧
    clock r' = clock r ∧ ∀ k', alive r' k' = if decide (k' = k) then None else alive r k' }.

(** ** A simulated Redis: live keys with their expiry, and a clock *)
Record sim_redis := SimRedis { sim_now : Z; sim_store : gmap string (redis_value Q * Z) }.

Definition sim_alive (r : sim_redis) (k : string) : option (redis_value Q) :=
  '(v, expiry) ← sim_store r !! k; if sim_now r <? expiry then Some v else None.

Definition sim_put (k : string) (v : redis_value Q) (px : Z) (r : sim_redis) : sim_redis :=
  SimRedis (sim_now r) (<[k := (v, sim_now r + 1000 * px)]> (sim_store r)).

#[export] Instance sim_client : RedisClient Q sim_redis := {
  r_time := gets (λ r, (sim_now r / 1000000, sim_now r mod 1000000));
  r_set_nx k t px := λ r,
    match sim_alive r k with Some _ => (Ok false, r) | None => (Ok true, sim_put k (VText t) px r) end;
  r_get k := gets (λ r, sim_alive r k);
  r_set k v px := modify (sim_put k v px);
  r_release k t := λ r,
    (Ok (), if match sim_alive r k with Some (VText t') => bool_decide (t' = t) | _ => false end
            then SimRedis (sim_now r) (delete k (sim_store r)) else r);
  r_delete k := modify (λ r, SimRedis (sim_now r) (delete k (sim_store r))) }.

Lemma sim_alive_put k v px r k' : 0 < px →
  sim_alive (sim_put k v px r) k' = if decide (k' = k) then Some v else sim_alive r k'.
Proof.
  intros Hpx. unfold sim_alive, sim_put. cbn. case_decide as E.
  - subst k'. rewrite lookup_insert_eq. cbn. by rewrite (proj2 (Z.ltb_lt _ _)) by lia.
  - by rewrite lookup_insert_ne.
Qed.
Lemma sim_alive_delete k r k' :
  sim_alive (SimRedis (sim_now r) (delete k (sim_store r))) k' = if decide (k' = k) then None else sim_alive r k'.
Proof.
  unfold sim_alive. cbn. case_decide as E; [subst k'; by rewrite lookup_delete_eq|by rewrite lookup_delete_ne].
Qed.

#[export] Instance sim_safe : RedisSafe Q sim_redis.
Proof.
  split; intros; intros r e; cbn; try done. by destruct (sim_alive r k).
Qed.
#[export] Instance sim_laws : RedisLaws Q sim_redis.
Proof.
  refine {| clock := sim_now; alive := sim_alive |}.
  - intros r. exists r. by split_and!.
  - intros k t px r Hpx Hk. exists (sim_put k (VText t) px r). cbn. rewrite Hk.
    split_and!; [done|done|]. intros. by apply sim_alive_put.
  - intros k r. exists r. by split_and!.
  - intros k v px r Hpx. exists (sim_put k v px r). split_and!; [done|done|]. intros. by apply sim_alive_put.
  - intros k t r Hk. exists (SimRedis (sim_now r) (delete k (sim_store r))). cbn. rewrite Hk.
    rewrite bool_decide_true by done. split_and!; [done|done|]. intros. apply sim_alive_delete.
Defined.

(** ** The ideal algorithm, over the rationals *)
Section ideal.
Context (L : GCRALimiter Q).
Abbreviation T := (emission_interval L).
Abbreviation tau := (tolerance L).

(** What [init] establishes. *)
Definition well_formed : Prop := (0 < T)%Q ∧ 1 <= burst L ∧ (tau == T * inject_Z (burst L - 1))%Q.

Lemma admit_cold now : well_formed → next_tat L now None = Some (now + T)%Q.
Proof.
  intros (HT & Hb & Ht). unfold next_tat. cbn.
  assert (0 <= tau)%Q.
  { rewrite Ht. apply Qmult_le_0_compat; [lra|]. rewrite <- (Zle_Qle 0). lia. }
  rewrite (proj2 (Qle_bool_iff _ _)) by lra. cbn. unfold py_max. cbn.
  by rewrite (proj2 (Qle_bool_iff now now)) by lra.
Qed.

Lemma admit_spec now t :
  match next_tat L now (Some t) with
  | Some t' => (t - tau <= now)%Q ∧ (t + T <= t')%Q ∧ (now + T <= t')%Q ∧ ((t <= now)%Q → t' = (now + T)%Q) ∧
               ((now <= t)%Q → (t' == t + T)%Q)
  | None => (now < t - tau)%Q
  end.
Proof.
  unfold next_tat, py_max. cbn. destruct (Qle_bool (t - tau) now) eqn:E; cbn.
  - apply Qle_bool_iff in E. destruct (Qle_bool t now) eqn:E2; cbn.
    + apply Qle_bool_iff in E2. split_and!; try lra; done.
    + assert (¬ (t <= now)%Q) by (intros H%Qle_bool_iff; congruence).
      split_and!; try lra; intros; lra.
  - apply Qnot_le_lt. intros H%Qle_bool_iff. congruence.
Qed.

Lemma admitted_spacing ts : ∀ t a n, well_formed → (a + inject_Z n * T <= t)%Q →
  ∀ i b, admitted L ts (Some t) !! i = Some b →
  (a + inject_Z (n + Z.of_nat i + 1 - burst L) * T <= b)%Q.
Proof.
  induction ts as [|now ts IH]; intros t a n Hwf Ha i b; cbn; [done|].
  pose proof (admit_spec now t) as Hs. destruct (next_tat L now (Some t)) as [t'|]; [|by apply IH].
  destruct Hs as (H1 & H2 & _). destruct i as [|i]; cbn.
  - intros [= <-]. destruct Hwf as (HT & Hb & Ht). rewrite Ht in H1.
    unfold Z.sub in *. rewrite Z.add_0_r, !inject_Z_plus, inject_Z_opp in *.
    change (inject_Z 1) with 1%Q. change (inject_Z 1) with 1%Q in H1. lra.
  - intros Hi. specialize (IH t' a (n + 1) Hwf).
    replace (n + Z.of_nat (S i) + 1 - burst L) with (n + 1 + Z.of_nat i + 1 - burst L) by lia.
    apply (IH ltac:(rewrite inject_Z_plus; change (inject_Z 1) with 1%Q; lra) i b Hi).
Qed.

(** A burst at one instant, on a key whose TAT is [k] intervals ahead. *)
Lemma admitted_burst now m : ∀ k t, well_formed → 0 <= k <= burst L →
  (t == now + inject_Z k * T)%Q →
  length (admitted L (replicate m now) (Some t)) = Nat.min m (Z.to_nat (burst L - k)).
Proof.
  induction m as [|m IH]; intros k t Hwf Hk Ht; [done|]. cbn [replicate admitted].
  pose proof Hwf as (HT & Hb & Htau). pose proof (admit_spec now t) as Hs.
  assert (0 <= inject_Z k)%Q by (rewrite <- (Zle_Qle 0); lia).
  assert (0 <= inject_Z k * T)%Q by (apply Qmult_le_0_compat; lra).
  unfold Z.sub in Htau. rewrite inject_Z_plus in Htau. change (inject_Z (-(1))) with (-1)%Q in Htau.
  destruct (next_tat L now (Some t)) as [t'|].
  - destruct Hs as (H1 & H2 & _ & _ & H5).
    assert (k < burst L) as Hlt.
    { apply Znot_ge_lt. intros Hge. assert (k = burst L) as -> by lia. lra. }
    cbn [length]. rewrite (IH (k + 1) t' Hwf) by
      (lia || (rewrite inject_Z_plus; change (inject_Z 1) with 1%Q; rewrite H5 by lra; lra)).
    lia.
  - destruct (decide (k = burst L)) as [->|Hne].
    + rewrite (IH (burst L) t Hwf) by (lia || done). lia.
    + exfalso. assert (inject_Z (k + 1) <= inject_Z (burst L))%Q as Hle by (rewrite <- Zle_Qle; lia).
      rewrite inject_Z_plus in Hle. change (inject_Z 1) with 1%Q in Hle.
      assert (inject_Z k * T <= (inject_Z (burst L) - 1) * T)%Q by (apply Qmult_le_compat_r; lra). lra.
Qed.

(** Losing a TAT that is due changes no decision. *)
Lemma admit_due now t : well_formed → (t <= now)%Q → next_tat L now (Some t) = next_tat L now None.
Proof.
  intros Hwf Ht. rewrite admit_cold by done. pose proof (admit_spec now t) as Hs.
  destruct (next_tat L now (Some t)) as [t'|].
  - destruct Hs as (_ & _ & _ & H & _). by rewrite H.
  - destruct Hwf as (HT & Hb & Htau).
    assert (0 <= tau)%Q by (rewrite Htau; apply Qmult_le_0_compat; [lra|]; rewrite <- (Zle_Qle 0); lia). lra.
Qed.
End ideal.

Lemma init_well_formed rate period burst ns fo L :
  init rate period burst ns fo = Ok L → well_formed L ∧ emission_interval L = (period / inject_Z rate)%Q ∧
  0 < rate ∧ (0 < period)%Q.
Proof.
  unfold init. intros H. apply bind_Ok in H as (? & H1 & H). apply bind_Ok in H as (? & H2 & H).
  apply guard_or_Ok in H1, H2. injection H as <-. cbn in *. bool_to_prop.
  assert (0 < period)%Q as Hp.
  { apply Qnot_le_lt. intros Hle%Qle_bool_iff. change 0%Q with (inject_Z 0) in Hle. congruence. }
  assert (0 < inject_Z rate)%Q by (rewrite <- (Zlt_Qlt 0); lia).
  split; [|by split_and!]. split; [|split; [done|reflexivity]].
  cbn. apply Qlt_shift_div_l; lra.
Qed.

(** ** A call against a Redis that is up *)
Section reliable.
Context {R : Type} `{HR : RedisClient Q R} `{!RedisLaws Q R}.
Context (L : GCRALimiter Q).

Lemma keys_differ key : tat_key L key ≠ lock_key L key.
Proof.
  unfold tat_key, lock_key. intros H%(f_equal chars). rewrite !chars_app in H.
  apply app_inv_head in H. done.
Qed.

Definition now_of (r : R) : Q := (inject_Z (clock r / 1000000) + inject_Z (clock r mod 1000000) / inject_Z 1000000)%Q.

(** The key's TAT, when no corrupt text is stored there. *)
Definition holds_tat (r : R) (key : string) (tat : option Q) : Prop :=
  alive r (tat_key L key) = VFloat <$> tat.

Lemma on_redis_run {A} (m : stx R A) a b r x r' : m r = (x, r') →
  on_redis m (LimiterState a b r) = (x, LimiterState a b r').
Proof. unfold on_redis. cbn. by intros ->. Qed.

Lemma px_positive q1 q2 : (0 < q2)%Q → ∃ px, f_trunc (f_mul (py_max q1 q2) (f_of_Z 1000)) = Ok px ∧ 0 < px + 1000.
Proof.
  intros H2. eexists. split; [done|]. unfold f_trunc, f_mul. cbn.
  set (q := py_max q1 q2). assert (0 < q)%Q as Hq.
  { unfold q, py_max. cbn. destruct (Qle_bool q2 q1) eqn:E; cbn; [|done]. apply Qle_bool_iff in E. lra. }
  assert (0 < Qnum q) as Hn by (revert Hq; unfold Qlt; cbn; lia).
  assert (0 <= Z.quot (Qnum q * 1000) (Zpos (Qden q * 1))) by (apply Z.quot_pos; lia). lia.
Qed.

Lemma now_run a b r : ∃ r', _now (LimiterState a b r) = (Ok (now_of r), LimiterState a b r') ∧
  clock r' = clock r ∧ ∀ k, alive r' k = alive r k.
Proof.
  destruct (law_time r) as (r' & E & ? & ?). exists r'. unfold _now. run.
  rewrite (on_redis_run _ _ _ _ _ _ E). by run.
Qed.

(** What the decision says of the TAT. *)
Definition decided (now : Q) (tat : option Q) (d : Decision Q) (tat' : option Q) : Prop :=
  match next_tat L now tat with
  | Some t' => allowed d = true ∧ tat' = Some t'
  | None => allowed d = false ∧ d_reason d = "rate_limited" ∧ tat' = tat ∧
      retry_after_s d = (default now tat - tolerance L - now)%Q
  end.

Lemma locked_run a b r key tat : well_formed L → holds_tat r key tat →
  ∃ d r' tat', check_locked L key (LimiterState a b r) = (Ok d, LimiterState a b r') ∧
    clock r' = clock r ∧ (∀ k, k ≠ tat_key L key → alive r' k = alive r k) ∧
    holds_tat r' key tat' ∧ decided (now_of r) tat d tat'.
Proof.
  intros (HT & _) Htat. unfold check_locked. run.
  destruct (now_run a b r) as (r1 & -> & C1 & A1). run.
  destruct (law_get (tat_key L key) r1) as (r2 & E2 & C2 & A2). rewrite (on_redis_run _ _ _ _ _ _ E2). run.
  rewrite A1. unfold holds_tat in Htat. rewrite Htat. set (now := now_of r).
  assert ((match VFloat <$> tat with Some v => to_float v | None => Ok now end) = Ok (default now tat)) as ->
    by by destruct tat.
  unfold decided, next_tat. destruct (f_lt now (f_sub (default now tat) (tolerance L))).
  - eexists _, r2, tat. split; [done|split; [congruence|split; [|split]]].
    + intros k _. by rewrite A2, A1.
    + unfold holds_tat. by rewrite A2, A1.
    + done.
  - set (t' := f_add _ (emission_interval L)).
    destruct (px_positive (f_add (f_sub t' now) (tolerance L)) (emission_interval L) HT) as (px & -> & Hpx). run.
    destruct (law_set (tat_key L key) (VFloat t') (px + 1000) r2 Hpx) as (r3 & E3 & C3 & A3).
    rewrite (on_redis_run _ _ _ _ _ _ E3). run.
    assert (∃ n, _remaining L now t' = Ok n) as [n ->].
    { unfold _remaining. destruct (negb _); by eexists. }
    run. eexists _, r3, (Some t'). split; [done|split; [congruence|split; [|split]]].
    + intros k Hk. by rewrite A3, decide_False, A2, A1.
    + unfold holds_tat. by rewrite A3, decide_True.
    + done.
Qed.

(** A reliable call is one decision on the stored TAT, and leaves the lock free. *)
Lemma check_run token start readings key a b r tat :
  well_formed L → alive r (lock_key L key) = None → holds_tat r key tat →
  ∃ d r' tat', check L token start readings key (LimiterState a b r) = (Ok d, LimiterState a b r') ∧
    clock r' = clock r ∧ alive r' (lock_key L key) = None ∧
    holds_tat r' key tat' ∧ decided (now_of r) tat d tat'.
Proof.
  intros Hwf Hlock Htat. unfold check, _acquire.
  destruct (law_set_nx (lock_key L key) token LOCK_TTL_MS r ltac:(done) Hlock) as (r1 & E1 & C1 & A1).
  assert (acquire_loop (lock_key L key) token (f_add start (f_ratio 5 100)) readings (LimiterState a b r) =
    (Ok token, LimiterState a b r1)) as ->.
  { destruct readings; cbn [acquire_loop]; run; rewrite (on_redis_run _ _ _ _ _ _ E1); by run. }
  assert (holds_tat r1 key tat) as Htat1.
  { unfold holds_tat. rewrite A1, decide_False by apply keys_differ. exact Htat. }
  destruct (locked_run a b r1 key tat Hwf Htat1) as (d & r2 & tat' & E2 & C2 & A2 & H2 & Hd).
  unfold finally. run. rewrite E2. unfold _release. run.
  destruct (law_release (lock_key L key) token r2) as (r3 & E3 & C3 & A3).
  { rewrite A2 by (intros ?; by eapply keys_differ). by rewrite A1, decide_True. }
  rewrite (on_redis_run _ _ _ _ _ _ E3). exists d, r3, tat'.
  split; [done|split; [congruence|split; [by rewrite A3, decide_True|split]]].
  - unfold holds_tat. rewrite A3, decide_False by apply keys_differ. exact H2.
  - unfold now_of in *. by rewrite C1 in Hd.
Qed.
End reliable.

(** ** Failure policies *)
Section policies.
Context {F R : Type} `{HA : Arith F} `{HR : RedisClient F R} `{!RedisSafe F R} (L : GCRALimiter F).
Implicit Types (s : limiter_state R).

Definition same_counts s s' : Prop := fail_open_count s' = fail_open_count s ∧ fail_closed_count s' = fail_closed_count s.
Lemma same_counts_trans s s1 s2 : same_counts s s1 → same_counts s1 s2 → same_counts s s2.
Proof. unfold same_counts. intros [] []. split; congruence. Qed.

(** The decision of an outage: to allow, counted, when the limiter fails open, and
    to refuse otherwise. *)
Definition outage s (res : result (Decision F)) s' : Prop :=
  fail_open_count s' = fail_open_count s + Z.b2z (_fail_open L) ∧ fail_closed_count s' = fail_closed_count s ∧
  ∃ d, res = Ok d ∧ allowed d = _fail_open L ∧
    d_reason d = if _fail_open L then "limiter_error_fail_open" else "limiter_error_fail_closed".

Definition server_time (t : Z * Z) : F := f_add (f_of_Z t.1) (f_div (f_of_Z t.2) (f_of_Z 1000000)).
(** The milliseconds after which the TAT expires. *)
Definition expiry (now new_tat : F) : result Z :=
  f_trunc (f_mul (py_max (f_add (f_sub new_tat now) (tolerance L)) (emission_interval L)) (f_of_Z 1000)).

(** How the section between taking the lock and releasing it may end, by the replies
    of Redis: in trouble, with a decision, or with an exception that nothing handles. *)
Inductive ending := Trouble | Decided (d : Decision F) | Raises (e : exn).
Definition number_error (e : exn) : ending := match e with RedisError _ | ValueError _ => Trouble | _ => Raises e end.
Inductive locked (key : string) (r : R) : ending → R → Prop :=
  | time_fails w r1 : r_time (F:=F) r = (Err (RedisError w), r1) → locked key r Trouble r1
  | get_fails t r1 w r2 : r_time (F:=F) r = (Ok t, r1) → r_get (F:=F) (tat_key L key) r1 = (Err (RedisError w), r2) →
      locked key r Trouble r2
  | corrupt_tat t r1 text r2 : r_time (F:=F) r = (Ok t, r1) → r_get (tat_key L key) r1 = (Ok (Some (VText (F:=F) text)), r2) →
      locked key r Trouble r2
  | refused t r1 tat r2 : r_time (F:=F) r = (Ok t, r1) → r_get (tat_key L key) r1 = (Ok (VFloat <$> tat), r2) →
      let now := server_time t in next_tat L now tat = None →
      locked key r (Decided (MkDecision false (rate L) 0 (f_sub (f_sub (default now tat) (tolerance L)) now) "rate_limited")) r2
  | no_expiry t r1 tat r2 t' e : r_time (F:=F) r = (Ok t, r1) → r_get (tat_key L key) r1 = (Ok (VFloat <$> tat), r2) →
      next_tat L (server_time t) tat = Some t' → expiry (server_time t) t' = Err e → locked key r (number_error e) r2
  | set_fails t r1 tat r2 t' px w r3 : r_time (F:=F) r = (Ok t, r1) → r_get (tat_key L key) r1 = (Ok (VFloat <$> tat), r2) →
      next_tat L (server_time t) tat = Some t' → expiry (server_time t) t' = Ok px →
      r_set (tat_key L key) (VFloat t') (px + 1000) r2 = (Err (RedisError w), r3) → locked key r Trouble r3
  | admits t r1 tat r2 t' px r3 : r_time (F:=F) r = (Ok t, r1) → r_get (tat_key L key) r1 = (Ok (VFloat <$> tat), r2) →
      next_tat L (server_time t) tat = Some t' → expiry (server_time t) t' = Ok px →
      r_set (tat_key L key) (VFloat t') (px + 1000) r2 = (Ok (), r3) →
      locked key r (match _remaining L (server_time t) t' with
                    | Ok rem => Decided (MkDecision true (rate L) rem (f_of_Z 0) "")
                    | Err e => number_error e
                    end) r3.

Definition ending_of (res : result (Decision F)) : ending := match res with Ok d => Decided d | Err e => number_error e end.

Lemma on_redis_eq {A} (m : stx R A) s : on_redis m s = ((m (redis s)).1, LimiterState (fail_open_count s) (fail_closed_count s) (m (redis s)).2).
Proof. unfold on_redis. by destruct (m (redis s)). Qed.

Lemma fail_open_outage s s' : same_counts s s' → outage s (_fail_open_decision L s').1 (_fail_open_decision L s').2.
Proof.
  intros [H1 H2]. unfold outage, _fail_open_decision. destruct (_fail_open L); cbn [negb]; run; cbn; rewrite ?H1, ?H2;
    (split_and!; [lia|done|by eexists]).
Qed.

Lemma redis_reply {A} (m : stx R A) r : only_redis_errors m → (∃ a r', m r = (Ok a, r')) ∨ ∃ w r', m r = (Err (RedisError w), r').
Proof.
  intros Hm. specialize (Hm r). destruct (m r) as [[a|e] r']; [left; eauto|right]. destruct (Hm e eq_refl) as [w ->]. eauto.
Qed.

Lemma check_locked_ends key s :
  same_counts s (check_locked L key s).2 ∧ locked key (redis s) (ending_of (check_locked L key s).1) (redis (check_locked L key s).2).
Proof.
  unfold check_locked, _now. run. rewrite on_redis_eq.
  destruct (redis_reply r_time (redis s) (safe_time (F:=F))) as [(t & r1 & Et)|(w & r1 & Et)]; rewrite Et; run; cbn [fst snd].
  2: split; [done|by eapply time_fails].
  destruct t as [sec us]. run. cbn [fst snd]. rewrite on_redis_eq. cbn [redis fail_open_count fail_closed_count].
  change (f_add (f_of_Z sec) _) with (server_time (sec, us)). set (now := server_time (sec, us)).
  destruct (redis_reply _ r1 (safe_get (F:=F) (tat_key L key))) as [(raw & r2 & Eg)|(w & r2 & Eg)]; rewrite Eg; run; cbn [fst snd].
  2: split; [done|by eapply get_fails].
  assert ((∃ text, raw = Some (VText text)) ∨ ∃ tat, raw = VFloat <$> tat) as [[text ->]|[tat ->]].
  { destruct raw as [[x|text]|]; [right; by exists (Some x)|left; by exists text|right; by exists None]. }
  { cbn [to_float]. run. split; [done|by eapply corrupt_tat]. }
  assert ((match VFloat <$> tat with Some v => to_float v | None => Ok now end) = Ok (default now tat)) as -> by by destruct tat.
  run. assert (next_tat L now tat = if f_lt now (f_sub (default now tat) (tolerance L)) then None
    else Some (f_add (py_max now (default now tat)) (emission_interval L))) as En by done.
  destruct (f_lt now (f_sub (default now tat) (tolerance L))); run; [split; [done|by eapply refused]|].
  set (t' := f_add _ (emission_interval L)) in *. change (f_trunc _) with (expiry now t').
  destruct (expiry now t') as [px|e] eqn:Ex; run; [|split; [done|by eapply no_expiry]].
  rewrite on_redis_eq. cbn [redis fail_open_count fail_closed_count].
  destruct (redis_reply _ r2 (safe_set (F:=F) (tat_key L key) (VFloat t') (px + 1000))) as [([] & r3 & Es)|(w & r3 & Es)]; rewrite Es; run; cbn [fst snd].
  2: split; [done|by eapply set_fails].
  pose proof (admits key (redis s) _ _ _ _ _ _ _ Et Eg En Ex Es) as Had. fold now in Had. destruct (_remaining L now t'); run; (split; [done|exact Had]).
Qed.

Lemma release_safe k t s : ∃ s', _release k t s = (Ok (), s') ∧ same_counts s s' ∧ redis s' = (r_release (F:=F) k t (redis s)).2.
Proof.
  unfold _release. run. rewrite on_redis_eq.
  destruct (redis_reply _ (redis s) (safe_release (F:=F) k t)) as [([] & r & E)|(w & r & E)]; rewrite E; run; by eexists.
Qed.

(** What an ending makes of a call. *)
Definition ends_call s (e : ending) (res : result (Decision F)) s' : Prop :=
  match e with
  | Trouble => outage s res s'
  | Decided d => res = Ok d ∧ same_counts s s'
  | Raises e => res = Err e ∧ same_counts s s'
  end.

Lemma ends_call_same s s1 e res s2 s3 : same_counts s s1 → same_counts s2 s3 → ends_call s1 e res s2 → ends_call s e res s3.
Proof.
  unfold ends_call, outage, same_counts. intros [H1 H2] [H3 H4]. rewrite <- H1, <- H2, H3, H4. done.
Qed.

Definition locked_section (key : string) : stx (limiter_state R) (Decision F) :=
  try_except (check_locked L key)
    (λ e, match e with RedisError _ | ValueError _ => _fail_open_decision L | _ => raise e end).

Lemma locked_section_ends key s : let '(res, s') := locked_section key s in
  ∃ e, locked key (redis s) e (redis s') ∧ ends_call s e res s'.
Proof.
  pose proof (check_locked_ends key s) as [Hc Hl]. unfold locked_section. run.
  destruct (check_locked L key s) as [[d|e] s1]; run; cbn [fst snd] in *; [by eexists|].
  pose proof (fail_open_outage s s1 Hc) as Ho.
  assert (∃ s2, (_fail_open_decision L s1).2 = s2 ∧ redis s2 = redis s1) as (s2 & E2 & Hr).
  { eexists. split; [done|]. unfold _fail_open_decision. destruct (negb _); by run. }
  destruct (_fail_open_decision L s1) as [res s2'] eqn:Eo. cbn [fst snd] in *. subst s2'.
  destruct e; run; rewrite ?Eo; (eexists; split; [rewrite ?Hr; exact Hl|done]).
Qed.

Lemma acquire_safe k t deadline l : ∀ s,
  same_counts s (acquire_loop k t deadline l s).2 ∧
  match (acquire_loop k t deadline l s).1 with
  | Ok t' => t' = t | Err e => (∃ w, e = RedisError w) ∨ e = LockUnavailable k end.
Proof.
  induction l as [|m l IH]; intros s; cbn [acquire_loop]; run; rewrite on_redis_eq.
  all: destruct (redis_reply _ (redis s) (safe_set_nx (F:=F) k t LOCK_TTL_MS)) as [([] & r & E)|(w & r & E)]; rewrite E; run; cbn [fst snd].
  all: try (split; [done|by eauto]).
  1: split; [done|by right].
  destruct (negb (f_lt m deadline)); [split; [done|by right]|exact (IH (LimiterState (fail_open_count s) (fail_closed_count s) r))].
Qed.
End policies.

(** ** Properties *)

(** Over exact numbers, a limiter built by [init] admits exactly [burst] of
    any number of simultaneous requests on a cold key, and over any sequence of
    request times at most [burst] plus one per emission interval: the n-th
    admitted request comes at least (n - burst) intervals after the first. *)
Theorem gcra_admits_burst rate period burst ns fo L now m ts a l :
  init rate period burst ns fo = Ok L →
  admitted L ts None = a :: l →
  length (admitted L (replicate m now) None) = Nat.min m (Z.to_nat burst) ∧
  ∀ i b, (a :: l) !! i = Some b →
    (a + inject_Z (Z.of_nat i + 1 - burst) * (period / inject_Z rate) <= b)%Q.
Proof.
  intros Hinit Hadm. destruct (init_well_formed _ _ _ _ _ _ Hinit) as (Hwf & HT & _).
  assert (Gcra.burst L = burst) as Hb.
  { unfold init in Hinit. apply bind_Ok in Hinit as (? & _ & H). apply bind_Ok in H as (? & _ & H).
    by injection H as <-. }
  split.
  - destruct m as [|m]; [done|]. cbn [replicate admitted]. rewrite admit_cold by done. cbn [length].
    rewrite (admitted_burst L now m 1) by
      (done || (destruct Hwf as (_ & ? & _); lia) || (change (inject_Z 1) with 1%Q; lra)).
    destruct Hwf as (_ & ? & _). rewrite Hb in *. lia.
  - assert (∀ ts, admitted L ts None = a :: l → ∃ ts', admitted L ts' (Some (a + emission_interval L)%Q) = l) as Hcold.
    { intros ts'. destruct ts' as [|now' ts']; [done|]. cbn [admitted]. rewrite admit_cold by done.
      intros [= -> ?]. eauto. }
    destruct (Hcold ts Hadm) as [ts' Hl]. rewrite <- HT. intros [|i] b; cbn [lookup list_lookup].
    + intros [= ->]. destruct Hwf as (? & ? & _). rewrite Hb in *.
      assert (inject_Z (Z.of_nat 0 + 1 - burst) * emission_interval L <= 0)%Q; [|lra].
      assert (0 <= inject_Z (burst - 1))%Q by (rewrite <- (Zle_Qle 0); lia).
      replace (Z.of_nat 0 + 1 - burst) with (- (burst - 1)) by lia. rewrite inject_Z_opp.
      assert (0 <= inject_Z (burst - 1) * emission_interval L)%Q by (apply Qmult_le_0_compat; lra). lra.
    + intros Hi. change (l !! i = Some b) in Hi. rewrite <- Hl in Hi.
      pose proof (admitted_spacing L ts' (a + emission_interval L) a 1 Hwf
        ltac:(change (inject_Z 1) with 1%Q; lra) i b Hi) as H. rewrite Hb in H.
      by replace (Z.of_nat (S i) + 1 - burst) with (1 + Z.of_nat i + 1 - burst) by lia.
Qed.

Definition sample_limiter : GCRALimiter Q := MkGCRALimiter 5 1%Q 5 "gcra" true (1 # 5) (4 # 5).

Lemma gcra_admits_burst_witness :
  length (admitted sample_limiter (replicate 7 1786000000%Q) None) = 5%nat.
Proof.
  refine (proj1 (gcra_admits_burst 5 1%Q 5 "gcra" true sample_limiter 1786000000%Q 7 [0%Q] 0%Q [] _ _)).
  - vm_compute. reflexivity.
  - vm_compute. reflexivity.
Defined.

Definition float_limiter : result (GCRALimiter spec_float) := init 5 (f_of_Z 1) 5 "gcra" true.
Fixpoint admitted_at {F} `{Arith F} (L : GCRALimiter F) (now : F) (m : nat) (tat : option F) : nat :=
  match m with
  | O => O
  | S m => match next_tat L now tat with
           | Some t' => S (admitted_at L now m (Some t'))
           | None => admitted_at L now m tat
           end
  end.

(** On the doubles the program computes with, the same limiter (rate 5, period
    1.0, burst 5) at a present-day Redis time admits four simultaneous requests
    on a cold key, not five: rounding the TAT away from the clock loses one. *)
Theorem gcra_float_burst_short :
  (λ L, (burst L, admitted_at L (f_add (f_of_Z 1786000000) (f_div (f_of_Z 123456) (f_of_Z 1000000))) 7 None))
    <$> float_limiter = Ok (5, 4%nat).
Proof. vm_compute. reflexivity. Qed.

(** C21: against a Redis that is up, a call on a free lock and a sound TAT is
    exactly one decision of the algorithm at the server's time: it is allowed
    and writes the next TAT, or refused without touching the TAT, with the exact
    time to wait; at that time or later, and not before, the same request would
    be allowed.  The lock is free again. *)
Theorem check_decides {R} `{HR : RedisClient Q R} `{!RedisLaws Q R} (L : GCRALimiter Q)
    token start readings key (s : limiter_state R) tat :
  well_formed L → alive (redis s) (lock_key L key) = None → holds_tat L (redis s) key tat →
  ∃ d s', check L token start readings key s = (Ok d, s') ∧ alive (redis s') (lock_key L key) = None ∧
    match next_tat L (now_of (redis s)) tat with
    | Some t' => allowed d = true ∧ holds_tat L (redis s') key (Some t')
    | None => allowed d = false ∧ holds_tat L (redis s') key tat ∧
        ∀ now', is_Some (next_tat L now' tat) ↔ (now_of (redis s) + retry_after_s d <= now')%Q
    end.
Proof.
  intros Hwf Hlock Htat. destruct s as [a b r]. cbn [redis] in *.
  destruct (check_run L token start readings key a b r tat Hwf Hlock Htat) as (d & r' & tat' & E & _ & Hl & H1 & H2).
  exists d, (LimiterState a b r'). split_and!; [done|done|]. unfold decided in H2. cbn [redis].
  destruct (next_tat L (now_of r) tat) as [t'|] eqn:Ea; [by destruct H2 as [? ->]|].
  destruct H2 as (? & _ & -> & Hr). split_and!; [done|done|]. intros now'. rewrite Hr.
  destruct tat as [t|]; [|by rewrite admit_cold in Ea]. cbn [default].
  pose proof (admit_spec L now' t) as Hs. destruct (next_tat L now' (Some t)) as [t'|].
  - split; [intros _; destruct Hs as [Hs _]; cbn; lra|by eexists].
  - split; [by intros []|]. cbn. intros. exfalso. lra.
Qed.

Lemma check_decides_witness :
  ∃ d s', check sample_limiter "tok" 0%Q [] "k" (LimiterState 0 0 (SimRedis 1786000000123456 ∅)) = (Ok d, s') ∧ allowed d = true.
Proof.
  destruct (check_decides sample_limiter "tok" 0%Q [] "k" (LimiterState 0 0 (SimRedis 1786000000123456 ∅)) None)
    as (d & s' & E & _ & H).
  - by vm_compute.
  - done.
  - done.
  - exists d, s'. split; [done|]. exact (proj1 H).
Defined.

(** C38: as long as Redis commands raise nothing but RedisError, and whatever numbers the
    limiter computes with, a call ends by the replies of Redis alone.  A Redis error while
    taking the lock, in reading the time or the TAT or in writing it, and a TAT that
    is no number, allow the request, and count it, when the limiter fails open, and
    refuse it otherwise; a lock that stays busy refuses it and counts it; else the answer is the
    decision on the TAT that was read, and no counter moves.  Only a number that
    has no integer (an infinite TTL) is raised. *)
Theorem check_fails_as_documented {F R} `{HA : Arith F} `{HR : RedisClient F R} `{!RedisSafe F R} (L : GCRALimiter F)
    token start readings key (s : limiter_state R) :
  let '(res, s') := check L token start readings key s in
  match _acquire (lock_key L key) token start readings s with
  | (Ok t, s1) => t = token ∧ ∃ e r2, locked L key (redis s1) e r2 ∧
      redis s' = (r_release (F:=F) (lock_key L key) token r2).2 ∧
      ends_call L s e res s'
  | (Err (RedisError _), s1) => outage L s res s' ∧ redis s' = redis s1
  | (Err (LockUnavailable _), s1) => redis s' = redis s1 ∧ fail_open_count s' = fail_open_count s ∧
      fail_closed_count s' = fail_closed_count s + 1 ∧
      res = Ok (MkDecision false (rate L) 0 (emission_interval L) "lock_contended")
  | (Err _, _) => False
  end.
Proof.
  unfold check. pose proof (acquire_safe (lock_key L key) token (f_add start (f_ratio 5 100)) readings s) as [Hs Ha].
  unfold _acquire in *. destruct (acquire_loop _ _ _ _ s) as [[tok|e] s1]; cbn [fst snd] in *.
  - subst tok. pose proof (locked_section_ends L key s1) as Hl. unfold finally. fold (locked_section (HR:=HR) L key).
    destruct (locked_section L key s1) as [res s2]. destruct Hl as (e & Hl & He).
    destruct (release_safe (lock_key L key) token s2) as (s3 & -> & H3 & H4). split; [done|]. exists e, (redis s2).
    split_and!; [done|done|]. by eapply ends_call_same.
  - destruct Ha as [[w ->]| ->].
    + pose proof (fail_open_outage L s s1 Hs) as Ho. unfold _fail_open_decision in *. by destruct (negb _).
    + destruct Hs as [H1 H2]. cbn. rewrite H1, H2. done.
Qed.

(** A Redis on doubles that loses its connection after the lock is taken. *)
#[local] Instance lost_client : RedisClient spec_float () := {
  r_time := mret (1786000000, 123456); r_set_nx _ _ _ := mret true; r_get _ := raise (RedisError "connection lost");
  r_set _ _ _ := raise (RedisError "connection lost"); r_release _ _ := raise (RedisError "connection lost");
  r_delete _ := raise (RedisError "connection lost") }.
#[local] Instance lost_safe : RedisSafe spec_float ().
Proof. split; intros; intros r e; cbn; try done; intros [= <-]; by eexists. Qed.

Definition lost_limiter (fail_open : bool) : GCRALimiter spec_float :=
  MkGCRALimiter 5 (f_of_Z 1) 5 "gcra" fail_open (f_div (f_of_Z 1) (f_of_Z 5)) (f_mul (f_div (f_of_Z 1) (f_of_Z 5)) (f_of_Z 4)).

Lemma check_fails_as_documented_witness :
  (∃ d s', check (lost_limiter true) "tok" (f_of_Z 0) [] "k" (LimiterState 0 0 ()) = (Ok d, s') ∧ allowed d = true ∧ fail_open_count s' = 1) ∧
  (∃ d s', check (lost_limiter false) "tok" (f_of_Z 0) [] "k" (LimiterState 0 0 ()) = (Ok d, s') ∧ allowed d = false ∧ fail_open_count s' = 0).
Proof.
  split.
  - pose proof (check_fails_as_documented (lost_limiter true) "tok" (f_of_Z 0) [] "k" (LimiterState 0 0 ())) as H.
    destruct (check _ _ _ _ _ _) as [res s']. cbn in H. destruct H as (_ & e & r2 & Hl & _ & He).
    inversion Hl; subst; try discriminate. destruct He as (H1 & _ & d & -> & Ha & _). by exists d, s'.
  - pose proof (check_fails_as_documented (lost_limiter false) "tok" (f_of_Z 0) [] "k" (LimiterState 0 0 ())) as H.
    destruct (check _ _ _ _ _ _) as [res s']. cbn in H. destruct H as (_ & e & r2 & Hl & _ & He).
    inversion Hl; subst; try discriminate. destruct He as (H1 & _ & d & -> & Ha & _). by exists d, s'.
Defined.

(** Expiry is harmless: once a TAT is due, deciding without it gives the
    same decision and the same next TAT as deciding with it. *)
Theorem expired_tat_harmless (L : GCRALimiter Q) now t : well_formed L → (t <= now)%Q →
  next_tat L now (Some t) = next_tat L now None.
Proof. apply admit_due. Qed.

Lemma expired_tat_harmless_witness : next_tat sample_limiter 3%Q (Some 2%Q) = next_tat sample_limiter 3%Q None.
Proof. apply (expired_tat_harmless sample_limiter 3%Q 2%Q); by vm_compute. Defined.
