(* ===== verification/Binary64.v ===== *)
(** The doubles of the interpreter: rounding error of the operations of [SpecFloat] at
    binary64, with the comparison they agree with, and the limiter of limits/gcra.py on
    them. *)
From Stdlib Require Import SpecFloat QArith Lqa.
From S2P Require Import Prelude PyVal Gcra.
#[local] Open Scope Z_scope.

(** ** Values

    The value of a finite double in units of 2^-2200, so that those of products of
    doubles are integers too. *)
Definition pw (e : Z) : Z := 2 ^ (e + 2200).
Definition sgn (s : bool) : Z := if s then -1 else 1.
Definition val (x : spec_float) : Z :=
  match x with S754_finite s m e => sgn s * Zpos m * pw e | _ => 0 end.

(** The exponent of a number with so many digits before the point. *)
Definition fx (e : Z) : Z := Z.max (e - 53) (-1074).
Definition canon (x : spec_float) : Prop :=
  match x with
  | S754_zero _ => True
  | S754_finite _ m e => e = fx (Zpos (digits2_pos m) + e) ∧ e <= 971
  | _ => False
  end.

Lemma fexp_fx e : fexp 53 1024 e = fx e.
Proof. reflexivity. Qed.

Lemma pw_pos e : -2200 <= e → 0 < pw e.
Proof. intros. unfold pw. apply Z.pow_pos_nonneg; lia. Qed.
Lemma pw_add e n : 0 <= n → -2200 <= e → pw (e + n) = 2 ^ n * pw e.
Proof. intros. unfold pw. rewrite <- Z.pow_add_r by lia. f_equal. lia. Qed.
Lemma pw_mono e f : e <= f → pw e <= pw f.
Proof. intros. unfold pw. apply Z.pow_le_mono_r; lia. Qed.

(** ** Digits *)
Lemma digits_bounds m : 2 ^ (Zpos (digits2_pos m) - 1) <= Zpos m < 2 ^ Zpos (digits2_pos m).
Proof.
  induction m as [m IH|m IH|]; [..|by cbn].
  all: cbn [digits2_pos]; rewrite Pos2Z.inj_succ; set (d := Zpos (digits2_pos m)) in *; assert (0 < d) by lia.
  all: replace (Z.succ d - 1) with (Z.succ (d - 1)) by lia; rewrite !Z.pow_succ_r by lia; lia.
Qed.

Lemma digits_le m k : 0 <= k → Zpos m < 2 ^ k → Zpos (digits2_pos m) <= k.
Proof.
  intros Hk H. pose proof (digits_bounds m) as [Hl _]. apply Z.nlt_ge. intros Hlt.
  assert (2 ^ k <= 2 ^ (Zpos (digits2_pos m) - 1)) by (apply Z.pow_le_mono_r; lia). lia.
Qed.
Lemma digits_ge m k : 2 ^ k <= Zpos m → k < Zpos (digits2_pos m).
Proof.
  intros H. pose proof (digits_bounds m) as [_ Hu]. apply Z.nle_gt. intros Hle.
  assert (2 ^ Zpos (digits2_pos m) <= 2 ^ k) by (apply Z.pow_le_mono_r; lia). lia.
Qed.

(** ** Shifts *)
Lemma shr_1_half r : 0 <= shr_m r → shr_m (shr_1 r) = shr_m r / 2 ∧ 0 <= shr_m (shr_1 r).
Proof.
  destruct r as [[|[p|p|]|p] a b]; cbn [shr_m shr_1]; intros H; [done| | |done|lia]; (split; [|lia]);
    [apply (Z.div_unique _ _ _ 1)|apply (Z.div_unique _ _ _ 0)]; lia.
Qed.

Lemma iter_shr p : ∀ r, 0 <= shr_m r →
  shr_m (SpecFloat.iter_pos shr_1 p r) = shr_m r / 2 ^ Zpos p ∧ 0 <= shr_m (SpecFloat.iter_pos shr_1 p r).
Proof.
  induction p as [p IH|p IH|]; intros r Hr; cbn [SpecFloat.iter_pos]; try assert (0 < 2 ^ Zpos p) by (apply Z.pow_pos_nonneg; lia).
  - destruct (shr_1_half r Hr) as [E1 H1]. destruct (IH _ H1) as [E2 H2]. destruct (IH _ H2) as [E3 H3].
    split; [|done]. rewrite E3, E2, E1, !Z.div_div by nia.
    f_equal. replace (Zpos p~1) with (1 + Zpos p + Zpos p) by lia. rewrite !Z.pow_add_r by lia. ring.
  - destruct (IH _ Hr) as [E2 H2]. destruct (IH _ H2) as [E3 H3]. split; [|done].
    rewrite E3, E2, !Z.div_div by nia. f_equal.
    replace (Zpos p~0) with (Zpos p + Zpos p) by lia. rewrite Z.pow_add_r by lia. ring.
  - by apply shr_1_half.
Qed.

Lemma record_of_loc_m m l : shr_m (shr_record_of_loc m l) = m.
Proof. by destruct l as [|[]]. Qed.

(** A shift to the exponent of the format. *)
Lemma shr_fexp_spec m e l : 0 <= m → e <= fx (Zdigits2 m + e) →
  ∃ r, shr_fexp 53 1024 m e l = (r, fx (Zdigits2 m + e)) ∧ shr_m r = m / 2 ^ (fx (Zdigits2 m + e) - e) ∧
  (e = fx (Zdigits2 m + e) → r = shr_record_of_loc m l).
Proof.
  intros Hm He. unfold shr_fexp. rewrite fexp_fx. destruct (fx (Zdigits2 m + e) - e) as [|p|p] eqn:En; [| |lia].
  - cbn [shr]. exists (shr_record_of_loc m l). rewrite record_of_loc_m, Z.div_1_r. split_and!; [f_equal; lia|done|done].
  - unfold shr. destruct (iter_shr p (shr_record_of_loc m l)) as [E _]; [by rewrite record_of_loc_m|].
    rewrite record_of_loc_m in E. eexists. split_and!; [f_equal; lia|exact E|lia].
Qed.

Lemma round_even_near m l : round_nearest_even m l = m ∨ round_nearest_even m l = m + 1.
Proof. destruct l as [|[]]; cbn; auto. destruct (Z.even m); auto. Qed.

(** ** Rounding *)
Lemma round_up_spec s p1 e : -1074 <= e → e <= 970 → (Zpos p1 < 2 ^ 53 → e = -1074 ∨ 2 ^ 52 <= Zpos p1) → Zpos p1 <= 2 ^ 53 →
  ∃ x, (let '(mrs, f) := shr_fexp 53 1024 (Zpos p1) e loc_Exact in
        match shr_m mrs with
        | Z0 => S754_zero s
        | Zpos m => if f <=? 971 then S754_finite s m f else S754_infinity s
        | _ => S754_nan
        end) = x ∧ canon x ∧ val x = sgn s * Zpos p1 * pw e.
Proof.
  intros He1 He2 Hlow Hp. destruct (decide (Zpos p1 = 2 ^ 53)) as [E|Hne].
  - assert (p1 = 9007199254740992%positive) as -> by (vm_compute in E; by injection E).
    destruct (shr_fexp_spec 9007199254740992 e loc_Exact ltac:(done)) as (r & Er & Hr & _); change (Zdigits2 9007199254740992) with 54 in *; [unfold fx; lia|].
    rewrite Er, Hr. replace (fx (54 + e)) with (e + 1) by (unfold fx; lia). replace (e + 1 - e) with 1 by lia.
    change (9007199254740992 / 2 ^ 1) with (Zpos 4503599627370496). cbv iota beta. rewrite (proj2 (Z.leb_le _ _)) by lia.
    eexists. split; [done|]. cbn [canon val]. change (Zpos (digits2_pos 4503599627370496)) with 53.
    split; [unfold fx; lia|]. rewrite pw_add by lia. lia.
  - assert (Hlt : Zpos p1 < 2 ^ 53) by lia. specialize (Hlow Hlt).
    pose proof (digits_le p1 53 ltac:(lia) Hlt) as Hd. assert (0 < Zpos (digits2_pos p1)) as Hd0 by lia.
    assert (e = fx (Zpos (digits2_pos p1) + e)) as Hfx.
    { unfold fx. destruct Hlow as [->|Hq]; [lia|]. pose proof (digits_ge p1 52 Hq). lia. }
    destruct (shr_fexp_spec (Zpos p1) e loc_Exact ltac:(lia)) as (r & Er & Hr & _); change (Zdigits2 (Zpos p1)) with (Zpos (digits2_pos p1)) in *; [lia|].
    rewrite <- Hfx in Er, Hr. rewrite Er, Hr, Z.sub_diag, Z.pow_0_r, Z.div_1_r. cbv iota beta. rewrite (proj2 (Z.leb_le _ _)) by lia.
    eexists. split; [done|]. cbn [canon val]. split; [split; [exact Hfx|lia]|done].
Qed.

Lemma round_aux_spec s p e l : let e' := fx (Zpos (digits2_pos p) + e) in e <= e' → e' <= 970 →
  ∃ x q m1, binary_round_aux 53 1024 s (Zpos p) e l = x ∧ canon x ∧ val x = sgn s * m1 * pw e' ∧
  q = Zpos p / 2 ^ (e' - e) ∧ (m1 = q ∨ m1 = q + 1) ∧ (e = e' → l = loc_Exact → m1 = Zpos p).
Proof.
  intros e' He He'. unfold binary_round_aux.
  destruct (shr_fexp_spec (Zpos p) e l ltac:(lia)) as (r & Er & Hr & Hexact); change (Zdigits2 (Zpos p)) with (Zpos (digits2_pos p)) in *; [exact He|].
  fold e' in Er, Hr, Hexact. rewrite Er. set (m1 := round_nearest_even (shr_m r) (loc_of_shr_record r)).
  assert (Hm1 : m1 = shr_m r ∨ m1 = shr_m r + 1) by apply round_even_near.
  pose proof (digits_bounds p) as [Hlo Hhi]. set (d := Zpos (digits2_pos p)) in *. set (n := e' - e) in *.
  assert (Hn : 0 <= n) by lia. assert (Hpn : 0 < 2 ^ n) by (apply Z.pow_pos_nonneg; lia).
  assert (Hq0 : 0 <= shr_m r) by (rewrite Hr; apply Z.div_pos; lia).
  assert (Hq1 : shr_m r < 2 ^ 53).
  { rewrite Hr. apply Z.div_lt_upper_bound; [done|]. rewrite <- Z.pow_add_r by lia.
    assert (2 ^ d <= 2 ^ (n + 53)) by (apply Z.pow_le_mono_r; subst n e'; unfold fx in *; lia). lia. }
  assert (Hq2 : e' = -1074 ∨ 2 ^ 52 <= shr_m r).
  { destruct (decide (e' = -1074)); [by left|right]. rewrite Hr. apply Z.div_le_lower_bound; [done|]. rewrite <- Z.pow_add_r by lia.
    assert (2 ^ (n + 52) <= 2 ^ (d - 1)) by (apply Z.pow_le_mono_r; subst n e'; unfold fx in *; lia). lia. }
  assert (e = e' → l = loc_Exact → m1 = Zpos p) as Hex.
  { intros E ->. unfold m1. rewrite Hexact by exact E. done. }
  assert (-1074 <= e') as Hmin by (subst e'; unfold fx; lia).
  destruct m1 as [|p1|p1] eqn:Em1; [| |lia].
  - exists (S754_zero s), (shr_m r), 0. split_and!; [|done|cbn; lia|done|done|done].
    unfold shr_fexp, shr. change (Zdigits2 0) with 0. rewrite fexp_fx.
    destruct (fx (0 + e') - e') as [|k|k] eqn:Ek; [done|unfold fx in Ek; lia|done].
  - destruct (round_up_spec s p1 e') as (x & Ex & Hc & Hv); [done|done|destruct Hq2; [by left|right; lia]|lia|].
    exists x, (shr_m r), (Zpos p1). split_and!; [exact Ex|done..].
Qed.

Lemma iter_xO m d : Zpos (Pos.iter xO m d) = Zpos m * 2 ^ Zpos d.
Proof.
  induction d as [|d IH] using Pos.peano_ind; [cbn; lia|]. rewrite Pos.iter_succ, Pos2Z.inj_xO, IH, Pos2Z.inj_succ, Z.pow_succ_r by lia. ring.
Qed.

Lemma shl_align_spec m e f : ∃ m', shl_align m e f = (m', Z.min e f) ∧ Zpos m' = Zpos m * 2 ^ (e - Z.min e f).
Proof.
  unfold shl_align. destruct (f - e) as [|k|k] eqn:E.
  - exists m. replace (Z.min e f) with e by lia. split; [done|]. rewrite Z.sub_diag. cbn. lia.
  - exists m. replace (Z.min e f) with e by lia. split; [done|]. rewrite Z.sub_diag. cbn. lia.
  - exists (Pos.iter xO m k). replace (Z.min e f) with f by lia. split; [done|]. rewrite iter_xO. do 2 f_equal. lia.
Qed.

Lemma digits_shift m m' k : 0 <= k → Zpos m' = Zpos m * 2 ^ k → Zpos (digits2_pos m') = Zpos (digits2_pos m) + k.
Proof.
  intros Hk E. pose proof (digits_bounds m) as [Hl Hu]. set (d := Zpos (digits2_pos m)) in *. assert (0 < d) by (subst d; lia).
  assert (0 < 2 ^ k) by (apply Z.pow_pos_nonneg; lia).
  assert (Zpos (digits2_pos m') <= d + k) by (apply digits_le; [lia|]; rewrite E, Z.pow_add_r by lia; nia).
  assert (d - 1 + k < Zpos (digits2_pos m')) by (apply digits_ge; rewrite E, Z.pow_add_r by lia; nia). lia.
Qed.

(** Rounding moves by at most one unit of the last place. *)
Lemma quotient_near a n q m1 : 0 <= n → q = a / 2 ^ n → m1 = q ∨ m1 = q + 1 → Z.abs (m1 * 2 ^ n - a) <= 2 ^ n.
Proof.
  intros Hn -> Hm. assert (0 < 2 ^ n) by (apply Z.pow_pos_nonneg; lia).
  pose proof (Z.div_mod a (2 ^ n) ltac:(lia)). pose proof (Z.mod_pos_bound a (2 ^ n) ltac:(lia)).
  destruct Hm as [-> | ->]; nia.
Qed.

Lemma round_spec s p e : let e' := fx (Zpos (digits2_pos p) + e) in -2200 <= e → e' <= 970 →
  ∃ x, binary_round 53 1024 s p e = x ∧ canon x ∧ Z.abs (val x - sgn s * Zpos p * pw e) <= pw e' ∧
  (e' <= e → val x = sgn s * Zpos p * pw e).
Proof.
  intros e' He He'. unfold binary_round. rewrite fexp_fx. fold e'.
  destruct (shl_align_spec p e e') as (p' & -> & Ep). set (ez := Z.min e e') in *.
  assert (-1074 <= e') as Hmin by (subst e'; unfold fx; lia).
  assert (Hd : Zpos (digits2_pos p') = Zpos (digits2_pos p) + (e - ez)) by (apply digits_shift; [lia|done]).
  assert (Hfx : fx (Zpos (digits2_pos p') + ez) = e') by (unfold e'; rewrite Hd; f_equal; lia).
  destruct (round_aux_spec s p' ez loc_Exact) as (x & q & m1 & Ex & Hc & Hv & Hq & Hm & Hexact); rewrite Hfx in *; [lia|done|].
  exists x. split_and!; [done|done| |].
  - rewrite Hv. pose proof (quotient_near (Zpos p') (e' - ez) q m1 ltac:(lia) Hq Hm) as Hn.
    assert (Hpw : pw e' = 2 ^ (e' - ez) * pw ez) by (rewrite <- pw_add by lia; f_equal; lia).
    assert (Hpe : pw e = 2 ^ (e - ez) * pw ez) by (rewrite <- pw_add by lia; f_equal; lia).
    rewrite Hpw, Hpe. pose proof (pw_pos ez ltac:(lia)) as Hz.
    replace (sgn s * m1 * (2 ^ (e' - ez) * pw ez) - sgn s * Zpos p * (2 ^ (e - ez) * pw ez))
      with (sgn s * ((m1 * 2 ^ (e' - ez) - Zpos p') * pw ez)) by (rewrite Ep; ring).
    rewrite !Z.abs_mul, (Z.abs_eq (pw ez)) by lia. assert (Z.abs (sgn s) = 1) as -> by by destruct s. nia.
  - intros Hle. assert (ez = e') as Ez by lia. rewrite Hv, (Hexact Ez eq_refl), Ep, Ez.
    assert (Hpe : pw e = 2 ^ (e - e') * pw e') by (rewrite <- pw_add by lia; f_equal; lia). rewrite Hpe. ring.
Qed.

(** ** Errors

    Below [2^32] in absolute value, an operation is wrong by at most [2^-20]. *)
Definition bound : Z := pw 32.
Definition eps : Z := pw (-20).

Lemma exponent_below p e : Zpos p * pw e <= bound → -2200 <= e → fx (Zpos (digits2_pos p) + e) <= -20.
Proof.
  intros Hb He. pose proof (digits_bounds p) as [Hl _]. set (d := Zpos (digits2_pos p)) in *. assert (0 < d) by (subst d; lia).
  assert (pw (e + (d - 1)) <= pw 32) as Hle.
  { rewrite pw_add by lia. pose proof (pw_pos e He). unfold bound in Hb. nia. }
  unfold pw in Hle. apply Z.pow_le_mono_r_iff in Hle; [|lia..]. unfold fx. lia.
Qed.

Lemma normalize_spec M e z : -2200 <= e → Z.abs (M * pw e) <= bound →
  ∃ x, binary_normalize 53 1024 M e z = x ∧ canon x ∧ Z.abs (val x - M * pw e) <= eps.
Proof.
  intros He Hb. pose proof (pw_pos e He) as Hpe. assert (0 < eps) as Heps by (apply pw_pos; lia).
  destruct M as [|p|p]; cbn [binary_normalize].
  - exists (S754_zero z). split_and!; [done|done|cbn; lia].
  - assert (fx (Zpos (digits2_pos p) + e) <= -20) by (apply exponent_below; lia).
    destruct (round_spec false p e) as (x & Ex & Hc & Hn & _); [done|lia|]. exists x. split_and!; [done..|]. cbn [sgn] in Hn. rewrite Z.mul_1_l in Hn.
    etrans; [exact Hn|]. by apply pw_mono.
  - assert (fx (Zpos (digits2_pos p) + e) <= -20) by (apply exponent_below; lia).
    destruct (round_spec true p e) as (x & Ex & Hc & Hn & _); [done|lia|]. exists x. split_and!; [done..|]. cbn [sgn] in Hn.
    change (Zneg p) with (-1 * Zpos p). etrans; [exact Hn|]. by apply pw_mono.
Qed.

(** ** The comparison *)
Lemma canon_below m1 e1 m2 e2 : canon (S754_finite false m1 e1) → canon (S754_finite false m2 e2) → e1 < e2 →
  Zpos m1 * pw e1 < Zpos m2 * pw e2.
Proof.
  cbn. unfold fx. intros [H1 _] [H2 _] Hlt. pose proof (digits_bounds m1) as [_ Hu]. pose proof (digits_bounds m2) as [Hl _].
  set (d1 := Zpos (digits2_pos m1)) in *. set (d2 := Zpos (digits2_pos m2)) in *.
  assert (Zpos m1 < 2 ^ 53) by (assert (2 ^ d1 <= 2 ^ 53) by (apply Z.pow_le_mono_r; lia); lia).
  assert (d2 = 53) as E by lia. rewrite E in Hl.
  assert (pw (e1 + 1) <= pw e2) as Hp by (apply pw_mono; lia). rewrite pw_add in Hp by lia.
  pose proof (pw_pos e1 ltac:(lia)). change (2 ^ (53 - 1)) with 4503599627370496 in Hl. change (2 ^ 53) with 9007199254740992 in *.
  change (2 ^ 1) with 2 in Hp. nia.
Qed.

Lemma compare_pos m1 e1 m2 e2 : canon (S754_finite false m1 e1) → canon (S754_finite false m2 e2) →
  match Z.compare e1 e2 with Lt => Lt | Gt => Gt | Eq => Pos.compare_cont Eq m1 m2 end = (Zpos m1 * pw e1 ?= Zpos m2 * pw e2).
Proof.
  intros H1 H2. destruct (Z.compare_spec e1 e2) as [->|Hlt|Hlt].
  - assert (-1074 <= e2) by (cbn in H2; unfold fx in H2; lia). rewrite <- Zmult_compare_compat_r by (pose proof (pw_pos e2 ltac:(lia)); lia). done.
  - symmetry. by apply Z.compare_lt_iff, canon_below.
  - symmetry. by apply Z.compare_gt_iff, canon_below.
Qed.

Lemma finite_pos m e : canon (S754_finite false m e) → 0 < Zpos m * pw e.
Proof. cbn. unfold fx. intros [H _]. pose proof (pw_pos e ltac:(lia)). lia. Qed.

Lemma SFltb_val x y : canon x → canon y → SFltb x y = (val x <? val y).
Proof.
  intros Hx Hy. unfold SFltb, SFcompare, Z.ltb.
  destruct x as [sx| | |sx mx ex], y as [sy| | |sy my ey]; try done.
  - cbn [val]. pose proof (finite_pos my ey Hy). destruct sy; cbn [sgn]; destruct (Z.compare_spec 0 (-1 * Zpos my * pw ey)), (Z.compare_spec 0 (1 * Zpos my * pw ey)); done || lia.
  - cbn [val]. pose proof (finite_pos mx ex Hx). destruct sx; cbn [sgn]; destruct (Z.compare_spec (-1 * Zpos mx * pw ex) 0), (Z.compare_spec (1 * Zpos mx * pw ex) 0); done || lia.
  - cbn [val]. pose proof (finite_pos mx ex Hx). pose proof (finite_pos my ey Hy). pose proof (compare_pos mx ex my ey Hx Hy) as Hc.
    destruct sx, sy; cbn [sgn].
    + assert (match Z.compare ex ey with Lt => Gt | Gt => Lt | Eq => CompOpp (Pos.compare_cont Eq mx my) end =
        CompOpp (Zpos mx * pw ex ?= Zpos my * pw ey)) as -> by (rewrite <- Hc; by destruct (Z.compare ex ey)).
      rewrite <- Z.compare_antisym. replace (-1 * Zpos mx * pw ex) with (- (Zpos mx * pw ex)) by ring.
      replace (-1 * Zpos my * pw ey) with (- (Zpos my * pw ey)) by ring. by rewrite Z.compare_opp.
    + destruct (Z.compare_spec (-1 * Zpos mx * pw ex) (1 * Zpos my * pw ey)); done || lia.
    + destruct (Z.compare_spec (1 * Zpos mx * pw ex) (-1 * Zpos my * pw ey)); done || lia.
    + rewrite Hc. by rewrite !Z.mul_1_l.
Qed.

(** ** The operations *)
Lemma SFadd_val x y : canon x → canon y → Z.abs (val x + val y) <= bound →
  canon (SFadd 53 1024 x y) ∧ Z.abs (val (SFadd 53 1024 x y) - (val x + val y)) <= eps.
Proof.
  assert (0 < eps) as Heps by (apply pw_pos; lia). intros Hx Hy Hb.
  destruct x as [sx| | |sx mx ex], y as [sy| | |sy my ey]; try done; cbn [SFadd].
  - destruct sx, sy; cbn; split; done || lia.
  - split; [done|]. rewrite Z.add_0_l, Z.sub_diag. cbn. lia.
  - split; [done|]. rewrite Z.add_0_r, Z.sub_diag. cbn. lia.
  - assert (-1074 <= Z.min ex ey) by (cbn in Hx, Hy; unfold fx in *; lia).
    destruct (shl_align_spec mx ex (Z.min ex ey)) as (mx' & -> & E1). destruct (shl_align_spec my ey (Z.min ex ey)) as (my' & -> & E2).
    replace (Z.min ex (Z.min ex ey)) with (Z.min ex ey) in * by lia. replace (Z.min ey (Z.min ex ey)) with (Z.min ex ey) in * by lia.
    set (ez := Z.min ex ey) in *. cbn [fst].
    assert (∀ s m m' e, ez <= e → Zpos m' = Zpos m * 2 ^ (e - ez) → cond_Zopp s (Zpos m') * pw ez = sgn s * Zpos m * pw e) as Hal.
    { intros s m m' e He E. replace (pw e) with (2 ^ (e - ez) * pw ez) by (rewrite <- pw_add by lia; f_equal; lia).
      destruct s; cbn [cond_Zopp sgn]; rewrite E; ring. }
    assert ((cond_Zopp sx (Zpos mx') + cond_Zopp sy (Zpos my')) * pw ez = val (S754_finite sx mx ex) + val (S754_finite sy my ey)) as Hsum.
    { rewrite Z.mul_add_distr_r. cbn [val]. f_equal; (apply Hal; [lia|done]). }
    destruct (normalize_spec (cond_Zopp sx (Zpos mx') + cond_Zopp sy (Zpos my')) ez false) as (x & -> & Hc & Hn); [lia|by rewrite Hsum|].
    rewrite Hsum in Hn. done.
Qed.

Lemma val_opp x : val (SFopp x) = - val x.
Proof. destruct x as [s| | |s m e]; try done. cbn [SFopp val]. destruct s; cbn [negb sgn]; ring. Qed.
Lemma canon_opp x : canon x → canon (SFopp x).
Proof. by destruct x. Qed.

Lemma SFsub_opp x y : SFsub 53 1024 x y = SFadd 53 1024 x (SFopp y).
Proof.
  destruct x as [sx|sx| |sx mx ex], y as [sy|sy| |sy my ey]; try done; cbn [SFsub SFadd SFopp]; by destruct sx, sy.
Qed.

Lemma SFsub_val x y : canon x → canon y → Z.abs (val x - val y) <= bound →
  canon (SFsub 53 1024 x y) ∧ Z.abs (val (SFsub 53 1024 x y) - (val x - val y)) <= eps.
Proof.
  intros Hx Hy Hb. rewrite SFsub_opp. pose proof (SFadd_val x (SFopp y) Hx (canon_opp y Hy)) as H. rewrite val_opp in H.
  by apply H.
Qed.

Lemma f_of_Z_val z : Z.abs z < 2 ^ 53 → canon (f_of_Z (F := spec_float) z) ∧ val (f_of_Z (F := spec_float) z) = z * pw 0.
Proof.
  intros Hz. cbn [f_of_Z binary64_arith]. assert (∀ s p, Zpos p < 2 ^ 53 → ∃ x, binary_round 53 1024 s p 0 = x ∧ canon x ∧ val x = sgn s * Zpos p * pw 0) as Hr.
  { intros s p Hp. pose proof (digits_le p 53 ltac:(lia) Hp).
    destruct (round_spec s p 0) as (x & Ex & Hc & _ & Hv); [lia|unfold fx; lia|]. exists x. split_and!; [done..|].
    apply Hv. unfold fx. lia. }
  destruct z as [|p|p]; [done|..].
  - destruct (Hr false p ltac:(lia)) as (x & Ex & Hc & Hv). cbn [binary_normalize]. rewrite Ex, Hv. cbn [sgn]. split; [done|lia].
  - destruct (Hr true p ltac:(lia)) as (x & Ex & Hc & Hv). cbn [binary_normalize]. rewrite Ex, Hv. cbn [sgn]. split; [done|lia].
Qed.

Lemma pw_split e f g h : -2200 <= e → -2200 <= f → -2200 <= g → -2200 <= h → e + f = g + h → pw e * pw f = pw g * pw h.
Proof. intros. unfold pw. rewrite <- !Z.pow_add_r by lia. f_equal. lia. Qed.

Lemma SFmul_val x y : canon x → canon y → Z.abs (val x * val y) <= bound * pw 0 →
  canon (SFmul 53 1024 x y) ∧ Z.abs (val (SFmul 53 1024 x y) * pw 0 - val x * val y) <= eps * pw 0.
Proof.
  assert (0 < eps) as Heps by (apply pw_pos; lia). assert (0 < pw 0) as Hp0 by (apply pw_pos; lia). intros Hx Hy Hb.
  destruct x as [sx| | |sx mx ex], y as [sy| | |sy my ey]; try done; cbn [SFmul].
  1: split; [done|cbn [val]; nia].
  cbn in Hx, Hy. unfold fx in Hx, Hy. pose proof (digits_bounds mx) as [Hl1 _]. pose proof (digits_bounds my) as [Hl2 _].
  set (d1 := Zpos (digits2_pos mx)) in *. set (d2 := Zpos (digits2_pos my)) in *. assert (0 < d1 ∧ 0 < d2) by (subst d1 d2; lia).
  assert (d1 - 1 + (d2 - 1) < Zpos (digits2_pos (mx * my))) as Hd.
  { apply digits_ge. rewrite Z.pow_add_r by lia. change (Zpos (mx * my)) with (Zpos mx * Zpos my).
    assert (0 < 2 ^ (d1 - 1)) by (apply Z.pow_pos_nonneg; lia). assert (0 < 2 ^ (d2 - 1)) by (apply Z.pow_pos_nonneg; lia). nia. }
  assert (pw ex * pw ey = pw (ex + ey) * pw 0) as Hpw by (apply pw_split; lia).
  assert (val (S754_finite sx mx ex) * val (S754_finite sy my ey) = sgn (xorb sx sy) * Zpos (mx * my) * pw (ex + ey) * pw 0) as Hprod.
  { cbn [val]. change (Zpos (mx * my)) with (Zpos mx * Zpos my). rewrite <- (Z.mul_assoc _ (pw (ex + ey))), <- Hpw. destruct sx, sy; cbn [sgn xorb]; ring. }
  pose proof (pw_pos (ex + ey) ltac:(lia)) as Hpe.
  assert (fx (Zpos (digits2_pos (mx * my)) + (ex + ey)) <= -20) as He'.
  { apply exponent_below; [|lia]. rewrite Hprod in Hb. rewrite !Z.abs_mul in Hb. assert (Z.abs (sgn (xorb sx sy)) = 1) as E by by destruct sx, sy.
    rewrite E in Hb. nia. }
  destruct (round_aux_spec (xorb sx sy) (mx * my) (ex + ey) loc_Exact) as (x & q & m1 & -> & Hc & Hv & Hq & Hm & _); [unfold fx; lia|lia|].
  split; [done|]. rewrite Hprod, Hv. set (e' := fx _) in *.
  assert (ex + ey <= e') as Hee by (unfold e', fx; lia).
  pose proof (quotient_near _ (e' - (ex + ey)) q m1 ltac:(lia) Hq Hm) as Hn.
  assert (Hpw' : pw e' = 2 ^ (e' - (ex + ey)) * pw (ex + ey)) by (rewrite <- pw_add by lia; f_equal; lia).
  assert (pw e' <= eps) as Hle by (by apply pw_mono).
  replace (sgn (xorb sx sy) * m1 * pw e' * pw 0 - sgn (xorb sx sy) * Zpos (mx * my) * pw (ex + ey) * pw 0)
    with (sgn (xorb sx sy) * ((m1 * 2 ^ (e' - (ex + ey)) - Zpos (mx * my)) * pw (ex + ey)) * pw 0) by (rewrite Hpw'; ring).
  rewrite !Z.abs_mul. assert (Z.abs (sgn (xorb sx sy)) = 1) as -> by by destruct sx, sy.
  rewrite (Z.abs_eq (pw 0)), (Z.abs_eq (pw (ex + ey))) by lia. apply Z.mul_le_mono_nonneg_r; [lia|]. etrans; [|exact Hle]. rewrite Hpw'. nia.
Qed.

Lemma SFdiv_val m1 e1 m2 e2 : let x := S754_finite false m1 e1 in let y := S754_finite false m2 e2 in
  canon x → canon y → eps * val y <= val x * pw 0 → val x * pw 0 <= bound * val y →
  canon (SFdiv 53 1024 x y) ∧ Z.abs (val (SFdiv 53 1024 x y) * val y - val x * pw 0) <= eps * val y.
Proof.
  intros x y Hx Hy Hlow Hb. pose proof (finite_pos m1 e1 Hx) as Hpx. pose proof (finite_pos m2 e2 Hy) as Hpy.
  cbn in Hx, Hy. unfold fx in Hx, Hy. pose proof (digits_bounds m1) as [Hl1 Hu1]. pose proof (digits_bounds m2) as [Hl2 Hu2].
  assert (Hvx : val x = Zpos m1 * pw e1) by (cbn; lia). assert (Hvy : val y = Zpos m2 * pw e2) by (cbn; lia).
  rewrite Hvx, Hvy in *. clear Hvx Hvy. subst x y. cbn [SFdiv xorb]. unfold SFdiv_core_binary. cbn [Zdigits2]. rewrite fexp_fx.
  set (d1 := Zpos (digits2_pos m1)) in *. set (d2 := Zpos (digits2_pos m2)) in *. assert (0 < d1 ∧ 0 < d2) by (subst d1 d2; lia).
  pose proof (pw_pos e1 ltac:(lia)) as Hp1. pose proof (pw_pos e2 ltac:(lia)) as Hp2. assert (0 < pw 0) as Hp0 by (apply pw_pos; lia).
  assert (d2 + e2 - 22 < d1 + e1) as Ht.
  { assert (pw (d2 - 1 + e2) * pw (-20) < pw (d1 + e1) * pw 0) as Hlt.
    { rewrite (Z.add_comm (d2 - 1)), (Z.add_comm d1), !pw_add by lia. unfold eps in Hlow.
      assert (0 < pw (-20)) by (apply pw_pos; lia). assert (0 < 2 ^ (d2 - 1)) by (apply Z.pow_pos_nonneg; lia).
      assert (2 ^ (d2 - 1) * pw e2 <= Zpos m2 * pw e2) by nia. assert (Zpos m1 * pw e1 < 2 ^ d1 * pw e1) by nia. nia. }
    unfold pw in Hlt. rewrite <- !Z.pow_add_r in Hlt by lia. apply Z.pow_lt_mono_r_iff in Hlt; lia. }
  set (ez := Z.min (fx (d1 + e1 - (d2 + e2))) (e1 - e2)). set (s := e1 - e2 - ez). assert (Hs0 : 0 <= s) by lia.
  assert (Hez : -2200 <= ez) by (subst ez; unfold fx; lia).
  assert ((match s with Zpos _ => Z.shiftl (Zpos m1) s | Z0 => Zpos m1 | Zneg _ => 0 end) = Zpos m1 * 2 ^ s) as ->.
  { destruct s eqn:Es; [cbn; lia|by rewrite Z.shiftl_mul_pow2 by lia|lia]. }
  pose proof (Z.div_eucl_eq (Zpos m1 * 2 ^ s) (Zpos m2) ltac:(lia)) as Hqr. pose proof (Z.mod_pos_bound (Zpos m1 * 2 ^ s) (Zpos m2) ltac:(lia)) as Hr.
  unfold Z.modulo in Hr. destruct (Z.div_eucl (Zpos m1 * 2 ^ s) (Zpos m2)) as [q r].
  assert (0 < 2 ^ s) as Hps by (apply Z.pow_pos_nonneg; lia).
  assert (2 ^ 52 <= q) as Hq52.
  { assert (Zpos m2 * 2 ^ 52 <= Zpos m1 * 2 ^ s) as Hm.
    { assert (2 ^ d2 * 2 ^ 52 <= 2 ^ (d1 - 1) * 2 ^ s) by (rewrite <- !Z.pow_add_r by lia; apply Z.pow_le_mono_r; unfold s, ez, fx; lia). nia. }
    assert (0 < 2 ^ 52) by lia. nia. }
  destruct q as [|q|q]; [lia| |lia]. pose proof (digits_ge q 52 Hq52) as Hdq.
  assert (pw e1 * pw 0 = 2 ^ s * (pw ez * pw e2)) as Hpw.
  { rewrite Z.mul_assoc, <- pw_add by lia. apply pw_split; lia. }
  pose proof (pw_pos ez Hez) as Hpz.
  assert (Zpos m1 * pw e1 * pw 0 = (Zpos m2 * Zpos q + r) * (pw ez * pw e2)) as Hval by (rewrite <- Z.mul_assoc, Hpw, <- Hqr; ring).
  assert (fx (Zpos (digits2_pos q) + ez) <= -20) as He'.
  { apply exponent_below; [|done]. rewrite Hval in Hb. nia. }
  destruct (round_aux_spec false q ez (new_location (Zpos m2) r)) as (x & q' & m & -> & Hc & Hv & Hq' & Hm & _); [unfold fx; lia|lia|].
  split; [done|]. rewrite Hv, Hval. set (e' := fx (Zpos (digits2_pos q) + ez)) in *. assert (ez <= e') as Hee by (unfold e', fx; lia).
  assert (Hpw' : pw e' = 2 ^ (e' - ez) * pw ez) by (rewrite <- pw_add by lia; f_equal; lia).
  assert (pw e' <= eps) as Hle by (by apply pw_mono). set (n := e' - ez) in *. assert (0 < 2 ^ n) as Hpn by (apply Z.pow_pos_nonneg; lia).
  assert (Z.abs (m * 2 ^ n * Zpos m2 - (Zpos m2 * Zpos q + r)) <= 2 ^ n * Zpos m2) as Hn.
  { pose proof (Z.div_mod (Zpos q) (2 ^ n) ltac:(lia)) as Hdm. pose proof (Z.mod_pos_bound (Zpos q) (2 ^ n) ltac:(lia)) as Hmb. rewrite <- Hq' in Hdm.
    set (k := Zpos q mod 2 ^ n) in *. rewrite Hdm. set (P := 2 ^ n) in *. set (b := Zpos m2) in *. clearbody k P b.
    assert (b * k + r < P * b) by nia. assert (0 <= b * k) by nia.
    destruct Hm as [-> | ->]; ring_simplify (q' * P * b - (b * (P * q' + k) + r)) ((q' + 1) * P * b - (b * (P * q' + k) + r)); lia. }
  replace (sgn false * m * pw e' * (Zpos m2 * pw e2) - (Zpos m2 * Zpos q + r) * (pw ez * pw e2))
    with ((m * 2 ^ n * Zpos m2 - (Zpos m2 * Zpos q + r)) * (pw ez * pw e2)) by (rewrite Hpw'; cbn [sgn]; ring).
  rewrite Z.abs_mul, (Z.abs_eq (pw ez * pw e2)) by nia.
  transitivity (pw e' * (Zpos m2 * pw e2)); [rewrite Hpw'; nia|nia].
Qed.

(** ** The limiter *)

(** A finite positive double is a positive mantissa. *)
Lemma canon_positive x : canon x → 0 < val x → ∃ m e, x = S754_finite false m e.
Proof.
  intros Hc H. destruct x as [s| | |[] m e]; cbn in *; try (done || lia); [|by eauto].
  assert (0 < pw e) by (apply pw_pos; unfold fx in Hc; lia). nia.
Qed.

Section limiter.
Context (L : GCRALimiter spec_float).
Abbreviation T := (val (emission_interval L)).
Abbreviation tau := (val (tolerance L)).
Abbreviation b := (burst L).

(** What [init] gives on doubles. *)
Record rounded : Prop := {
  r_T : canon (emission_interval L);
  r_tau : canon (tolerance L);
  r_b : 1 <= b;
  r_slack : (b + 3) * eps < T;
  r_range : T * b <= pw 30;
  r_near : Z.abs (tau - T * (b - 1)) <= eps;
  r_one : b = 1 → ∃ s, tolerance L = S754_zero s }.

(** A time of the program, and one a TAT may reach. *)
Definition in_range (x : spec_float) : Prop := canon x ∧ 0 <= val x <= pw 31.
Definition reachable_tat (t : spec_float) : Prop := canon t ∧ 0 <= val t <= pw 31 + pw 30 + 3 * eps.

Context (Hr : rounded).

Lemma units : 0 < eps ∧ pw 31 = 2 ^ 51 * eps ∧ pw 30 = 2 ^ 50 * eps ∧ bound = 2 ^ 52 * eps.
Proof.
  unfold eps, bound. split; [apply pw_pos; lia|].
  split_and!; [change 31 with (-20 + 51)|change 30 with (-20 + 50)|change 32 with (-20 + 52)]; by apply pw_add.
Qed.

Lemma sizes : 0 <= tau <= pw 30 + eps ∧ eps < T <= pw 30 ∧ tau + T <= pw 30 + eps.
Proof.
  destruct Hr as [_ _ Hb Hs Hg Hn _]. destruct units as (He & _). assert (0 < T) by nia. assert (T <= pw 30) by nia.
  assert (eps < T) by nia. destruct (decide (b = 1)) as [E|Hne].
  - destruct (r_one Hr E) as [s Es]. rewrite Es. cbn [val]. lia.
  - assert (T <= T * (b - 1)) by nia. assert (T * (b - 1) = T * b - T) by ring. lia.
Qed.

Lemma max_val x y : canon x → canon y → canon (py_max x y) ∧ val (py_max x y) = Z.max (val x) (val y).
Proof.
  intros Hx Hy. unfold py_max. cbn [f_lt binary64_arith]. rewrite (SFltb_val x y Hx Hy).
  destruct (Z.ltb_spec (val x) (val y)); split; done || lia.
Qed.

(** One decision, up to the rounding. *)
Lemma next_tat_val now t : in_range now → reachable_tat t →
  match next_tat L now (Some t) with
  | Some t' => reachable_tat t' ∧ Z.abs (val t' - (Z.max (val now) (val t) + T)) <= eps ∧ val t - tau - eps <= val now
  | None => val now < val t - tau + eps
  end.
Proof.
  intros [Hn Hn2] [Ht Ht2]. destruct units as (He & E1 & E2 & E3). destruct sizes as (Htau & HT & Hsum).
  unfold next_tat. cbn [default id f_lt f_sub f_add binary64_arith].
  destruct (SFsub_val t (tolerance L)) as [Hc Hs]; [done|apply r_tau, Hr|lia|]. rewrite SFltb_val by done.
  destruct (Z.ltb_spec (val now) (val (SFsub 53 1024 t (tolerance L)))); [lia|].
  destruct (max_val now t) as [Hm Em]; [done..|].
  destruct (SFadd_val (py_max now t) (emission_interval L)) as [Hc' Ha]; [done|apply r_T, Hr|rewrite Em; lia|]. rewrite Em in Ha.
  split_and!; [|done|lia]. split; [done|]. cbn [f_add binary64_arith] in *. lia.
Qed.

Lemma in_range_tat now : in_range now → reachable_tat now.
Proof. intros [? ?]. destruct units as (? & ? & ? & ?). split; [done|lia]. Qed.

(** A cold key is admitted. *)
Lemma cold_val now : in_range now →
  ∃ t', next_tat L now None = Some t' ∧ reachable_tat t' ∧ Z.abs (val t' - (val now + T)) <= eps.
Proof.
  intros Hn. pose proof (next_tat_val now now Hn (in_range_tat now Hn)) as H.
  change (next_tat L now None) with (next_tat L now (Some now)).
  destruct (next_tat L now (Some now)) as [t'|] eqn:E.
  - exists t'. rewrite Z.max_id in H. by destruct H as (? & ? & _).
  - exfalso. destruct (decide (b = 1)) as [Eb|Hne].
    + destruct (r_one Hr Eb) as [s Es]. unfold next_tat in E. cbn [default id f_lt f_sub binary64_arith] in E. rewrite Es in E.
      destruct Hn as [Hc _]. assert (val (SFsub 53 1024 now (S754_zero s)) = val now ∧ canon (SFsub 53 1024 now (S754_zero s))) as [E1 E2].
      { destruct now as [s'| | |]; try done. by destruct s', s. }
      rewrite SFltb_val, E1, Z.ltb_irrefl in E by done. done.
    + destruct units as (He & _). destruct sizes as (_ & HT & _). destruct Hr as [_ _ Hb Hs _ Hnear _]. assert (T <= T * (b - 1)) by nia. assert (2 * eps < T) by nia. lia.
Qed.

(** Requests at one instant, with [k] intervals ahead. *)
Lemma burst_val now m : ∀ k t, in_range now → reachable_tat t → 1 <= k <= b →
  Z.abs (val t - (val now + k * T)) <= k * eps →
  (Nat.min m (Z.to_nat (b - 1 - k)) <= length (admitted L (replicate m now) (Some t)) <= Nat.min m (Z.to_nat (b - k)))%nat.
Proof.
  destruct units as (He & _). destruct sizes as (_ & HT & _). pose proof (r_slack Hr) as Hs. pose proof (r_near Hr) as Hnear.
  induction m as [|m IH]; intros k t Hn Ht Hk Hd; [done|]. cbn [replicate admitted].
  pose proof (next_tat_val now t Hn Ht) as Hstep. assert (0 <= k * eps <= b * eps) by nia.
  destruct (next_tat L now (Some t)) as [t'|].
  - destruct Hstep as (Ht' & Hd' & Hle). assert (k < b) as Hlt.
    { apply Z.nle_gt. intros Hge. assert (k = b) as E by lia. rewrite E in *. lia. }
    assert (val now <= val t) by nia. cbn [length].
    specialize (IH (k + 1) t' Hn Ht' ltac:(lia) ltac:(lia)). lia.
  - specialize (IH k t Hn Ht Hk Hd). assert (b - 1 <= k).
    { apply Z.nlt_ge. intros Hlt. assert (k * T <= (b - 2) * T) by nia. lia. }
    lia.
Qed.

(** Admissions are spaced out. *)
Lemma spacing_val ts : ∀ t a n, Forall in_range ts → reachable_tat t → 0 <= n → a + n * T - n * eps <= val t →
  ∀ i x, admitted L ts (Some t) !! i = Some x →
  a + (n + Z.of_nat i + 1 - b) * T - (n + Z.of_nat i + 2) * eps <= val x.
Proof.
  destruct units as (He & _). destruct sizes as (_ & HT & _). pose proof (r_near Hr) as Hnear.
  induction ts as [|now ts IH]; intros t a n Hts Ht Hn Ha i x; cbn [admitted]; [done|]. apply Forall_cons in Hts as [Hnow Hts].
  pose proof (next_tat_val now t Hnow Ht) as Hstep. destruct (next_tat L now (Some t)) as [t'|]; [|by apply IH].
  destruct Hstep as (Ht' & Hd & Hle). destruct i as [|i]; cbn [lookup list_lookup].
  - intros [= <-]. replace (Z.of_nat 0) with 0 by done. nia.
  - intros Hi. specialize (IH t' a (n + 1) Hts Ht' ltac:(lia) ltac:(lia) i x Hi).
    replace (n + Z.of_nat (S i)) with (n + 1 + Z.of_nat i) by lia. exact IH.
Qed.
End limiter.

(** What [init] makes of a period and a rate of ordinary size. *)
Lemma init_rounded rate period burst ns fo L :
  init rate period burst ns fo = Ok L → canon period → rate <= 2 ^ 30 → burst <= 2 ^ 30 →
  (burst + 4) * eps * rate < val period → val period * burst <= pw 29 * rate →
  rounded L ∧ Gcra.burst L = burst ∧ 0 < rate ∧ Z.abs (val (emission_interval L) * rate - val period) <= eps * rate.
Proof.
  intros Hinit Hp Hrate Hburst Hslack Hrange. unfold init in Hinit.
  apply bind_Ok in Hinit as (? & H1 & H). apply bind_Ok in H as (? & H2 & H). apply guard_or_Ok in H1, H2. injection H as <-.
  apply andb_true_iff in H1 as [H1 _]. bool_to_prop. cbn [emission_interval tolerance Gcra.burst].
  destruct units as (He & _). assert (0 < pw 0) as Hp0 by (apply pw_pos; lia).
  assert (pw 0 = 2 ^ 20 * eps ∧ pw 29 = 2 ^ 49 * eps ∧ pw 30 = 2 ^ 50 * eps ∧ bound = 2 ^ 52 * eps) as (E0 & E29 & E30 & Eb).
  { unfold eps, bound. split_and!; [change (pw 0) with (pw (-20 + 20))|change 29 with (-20 + 49)|change 30 with (-20 + 50)|change 32 with (-20 + 52)]; by apply pw_add. }
  assert (0 < val period) as Hpos by nia. assert (val period <= pw 29 * rate) as Hple by nia.
  destruct (f_of_Z_val rate ltac:(lia)) as [Hcr Evr]. destruct (f_of_Z_val (burst - 1) ltac:(lia)) as [Hcb Evb].
  destruct (canon_positive period Hp Hpos) as (m1 & e1 & E1).
  destruct (canon_positive (f_of_Z rate) Hcr ltac:(rewrite Evr; nia)) as (m2 & e2 & E2).
  pose proof (SFdiv_val m1 e1 m2 e2) as Hdiv. cbv zeta in Hdiv. rewrite <- E1, <- E2, Evr in Hdiv.
  destruct Hdiv as [HcT HT]; [done|done|nia|rewrite Eb, E29 in *; nia|].
  cbn [f_div f_mul binary64_arith] in *. change (binary64_arith.(f_of_Z)) with (f_of_Z (F := spec_float)) in *.
  set (T := SFdiv 53 1024 period (f_of_Z rate)) in *.
  assert (Z.abs (val T * rate - val period) <= eps * rate) as HT'.
  { replace (val T * (rate * pw 0) - val period * pw 0) with ((val T * rate - val period) * pw 0) in HT by ring.
    rewrite Z.abs_mul, (Z.abs_eq (pw 0)) in HT by lia. nia. }
  assert ((burst + 3) * eps < val T) as HsT.
  { apply Z.nle_gt. intros Hge. assert (val T * rate <= (burst + 3) * eps * rate) by (apply Z.mul_le_mono_nonneg_r; lia). lia. }
  assert (val T * burst <= pw 30) as HrT.
  { assert (val T * burst * rate <= (pw 29 + 2 ^ 30 * eps) * rate) as Hm.
    { assert (val T * rate * burst <= (val period + eps * rate) * burst) by (apply Z.mul_le_mono_nonneg_r; lia).
      assert (eps * rate * burst <= eps * rate * 2 ^ 30) by (apply Z.mul_le_mono_nonneg_l; nia). nia. }
    apply Z.mul_le_mono_pos_r in Hm; [|lia]. lia. }
  destruct (SFmul_val T (f_of_Z (burst - 1))) as [Hct Ht]; [done|done|rewrite Evb; nia|]. rewrite Evb in Ht.
  split_and!; [|done|lia|done]. split; cbn [emission_interval tolerance Gcra.burst]; [done|done|lia|done|done| |].
  - replace (val (SFmul 53 1024 T (f_of_Z (burst - 1))) * pw 0 - val T * ((burst - 1) * pw 0))
      with ((val (SFmul 53 1024 T (f_of_Z (burst - 1))) - val T * (burst - 1)) * pw 0) in Ht by ring.
    rewrite Z.abs_mul, (Z.abs_eq (pw 0)) in Ht by lia. by apply Z.mul_le_mono_pos_r in Ht.
  - intros ->. destruct (canon_positive T HcT ltac:(nia)) as (m & e & E). exists false. change (SFmul 53 1024 T (S754_zero false) = S754_zero false). by rewrite E.
Qed.

(** *** In seconds *)
Definition real (x : spec_float) : Q := match sf_to_Q x with Ok q => q | Err _ => 0%Q end.
Definition epsilon : Q := 1 # 1048576.

Lemma inject_pow n : 0 <= n → (0 < inject_Z (2 ^ n))%Q.
Proof. intros. change 0%Q with (inject_Z 0). rewrite <- Zlt_Qlt. by apply Z.pow_pos_nonneg. Qed.

Lemma real_val x : canon x → (real x * inject_Z (pw 0) == inject_Z (val x))%Q.
Proof.
  intros Hc. destruct x as [s| | |s m e]; try done. cbn in Hc.
  assert (-1074 <= e) as He by (unfold fx in Hc; lia). unfold real. cbn [sf_to_Q val].
  assert (sf_num m e * inject_Z (pw 0) == inject_Z (Zpos m * pw e))%Q as Hn.
  { unfold sf_num. rewrite inject_Z_mult. destruct (Z.ltb_spec e 0).
    - assert (pw 0 = 2 ^ (- e) * pw e) as -> by (rewrite <- pw_add by lia; f_equal; lia).
      rewrite inject_Z_mult. pose proof (inject_pow (- e) ltac:(lia)). field. lra.
    - assert (pw e = 2 ^ e * pw 0) as -> by (rewrite <- pw_add by lia; f_equal; lia).
      rewrite inject_Z_mult. ring. }
  replace (sgn s * Zpos m * pw e) with (sgn s * (Zpos m * pw e)) by ring. rewrite inject_Z_mult, <- Hn. destruct s; cbn [sgn]; ring.
Qed.

(** An inequality in seconds is one in units. *)
Lemma unit_pos : (0 < inject_Z (pw 0))%Q.
Proof. by apply inject_pow. Qed.
Lemma scale_le q1 q2 z1 z2 : (q1 * inject_Z (pw 0) == inject_Z z1)%Q → (q2 * inject_Z (pw 0) == inject_Z z2)%Q → (q1 <= q2)%Q ↔ z1 <= z2.
Proof. intros H1 H2. rewrite (Zle_Qle z1 z2), <- H1, <- H2. symmetry. apply Qmult_le_r, unit_pos. Qed.
Lemma scale_lt q1 q2 z1 z2 : (q1 * inject_Z (pw 0) == inject_Z z1)%Q → (q2 * inject_Z (pw 0) == inject_Z z2)%Q → (q1 < q2)%Q ↔ z1 < z2.
Proof. intros H1 H2. rewrite (Zlt_Qlt z1 z2), <- H1, <- H2. symmetry. apply Qmult_lt_r, unit_pos. Qed.
Lemma scaled_int z : (inject_Z z * inject_Z (pw 0) == inject_Z (z * pw 0))%Q.
Proof. by rewrite inject_Z_mult. Qed.
Lemma scaled_mul q z u : (q * inject_Z (pw 0) == inject_Z u)%Q → (inject_Z z * q * inject_Z (pw 0) == inject_Z (z * u))%Q.
Proof. intros H. rewrite inject_Z_mult, <- H. ring. Qed.
Lemma scaled_add q q' u u' : (q * inject_Z (pw 0) == inject_Z u)%Q → (q' * inject_Z (pw 0) == inject_Z u')%Q → ((q + q') * inject_Z (pw 0) == inject_Z (u + u'))%Q.
Proof. intros H H'. rewrite inject_Z_plus, <- H, <- H'. ring. Qed.
Lemma scaled_sub q q' u u' : (q * inject_Z (pw 0) == inject_Z u)%Q → (q' * inject_Z (pw 0) == inject_Z u')%Q → ((q - q') * inject_Z (pw 0) == inject_Z (u - u'))%Q.
Proof. intros H H'. unfold Z.sub. rewrite inject_Z_plus, inject_Z_opp, <- H, <- H'. ring. Qed.
Lemma scaled_eps : (epsilon * inject_Z (pw 0) == inject_Z eps)%Q.
Proof.
  assert (pw 0 = 2 ^ 20 * eps) as -> by (change (pw 0) with (pw (-20 + 20)); by apply pw_add).
  rewrite inject_Z_mult. change (inject_Z (2 ^ 20)) with (1048576 # 1)%Q. unfold epsilon. field.
Qed.
Create HintDb scaled.
#[local] Hint Resolve real_val scaled_int scaled_mul scaled_add scaled_sub scaled_eps : scaled.

(** A reading of the clock: a double between the epoch and 2038. *)
Definition clock_value (x : spec_float) : Prop := canon x ∧ (0 <= real x <= inject_Z (2 ^ 31))%Q.

Lemma clock_in_range x : clock_value x → in_range x.
Proof.
  intros (Hc & H0 & H1). split; [done|]. assert (pw 31 = 2 ^ 31 * pw 0) as -> by (change 31 with (0 + 31) at 1; by apply pw_add).
  apply (scale_le (inject_Z 0) (real x) (0 * pw 0) (val x)) in H0; [|by auto with scaled..].
  apply (scale_le (real x) (inject_Z (2 ^ 31)) (val x) (2 ^ 31 * pw 0)) in H1; [|by auto with scaled..]. lia.
Qed.

(** What [_now] computes from the answer of TIME. *)
Definition server_time (seconds microseconds : Z) : spec_float :=
  f_add (f_of_Z seconds) (f_div (f_of_Z microseconds) (f_of_Z 1000000)).

Lemma server_time_clock s us : 0 < s < 2 ^ 31 - 2 → 0 <= us < 1000000 →
  clock_value (server_time s us) ∧
  (inject_Z s + (us # 1000000) - 2 * epsilon <= real (server_time s us) <= inject_Z s + (us # 1000000) + 2 * epsilon)%Q.
Proof.
  intros Hs Hus. destruct units as (He & _). assert (pw 0 = 2 ^ 20 * eps) as E0 by (change (pw 0) with (pw (-20 + 20)); by apply pw_add).
  assert (bound = 2 ^ 52 * eps) as Eb by (unfold bound; change 32 with (-20 + 52); by apply pw_add).
  destruct (f_of_Z_val s ltac:(lia)) as [Hcs Evs]. destruct (f_of_Z_val us ltac:(lia)) as [Hcu Evu]. destruct (f_of_Z_val 1000000 ltac:(lia)) as [Hcm Evm].
  set (q := SFdiv 53 1024 (f_of_Z us) (f_of_Z 1000000)).
  assert (canon q ∧ Z.abs (1000000 * val q - us * pw 0) <= 1000000 * eps) as [Hcq Hq].
  { destruct (decide (us = 0)) as [->|Hne]; [split; [done|]; change (val q) with 0; lia|].
    destruct (canon_positive (f_of_Z us) Hcu ltac:(rewrite Evu; nia)) as (m1 & e1 & E1). destruct (canon_positive (f_of_Z 1000000) Hcm ltac:(rewrite Evm; nia)) as (m2 & e2 & E2).
    pose proof (SFdiv_val m1 e1 m2 e2) as Hd. cbv zeta in Hd. rewrite <- E1, <- E2, Evu, Evm in Hd. fold q in Hd.
    destruct Hd as [Hc Hd]; [done|done|nia|nia|]. split; [done|].
    replace (val q * (1000000 * pw 0) - us * pw 0 * pw 0) with ((1000000 * val q - us * pw 0) * pw 0) in Hd by ring.
    rewrite Z.abs_mul, (Z.abs_eq (pw 0)) in Hd by lia. nia. }
  assert (0 <= s * pw 0 - pw 0 <= (2 ^ 31 - 4) * pw 0 ∧ 0 <= us * pw 0 <= 1000000 * pw 0) as [Hsp Hup] by nia.
  destruct (SFadd_val (f_of_Z s) q) as [Hc Ha]; [done|done|rewrite Evs; lia|].
  change (SFadd 53 1024 (f_of_Z s) q) with (server_time s us) in *. rewrite Evs in Ha. set (x := server_time s us) in *. clearbody x q.
  split; [split; [done|split]|split].
  - apply (scale_le 0 (real x) (0 * pw 0) (val x)); [done|by auto with scaled|lia].
  - apply (scale_le (real x) (inject_Z (2 ^ 31)) (val x) (2 ^ 31 * pw 0)); [by auto with scaled..|lia].
  - assert (inject_Z (1000000 * s + us) - inject_Z 2000000 * epsilon <= inject_Z 1000000 * real x)%Q as H.
    { apply (scale_le _ _ ((1000000 * s + us) * pw 0 - 2000000 * eps) (1000000 * val x)); [by auto with scaled..|lia]. }
    rewrite inject_Z_plus, inject_Z_mult in H. rewrite Qmake_Qdiv. change (inject_Z 1000000) with (1000000 # 1)%Q in *. change (inject_Z 2000000) with (2000000 # 1)%Q in *.
    unfold Qdiv. change (/ (1000000 # 1))%Q with (1 # 1000000)%Q. lra.
  - assert (inject_Z 1000000 * real x <= inject_Z (1000000 * s + us) + inject_Z 2000000 * epsilon)%Q as H.
    { apply (scale_le _ _ (1000000 * val x) ((1000000 * s + us) * pw 0 + 2000000 * eps)); [by auto with scaled..|lia]. }
    rewrite inject_Z_plus, inject_Z_mult in H. rewrite Qmake_Qdiv. change (inject_Z 1000000) with (1000000 # 1)%Q in *. change (inject_Z 2000000) with (2000000 # 1)%Q in *.
    unfold Qdiv. change (/ (1000000 # 1))%Q with (1 # 1000000)%Q. lra.
Qed.

Lemma admitted_sub (P : spec_float → Prop) L ts : ∀ tat, Forall P ts → Forall P (admitted L ts tat).
Proof.
  induction ts as [|now ts IH]; intros tat H; cbn [admitted]; [done|]. apply Forall_cons in H as [H1 H2].
  destruct (next_tat L now tat); [constructor; auto|auto].
Qed.

Lemma cold_burst L now m : rounded L → in_range now →
  (Nat.min m (Nat.max 1 (Z.to_nat (burst L) - 1)) <= length (admitted L (replicate m now) None) <= Nat.min m (Z.to_nat (burst L)))%nat.
Proof.
  intros Hr Hn. destruct m as [|m]; [done|]. cbn [replicate admitted]. destruct (cold_val L Hr now Hn) as (t & -> & Ht & Hd).
  pose proof (r_b L Hr). pose proof (burst_val L Hr now m 1 t Hn Ht ltac:(lia) ltac:(lia)). cbn [length]. lia.
Qed.

Lemma cold_spacing L ts a l : rounded L → Forall clock_value ts → admitted L ts None = a :: l →
  ∀ i b, (a :: l) !! i = Some b →
    (real a + inject_Z (Z.of_nat i + 1 - burst L) * real (emission_interval L) - inject_Z (Z.of_nat i + 2) * epsilon <= real b)%Q.
Proof.
  intros Hr Hts Hadm i b Hb. pose proof (admitted_sub clock_value L ts None Hts) as Hall. rewrite Hadm in Hall.
  assert (canon a) as Ha by (apply Forall_cons in Hall as [[? _] _]; done).
  assert (canon b) as Hcb by (eapply Forall_lookup_1 in Hall as [? _]; done). pose proof (r_T L Hr).
  assert (Forall in_range ts) as Hin by (eapply Forall_impl; [exact Hts|apply clock_in_range]).
  destruct ts as [|now ts]; [done|]. apply Forall_cons in Hin as [Hn Hin]. cbn [admitted] in Hadm.
  destruct (cold_val L Hr now Hn) as (t & Et & Ht & Hd). rewrite Et in Hadm. injection Hadm as -> Hl.
  apply (scale_le _ _ (val a + (Z.of_nat i + 1 - burst L) * val (emission_interval L) - (Z.of_nat i + 2) * eps) (val b)); [by auto with scaled..|].
  destruct units as (He & _). destruct (sizes L Hr) as (_ & HT & _). destruct i as [|i].
  - cbn in Hb. injection Hb as ->. pose proof (r_b L Hr). cbn [Z.of_nat]. nia.
  - change (l !! i = Some b) in Hb. rewrite <- Hl in Hb.
    pose proof (spacing_val L Hr ts t (val a) 1 Hin Ht ltac:(lia) ltac:(lia) i b Hb) as Hs.
    replace (Z.of_nat (S i)) with (1 + Z.of_nat i) by lia. exact Hs.
Qed.

Lemma interval_real L rate period : rounded L → canon period → 0 < rate →
  Z.abs (val (emission_interval L) * rate - val period) <= eps * rate →
  (real period / inject_Z rate - epsilon <= real (emission_interval L) <= real period / inject_Z rate + epsilon)%Q.
Proof.
  intros Hr Hp H0 HT. pose proof (r_T L Hr) as Hc. assert (0 < inject_Z rate)%Q as Hpos by (rewrite <- (Zlt_Qlt 0); lia).
  assert (real period - inject_Z rate * epsilon <= inject_Z rate * real (emission_interval L))%Q as H1.
  { apply (scale_le _ _ (val period - rate * eps) (rate * val (emission_interval L))); [by auto with scaled..|lia]. }
  assert (inject_Z rate * real (emission_interval L) <= real period + inject_Z rate * epsilon)%Q as H2.
  { apply (scale_le _ _ (rate * val (emission_interval L)) (val period + rate * eps)); [by auto with scaled..|lia]. }
  assert (inject_Z rate * (real period / inject_Z rate) == real period)%Q as E by (field; lra).
  split; (apply (Qmult_le_l _ _ (inject_Z rate)); [done|]); rewrite ?Qmult_plus_distr_r; lra.
Qed.

(** C22: on the doubles the program computes with.  For a limiter built by [init]
    from a period and a rate of ordinary size, and times of the clock, with
    epsilon 2^-20 of a second: the emission interval is the period over the
    rate, up to epsilon; of any number of simultaneous requests on a cold key
    it admits at most [burst] and at least [burst - 1] (at least one); and over
    any sequence of request times the n-th admitted request comes at least
    (n - burst) intervals after the first, up to n + 1 times epsilon. *)
Theorem gcra_doubles_burst rate period burst ns fo L now m ts a l :
  init rate period burst ns fo = Ok L → canon period → rate <= 2 ^ 30 → burst <= 2 ^ 30 →
  (inject_Z ((burst + 4) * rate) * epsilon < real period)%Q → (inject_Z burst * real period <= inject_Z (2 ^ 29 * rate))%Q →
  clock_value now → Forall clock_value ts → admitted L ts None = a :: l →
  let T := real (emission_interval L) in
  (real period / inject_Z rate - epsilon <= T <= real period / inject_Z rate + epsilon)%Q ∧
  (Nat.min m (Nat.max 1 (Z.to_nat burst - 1)) <= length (admitted L (replicate m now) None) <= Nat.min m (Z.to_nat burst))%nat ∧
  ∀ i b, (a :: l) !! i = Some b →
    (real a + inject_Z (Z.of_nat i + 1 - burst) * T - inject_Z (Z.of_nat i + 2) * epsilon <= real b)%Q.
Proof.
  intros Hinit Hp Hrate Hburst Hslack Hrange Hnow%clock_in_range Hts Hadm T.
  assert (pw 29 = 2 ^ 29 * pw 0) as E29 by (change 29 with (0 + 29) at 1; by apply pw_add).
  apply (scale_lt _ _ ((burst + 4) * rate * eps) (val period)) in Hslack; [|by auto with scaled..].
  apply (scale_le _ _ (burst * val period) (2 ^ 29 * rate * pw 0)) in Hrange; [|by auto with scaled..].
  destruct (init_rounded _ _ _ _ _ _ Hinit Hp Hrate Hburst) as (Hr & Hb & Hr0 & HT); [lia|nia|].
  rewrite <- Hb.
  split; [by apply interval_real|split; [by apply cold_burst|by eapply cold_spacing]].
Qed.

Definition double_limiter : GCRALimiter spec_float :=
  match init 5 (f_of_Z 1) 5 "gcra" true with Ok L => L | Err _ => MkGCRALimiter 0 S754_nan 0 "" true S754_nan S754_nan end.
Definition stamp : spec_float := server_time 1786000000 123456.

Lemma stamp_clock : clock_value stamp.
Proof. apply server_time_clock; lia. Qed.

(** Rate 5, a second, a burst of 5, at a present-day time: four or five of seven
    simultaneous requests ([gcra_float_burst_short]: four). *)
Lemma gcra_doubles_burst_witness :
  (4 <= length (admitted double_limiter (replicate 7 stamp) None) <= 5)%nat.
Proof.
  refine (proj1 (proj2 (gcra_doubles_burst 5 (f_of_Z 1) 5 "gcra" true double_limiter stamp 7 [stamp] stamp [] _ _ _ _ _ _ _ _ _))).
  - vm_compute. reflexivity.
  - vm_compute. done.
  - lia.
  - lia.
  - vm_compute. reflexivity.
  - vm_compute. done.
  - exact stamp_clock.
  - exact (Forall_cons_2 _ _ _ stamp_clock (Forall_nil_2 _)).
  - vm_compute. reflexivity.
Defined.
