(* ===== verification/Ingest.v ===== *)
(** src/ledgerproof/ingest/app.py, ingest/queue.py and ingest/server.py: the
    webhook endpoint behind the backpressure middleware.  Its metrics and
    spans are in Metrics.v; an exception that escapes a handler is what the framework turns
    into its own 500. *)
From Stdlib Require Import QArith.
From S2P Require Import Prelude PyVal Json Hash Ledger Post Mapping Signature Dedupe Handlers Shed Gcra.
#[local] Open Scope Z_scope.

(** ** Requests, responses and the world around one request *)
Record http_req := HttpReq {
  rq_method : string; rq_path : string; rq_headers : list (string * string);  (* names in lower case *)
  rq_client : option string; rq_body : string }.

Record http_res := HttpRes { rs_status : Z; rs_json : pyval; rs_headers : list (string * string) }.
#[export] Instance http_res_eq_dec : EqDecision http_res.
Proof. solve_decision. Defined.

Definition JSONResponse (fields : list (string * pyval)) (status : Z) : http_res :=
  HttpRes status (PDict fields) [].

(** Readings and fates met by one request: the pressure signal, what the
    limiter reads, the fates of the two database transactions, whether
    [send_task] raises, the clock, and the carrier of the current span. *)
Record world {F : Type} := World {
  w_pressure : option Q; w_token : string; w_start : F; w_readings : list F;
  w_check : fate; w_enqueue : option exn; w_mark : fate; w_clock : Z; w_carrier : list (string * pyval) }.
Arguments world F : clear implicits.

Definition SYNTHETIC_HEADER : string := "x-ledgerproof-synthetic".
Definition MAX_BODY_BYTES : Z := 512 * 1024.
Definition NON_TERMINAL_STATUSES : list event_status := [Received; Queued].
Definition PROCESS_EVENT_TASK : string := "ledgerproof.process_event".

Definition classify (r : http_req) : Tier :=
  if bool_decide (default "" (dict_get SYNTHETIC_HEADER (rq_headers r)) ≠ "") then TEST_MODE
  else if bool_decide (rq_method r = "GET") then Shed.GET
  else if bool_decide (rq_path r = "/webhook") then CRITICAL
  else Shed.POST.

(** ** The application *)
Section app.
Context {F R : Type} `{HA : Arith F} `{HR : RedisClient F R}.

(** What [create_app] closes over. *)
Record app_config := AppConfig { webhook_secret : string; limiter : option (GCRALimiter F) }.

(** What requests change: the database, the broker's queue (oldest first),
    the shedder, and what the limiter reads and writes. *)
Record app_state := AppState {
  a_db : database; a_queue : list pyval; a_shedder : option LoadShedder; a_limits : limiter_state R }.

Definition on_db {A} (m : stx database A) : stx app_state A := λ s,
  let '(r, d) := m (a_db s) in (r, AppState d (a_queue s) (a_shedder s) (a_limits s)).

(** The EnqueueFn of [make_celery_enqueue]. *)
Definition enqueue (w : world F) (event : pyval) : stx app_state () :=
  message ← lift (inject_trace_context (w_carrier w) event);
  match w_enqueue w with
  | Some e => raise e
  | None => modify (λ s, AppState (a_db s) (a_queue s ++ [message]) (a_shedder s) (a_limits s))
  end.

Definition check_and_record_of (w : world F) (event : pyval) : stx app_state DedupeResult :=
  on_db (disturbed (w_check w) (check_and_record event)).
Definition mark_queued_of (w : world F) (id : string) : stx app_state () :=
  on_db (disturbed (w_mark w) (mark_queued id)).

(** Enqueue, then flip the row; a broker failure is an explicit 500. *)
Definition enqueue_and_mark (w : world F) (payload : pyval) (id : string) : stx app_state http_res :=
  failed ← try_except (_ ← enqueue w payload; mret false) (λ _, mret true);
  if (failed : bool) then mret (JSONResponse [("error", PStr "enqueue failed")] 500)
  else
    _ ← mark_queued_of w id;
    mret (JSONResponse [("status", PStr "queued")] 200).

(** A decoded body that is an event envelope: its id. *)
Definition envelope_id (event : pyval) : option string :=
  match event with
  | PDict d =>
      match dict_get "id" d, dict_get "type" d with
      | Some (PStr id), Some (PStr _) => Some id
      | _, _ => None
      end
  | _ => None
  end.

Context (cfg : app_config).

(** What the body must pass before anything is written. *)
Definition accepted_event (w : world F) (r : http_req) : http_res + pyval * string :=
  if MAX_BODY_BYTES <? str_len (rq_body r) then inl (JSONResponse [("error", PStr "body too large")] 400)
  else
    let sig_header := default "" (dict_get "stripe-signature" (rq_headers r)) in
    match verify (RawBytes (rq_body r)) sig_header (webhook_secret cfg) DEFAULT_TOLERANCE_SECONDS None (w_clock w) with
    | Err _ => inl (JSONResponse [("error", PStr "invalid signature")] 400)
    | Ok _ =>
        match json_loads (rq_body r) with
        | None => inl (JSONResponse [("error", PStr "invalid JSON body")] 400)
        | Some event =>
            match envelope_id event with
            | None => inl (JSONResponse [("error", PStr "not an event")] 400)
            | Some id => inr (event, id)
            end
        end
    end.

Definition webhook (w : world F) (r : http_req) : stx app_state http_res :=
  match accepted_event w r with
  | inl res => mret res
  | inr (event, id) =>
      result ← check_and_record_of w event;
      if negb (new result) then
        match existing_status result, existing_id result, existing_payload result with
        | Some status, Some existing_id, Some payload =>
            if bool_decide (status ∈ NON_TERMINAL_STATUSES) then enqueue_and_mark w payload existing_id
            else mret (JSONResponse [("status", PStr "duplicate")] 200)
        | _, _, _ => mret (JSONResponse [("status", PStr "duplicate")] 200)
        end
      else enqueue_and_mark w event id
  end.

(** The routes; [other] is the framework's answer outside them. *)
Definition call_next (other : http_req → http_res) (w : world F) (r : http_req) : stx app_state http_res :=
  if bool_decide (rq_path r = "/webhook" ∧ rq_method r = "POST") then webhook w r
  else if bool_decide (rq_path r = "/healthz" ∧ rq_method r = "GET") then
    mret (JSONResponse [("status", PStr "ok")] 200)
  else mret (other r).

Definition shedding (w : world F) (tier : Tier) : stx app_state (option http_res) := λ s,
  match a_shedder s with
  | None => (Ok None, s)
  | Some sh =>
      let sh := match w_pressure w with Some p => (observe p sh).2 | None => sh end in
      let '(decision, sh) := should_shed tier sh in
      (Ok (if shed decision
           then Some (HttpRes 503 (PDict [("error", PStr "shedding load"); ("tier", PStr (tier_name tier))])
                        [("Retry-After", "5")])
           else None),
       AppState (a_db s) (a_queue s) (Some sh) (a_limits s))
  end.

Definition limiting (w : world F) (tier : Tier) (r : http_req) : stx app_state (option http_res) :=
  match limiter cfg with
  | None => mret None
  | Some L => λ s,
      let '(res, l) := Gcra.check L (w_token w) (w_start w) (w_readings w)
                         (tier_name tier +:+ ":" +:+ default "-" (rq_client r)) (a_limits s) in
      let s := AppState (a_db s) (a_queue s) (a_shedder s) l in
      match res with
      | Err e => (Err e, s)
      | Ok verdict =>
          if allowed verdict then (Ok None, s)
          else
            match headers verdict with
            | Err e => (Err e, s)
            | Ok hs => (Ok (Some (HttpRes 429 (PDict [("error", PStr "rate limited");
                                                     ("reason", PStr (d_reason verdict))]) hs)), s)
            end
      end
  end.

(** Shed first, then limit, then the route. *)
Definition backpressure (other : http_req → http_res) (w : world F) (r : http_req) : stx app_state http_res :=
  let tier := classify r in
  refused ← shedding w tier;
  match refused with
  | Some res => mret res
  | None =>
      refused ← limiting w tier r;
      match refused with
      | Some res => mret res
      | None => call_next other w r
      end
  end.
End app.
Arguments app_config F : clear implicits.
Arguments app_state R : clear implicits.

(** server.py: the application over the deployment's settings. *)
Definition build_app {F} (stripe_webhook_secret : string) : result (app_config F) :=
  _ ← guard_or (negb (bool_decide (stripe_webhook_secret = ""))) (RuntimeError "STRIPE_WEBHOOK_SECRET is empty");
  mret (AppConfig stripe_webhook_secret None).

(** ** Lemmas *)
Section app_lemmas.
Context {F R : Type} `{HA : Arith F} `{HR : RedisClient F R} (cfg : app_config F).
Implicit Types (w : world F) (s : app_state R).

Definition with_db s d : app_state R := AppState d (a_queue s) (a_shedder s) (a_limits s).

Lemma on_db_run {A} (m : stx database A) s : on_db m s = ((m (a_db s)).1, with_db s (m (a_db s)).2).
Proof. unfold on_db. by destruct (m (a_db s)). Qed.

(** Enqueueing and marking: one message and one status at most. *)
Lemma enqueue_and_mark_spec w payload id s :
  match enqueue_and_mark w payload id s with
  | (Ok res, s') =>
      if bool_decide (rs_status res = 200) then
        ∃ m, inject_trace_context (w_carrier w) payload = Ok m ∧ a_queue s' = a_queue s ++ [m] ∧
             a_db s' = (disturbed (w_mark w) (mark_queued id) (a_db s)).2
      else s' = s
  | (Err _, s') => a_db s' = (disturbed (w_mark w) (mark_queued id) (a_db s)).2
  end.
Proof.
  unfold enqueue_and_mark, enqueue. run. destruct (inject_trace_context (w_carrier w) payload) as [m|e]; run; [|done].
  destruct (w_enqueue w) as [e|]; run; [done|]. unfold mark_queued_of. rewrite on_db_run. cbn [a_db].
  destruct (disturbed (w_mark w) (mark_queued id) (a_db s)) as [[[]|e] d]; cbn [fst snd]; run; [|done].
  exists m. by split_and!.
Qed.

Lemma disturbed_mark_queued f id d : log_keeps d (disturbed f (mark_queued id) d).2.
Proof. apply (disturbed_inv (log_keeps d)); [apply log_keeps_refl|apply mark_queued_keeps]. Qed.

Lemma enqueue_and_mark_keeps w payload id s : log_keeps (a_db s) (a_db (enqueue_and_mark w payload id s).2).
Proof.
  pose proof (enqueue_and_mark_spec w payload id s) as H.
  pose proof (disturbed_mark_queued (w_mark w) id (a_db s)) as Hm.
  destruct (enqueue_and_mark w payload id s) as [[res|e] s']; cbn [snd] in *; [|by rewrite H].
  case_bool_decide; [destruct H as (m & _ & _ & ->); done|rewrite H; apply log_keeps_refl].
Qed.

Lemma log_keeps_trans d1 d2 d3 : log_keeps d1 d2 → log_keeps d2 d3 → log_keeps d1 d3.
Proof. intros [H1 H2] [H3 H4]. split; [by etrans|auto]. Qed.

Lemma check_of_keeps w event s : log_keeps (a_db s) (a_db (check_and_record_of w event s).2).
Proof.
  unfold check_and_record_of. rewrite on_db_run. cbn.
  apply (disturbed_inv (log_keeps (a_db s))); [apply log_keeps_refl|apply check_and_record_keeps].
Qed.

Lemma webhook_keeps w r s : log_keeps (a_db s) (a_db (webhook cfg w r s).2).
Proof.
  unfold webhook. destruct (accepted_event cfg w r) as [res|[event id]]; [apply log_keeps_refl|]. run.
  pose proof (check_of_keeps w event s) as Hc.
  destruct (check_and_record_of w event s) as [[result|e] s1]; cbn [snd] in *; [|done].
  assert (∀ p i, log_keeps (a_db s) (a_db (enqueue_and_mark w p i s1).2)) as He.
  { intros p i. eapply log_keeps_trans; [exact Hc|apply enqueue_and_mark_keeps]. }
  destruct (new result); cbn [negb]; [apply He|].
  destruct (existing_status result); [|done]. destruct (existing_id result); [|done].
  destruct (existing_payload result); [|done]. case_bool_decide; [apply He|done].
Qed.

Lemma shedding_frame w tier s : a_db (shedding w tier s).2 = a_db s ∧ a_queue (shedding w tier s).2 = a_queue s.
Proof. unfold shedding. destruct (a_shedder s); [|done]. by destruct (should_shed _ _). Qed.
Lemma limiting_frame w tier r s : a_db (limiting cfg w tier r s).2 = a_db s ∧ a_queue (limiting cfg w tier r s).2 = a_queue s.
Proof.
  unfold limiting. destruct (limiter cfg); [|done]. destruct (Gcra.check _ _ _ _ _ _) as [[v|e] l]; [|done].
  destruct (allowed v); [done|]. by destruct (headers v).
Qed.

(** The row a new or repeated event has in the log. *)
Definition row_for (row row' : event_row) : Prop := (same_id row row' || same_object row row')%bool = true.

Lemma mark_queued_rows f id d row : row ∈ stripe_events d →
  ∃ row', row' ∈ stripe_events (disturbed f (mark_queued id) d).2 ∧ ev_id row' = ev_id row ∧
          ev_type row' = ev_type row ∧ ev_object row' = ev_object row ∧ ev_payload row' = ev_payload row.
Proof.
  assert (row ∈ stripe_events d → ∃ row', row' ∈ stripe_events (mark_queued id d).2 ∧ ev_id row' = ev_id row ∧
    ev_type row' = ev_type row ∧ ev_object row' = ev_object row ∧ ev_payload row' = ev_payload row) as H.
  { intros Hin. eexists. split; [apply list_elem_of_fmap; eexists; split; [done|exact Hin]|].
    unfold update_status. by destruct (_ && _)%bool. }
  intros Hin. destruct f as [| |[]]; cbn; [by apply H|by exists row|by apply H|by exists row].
Qed.
Lemma row_for_ext row row1 row2 : ev_id row1 = ev_id row2 → ev_type row1 = ev_type row2 →
  ev_object row1 = ev_object row2 → row_for row row1 → row_for row row2.
Proof. unfold row_for, same_id, same_object. by intros -> -> ->. Qed.

Lemma check_of_spec w event s : 
  match check_and_record_of w event s with
  | (Ok result, s') => s' = with_db s (a_db s') ∧ ∃ row, event_row_of event Received = Ok row ∧
      if new result then row ∈ stripe_events (a_db s')
      else s' = s ∧ ∃ row', row' ∈ stripe_events (a_db s) ∧ row_for row row' ∧ result = found (Some row')
  | (Err _, _) => True
  end.
Proof.
  unfold check_and_record_of. rewrite on_db_run.
  destruct (w_check w) as [| |c]; cbn [disturbed]; [|done..].
  pose proof (check_and_record_spec event (a_db s)) as H.
  destruct (check_and_record event (a_db s)) as [[result|e] d]; cbn [fst snd]; [|done].
  split; [done|]. destruct H as (row & Hr & H). exists row. split; [done|].
  destruct (new result); [destruct H as (-> & _); cbn; set_solver|].
  destruct H as (-> & row' & ? & ? & ? & _). split; [by destruct s|]. by exists row'.
Qed.

(** The outbox guarantee of one call. *)
Definition outboxed w (event : pyval) s' : Prop :=
  ∃ row row', event_row_of event Received = Ok row ∧ row' ∈ stripe_events (a_db s') ∧ row_for row row' ∧
    (ev_status row' ∉ NON_TERMINAL_STATUSES ∨
     ∃ m, inject_trace_context (w_carrier w) (ev_payload row') = Ok m ∧ m ∈ a_queue s').

Lemma enqueued_outboxed w event s s' row row' id res :
  event_row_of event Received = Ok row → row' ∈ stripe_events (a_db s) → row_for row row' →
  enqueue_and_mark w (ev_payload row') id s = (Ok res, s') → rs_status res = 200 → outboxed w event s'.
Proof.
  intros Hr Hin Hfor He Hres. pose proof (enqueue_and_mark_spec w (ev_payload row') id s) as H. rewrite He in H.
  rewrite bool_decide_true in H by done. destruct H as (m & Hm & Hq & Hd).
  destruct (mark_queued_rows (w_mark w) id (a_db s) row' Hin) as (row2 & Hin2 & E1 & E2 & E3 & E4).
  exists row, row2. split_and!; [done|by rewrite Hd|by eapply row_for_ext|].
  right. exists m. rewrite E4, Hq. split; [done|set_solver].
Qed.

Lemma event_row_payload event st row : event_row_of event st = Ok row → ev_payload row = event ∧ ev_status row = st.
Proof. unfold event_row_of, not_null. intros H. inv_ok H. by simplify_eq/=. Qed.

Lemma row_for_self row : row_for row row.
Proof. unfold row_for, same_id. by rewrite bool_decide_true. Qed.

Lemma webhook_outboxed w r s res s' event id : accepted_event cfg w r = inr (event, id) →
  webhook cfg w r s = (Ok res, s') → rs_status res = 200 → outboxed w event s'.
Proof.
  intros Ha. unfold webhook. rewrite Ha. run. pose proof (check_of_spec w event s) as Hc.
  destruct (check_and_record_of w event s) as [[result|e] s1]; [|done].
  destruct Hc as (_ & row & Hr & Hc). destruct (event_row_payload _ _ _ Hr) as [Hp _].
  destruct (new result); cbn [negb].
  - intros He Hres. eapply (enqueued_outboxed w event s1 s' row row); [done|done|apply row_for_self| |done].
    by rewrite Hp.
  - destruct Hc as (-> & row' & Hin & Hfor & ->). cbn [found existing_status existing_id existing_payload].
    case_bool_decide as Hst; [intros He Hres; by eapply enqueued_outboxed|].
    intros [= <- <-] _. exists row, row'. split_and!; [done..|by left].
Qed.
End app_lemmas.

(** ** A sample deployment *)
Definition sample_config : app_config Q := AppConfig "whsec" None.
Definition sample_state : app_state sim_redis :=
  AppState empty_db [] None (LimiterState 0 0 (SimRedis 0 ∅)).
Definition sample_world : world Q := World Q None "" 0%Q [] Undisturbed None Undisturbed 1700000010 [].
Definition sample_body : string := json_dumps (sample_event "evt_1" "ch_1").
Definition sample_request : http_req :=
  HttpReq "POST" "/webhook" [("stripe-signature", sign sample_body "whsec" (Some 1700000000) 0 [] false None)]
    None sample_body.

(** ** Properties *)

(** C6: a 200 never hides an event that did not reach the queue: when the
    endpoint answers 200, the body was signed within the tolerance of the clock
    and decodes to an event envelope, the event log holds a row of that event
    (its id, or its type and object), and either that row is terminal or a
    message with its payload is in the queue. *)
Theorem webhook_200_is_outboxed {F R} `{Arith F} `{RedisClient F R} (cfg : app_config F) w r (s s' : app_state R) res :
  webhook cfg w r s = (Ok res, s') → rs_status res = 200 →
  ∃ event id ts, json_loads (rq_body r) = Some event ∧ envelope_id event = Some id ∧
    authentic (rq_body r) (default "" (dict_get "stripe-signature" (rq_headers r))) (webhook_secret cfg) ts ∧
    Z.abs (w_clock w - ts) <= DEFAULT_TOLERANCE_SECONDS ∧ outboxed w event s'.
Proof.
  intros Hw Hres. destruct (accepted_event cfg w r) as [x|[event id]] eqn:Ea.
  { unfold webhook in Hw. rewrite Ea in Hw. injection Hw as <- <-. unfold accepted_event in Ea.
    repeat case_match; by simplify_eq/=. }
  pose proof (webhook_outboxed cfg w r s res s' event id Ea Hw Hres) as Ho.
  unfold accepted_event in Ea. destruct (MAX_BODY_BYTES <? _); [done|].
  pose proof (verify_spec (rq_body r) (default "" (dict_get "stripe-signature" (rq_headers r))) (webhook_secret cfg)
    DEFAULT_TOLERANCE_SECONDS None (w_clock w) ltac:(done)) as Hv.
  destruct (verify _ _ _ _ _ _) as [[]|]; [|done]. destruct Hv as (_ & ts & Hauth & Hts).
  destruct (json_loads (rq_body r)) as [ev|]; [|done]. destruct (envelope_id ev) as [i|] eqn:Ei; [|done].
  injection Ea as -> ->. exists event, id, ts. by split_and!.
Qed.

Lemma webhook_200_is_outboxed_witness :
  ∃ s', outboxed sample_world (sample_event "evt_1" "ch_1") (s' : app_state sim_redis).
Proof.
  assert (∃ s', webhook sample_config sample_world sample_request sample_state =
    (Ok (JSONResponse [("status", PStr "queued")] 200), s')) as [s' E].
  { eexists. vm_compute. reflexivity. }
  destruct (webhook_200_is_outboxed sample_config sample_world sample_request sample_state s' _ E eq_refl)
    as (event & id & ts & Hev & _ & _ & _ & Ho).
  assert (json_loads (rq_body sample_request) = Some (sample_event "evt_1" "ch_1")) as E2 by (vm_compute; reflexivity).
  exists s'. rewrite Hev in E2. injection E2 as <-. exact Ho.
Defined.

(** A request whose body carries no valid recent signature changes
    neither the database nor the queue, and one refused by load shedding or by
    the limiter changes neither either; every request leaves the ledger tables
    alone and keeps the keys of the event log unique. *)
Theorem request_frame {F R} `{Arith F} `{RedisClient F R} (cfg : app_config F) other w r (s : app_state R) :
  let '(res, s') := backpressure cfg other w r s in
  same_ledger (a_db s) (a_db s') ∧ (events_ok (a_db s) → events_ok (a_db s')) ∧
  ((∀ ts, authentic (rq_body r) (default "" (dict_get "stripe-signature" (rq_headers r))) (webhook_secret cfg) ts →
      DEFAULT_TOLERANCE_SECONDS < Z.abs (w_clock w - ts)) →
   a_db s' = a_db s ∧ a_queue s' = a_queue s).
Proof.
  unfold backpressure. run. destruct (shedding_frame w (classify r) s) as [E1 E2].
  destruct (shedding w (classify r) s) as [[[x|]|e] s1]; cbn [snd] in *; run; try (by rewrite E1, E2).
  destruct (limiting_frame cfg w (classify r) r s1) as [E3 E4].
  destruct (limiting cfg w (classify r) r s1) as [[[x|]|e] s2]; cbn [snd] in *; run; try (by rewrite E3, E4, E1, E2).
  rewrite <- E1, <- E2, <- E3, <- E4. unfold call_next. case_bool_decide; [|by case_bool_decide].
  pose proof (webhook_keeps cfg w r s2) as [Hk1 Hk2].
  assert ((∀ ts, authentic (rq_body r) (default "" (dict_get "stripe-signature" (rq_headers r))) (webhook_secret cfg) ts →
      DEFAULT_TOLERANCE_SECONDS < Z.abs (w_clock w - ts)) → (webhook cfg w r s2).2 = s2) as Hno.
  { intros Hna. unfold webhook, accepted_event. destruct (MAX_BODY_BYTES <? _); [done|].
    pose proof (verify_spec (rq_body r) (default "" (dict_get "stripe-signature" (rq_headers r))) (webhook_secret cfg)
      DEFAULT_TOLERANCE_SECONDS None (w_clock w) ltac:(done)) as Hv.
    destruct (verify _ _ _ _ _ _) as [[]|]; [|done]. destruct Hv as (_ & ts & Hauth & Hts).
    specialize (Hna ts Hauth). cbn in Hts. lia. }
  destruct (webhook cfg w r s2) as [res s3]. cbn [snd] in *. split_and!; [done|done|].
  by intros Hna%Hno; rewrite Hna.
Qed.

(** In an undisturbed world an accepted event is always answered 200,
    whatever earlier deliveries left behind (a row received but never enqueued,
    or queued and lost), so a redelivery recovers a lost enqueue. *)
Theorem healthy_webhook_answers {F R} `{Arith F} `{RedisClient F R} (cfg : app_config F) w r (s : app_state R) event id row :
  accepted_event cfg w r = inr (event, id) → event_row_of event Received = Ok row →
  w_check w = Undisturbed → w_enqueue w = None → w_mark w = Undisturbed → w_carrier w = [] →
  ∃ res s', webhook cfg w r s = (Ok res, s') ∧ rs_status res = 200 ∧ outboxed w event s'.
Proof.
  intros Ha Hr Hc He Hm Hcar.
  assert (∀ p i (s : app_state R), ∃ s', enqueue_and_mark w p i s = (Ok (JSONResponse [("status", PStr "queued")] 200), s')) as Hen.
  { intros p i s1. unfold enqueue_and_mark, enqueue. run. rewrite Hcar. cbn [inject_trace_context]. run. rewrite He. run.
    unfold mark_queued_of. rewrite on_db_run, Hm. cbn [disturbed]. cbn [fst snd]. eexists. by run. }
  assert (∃ res s', webhook cfg w r s = (Ok res, s') ∧ rs_status res = 200) as (res & s' & Hw & H200).
  { unfold webhook. rewrite Ha. run. unfold check_and_record_of. rewrite on_db_run, Hc. cbn [disturbed].
    pose proof (check_and_record_spec event (a_db s)) as Hs.
    destruct (check_and_record event (a_db s)) as [[result|e] d]; cbn [fst snd].
    2:{ destruct Hs as [_ Hs]. congruence. }
    destruct (new result); cbn [negb]; [destruct (Hen event id (with_db s d)) as [s' ->]; by eexists _, _|].
    destruct Hs as (_ & _ & _ & row' & _ & -> & _). cbn [found existing_status existing_id existing_payload].
    case_bool_decide; [|by eexists _, _].
    destruct (Hen (ev_payload row') (ev_id row') (with_db s d)) as [s' ->]. by eexists _, _. }
  exists res, s'. split_and!; [done|done|]. by eapply webhook_outboxed.
Qed.

Definition sample_row : event_row :=
  EventRow "evt_1" "charge.succeeded" (Some "ch_1") (sample_event "evt_1" "ch_1") Received.

Lemma healthy_webhook_answers_witness :
  ∃ res s', webhook sample_config sample_world sample_request sample_state = (Ok res, s') ∧ rs_status res = 200.
Proof.
  assert (accepted_event sample_config sample_world sample_request = inr (sample_event "evt_1" "ch_1", "evt_1")) as Ha
    by (vm_compute; reflexivity).
  assert (event_row_of (sample_event "evt_1" "ch_1") Received = Ok sample_row) as Hr by (vm_compute; reflexivity).
  destruct (healthy_webhook_answers sample_config sample_world sample_request sample_state _ _ _ Ha Hr
    eq_refl eq_refl eq_refl eq_refl) as (res & s' & E & H & _).
  exists res, s'. exact (conj E H).
Defined.
