(* ===== verification/System.v ===== *)
(** The pipeline as a transition system: deliveries through ingest/app.py, a
    broker that may repeat, reorder and lose messages, and workers running
    worker/tasks.py, any of which may be cut short at any database
    transaction.  The safety theorems quantify over all interleavings. *)
From Stdlib Require Import QArith.
From S2P Require Import Prelude PyVal Json Hash Ledger Post Balances Mapping Signature Dedupe.
From S2P Require Import Handlers Shed Gcra Ingest.
#[local] Open Scope Z_scope.

Section system.
Context {F R : Type} `{HA : Arith F} `{HR : RedisClient F R}.
Context (cfg : app_config F) (other : http_req → http_res).

(** The state of the services, and the deliveries made so far. *)
Record system := System { sys_app : app_state R; deliveries : list (world F * http_req) }.

Definition db_of (s : system) : database := a_db (sys_app s).
Definition queue_of (s : system) : list pyval := a_queue (sys_app s).
Definition with_app (s : system) (a : app_state R) : system := System a (deliveries s).
Definition with_queue (s : system) (q : list pyval) : system :=
  with_app s (AppState (db_of s) q (a_shedder (sys_app s)) (a_limits (sys_app s))).

(** A worker takes some message off the queue, runs the task and leaves the
    message acknowledged or, when it dies or retries, queued again. *)
Definition work (client : option egress) (posts : list fate) (mark mark_failed : fate) (retries : Z) (draw : Q)
    (message : pyval) (q : list pyval) (s : system) : system :=
  let d := (process_event client posts mark mark_failed retries draw message (db_of s)).2 in
  with_app s (AppState d q (a_shedder (sys_app s)) (a_limits (sys_app s))).

Inductive step : system → system → Prop :=
  | step_deliver s w r :
      step s (System (backpressure cfg other w r (sys_app s)).2 (deliveries s ++ [(w, r)]))
  | step_work s client posts mark mark_failed retries draw message q :
      message ∈ queue_of s → q ⊆ queue_of s →
      step s (work client posts mark mark_failed retries draw message q s)
  | step_broker s q :
      (** messages lost, repeated or reordered *)
      q ⊆ queue_of s → step s (with_queue s q)
  | step_limits s sh l :
      (** time passing in Redis, operators using the kill switch *)
      step s (with_app s (AppState (db_of s) (queue_of s) sh l)).

Definition initial (s : system) : Prop := db_of s = empty_db ∧ queue_of s = [] ∧ deliveries s = [].
Definition reachable (s : system) : Prop := ∃ s0, initial s0 ∧ rtc step s0 s.

(** ** Provenance *)

(** An event some delivery carried, signed and in date. *)
Definition delivered (s : system) (event : pyval) : Prop :=
  ∃ w r id, (w, r) ∈ deliveries s ∧ accepted_event cfg w r = inr (event, id).

(** A value that is such an event up to transport metadata. *)
Definition sourced (s : system) (v : pyval) : Prop :=
  ∃ event, delivered s event ∧ strip_trace_context v = strip_trace_context event.

(** A ledger transaction that is exactly what a delivered event maps to. *)
Definition justified (s : system) (r : txn_row) : Prop :=
  ∃ event e t, delivered s event ∧ strip_trace_context event = Ok e ∧ mapped e t ∧ r = txn_row_of t ∧
    entries_of (t_id r) (entries (db_of s)) = entry_row_of (db_of s) (t_id r) <$> lt_entries t.

Record system_ok (s : system) : Prop := {
  so_ledger : ledger_ok (db_of s);
  so_events : events_ok (db_of s);
  so_rows : ∀ row, row ∈ stripe_events (db_of s) → sourced s (ev_payload row);
  so_queue : ∀ m, m ∈ queue_of s → sourced s m;
  so_txns : ∀ r, r ∈ transactions (db_of s) → justified s r }.

Lemma strip_idempotent v e : strip_trace_context v = Ok e → strip_trace_context e = Ok e.
Proof.
  unfold strip_trace_context. destruct v as [| | | | | |d]; try done.
  destruct (dict_mem TRACE_CONTEXT_KEY d) eqn:Em; intros [= <-]; [|by rewrite Em].
  assert (dict_mem TRACE_CONTEXT_KEY (filter (λ kv : string * pyval, kv.1 ≠ TRACE_CONTEXT_KEY) d) = false) as ->; [|done].
  unfold dict_mem. assert (dict_get TRACE_CONTEXT_KEY (filter (λ kv : string * pyval, kv.1 ≠ TRACE_CONTEXT_KEY) d) = None) as ->; [|done].
  apply dict_get_None. intros ([k v] & E & [Hne _]%list_elem_of_filter)%list_elem_of_fmap. by cbn in *; subst.
Qed.

Lemma filter_dict_set d k (v : pyval) :
  filter (λ kv : string * pyval, kv.1 ≠ k) (dict_set k v d) = filter (λ kv : string * pyval, kv.1 ≠ k) d.
Proof.
  induction d as [|[k' v'] d IH]; cbn [dict_set].
  - rewrite filter_cons_False; [done|]. cbn. naive_solver.
  - destruct (decide (k' = k)) as [->|]; rewrite !filter_cons; cbn; [by repeat case_decide|].
    case_decide; [by rewrite IH|done].
Qed.

Lemma filter_absent d k : dict_mem k d = false → filter (λ kv : string * pyval, kv.1 ≠ k) d = d.
Proof.
  unfold dict_mem. destruct (dict_get k d) eqn:E; [done|]. intros _. apply dict_get_None in E.
  induction d as [|[k' v'] d IH]; [done|]. cbn in E. rewrite filter_cons_True by (cbn; set_solver).
  by rewrite IH by set_solver.
Qed.

Lemma strip_inject c v m : inject_trace_context c v = Ok m → strip_trace_context m = strip_trace_context v.
Proof.
  unfold inject_trace_context. destruct c as [|kv c]; [by intros [= ->]|].
  destruct v as [| | | | | |d]; try done. intros [= <-]. cbn [strip_trace_context].
  assert (dict_mem TRACE_CONTEXT_KEY (dict_set TRACE_CONTEXT_KEY (PDict (kv :: c)) d) = true) as ->.
  { unfold dict_mem. by rewrite dict_get_set_eq. }
  rewrite filter_dict_set. destruct (dict_mem TRACE_CONTEXT_KEY d) eqn:Em; [done|]. by rewrite filter_absent.
Qed.

(** ** The event log keeps its payloads *)

(** Every row of [d'] has the payload of a row of [d], or [event]. *)
Definition payloads_from (event : pyval) (d d' : database) : Prop :=
  ∀ row, row ∈ stripe_events d' → ev_payload row = event ∨ ∃ row0, row0 ∈ stripe_events d ∧ ev_payload row = ev_payload row0.

Lemma payloads_refl event d : payloads_from event d d.
Proof. intros row Hin. right. by exists row. Qed.
Lemma payloads_trans event d1 d2 d3 : payloads_from event d1 d2 → payloads_from event d2 d3 → payloads_from event d1 d3.
Proof. intros H1 H2 row Hin. destruct (H2 row Hin) as [?|(row0 & Hin0 & ->)]; [by left|]. by apply H1. Qed.

Lemma payloads_update event p st d : payloads_from event d (set_stripe_events (update_status p st <$> stripe_events d) d).
Proof.
  intros row (row0 & -> & Hin)%list_elem_of_fmap. right. exists row0. split; [done|].
  unfold update_status. by destruct (p row0).
Qed.
Lemma payloads_insert event r d : ev_payload r = event → payloads_from event d (insert_event r d).2.
Proof.
  intros Hr. pose proof (insert_event_spec r d) as H. destruct (insert_event r d) as [[u|x] d1]; cbn.
  - destruct H as (-> & _). intros row [Hin| ->%list_elem_of_singleton]%elem_of_app; [|by left].
    right. by exists row.
  - destruct H as (-> & _). apply payloads_refl.
Qed.
Lemma payloads_disturbed {A} event f (m : stx database A) d :
  payloads_from event d (m d).2 → payloads_from event d (disturbed f m d).2.
Proof. intros H. apply (disturbed_inv (payloads_from event d)); [apply payloads_refl|done]. Qed.

Lemma payloads_check event d : payloads_from event d (check_and_record event d).2.
Proof.
  pose proof (check_and_record_spec event d) as H. destruct (check_and_record event d) as [[res|e] d1]; cbn.
  - destruct H as (r & Hr & H). apply event_row_payload in Hr as [Hr _].
    destruct (new res); [|by destruct H as [-> _]; apply payloads_refl].
    destruct H as (-> & _). intros row [Hin| ->%list_elem_of_singleton]%elem_of_app; [|by left]. right. by exists row.
  - destruct H as [-> _]. apply payloads_refl.
Qed.

Lemma upsert_row_payload event st r : upsert_row_of event st = Ok r → ev_payload r = event.
Proof. unfold upsert_row_of, not_null. intros H. inv_ok H. by simplify_eq/=. Qed.

Lemma payloads_mark event st d : payloads_from event d (_mark_status event st d).2.
Proof.
  unfold _mark_status. run. destruct (py_index event "id") as [v|]; run; [|apply payloads_refl].
  destruct (text_param v) as [id|]; run; [|apply payloads_refl].
  destruct (existsb _ _); run; [apply payloads_update|].
  destruct (upsert_row_of event st) as [r|] eqn:Er; run; [|apply payloads_refl].
  pose proof (payloads_insert event r d (upsert_row_payload _ _ _ Er)) as Hi.
  pose proof (insert_event_spec r d) as Hs. destruct (insert_event r d) as [[u|x] d1]; run; [done|].
  destruct Hs as (-> & [c ->] & _). case_bool_decide; run; [apply payloads_update|apply payloads_refl].
Qed.

Lemma post_events posts t d : ledger_ok d → stripe_events (post_event posts t d).2 = stripe_events d.
Proof. intros Hok. destruct (post_event_spec posts t d Hok) as (_ & (_ & E & _) & _). done. Qed.

Lemma payloads_handle event client posts mark d : ledger_ok d →
  payloads_from event d (handle_event event client posts mark d).2.
Proof.
  intros Hok. unfold handle_event. run.
  destruct (py_get_default event "type" (PStr "")) as [ty|]; run; [|apply payloads_refl].
  destruct (guard_or (hashable ty) TypeError); run; [|apply payloads_refl].
  assert (∀ st d1, payloads_from event d d1 → payloads_from event d (disturbed mark (_mark_status event st) d1).2) as Hm.
  { intros st d1 H1. eapply payloads_trans; [exact H1|]. apply payloads_disturbed, payloads_mark. }
  case_bool_decide; cbn [negb]; run.
  2:{ specialize (Hm NoMoneyMoved d (payloads_refl _ _)). by destruct (disturbed _ _ d) as [[[]|] d1]; run. }
  destruct (map_event client event) as [[t|]|]; run; [| |apply payloads_refl].
  2:{ specialize (Hm NoMoneyMoved d (payloads_refl _ _)). by destruct (disturbed _ _ d) as [[[]|] d1]; run. }
  pose proof (post_events posts t d Hok) as Hp. unfold post_event in Hp. run in Hp.
  set (r := match post posts t d with (Err e, s') => pkey_is_duplicate e s' | (Ok a, s') => (Ok a, s') end) in *.
  destruct r as [[o|x] d1]; cbn [snd] in Hp.
  - run. assert (payloads_from event d d1) as H1 by (intros row; rewrite Hp; apply payloads_refl).
    specialize (Hm Processed d1 H1). by destruct (disturbed _ _ d1) as [[[]|] d2]; run.
  - intros row. cbn [snd]. rewrite Hp. apply payloads_refl.
Qed.

Lemma payloads_process client posts mark mark_failed retries draw message event d : ledger_ok d →
  strip_trace_context message = Ok event →
  payloads_from event d (process_event client posts mark mark_failed retries draw message d).2.
Proof.
  intros Hok He. unfold process_event. run.
  destruct (extract_trace_context message); run; [|apply payloads_refl]. rewrite He. run.
  pose proof (payloads_handle event client posts mark d Hok) as Hh.
  destruct (handle_event event client posts mark d) as [[h|x] d1]; run; [done|]. cbn [snd] in Hh.
  destruct (retries <? max_retries); run; [done|].
  assert (payloads_from event d (disturbed mark_failed (_mark_status event Failed) d1).2) as Hf.
  { eapply payloads_trans; [exact Hh|]. apply payloads_disturbed, payloads_mark. }
  destruct (disturbed _ _ d1) as [[[]|] d2]; by run.
Qed.

(** ** The webhook's writes *)
Implicit Types (w : world F) (a : app_state R).

(** A message is an injection of [event] or of the payload of a row of [d]. *)
Definition message_from (event : pyval) (d : database) (m : pyval) : Prop :=
  ∃ c p, inject_trace_context c p = Ok m ∧
    (p = event ∨ ∃ row, row ∈ stripe_events d ∧ p = ev_payload row).

Record writes_from (event : pyval) (a a' : app_state R) : Prop := {
  wf_rows : payloads_from event (a_db a) (a_db a');
  wf_queue : ∀ m, m ∈ a_queue a' → m ∈ a_queue a ∨ message_from event (a_db a) m }.

Lemma writes_refl event a : writes_from event a a.
Proof. split; [apply payloads_refl|auto]. Qed.

Lemma message_rows event d d' m : payloads_from event d d' → message_from event d' m → message_from event d m.
Proof.
  intros H (c & p & Hm & Hp). exists c, p. split; [done|]. destruct Hp as [?|(row & Hin & ->)]; [by left|].
  destruct (H row Hin) as [?|?]; [by left|by right].
Qed.

Lemma writes_trans event a1 a2 a3 : writes_from event a1 a2 → writes_from event a2 a3 → writes_from event a1 a3.
Proof.
  intros [H1 H2] [H3 H4]. split; [by eapply payloads_trans|].
  intros m Hin. destruct (H4 m Hin) as [Hin2|Hm]; [auto|]. right. by eapply message_rows.
Qed.

Lemma writes_on_db {A} event (m : stx database A) a :
  payloads_from event (a_db a) (m (a_db a)).2 → writes_from event a (on_db m a).2.
Proof. rewrite on_db_run. split; [done|]. cbn. auto. Qed.

Lemma payloads_queued event id d : payloads_from event d (mark_queued id d).2.
Proof. apply payloads_update. Qed.

Lemma writes_enqueue event w p id a :
  p = event ∨ (∃ row, row ∈ stripe_events (a_db a) ∧ p = ev_payload row) →
  writes_from event a (enqueue_and_mark w p id a).2.
Proof.
  intros Hp. unfold enqueue_and_mark, enqueue. run.
  destruct (inject_trace_context (w_carrier w) p) as [m|e] eqn:Em; run; [|apply writes_refl].
  destruct (w_enqueue w) as [e|]; run; [apply writes_refl|].
  set (a1 := AppState _ _ _ _). assert (writes_from event a a1) as H1.
  { split; [apply payloads_refl|]. intros x [?| ->%list_elem_of_singleton]%elem_of_app; [by left|].
    right. by exists (w_carrier w), p. }
  assert (writes_from event a1 (mark_queued_of w id a1).2) as H2.
  { apply writes_on_db, payloads_disturbed, payloads_queued. }
  destruct (mark_queued_of w id a1) as [[[]|e] a2]; run; by eapply writes_trans.
Qed.

Lemma writes_webhook w r a :
  match accepted_event cfg w r with
  | inr (event, _) => writes_from event a (webhook cfg w r a).2
  | inl _ => (webhook cfg w r a).2 = a
  end.
Proof.
  unfold webhook. destruct (accepted_event cfg w r) as [res|[event id]]; [done|]. run.
  assert (writes_from event a (check_and_record_of w event a).2) as Hc.
  { apply writes_on_db, payloads_disturbed, payloads_check. }
  pose proof (check_of_spec w event a) as Hs.
  destruct (check_and_record_of w event a) as [[result|e] a1]; [|done]. cbn [snd] in Hc.
  destruct Hs as (_ & row & _ & Hs). destruct (new result); cbn [negb].
  - eapply writes_trans; [exact Hc|]. by apply writes_enqueue; left.
  - destruct Hs as (-> & row' & Hin & _ & ->). cbn [found existing_status existing_id existing_payload].
    case_bool_decide; [|done]. apply writes_enqueue. right. by exists row'.
Qed.

(** A delivery either reaches the webhook or leaves the database and queue alone. *)
Lemma backpressure_reaches w r a :
  let a' := (backpressure cfg other w r a).2 in
  (a_db a' = a_db a ∧ a_queue a' = a_queue a) ∨
  ∃ a1, a_db a1 = a_db a ∧ a_queue a1 = a_queue a ∧ a' = (webhook cfg w r a1).2.
Proof.
  cbv zeta. unfold backpressure. run. destruct (shedding_frame w (classify r) a) as [E1 E2].
  destruct (shedding w (classify r) a) as [[[x|]|e] a1]; cbn [snd] in *; run; try by left.
  destruct (limiting_frame cfg w (classify r) r a1) as [E3 E4].
  destruct (limiting cfg w (classify r) r a1) as [[[x|]|e] a2]; cbn [snd] in *; run;
    try (left; cbn [snd]; by rewrite E3, E4, E1, E2).
  unfold call_next. case_bool_decide.
  - right. exists a2. by rewrite E3, E4, E1, E2.
  - left. case_bool_decide; cbn; by rewrite E3, E4, E1, E2.
Qed.

(** ** The invariant is inductive *)
Lemma delivered_more s s' event : deliveries s ⊆ deliveries s' → delivered s event → delivered s' event.
Proof. intros H (w & r & id & Hin & E). exists w, r, id. auto. Qed.
Lemma sourced_more s s' v : deliveries s ⊆ deliveries s' → sourced s v → sourced s' v.
Proof. intros H (event & Hd & E). exists event. split; [by eapply delivered_more|done]. Qed.

Lemma justified_same s s' r : deliveries s ⊆ deliveries s' → same_ledger (db_of s) (db_of s') →
  justified s r → justified s' r.
Proof.
  intros Hd (E1 & E2 & E3) (event & e & t & H1 & H2 & H3 & H4 & H5). exists event, e, t.
  split_and!; [by eapply delivered_more|done..|]. rewrite E3, H5. apply list_fmap_ext. intros _ x _.
  by apply entry_row_of_accounts.
Qed.

Lemma ok_same_ledger s s' :
  system_ok s → deliveries s ⊆ deliveries s' → same_ledger (db_of s) (db_of s') → events_ok (db_of s') →
  (∀ row, row ∈ stripe_events (db_of s') → sourced s' (ev_payload row)) →
  (∀ m, m ∈ queue_of s' → sourced s' m) → system_ok s'.
Proof.
  intros [H1 H2 H3 H4 H5] Hd Hl He Hr Hq. split; [by eapply same_ledger_ok|done..|].
  intros r. destruct (Hl) as (_ & E & _). rewrite E. intros Hin. eapply justified_same; eauto.
Qed.

Lemma message_sourced s event m : delivered s event →
  (∀ row, row ∈ stripe_events (db_of s) → sourced s (ev_payload row)) →
  message_from event (db_of s) m → sourced s m.
Proof.
  intros Hd Hr (c & p & Hm & Hp). apply strip_inject in Hm. destruct Hp as [-> |(row & Hin & ->)].
  - by exists event.
  - destruct (Hr row Hin) as (ev & Hev & E). exists ev. split; [done|congruence].
Qed.

Lemma step_deliver_ok s w r : system_ok s →
  system_ok (System (backpressure cfg other w r (sys_app s)).2 (deliveries s ++ [(w, r)])).
Proof.
  intros Hok. set (s' := System _ _). assert (deliveries s ⊆ deliveries s') as Hd by (cbn; set_solver).
  assert (∀ x, sourced s x → sourced s' x) as Hmore by (intros x; by apply sourced_more).
  destruct (backpressure_reaches w r (sys_app s)) as [[E1 E2]|(a1 & E1 & E2 & E)].
  { eapply ok_same_ledger; [exact Hok|done|..]; unfold db_of, queue_of; cbn [sys_app s']; rewrite ?E1, ?E2.
    - done.
    - apply Hok.
    - intros row Hin. by apply Hmore, Hok.
    - intros m Hin. by apply Hmore, Hok. }
  destruct (webhook_keeps cfg w r a1) as [Hl He]. rewrite <- E, E1 in Hl, He.
  pose proof (writes_webhook w r a1) as Hw. rewrite <- E in Hw.
  destruct (accepted_event cfg w r) as [res|[event id]] eqn:Ea.
  { eapply ok_same_ledger; [exact Hok|done|exact Hl|by apply He, Hok|..]; unfold db_of, queue_of;
      cbn [sys_app s']; rewrite Hw, ?E1, ?E2; intros x Hin; by apply Hmore, Hok. }
  assert (delivered s' event) as Hdel by (exists w, r, id; split; [cbn; set_solver|done]).
  destruct Hw as [Hw1 Hw2]. rewrite E1 in Hw1, Hw2. rewrite E2 in Hw2.
  eapply ok_same_ledger; [exact Hok|done|exact Hl|by apply He, Hok|..]; unfold db_of, queue_of; cbn [sys_app s'].
  - intros row Hin. destruct (Hw1 row Hin) as [-> |(row0 & Hin0 & ->)]; [by exists event|by apply Hmore, Hok].
  - intros m Hin. destruct (Hw2 m Hin) as [Hin0|(c & p & Hm & Hp)]; [by apply Hmore, Hok|].
    apply strip_inject in Hm. destruct Hp as [-> |(row & Hin1 & ->)]; [by exists event|].
    destruct (Hmore _ (so_rows s Hok row Hin1)) as (ev & Hev & E3). exists ev. split; [done|congruence].
Qed.

Lemma justified_posted s s' t r : deliveries s ⊆ deliveries s' → ledger_ok (db_of s) → acceptable (db_of s) t →
  same_ledger (posted_db (db_of s) t) (db_of s') → r ∈ transactions (db_of s) → justified s r → justified s' r.
Proof.
  intros Hd Hok (Hf & _) (E1 & E2 & E3) Hin (event & e & t' & H1 & H2 & H3 & H4 & H5). exists event, e, t'.
  split_and!; [by eapply delivered_more|done..|]. rewrite E3. cbn [posted_db entries].
  rewrite entries_of_app, H5, (entries_of_none _ (_ <$> _)), app_nil_r.
  - apply list_fmap_ext. intros _ x _. by apply entry_row_of_accounts.
  - intros x (y & -> & _)%list_elem_of_fmap. cbn. destruct (Hf r Hin) as [Hne _]. congruence.
Qed.

Lemma step_work_ok s client posts mark mark_failed retries draw message q : system_ok s →
  message ∈ queue_of s → q ⊆ queue_of s → system_ok (work client posts mark mark_failed retries draw message q s).
Proof.
  intros Hok Hm Hq. set (s' := work _ _ _ _ _ _ _ _ _).
  assert (∀ m, m ∈ queue_of s' → sourced s' m) as Hqueue.
  { intros m Hin. apply (sourced_more s); [done|]. apply Hok. by apply Hq. }
  destruct (so_queue s Hok message Hm) as (event & Hd & E).
  destruct (strip_trace_context message) as [e|x] eqn:Es.
  2:{ assert (db_of s' = db_of s) as Edb.
      { cbn. unfold process_event. run. destruct (extract_trace_context message); run; [|done]. by rewrite Es. }
      eapply ok_same_ledger; [exact Hok|done|by rewrite Edb|by rewrite Edb; apply Hok| |done].
      rewrite Edb. intros row Hin. apply (sourced_more s); [done|]. by apply Hok. }
  pose proof (process_event_step client posts mark mark_failed retries draw message (db_of s) (so_ledger s Hok) e Es) as [H1 H2 H3].
  pose proof (payloads_process client posts mark mark_failed retries draw message e (db_of s) (so_ledger s Hok) Es) as Hp.
  change (process_event client posts mark mark_failed retries draw message (db_of s)).2 with (db_of s') in *.
  assert (sourced s' e) as Hse.
  { exists event. split; [done|]. rewrite <- E. by eapply strip_idempotent. }
  assert (∀ row, row ∈ stripe_events (db_of s') → sourced s' (ev_payload row)) as Hrows.
  { intros row Hin. destruct (Hp row Hin) as [-> |(row0 & Hin0 & ->)]; [done|].
    apply (sourced_more s); [done|]. by apply Hok. }
  destruct H3 as [Hl|(t & Hb & Hacc & Hl)].
  { eapply ok_same_ledger; [exact Hok|done|exact Hl|by apply H2, Hok|done|done]. }
  split; [done|by apply H2, Hok|done|done|].
  intros r Hin. destruct Hl as (E1 & E2 & E3). rewrite E2 in Hin. cbn in Hin.
  apply elem_of_app in Hin as [Hin| ->%list_elem_of_singleton].
  - eapply (justified_posted s s' t); [done|apply Hok|done|by split_and!|done|by apply Hok].
  - exists event, e, t. split_and!; [done|congruence|done|done|].
    change (t_id (txn_row_of t)) with (lt_id t). rewrite E3, (new_entries_of (db_of s) t) by (apply Hok || apply Hacc).
    apply list_fmap_ext. intros _ x _. symmetry. by apply entry_row_of_accounts.
Qed.

Lemma step_ok_system s s' : step s s' → system_ok s → system_ok s'.
Proof.
  destruct 1 as [s w r|s client posts mark mark_failed retries draw message q Hm Hq|s q Hq|s sh l]; intros Hok.
  - by apply step_deliver_ok.
  - by apply step_work_ok.
  - eapply ok_same_ledger; [exact Hok|done|done|apply Hok| |].
    + intros row Hin. by apply Hok.
    + intros m Hin. by apply Hok, Hq.
  - by destruct Hok.
Qed.

Lemma initial_ok s : initial s → system_ok s.
Proof.
  intros (E1 & E2 & _). split; rewrite ?E1, ?E2.
  - apply empty_db_ok.
  - apply empty_events_ok.
  - by intros row ?%elem_of_nil.
  - by intros m ?%elem_of_nil.
  - by intros r ?%elem_of_nil.
Qed.

Lemma reachable_ok s : reachable s → system_ok s.
Proof.
  intros (s0 & Hi & Hs). apply initial_ok in Hi. induction Hs; [done|]. by eauto using step_ok_system.
Qed.

End system.

(** ** Healthy runs *)
Section healthy.
Context {F R : Type} `{HA : Arith F} `{HR : RedisClient F R} (cfg : app_config F).

Lemma handle_event_posts event client ty id t d :
  ledger_ok d → map_event client event = Ok (Some t) → acceptable d t →
  py_index event "type" = Ok (PStr ty) → ty ∈ HANDLED_EVENT_TYPES → py_index event "id" = Ok (PStr id) →
  (∃ row, row ∈ stripe_events d ∧ ev_id row = id) →
  handle_event event client [] Undisturbed d = (Ok HPosted, (set_status (Some id) Processed (posted_db d t)).2).
Proof.
  intros Hok Hm Hacc Hty Hin Hid Hrow.
  assert (py_get_default event "type" (PStr "") = Ok (PStr ty)) as Eg.
  { unfold py_index, py_get_default in *. destruct event as [| | | | | |m]; try done.
    by destruct (dict_get "type" m); simplify_eq/=. }
  assert (PStr ty ∈ PStr <$> HANDLED_EVENT_TYPES) as Hh by (by apply list_elem_of_fmap_2).
  unfold handle_event. run. rewrite Eg. cbn [hashable guard_or]. run. rewrite bool_decide_true by done. cbn [negb].
  run. rewrite Hm. run. unfold post, post_transaction.
  rewrite (post_loop_acceptable _ _ _ _ _ Hok Hacc). cbn [fst]. run. cbn [disturbed].
  unfold _mark_status. run. rewrite Hid. run. cbn [text_param]. run.
  assert (existsb (λ row, bool_decide (Some (ev_id row) = Some id)) (stripe_events (posted_db d t)) = true) as ->.
  { apply existsb_exists_stdpp. destruct Hrow as (row & Hr & <-). exists row. split; [done|]. by rewrite bool_decide_true. }
  done.
Qed.

Lemma strip_index event e k : strip_trace_context event = Ok e → k ≠ TRACE_CONTEXT_KEY → py_index e k = py_index event k.
Proof.
  unfold strip_trace_context. destruct event as [| | | | | |d]; try done. intros H Hk.
  destruct (dict_mem TRACE_CONTEXT_KEY d); injection H as <-; [|done]. cbn [py_index]. f_equal.
  induction d as [|[k' v'] d IH]; [done|]. rewrite filter_cons. cbn [fst].
  destruct (decide (k' = k)) as [->|].
  - rewrite decide_True by done. cbn. by rewrite !decide_True.
  - case_decide; cbn; rewrite ?(decide_False (P := k' = k)) by done; [by rewrite IH|done].
Qed.

Lemma envelope_dict event id : envelope_id event = Some id → ∃ m, event = PDict m ∧ py_index event "id" = Ok (PStr id).
Proof.
  destruct event as [| | | | | |m]; try done. cbn. intros H. exists m. split; [done|].
  destruct (dict_get "id" m) as [[]|]; try done. destruct (dict_get "type" m) as [[]|]; by simplify_eq/=.
Qed.

Lemma accepted_envelope w r event id : accepted_event cfg w r = inr (event, id) → envelope_id event = Some id.
Proof. unfold accepted_event. intros H. repeat case_match; by simplify_eq/=. Qed.

(** A new event in an undisturbed world: recorded, queued, answered 200. *)
Lemma webhook_fresh w r (a : app_state R) event id row m :
  accepted_event cfg w r = inr (event, id) → event_row_of event Received = Ok row →
  (∀ row', row' ∈ stripe_events (a_db a) → same_id row row' = false ∧ same_object row row' = false) →
  w_check w = Undisturbed → w_enqueue w = None → w_mark w = Undisturbed →
  inject_trace_context (w_carrier w) event = Ok m →
  webhook cfg w r a = (Ok (JSONResponse [("status", PStr "queued")] 200),
    AppState (mark_queued id (set_stripe_events (stripe_events (a_db a) ++ [row]) (a_db a))).2
      (a_queue a ++ [m]) (a_shedder a) (a_limits a)).
Proof.
  intros Ha Hr Hno Hc He Hm Hi. unfold webhook. rewrite Ha. run. unfold check_and_record_of. rewrite on_db_run, Hc.
  cbn [disturbed]. unfold check_and_record. run. rewrite Hr. run. unfold insert_event.
  rewrite (proj2 (existsb_false _ _)) by (intros; by apply Hno).
  rewrite (proj2 (existsb_false _ _)) by (intros; by apply Hno). run. cbn [fst snd new negb].
  unfold enqueue_and_mark, enqueue. run. rewrite Hi. run. rewrite He. run.
  unfold mark_queued_of. rewrite on_db_run, Hm. cbn [disturbed]. by run.
Qed.

Lemma event_row_id event st row id : py_index event "id" = Ok (PStr id) → event_row_of event st = Ok row → ev_id row = id.
Proof.
  intros Hid. unfold event_row_of. destruct (money_movement_object_id event); [|done]. rewrite bind_ok_run, Hid, bind_ok_run.
  unfold not_null. intros H. inv_ok H. by simplify_eq/=.
Qed.
End healthy.

(** ** Exactly once *)
Lemma omap_NoDup_inj {A B} (f : A → option B) (l : list A) x y b :
  NoDup (omap f l) → NoDup l → x ∈ l → y ∈ l → f x = Some b → f y = Some b → x = y.
Proof.
  induction l as [|z l IH]; [by intros _ _ ?%elem_of_nil|]. cbn. intros H1 [Hz H2]%NoDup_cons Hx Hy Ex Ey.
  assert (∀ u v, f v = Some b → u ∈ l → f u = Some b → v = z → u = v) as Hclash.
  { intros u v Ev Hu Eu ->. rewrite Ev in H1. apply NoDup_cons in H1 as [[] _]. apply list_elem_of_omap. eauto. }
  apply elem_of_cons in Hx as [-> |Hx]; apply elem_of_cons in Hy as [-> |Hy]; [done|symmetry; eauto|eauto|].
  apply IH; [|done..]. destruct (f z); [by apply NoDup_cons in H1 as [_ H1]|done].
Qed.

(** One transaction per Stripe event, and per movement of money of an object. *)
Definition once_per_event (d : database) : Prop := ∀ r r', r ∈ transactions d → r' ∈ transactions d →
  (∃ id, t_event r = Some id ∧ t_event r' = Some id) ∨
  (∃ ty o, t_type r = Some ty ∧ t_type r' = Some ty ∧ t_object r = Some o ∧ t_object r' = Some o) → r = r'.

Lemma ledger_once d : ledger_ok d → once_per_event d.
Proof.
  intros [Hr _ _] r r' H1 H2 [(id & E1 & E2)|(ty & o & E1 & E2 & E3 & E4)].
  - eapply (omap_NoDup_inj t_event (transactions d)); [apply Hr| |done..]. eapply NoDup_fmap_1, Hr.
  - eapply (omap_NoDup_inj (λ t, ty ← t_type t; o ← t_object t; Some (ty, o)) (transactions d));
      [apply Hr| |done|done| |]; [eapply NoDup_fmap_1, Hr|cbn; by rewrite E1, E3|cbn; by rewrite E2, E4].
Qed.

(** ** Sample runs *)
Definition no_route (_ : http_req) : http_res := JSONResponse [("detail", PStr "Not Found")] 404.
Definition sample_system : system (F := Q) (R := sim_redis) := System sample_state [].
Definition sample_map : ledger_transaction :=
  match map_event None (sample_event "evt_1" "ch_1") with Ok (Some t) => t | _ => sample_txn end.

Lemma sample_initial : initial sample_system.
Proof. done. Qed.

Lemma sample_map_ok : map_event None (sample_event "evt_1" "ch_1") = Ok (Some sample_map).
Proof. vm_compute. reflexivity. Qed.

Lemma sample_map_entries : lt_entries sample_map =
  [Entry "stripe_balance" Debit 9680 "USD"; Entry "processing_fees" Debit 320 "USD"; Entry "revenue" Credit 10000 "USD"].
Proof. vm_compute. reflexivity. Qed.

Lemma sample_map_acceptable : acceptable empty_db sample_map.
Proof.
  pose proof sample_acceptable as (_ & H2 & H3 & H4). unfold acceptable. rewrite sample_map_entries.
  split_and!; [|exact H2|exact H3|exact H4]. by intros r ?%elem_of_nil.
Qed.

(** ** Properties *)

(** C3: whatever requests arrive, however the broker loses, repeats and
    reorders messages, and wherever executions are cut short, in every reachable
    state the ledger satisfies its invariant and the invariant check passes, the
    event log has unique keys, every ledger transaction is exactly what some
    delivered event, signed with the webhook secret and in date, maps to, and no
    event or (type, object) movement has two transactions. *)
Theorem reachable_ledger_justified {F R} `{Arith F} `{RedisClient F R} (cfg : app_config F) other (s : system (F := F) (R := R)) :
  reachable cfg other s →
  ledger_ok (db_of s) ∧ events_ok (db_of s) ∧ invariant_ok (Balances.check (db_of s)) = true ∧
  (∀ r, r ∈ transactions (db_of s) → justified cfg s r) ∧ once_per_event (db_of s).
Proof.
  intros [H1 H2 _ _ H5]%reachable_ok. split_and!; [done..| |done|by apply ledger_once].
  apply forallb_forall_stdpp. intros c [_ Hc]%check_currency. unfold cc_ok. by rewrite Hc, conservation.
Qed.

Lemma reachable_ledger_justified_witness :
  once_per_event (db_of (System (backpressure sample_config no_route sample_world sample_request sample_state).2
    [(sample_world, sample_request)])).
Proof.
  refine (proj2 (proj2 (proj2 (proj2 (reachable_ledger_justified sample_config no_route _ _))))).
  exists sample_system. split; [exact sample_initial|]. apply rtc_once.
  exact (step_deliver sample_config no_route sample_system sample_world sample_request).
Defined.

(** C8: an event that is new to the log and that the mapping and the
    schema admit is posted by one healthy delivery and one healthy task: the
    delivery is answered 200 and appends exactly one message to the queue, and one
    execution of the task on that message, whatever became of the other
    messages, leaves the old ledger with exactly the transaction of the event, and every
    row of the event's id processed. *)
Theorem fresh_event_is_posted {F R} `{Arith F} `{RedisClient F R} (cfg : app_config F) other
    (s : system (F := F) (R := R)) w r event id row e ty client t :
  ledger_ok (db_of s) → a_shedder (sys_app s) = None → limiter cfg = None →
  rq_path r = "/webhook" → rq_method r = "POST" → accepted_event cfg w r = inr (event, id) →
  event_row_of event Received = Ok row →
  (∀ row', row' ∈ stripe_events (db_of s) → same_id row row' = false ∧ same_object row row' = false) →
  w_check w = Undisturbed → w_enqueue w = None → w_mark w = Undisturbed →
  strip_trace_context event = Ok e → py_index e "type" = Ok (PStr ty) → ty ∈ HANDLED_EVENT_TYPES →
  map_event client e = Ok (Some t) → acceptable (db_of s) t →
  (backpressure cfg other w r (sys_app s)).1 = Ok (JSONResponse [("status", PStr "queued")] 200) ∧
  let s1 := System (backpressure cfg other w r (sys_app s)).2 (deliveries s ++ [(w, r)]) in
  ∃ msg, queue_of s1 = queue_of s ++ [msg] ∧
    ∀ retries draw q, let s2 := work client [] Undisturbed Undisturbed retries draw msg q s1 in
      queue_of s2 = q ∧ same_ledger (posted_db (db_of s) t) (db_of s2) ∧ marked id Processed (db_of s2).
Proof.
  intros Hok Hsh Hlim Hpath Hmeth Ha Hr Hno Hc Hen Hmk He Hty Hin Hm Hacc.
  pose proof (accepted_envelope cfg w r event id Ha) as Henv. apply envelope_dict in Henv as (m & -> & Hid).
  assert (∃ msg, inject_trace_context (w_carrier w) (PDict m) = Ok msg) as [msg Hmsg].
  { unfold inject_trace_context. destruct (w_carrier w); by eexists. }
  assert (backpressure cfg other w r (sys_app s) =
    (Ok (JSONResponse [("status", PStr "queued")] 200),
     AppState (mark_queued id (set_stripe_events (stripe_events (db_of s) ++ [row]) (db_of s))).2
       (queue_of s ++ [msg]) (a_shedder (sys_app s)) (a_limits (sys_app s)))) as Hb.
  { unfold backpressure. run. unfold shedding. rewrite Hsh. run. unfold limiting. rewrite Hlim. run.
    unfold call_next. rewrite bool_decide_true by done. rewrite (webhook_fresh cfg w r _ _ _ row msg) by done. by rewrite Hsh. }
  rewrite Hb. split; [done|]. cbv zeta. cbn [snd]. set (d1 := (mark_queued id _).2) in *.
  assert (same_ledger (db_of s) d1) as Hl by done.
  assert (acceptable d1 t) as Hacc1.
  { destruct Hacc as (Hf & Hrest). by split. }
  assert (ledger_ok d1) as Hok1 by (by eapply same_ledger_ok).
  assert (strip_trace_context msg = Ok e) as Hs by (rewrite (strip_inject (w_carrier w) (PDict m)); done).
  pose proof (strip_index (PDict m) e "id" He ltac:(done)) as Hid'. rewrite Hid in Hid'.
  assert (handle_event e client [] Undisturbed d1 =
    (Ok HPosted, (set_status (Some id) Processed (posted_db d1 t)).2)) as Hh.
  { eapply handle_event_posts; [done..|]. eexists (update_status _ _ row). split.
    - subst d1. cbn. apply list_elem_of_fmap_2. set_solver.
    - rewrite update_status_id. exact (event_row_id _ _ _ _ Hid Hr). }
  assert (∃ c, extract_trace_context msg = Ok c) as [c Hext].
  { unfold extract_trace_context, py_get. destruct msg; try done. by eexists. }
  exists msg. split; [done|]. intros retries draw q. set (s1 := System _ _).
  assert (db_of (work client [] Undisturbed Undisturbed retries draw msg q s1) =
    (set_status (Some id) Processed (posted_db d1 t)).2) as ->.
  { unfold work, with_app, db_of. cbn [sys_app a_db]. unfold process_event. run. rewrite Hext, Hs. run.
    unfold s1. cbn [sys_app a_db]. rewrite Hh. by run. }
  split; [done|]. split; [done|]. intros row' Hin' Hrow'. eapply set_status_elem; [exact Hin'|]. congruence.
Qed.

Lemma fresh_event_is_posted_witness :
  ∃ msg, let s1 := System (backpressure sample_config no_route sample_world sample_request (sys_app sample_system)).2 [(sample_world, sample_request)] in
    queue_of s1 = [msg] ∧
    same_ledger (posted_db empty_db sample_map) (db_of (work None [] Undisturbed Undisturbed 0 0%Q msg [] s1)).
Proof.
  assert (accepted_event sample_config sample_world sample_request = inr (sample_event "evt_1" "ch_1", "evt_1")) as Ha
    by (vm_compute; reflexivity).
  assert (event_row_of (sample_event "evt_1" "ch_1") Received = Ok sample_row) as Hr by (vm_compute; reflexivity).
  assert (∀ row', row' ∈ stripe_events (db_of sample_system) →
    same_id sample_row row' = false ∧ same_object sample_row row' = false) as Hno.
  { change (stripe_events (db_of sample_system)) with (@nil event_row). intros row' Hin. destruct (proj1 (elem_of_nil row') Hin). }
  destruct (fresh_event_is_posted sample_config no_route sample_system sample_world sample_request
    (sample_event "evt_1" "ch_1") "evt_1" sample_row (sample_event "evt_1" "ch_1") "charge.succeeded" None sample_map
    empty_db_ok eq_refl eq_refl eq_refl eq_refl Ha Hr Hno eq_refl eq_refl eq_refl eq_refl eq_refl
    ltac:(left) sample_map_ok sample_map_acceptable) as (_ & msg & H1 & H2).
  exists msg. exact (conj H1 (proj1 (proj2 (H2 0 0%Q [])))).
Defined.
