(* ===== verification/Outbox.v ===== *)
(** The event log over a whole history of the pipeline of System.v: what the status
    of a row says of the ledger, that rows are never lost, and that an event whose
    message was lost is brought back by its next delivery. *)
From Stdlib Require Import QArith.
From S2P Require Import Prelude PyVal Json Hash Ledger Post Balances Mapping Signature Dedupe.
From S2P Require Import Handlers Shed Gcra Ingest System.
#[local] Open Scope Z_scope.

(** ** Where the statuses of a log come from *)

(** Every row of [d'] has the id and the status of a row of [d], or is in [P]. *)
Definition statuses_from (P : event_row → Prop) (d d' : database) : Prop := ∀ row', row' ∈ stripe_events d' →
  (∃ row, row ∈ stripe_events d ∧ ev_id row = ev_id row' ∧ ev_status row = ev_status row') ∨ P row'.

Section statuses.
Implicit Types (P Q : event_row → Prop) (d : database).

Lemma statuses_refl P d : statuses_from P d d.
Proof. intros row Hin. left. by exists row. Qed.
Lemma statuses_weaken P Q d d' : (∀ row, P row → Q row) → statuses_from P d d' → statuses_from Q d d'.
Proof. intros H Hs row Hin. destruct (Hs row Hin) as [?|?]; [by left|right; auto]. Qed.
(** [P] is about ids and statuses. *)
Definition on_status P : Prop := ∀ row row', ev_id row = ev_id row' → ev_status row = ev_status row' → P row → P row'.
Lemma statuses_trans P d1 d2 d3 : on_status P → statuses_from P d1 d2 → statuses_from P d2 d3 → statuses_from P d1 d3.
Proof.
  intros HP H1 H2 row Hin. destruct (H2 row Hin) as [(row2 & Hin2 & E1 & E2)|?]; [|by right].
  destruct (H1 row2 Hin2) as [(row1 & Hin1 & E3 & E4)|Hp]; [left|right; by eapply HP].
  exists row1. split_and!; [done|congruence..].
Qed.

Lemma statuses_update P p st d : (∀ row, p row = true → P (update_status p st row)) →
  statuses_from P d (set_stripe_events (update_status p st <$> stripe_events d) d).
Proof.
  intros H row' (row & -> & Hin)%list_elem_of_fmap. destruct (p row) eqn:E; [right; by apply H|left].
  exists row. unfold update_status. by rewrite E.
Qed.
Lemma statuses_disturbed {A} P f (m : stx database A) d : statuses_from P d (m d).2 → statuses_from P d (disturbed f m d).2.
Proof. intros H. apply (disturbed_inv (statuses_from P d)); [apply statuses_refl|done]. Qed.

Definition has_status (id : string) (st : event_status) (row : event_row) : Prop := ev_id row = id ∧ ev_status row = st.
Lemma has_status_on id st : on_status (has_status id st).
Proof. by intros row row' E1 E2 [<- <-]. Qed.

Lemma statuses_set id st d : statuses_from (has_status id st) d (set_status (Some id) st d).2.
Proof.
  apply statuses_update. intros row Hr. bool_to_prop. injection Hr as <-. split; [apply update_status_id|].
  unfold update_status. by rewrite bool_decide_true.
Qed.

Lemma statuses_mark event st id d : py_index event "id" = Ok (PStr id) →
  statuses_from (has_status id st) d (_mark_status event st d).2.
Proof.
  intros Hid. unfold _mark_status. run. rewrite Hid. run. cbn [text_param]. run.
  destruct (existsb _ _); run; [apply statuses_set|].
  destruct (upsert_row_of event st) as [r|] eqn:Er; run; [|apply statuses_refl].
  assert (has_status id st r) as Hr.
  { unfold upsert_row_of, not_null in Er. rewrite Hid, bind_ok_run in Er. inv_ok Er. by simplify_eq/=. }
  pose proof (insert_event_spec r d) as Hi. destruct (insert_event r d) as [[[]|x] d1]; run.
  - destruct Hi as (-> & _). intros row [Hin| ->%list_elem_of_singleton]%elem_of_app; [left; by exists row|by right].
  - destruct Hi as (-> & [c ->] & _). case_bool_decide; run; [|apply statuses_refl].
    destruct Hr as [<- _]. apply statuses_set.
Qed.

(** What the endpoint writes is not terminal. *)
Definition pending_row (row : event_row) : Prop := ev_status row = Received ∨ ev_status row = Queued.
Lemma pending_on : on_status pending_row.
Proof. unfold pending_row. by intros row row' _ <-. Qed.

Lemma statuses_queued id d : statuses_from pending_row d (mark_queued id d).2.
Proof. apply statuses_update. intros row Hr. right. unfold update_status. by rewrite Hr. Qed.
Lemma statuses_check event d : statuses_from pending_row d (check_and_record event d).2.
Proof.
  pose proof (check_and_record_spec event d) as H. destruct (check_and_record event d) as [[res|e] d1]; cbn [snd].
  - destruct H as (r & Hr & H). apply event_row_payload in Hr as [_ Hr]. destruct (new res); [|by destruct H as [-> _]; apply statuses_refl].
    destruct H as (-> & _). intros row [Hin| ->%list_elem_of_singleton]%elem_of_app; [left; by exists row|right; by left].
  - destruct H as [-> _]. apply statuses_refl.
Qed.
End statuses.

(** A relation on logs that the two statements of the endpoint respect is
    respected by a request. *)
Section endpoint.
Context {F R : Type} `{HA : Arith F} `{HR : RedisClient F R} (cfg : app_config F).
Implicit Types (w : world F) (a : app_state R).
Context (Rel : relation database) `{!PreOrder Rel} (Hcheck : ∀ f event d, Rel d (disturbed f (check_and_record event) d).2)
  (Hqueued : ∀ f id d, Rel d (disturbed f (mark_queued id) d).2).

Lemma enqueue_log_rel w p id a : Rel (a_db a) (a_db (enqueue_and_mark w p id a).2).
Proof.
  pose proof (enqueue_and_mark_spec w p id a) as H. pose proof (Hqueued (w_mark w) id (a_db a)) as Hm.
  destruct (enqueue_and_mark w p id a) as [[res|e] a1]; cbn [snd] in *; [|by rewrite H].
  case_bool_decide; [destruct H as (m & _ & _ & ->); done|by rewrite H].
Qed.

Lemma webhook_log_rel w r a : Rel (a_db a) (a_db (webhook cfg w r a).2).
Proof.
  unfold webhook. destruct (accepted_event cfg w r) as [res|[event id]]; [done|]. run.
  assert (Rel (a_db a) (a_db (check_and_record_of w event a).2)) as Hc.
  { unfold check_and_record_of. rewrite on_db_run. apply Hcheck. }
  destruct (check_and_record_of w event a) as [[result|e] a1]; cbn [snd] in Hc; [|done].
  assert (∀ p i, Rel (a_db a) (a_db (enqueue_and_mark w p i a1).2)) as He.
  { intros p i. etrans; [exact Hc|apply enqueue_log_rel]. }
  destruct (new result); cbn [negb]; [apply He|].
  destruct (existing_status result); [|done]. destruct (existing_id result); [|done].
  destruct (existing_payload result); [|done]. case_bool_decide; [apply He|done].
Qed.

Lemma request_log_rel other w r a : Rel (a_db a) (a_db (backpressure cfg other w r a).2).
Proof.
  destruct (backpressure_reaches cfg other w r a) as [[E _]|(a1 & E1 & _ & E)]; [by rewrite E|].
  rewrite E, <- E1. apply webhook_log_rel.
Qed.
End endpoint.

#[export] Instance statuses_pending_preorder : PreOrder (statuses_from pending_row).
Proof. split; [intros d; apply statuses_refl|intros d1 d2 d3; apply statuses_trans, pending_on]. Qed.

Lemma statuses_deliver {F R} `{Arith F} `{RedisClient F R} (cfg : app_config F) other w r (a : app_state R) :
  statuses_from pending_row (a_db a) (a_db (backpressure cfg other w r a).2).
Proof.
  apply (request_log_rel cfg _); intros; apply statuses_disturbed; [apply statuses_check|apply statuses_queued].
Qed.

(** ** What a handler may write *)

(** The money of the event is in the ledger: its transaction, or the one that
    has its identity. *)
Definition in_ledger (d : database) (t : ledger_transaction) : Prop := ∃ r, r ∈ transactions d ∧
  (t_id r = lt_id t ∨ (t_event r = stripe_event_id t ∧ t_event r ≠ None) ∨
   (t_type r = event_type t ∧ t_object r = stripe_object_id t ∧ t_type r ≠ None ∧ t_object r ≠ None)).

Lemma taken_in_ledger d t : identity_taken d t → in_ledger d t.
Proof.
  unfold identity_taken. intros Hn. destruct (decide (Exists (λ r, t_id r = lt_id t ∨ clashes (t_event r) (stripe_event_id t) = true ∨
    (clashes (t_type r) (event_type t) && clashes (t_object r) (stripe_object_id t))%bool = true) (transactions d))) as [He|He].
  - apply Exists_exists in He as (r & Hin & Hr). exists r. split; [done|]. destruct Hr as [?|[Hc|Hc]]; [by left|right; left|right; right].
    + apply clashes_true in Hc as (x & -> & ->). done.
    + apply andb_true_iff in Hc as [(x & -> & ->)%clashes_true (y & -> & ->)%clashes_true]. done.
  - exfalso. apply Hn. intros r Hin. rewrite <- Forall_Exists_neg, Forall_forall in He. specialize (He r Hin).
    split_and!; [tauto|apply not_true_is_false; tauto..].
Qed.
Lemma in_ledger_more d d' t : (∀ r, r ∈ transactions d → r ∈ transactions d') → in_ledger d t → in_ledger d' t.
Proof. intros H (r & Hin & Hr). exists r. auto. Qed.

Definition paid (d : database) (event : pyval) : Prop := ∃ t, mapped event t ∧ in_ledger d t.
(** The handler has nothing to post for the event. *)
Definition moneyless (event : pyval) : Prop :=
  (∃ ty, py_get_default event "type" (PStr "") = Ok ty ∧ ty ∉ PStr <$> HANDLED_EVENT_TYPES) ∨ ∃ client, map_event client event = Ok None.

(** A terminal status that the worker gave. *)
Definition told (d : database) (event : pyval) (id : string) (row : event_row) : Prop :=
  ev_id row = id ∧ match ev_status row with
  | Processed => paid d event | NoMoneyMoved => moneyless event | Failed => True | _ => False end.
Lemma told_on d event id : on_status (told d event id).
Proof. unfold told. intros row row' <- <-. done. Qed.

Lemma statuses_told d0 event id st f d : py_index event "id" = Ok (PStr id) →
  (∀ row, has_status id st row → told d0 event id row) →
  statuses_from (told d0 event id) d (disturbed f (_mark_status event st) d).2.
Proof. intros Hid H. eapply statuses_weaken; [exact H|]. by apply statuses_disturbed, statuses_mark. Qed.

Lemma handle_statuses event client posts mark id d : ledger_ok d → py_index event "id" = Ok (PStr id) →
  let d' := (handle_event event client posts mark d).2 in statuses_from (told d' event id) d d'.
Proof.
  intros Hok Hid. cbv zeta. unfold handle_event. run.
  destruct (py_get_default event "type" (PStr "")) as [ty|] eqn:Ety; run; [|apply statuses_refl].
  destruct (guard_or (hashable ty) TypeError); run; [|apply statuses_refl].
  assert (∀ d0, moneyless event → statuses_from (told d0 event id) d (disturbed mark (_mark_status event NoMoneyMoved) d).2) as Hless.
  { intros d0 Hm. apply statuses_told; [done|]. intros row [Hi Hs]. split; [done|]. by rewrite Hs. }
  case_bool_decide as Hin; cbn [negb]; run.
  2:{ assert (moneyless event) as Hm by (left; by exists ty).
      destruct (disturbed mark (_mark_status event NoMoneyMoved) d) as [[[]|e] d1] eqn:E; run; specialize (Hless d1 Hm); by rewrite ?E in Hless. }
  destruct (map_event client event) as [[t|]|] eqn:Em; run; [| |apply statuses_refl].
  2:{ assert (moneyless event) as Hm by (right; by exists client).
      destruct (disturbed mark (_mark_status event NoMoneyMoved) d) as [[[]|e] d1] eqn:E; run; specialize (Hless d1 Hm); by rewrite ?E in Hless. }
  assert (mapped event t) as Hmap by (by exists client). clear Em. pose proof (post_event_spec posts t d Hok) as (_ & (_ & Eev & _) & Hp).
  unfold post_event in *. run in Eev. run in Hp.
  set (r := match post posts t d with (Err e, s') => pkey_is_duplicate e s' | (Ok a, s') => (Ok a, s') end) in *.
  destruct r as [[o|x] d1]; cbn [fst snd] in *; run.
  2:{ intros row Hrow. rewrite Eev in Hrow. left. by exists row. }
  assert (paid d1 event) as Hpaid.
  { exists t. split; [done|]. destruct o; [destruct Hp as [_ ->]|destruct Hp as [-> Hp]; by apply taken_in_ledger].
    exists (txn_row_of t). split; [cbn; set_solver|by left]. }
  pose proof (disturbed_mark_keeps mark event Processed d1) as [(_ & Et & _) _].
  set (d2 := (disturbed mark (_mark_status event Processed) d1).2) in *.
  assert (statuses_from (told d2 event id) d d2) as H.
  { intros row Hrow. destruct (statuses_told d2 event id Processed mark d1 Hid) with (row' := row) as [(row1 & Hin1 & E)|?]; [|done| |by right].
    - intros row1 [Hi Hs]. split; [done|]. rewrite Hs. destruct Hpaid as (t' & Hb & Hl). exists t'. split; [done|].
      eapply in_ledger_more; [|exact Hl]. by rewrite Et.
    - left. exists row1. by rewrite <- Eev. }
  subst d2. by destruct (disturbed _ _ d1) as [[[]|e] d2]; run.
Qed.

Lemma process_statuses client posts mark mark_failed retries draw message event id d : ledger_ok d →
  strip_trace_context message = Ok event → py_index event "id" = Ok (PStr id) →
  let d' := (process_event client posts mark mark_failed retries draw message d).2 in statuses_from (told d' event id) d d'.
Proof.
  intros Hok He Hid. cbv zeta. unfold process_event. run. destruct (extract_trace_context message); run; [|apply statuses_refl]. rewrite He. run.
  pose proof (handle_statuses event client posts mark id d Hok Hid) as H. cbv zeta in H.
  destruct (handle_event event client posts mark d) as [[h|x] d1]; run; [done|]. cbn [snd] in H.
  destruct (retries <? max_retries); run; [done|].
  pose proof (disturbed_mark_keeps mark_failed event Failed d1) as [(_ & Et & _) _].
  set (d2 := (disturbed mark_failed (_mark_status event Failed) d1).2) in *.
  assert (statuses_from (told d2 event id) d d2) as H2.
  { eapply statuses_trans; [apply told_on| |].
    - eapply statuses_weaken; [|exact H]. intros row [Hi Hs]. split; [done|]. destruct (ev_status row); try done.
      destruct Hs as (t & Hb & Hl). exists t. split; [done|]. eapply in_ledger_more; [|exact Hl]. by rewrite Et.
    - apply statuses_told; [done|]. intros row [Hi Hs]. split; [done|]. by rewrite Hs. }
  subst d2. by destruct (disturbed _ _ d1) as [[[]|e] d2]; run.
Qed.

(** ** The invariant *)
Section truth.
Context {F R : Type} `{HA : Arith F} `{HR : RedisClient F R} (cfg : app_config F) (other : http_req → http_res).
Implicit Types s : system (F := F) (R := R).

(** What a status says of its event. *)
Definition claims (st : event_status) : option (database → pyval → Prop) :=
  match st with Processed => Some paid | NoMoneyMoved => Some (λ _, moneyless) | _ => None end.

(** The claim holds of the event the row is named after, which was delivered. *)
Definition promise s (row : event_row) : Prop := ∀ P, claims (ev_status row) = Some P →
  ∃ event e, delivered cfg s event ∧ strip_trace_context event = Ok e ∧
    py_index e "id" = Ok (PStr (ev_id row)) ∧ P (db_of s) e.

Definition statuses_ok s : Prop := ∀ row, row ∈ stripe_events (db_of s) → promise s row.

Lemma paid_more d d' event : (∀ r, r ∈ transactions d → r ∈ transactions d') → paid d event → paid d' event.
Proof. intros H (t & Hb & Hl). exists t. split; [done|by eapply in_ledger_more]. Qed.

(** A step keeps a promise made, and a row it did not take over is a new one. *)
Lemma promise_more s s' row row' : deliveries s ⊆ deliveries s' →
  (∀ r, r ∈ transactions (db_of s) → r ∈ transactions (db_of s')) →
  ev_id row = ev_id row' → ev_status row = ev_status row' → promise s row → promise s' row'.
Proof.
  intros Hd Ht E1 E2 Hp P HP. rewrite <- E2 in HP. destruct (Hp P HP) as (event & e & H1 & H2 & H3 & H4).
  exists event, e. rewrite <- E1. split_and!; [by eapply delivered_more|done..|].
  destruct (ev_status row); simplify_eq/=; [by eapply paid_more|done].
Qed.

Lemma statuses_step (Q : event_row → Prop) s s' : deliveries s ⊆ deliveries s' →
  (∀ r, r ∈ transactions (db_of s) → r ∈ transactions (db_of s')) →
  statuses_from Q (db_of s) (db_of s') → (∀ row, Q row → promise s' row) → statuses_ok s → statuses_ok s'.
Proof.
  intros Hd Ht Hs HQ Hok row Hin. destruct (Hs row Hin) as [(row0 & Hin0 & E1 & E2)|Hq]; [|auto].
  eapply promise_more; eauto.
Qed.

Lemma pending_promise s row : pending_row row → promise s row.
Proof. intros [E|E] P HP; by rewrite E in HP. Qed.

(** The ledger only grows. *)
Lemma work_extends s client posts mark mark_failed retries draw message q e r : system_ok cfg s →
  strip_trace_context message = Ok e → r ∈ transactions (db_of s) →
  r ∈ transactions (db_of (work client posts mark mark_failed retries draw message q s)).
Proof.
  intros Hok He Hr. destruct (process_event_step client posts mark mark_failed retries draw message (db_of s) (so_ledger _ _ Hok) e He) as [_ _ Hm].
  change (process_event client posts mark mark_failed retries draw message (db_of s)).2
    with (db_of (work client posts mark mark_failed retries draw message q s)) in Hm.
  destruct Hm as [(_ & -> & _)|(t & _ & _ & _ & -> & _)]; [done|]. cbn. apply elem_of_app. by left.
Qed.

Lemma statuses_work s client posts mark mark_failed retries draw message q : system_ok cfg s → message ∈ queue_of s →
  statuses_ok s → statuses_ok (work client posts mark mark_failed retries draw message q s).
Proof.
  intros Hok Hm Hs. set (s' := work _ _ _ _ _ _ _ _ _). destruct (so_queue cfg s Hok message Hm) as (event & Hd & E).
  destruct (strip_trace_context message) as [e|x] eqn:Es.
  2:{ assert (db_of s' = db_of s) as Edb.
      { cbn. unfold process_event. run. destruct (extract_trace_context message); run; [|done]. by rewrite Es. }
      intros row Hin. rewrite Edb in Hin. eapply (promise_more s); [done|by rewrite Edb|done..|by apply Hs]. }
  destruct Hd as (w & r & id & Hd & Ha).
  assert (py_index e "id" = Ok (PStr id)) as Hid.
  { apply accepted_envelope, envelope_dict in Ha as (m & -> & Hid). rewrite <- Hid. by eapply strip_index. }
  pose proof (process_statuses client posts mark mark_failed retries draw message e id (db_of s) (so_ledger _ _ Hok) Es Hid) as Hp.
  eapply (statuses_step _ s); [done|intros ? ?; by eapply work_extends|exact Hp| |done].
  intros row [<- Ht] P HP. exists event, e. split_and!; [by exists w, r, (ev_id row)|by rewrite <- E|done|].
  by destruct (ev_status row); simplify_eq/=.
Qed.

Lemma statuses_ok_step s s' : step cfg other s s' → system_ok cfg s → statuses_ok s → statuses_ok s'.
Proof.
  destruct 1 as [s w r|s client posts mark mark_failed retries draw message q Hm Hq|s q Hq|s sh l]; intros Hok Hs.
  - assert (transactions (db_of (System (backpressure cfg other w r (sys_app s)).2 (deliveries s ++ [(w, r)]))) = transactions (db_of s)) as E.
    { destruct (backpressure_reaches cfg other w r (sys_app s)) as [[E _]|(a1 & E1 & _ & E)]; unfold db_of; cbn [sys_app]; rewrite E; [done|].
      destruct (webhook_keeps cfg w r a1) as [(_ & -> & _) _]. by rewrite E1. }
    eapply (statuses_step pending_row s); [cbn; set_solver|by rewrite E|apply statuses_deliver|apply pending_promise|done].
  - by apply statuses_work.
  - exact Hs.
  - exact Hs.
Qed.

Lemma reachable_statuses s : reachable cfg other s → statuses_ok s.
Proof.
  intros (s0 & Hi & Hs). assert (system_ok cfg s0 ∧ statuses_ok s0) as [H1 H2].
  { split; [by apply initial_ok|]. destruct Hi as (E & _). intros row. rewrite E. by intros ?%elem_of_nil. }
  clear Hi. induction Hs; [done|]. eauto using step_ok_system, statuses_ok_step.
Qed.
End truth.

(** ** Rows are never lost *)

(** Everything but the status. *)
Definition same_row (row row' : event_row) : Prop :=
  ev_id row' = ev_id row ∧ ev_type row' = ev_type row ∧ ev_object row' = ev_object row ∧ ev_payload row' = ev_payload row.
#[export] Instance same_row_preorder : PreOrder same_row.
Proof. split; [done|]. intros ??? (?&?&?&?) (?&?&?&?). split_and!; congruence. Qed.

(** A row is stored under the id of its payload. *)
Definition named (row : event_row) : Prop := py_index (ev_payload row) "id" = Ok (PStr (ev_id row)).
Lemma named_same row row' : same_row row row' → named row → named row'.
Proof. unfold named. by intros (-> & _ & _ & ->). Qed.

(** Rows keep all but their status, and new ones are named. *)
Record log_evolves (d d' : database) : Prop := {
  le_kept : ∀ row, row ∈ stripe_events d → ∃ row', row' ∈ stripe_events d' ∧ same_row row row';
  le_from : ∀ row', row' ∈ stripe_events d' → (∃ row, row ∈ stripe_events d ∧ same_row row row') ∨ named row' }.

#[export] Instance log_evolves_preorder : PreOrder log_evolves.
Proof.
  split; [intros d; split; intros row Hin; [by exists row|left; by exists row]|]. intros d1 d2 d3 [K1 F1] [K2 F2]. split.
  - intros row Hin. destruct (K1 row Hin) as (row2 & Hin2 & H2). destruct (K2 row2 Hin2) as (row3 & Hin3 & H3).
    exists row3. split; [done|by etrans].
  - intros row3 Hin3. destruct (F2 row3 Hin3) as [(row2 & Hin2 & H2)|?]; [|by right].
    destruct (F1 row2 Hin2) as [(row1 & Hin1 & H1)|?]; [left|right; by eapply named_same].
    exists row1. split; [done|by etrans].
Qed.

Lemma evolves_same d d' : stripe_events d' = stripe_events d → log_evolves d d'.
Proof. intros E. split; intros row; rewrite E; [by exists row|left; by exists row]. Qed.
Lemma evolves_update p st d : log_evolves d (set_stripe_events (update_status p st <$> stripe_events d) d).
Proof.
  assert (∀ row, same_row row (update_status p st row)) as H by (intros row; unfold update_status; by destruct (p row)).
  split.
  - intros row Hin. exists (update_status p st row). split; [by apply list_elem_of_fmap_2|done].
  - intros row' (row & -> & Hin)%list_elem_of_fmap. left. by exists row.
Qed.
Lemma evolves_append r d : named r → log_evolves d (set_stripe_events (stripe_events d ++ [r]) d).
Proof.
  intros Hr. split; cbn.
  - intros row Hin. exists row. split; [apply elem_of_app; by left|done].
  - intros row [Hin| ->%list_elem_of_singleton]%elem_of_app; [left; by exists row|by right].
Qed.
Lemma evolves_disturbed {A} f (m : stx database A) d : log_evolves d (m d).2 → log_evolves d (disturbed f m d).2.
Proof. intros H. by apply (disturbed_inv (log_evolves d)). Qed.

Lemma event_row_named event st row : event_row_of event st = Ok row → named row.
Proof.
  unfold event_row_of, not_null, named, text_param. intros H. inv_ok H. repeat case_match; by simplify_eq/=.
Qed.
Lemma upsert_row_named event st row : upsert_row_of event st = Ok row → named row.
Proof.
  unfold upsert_row_of, not_null, named, text_param. intros H. inv_ok H. repeat case_match; by simplify_eq/=.
Qed.

Lemma evolves_mark event st d : log_evolves d (_mark_status event st d).2.
Proof.
  unfold _mark_status. run. destruct (py_index event "id"); run; [|done]. destruct (text_param _); run; [|done].
  destruct (existsb _ _); run; [apply evolves_update|].
  destruct (upsert_row_of event st) as [r|] eqn:Er; run; [|done]. apply upsert_row_named in Er.
  pose proof (insert_event_spec r d) as Hi. destruct (insert_event r d) as [[[]|x] d1]; run.
  - destruct Hi as (-> & _). by apply evolves_append.
  - destruct Hi as (-> & [c ->] & _). case_bool_decide; run; [apply evolves_update|done].
Qed.
Lemma evolves_check event d : log_evolves d (check_and_record event d).2.
Proof.
  pose proof (check_and_record_spec event d) as H. destruct (check_and_record event d) as [[res|e] d1]; cbn [snd].
  - destruct H as (r & Hr & H). destruct (new res); [destruct H as (-> & _)|by destruct H as [-> _]].
    by eapply evolves_append, event_row_named.
  - by destruct H as [-> _].
Qed.

(** A relation on logs that the status updates respect is respected by a task. *)
Section relation.
Context (Rel : relation database) `{!PreOrder Rel} (Hsame : ∀ d d', stripe_events d' = stripe_events d → Rel d d')
  (Hmark : ∀ f event st d, Rel d (disturbed f (_mark_status event st) d).2).

Lemma handle_log_rel event client posts mark d : ledger_ok d → Rel d (handle_event event client posts mark d).2.
Proof.
  intros Hok. unfold handle_event. run. destruct (py_get_default event "type" (PStr "")) as [ty|]; run; [|done].
  destruct (guard_or (hashable ty) TypeError); run; [|done].
  assert (∀ st d1 h, Rel d d1 → Rel d ((_ ← disturbed mark (_mark_status event st); mret h) d1 : result handling * database).2) as Hm.
  { intros st d1 h H1. run. etrans; [exact H1|]. pose proof (Hmark mark event st d1) as H.
    by destruct (disturbed _ _ d1) as [[[]|] d2]; run. }
  case_bool_decide; cbn [negb]; [|by apply Hm]. run. destruct (map_event client event) as [[t|]|]; run; [|by apply (Hm NoMoneyMoved)|done].
  pose proof (post_events posts t d Hok) as Hp. unfold post_event in Hp. run in Hp.
  set (r := match post posts t d with (Err e, s') => pkey_is_duplicate e s' | (Ok a, s') => (Ok a, s') end) in *.
  destruct r as [[o|x] d1]; cbn [snd] in Hp; run; [|by apply Hsame].
  pose proof (Hm Processed d1 (if bool_decide (o = POSTED) then HPosted else HDuplicate) (Hsame _ _ Hp)) as Hr. by run in Hr.
Qed.

Lemma process_log_rel client posts mark mark_failed retries draw message d : ledger_ok d →
  Rel d (process_event client posts mark mark_failed retries draw message d).2.
Proof.
  intros Hok. unfold process_event. run. destruct (extract_trace_context message); run; [|done].
  destruct (strip_trace_context message) as [event|]; run; [|done].
  pose proof (handle_log_rel event client posts mark d Hok) as H.
  destruct (handle_event event client posts mark d) as [[h|x] d1]; run; [done|]. cbn [snd] in H.
  destruct (retries <? max_retries); run; [done|]. etrans; [exact H|].
  pose proof (Hmark mark_failed event Failed d1). by destruct (disturbed _ _ d1) as [[[]|] d2]; run.
Qed.
End relation.

Section grows.
Context {F R : Type} `{HA : Arith F} `{HR : RedisClient F R} (cfg : app_config F) (other : http_req → http_res).
Implicit Types s : system (F := F) (R := R).

Lemma step_evolves s s' : step cfg other s s' → ledger_ok (db_of s) → log_evolves (db_of s) (db_of s').
Proof.
  destruct 1 as [s w r|s client posts mark mark_failed retries draw message q Hm Hq|s q Hq|s sh l]; intros Hok; [..|done|done].
  - apply (request_log_rel cfg log_evolves); intros; apply evolves_disturbed; [apply evolves_check|apply evolves_update].
  - apply (process_log_rel log_evolves evolves_same (λ f event st d, evolves_disturbed f _ d (evolves_mark event st d))
      client posts mark mark_failed retries draw message (db_of s) Hok).
Qed.

Lemma steps_evolve s s' : system_ok cfg s → rtc (step cfg other) s s' → system_ok cfg s' ∧ log_evolves (db_of s) (db_of s').
Proof.
  intros Hok Hs. induction Hs as [|s1 s2 s3 H1 _ IH]; [done|].
  destruct IH as [? H]; [by eapply step_ok_system|]. split; [done|]. etrans; [|exact H]. by eapply step_evolves, so_ledger.
Qed.

Lemma reachable_named s row : reachable cfg other s → row ∈ stripe_events (db_of s) → named row.
Proof.
  intros (s0 & Hi & Hs) Hin. destruct (steps_evolve s0 s) as [_ [_ Hf]]; [by apply initial_ok|done|].
  destruct (Hf row Hin) as [(row0 & Hin0 & _)|?]; [|done]. destruct Hi as (E & _). rewrite E in Hin0. by apply elem_of_nil in Hin0.
Qed.
End grows.

(** ** A healthy redelivery *)

(** What the schema asks of a transaction, its identity apart. *)
Definition admissible (d : database) (t : ledger_transaction) : Prop :=
  Forall (entry_acceptable d) (lt_entries t) ∧ entries_balanced (lt_entries t) ∧ (2 <= length (lt_entries t))%nat.

(** An identity that is taken makes the attempt fail on a unique key. *)
Lemma attempt_taken t d : Forall (entry_acceptable d) (lt_entries t) → ¬ fresh_txn d t →
  ∃ c, transactional (attempt_body t) d = (Err (UniqueViolation c), d) ∧
    (c = "transactions_pkey" ∨ c ∈ dedupe_constraints).
Proof.
  intros Ha Hf.
  assert (∃ c, insert_transaction (txn_row_of t) d = (Err (UniqueViolation c), d) ∧
    (c = "transactions_pkey" ∨ c ∈ dedupe_constraints)) as (c & Ei & Hc).
  { destruct (insert_transaction_clash t d Hf) as (c & Ei & _). exists c. split; [done|]. revert Ei. unfold insert_transaction.
    repeat case_match; intros; simplify_eq; [by left|right; by left|right; right; by left]. }
  exists c. split; [|done]. unfold transactional, attempt_body. run.
  pose proof (resolve_accounts_spec d (lt_entries t) [] ltac:(by intros ??)) as Hres.
  destruct (resolve_accounts _ _ d) as [[ids|x] d0].
  - destruct Hres as (-> & _). run. by rewrite Ei.
  - destruct Hres as (-> & _ & e & He & Hn). rewrite Forall_forall in Ha. destruct (Ha e He) as (_ & a & ? & _). congruence.
Qed.

Definition settled_db (d : database) (t : ledger_transaction) : database :=
  if bool_decide (fresh_txn d t) then posted_db d t else d.

Lemma post_event_healthy t d : ledger_ok d → admissible d t →
  ∃ o, post_event [] t d = (Ok o, settled_db d t).
Proof.
  intros Hok (Ha & Hb & Hl). unfold settled_db, post_event, post, post_transaction. run. case_bool_decide as Hf.
  - rewrite (post_loop_acceptable _ _ _ _ _ Hok (conj Hf (conj Ha (conj Hb Hl)))). by eexists.
  - destruct (attempt_taken t d Ha Hf) as (c & Et & Hc).
    assert (_attempt Undisturbed t d = if bool_decide (c ∈ dedupe_constraints) then (Ok DUPLICATE, d) else (Err (UniqueViolation c), d)) as Eat.
    { cbn [_attempt]. run. rewrite Et. run. by case_bool_decide; run. }
    change (Z.to_nat (default_max_attempts - 1)) with 4%nat. cbn [post_loop head default]. rewrite Eat.
    case_bool_decide as Hin; cbn [fst snd].
    + by eexists.
    + destruct Hc as [->|?]; [|done]. cbn [pkey_is_duplicate]. rewrite bool_decide_false by (intros Hne; by apply Hne). by eexists.
Qed.

Lemma settled_in_ledger d t : in_ledger (settled_db d t) t.
Proof.
  unfold settled_db. case_bool_decide as Hf; [|by apply taken_in_ledger].
  exists (txn_row_of t). split; [cbn; apply elem_of_app; right; by left|by left].
Qed.

Lemma handle_event_settles event client ty id t d :
  ledger_ok d → map_event client event = Ok (Some t) → admissible d t →
  py_index event "type" = Ok (PStr ty) → ty ∈ HANDLED_EVENT_TYPES → py_index event "id" = Ok (PStr id) →
  (∃ row, row ∈ stripe_events d ∧ ev_id row = id) →
  ∃ h, handle_event event client [] Undisturbed d = (Ok h, (set_status (Some id) Processed (settled_db d t)).2).
Proof.
  intros Hok Hm Hacc Hty Hin Hid Hrow.
  assert (py_get_default event "type" (PStr "") = Ok (PStr ty)) as Eg.
  { unfold py_index, py_get_default in *. destruct event as [| | | | | |m]; try done.
    by destruct (dict_get "type" m); simplify_eq/=. }
  assert (PStr ty ∈ PStr <$> HANDLED_EVENT_TYPES) as Hh by (by apply list_elem_of_fmap_2).
  unfold handle_event. run. rewrite Eg. cbn [hashable guard_or]. run. rewrite bool_decide_true by done. cbn [negb].
  run. rewrite Hm. run. destruct (post_event_healthy t d Hok Hacc) as [o Eo]. unfold post_event in Eo. run in Eo. rewrite Eo.
  run. cbn [disturbed]. unfold _mark_status. run. rewrite Hid. run. cbn [text_param]. run.
  assert (existsb (λ row, bool_decide (Some (ev_id row) = Some id)) (stripe_events (settled_db d t)) = true) as ->.
  { apply existsb_exists_stdpp. destruct Hrow as (row & Hr & <-). exists row. rewrite bool_decide_true by done. split; [|done].
    unfold settled_db. by case_bool_decide. }
  by eexists.
Qed.

Section recovery.
Context {F R : Type} `{HA : Arith F} `{HR : RedisClient F R} (cfg : app_config F) (other : http_req → http_res).
Implicit Types (s : system (F := F) (R := R)) (w : world F) (a : app_state R).

(** A delivery to the endpoint, answered 200. *)
Definition answered_200 w (r : http_req) a a' : Prop := rq_path r = "/webhook" ∧ rq_method r = "POST" ∧
  ∃ res, backpressure cfg other w r a = (Ok res, a') ∧ rs_status res = 200.

Lemma answered_webhook w r a a' : answered_200 w r a a' →
  ∃ a1 res, a_db a1 = a_db a ∧ a_queue a1 = a_queue a ∧ webhook cfg w r a1 = (Ok res, a') ∧ rs_status res = 200.
Proof.
  intros (Hp & Hm & res & Hb & Hs). unfold backpressure in Hb. run in Hb. destruct (shedding_frame w (classify r) a) as [E1 E2].
  assert (∀ x, (shedding w (classify r) a).1 = Ok (Some x) → rs_status x = 503) as Hshed.
  { unfold shedding. intros x. repeat case_match; intros; by simplify_eq/=. }
  destruct (shedding w (classify r) a) as [[[x|]|e] a1]; cbn [fst snd] in *; run in Hb; [|..|done].
  { simplify_eq. specialize (Hshed _ eq_refl). congruence. }
  destruct (limiting_frame cfg w (classify r) r a1) as [E3 E4].
  assert (∀ x, (limiting cfg w (classify r) r a1).1 = Ok (Some x) → rs_status x = 429) as Hlim.
  { unfold limiting. intros x. repeat case_match; intros; by simplify_eq/=. }
  destruct (limiting cfg w (classify r) r a1) as [[[x|]|e] a2]; cbn [fst snd] in *; run in Hb; [|..|done].
  { simplify_eq. specialize (Hlim _ eq_refl). congruence. }
  unfold call_next in Hb. rewrite bool_decide_true in Hb by done.
  exists a2, res. split_and!; [congruence..|exact Hb|exact Hs].
Qed.

(** A delivery that finds a pending row, and is answered 200, has queued the
    row's payload again. *)
Lemma webhook_requeues w r a a' event id r0 row res :
  accepted_event cfg w r = inr (event, id) → event_row_of event Received = Ok r0 →
  blocking_row r0 (a_db a) = Some row → pending_row row →
  webhook cfg w r a = (Ok res, a') → rs_status res = 200 →
  ∃ m, inject_trace_context (w_carrier w) (ev_payload row) = Ok m ∧ a_queue a' = a_queue a ++ [m] ∧ log_evolves (a_db a) (a_db a').
Proof.
  intros Ha Hr Hb Hp Hw Hs. assert (log_evolves (a_db a) (a_db a')) as Hev.
  { replace a' with (webhook cfg w r a).2 by (by rewrite Hw).
    apply (webhook_log_rel cfg log_evolves); intros; apply evolves_disturbed; [apply evolves_check|apply evolves_update]. }
  unfold webhook in Hw. rewrite Ha in Hw. run in Hw. unfold check_and_record_of in Hw. rewrite on_db_run in Hw.
  destruct (w_check w); cbn [disturbed] in Hw; [|done..].
  assert (check_and_record event (a_db a) = (Ok (found (Some row)), a_db a)) as Hc.
  { pose proof (check_and_record_spec event (a_db a)) as H. pose proof (blocking_row_spec r0 (a_db a)) as Hbs. rewrite Hb in Hbs.
    destruct Hbs as (Hin & Hfor & _). unfold check_and_record. rewrite Hr. run.
    pose proof (insert_event_spec r0 (a_db a)) as Hi. destruct (insert_event r0 (a_db a)) as [[[]|x] d1]; run.
    - destruct Hi as (_ & _ & Hno). destruct (Hno row Hin) as [H1 H2]. by rewrite H1, H2 in Hfor.
    - destruct Hi as (-> & [c ->] & _). run. by rewrite Hb. }
  rewrite Hc in Hw. cbn [fst snd found new negb existing_status existing_id existing_payload] in Hw.
  rewrite bool_decide_true in Hw by (destruct Hp as [-> | ->]; [by left|by right; left]).
  pose proof (enqueue_and_mark_spec w (ev_payload row) (ev_id row) (with_db a (a_db a))) as He. rewrite Hw in He.
  rewrite bool_decide_true in He by done. destruct He as (m & Hm & Hq & _). exists m. by split_and!.
Qed.

(** A healthy task on a message of a logged event settles the event. *)
Lemma work_settles s client row c m e ty t retries draw q : ledger_ok (db_of s) →
  inject_trace_context c (ev_payload row) = Ok m → strip_trace_context (ev_payload row) = Ok e → named row →
  (∃ row', row' ∈ stripe_events (db_of s) ∧ ev_id row' = ev_id row) →
  py_index e "type" = Ok (PStr ty) → ty ∈ HANDLED_EVENT_TYPES →
  map_event client e = Ok (Some t) → admissible (db_of s) t →
  let s' := work client [] Undisturbed Undisturbed retries draw m q s in
  in_ledger (db_of s') t ∧ marked (ev_id row) Processed (db_of s').
Proof.
  intros Hok Hm He Hn Hrow Hty Hh Hmap Ha. cbv zeta.
  assert (py_index e "id" = Ok (PStr (ev_id row))) as Hid by (rewrite <- Hn; by apply strip_index).
  destruct (handle_event_settles e client ty (ev_id row) t (db_of s) Hok Hmap Ha Hty Hh Hid Hrow) as [h Hhe].
  assert (∃ x, extract_trace_context m = Ok x) as [x Hx].
  { unfold named in Hn. unfold inject_trace_context in Hm. destruct (ev_payload row); try done.
    unfold extract_trace_context, py_get. destruct c; simplify_eq/=; by eexists. }
  assert (db_of (work client [] Undisturbed Undisturbed retries draw m q s) = (set_status (Some (ev_id row)) Processed (settled_db (db_of s) t)).2) as ->.
  { unfold work, with_app, db_of. cbn [sys_app a_db]. unfold process_event. run. rewrite Hx, (strip_inject c (ev_payload row)), He by done.
    run. fold (db_of s). rewrite Hhe. by run. }
  split; [apply (settled_in_ledger (db_of s))|]. intros row' Hin' Hid'. eapply set_status_elem; [exact Hin'|congruence].
Qed.
End recovery.

(** ** Properties *)

(** C5: in every reachable state the log tells the truth: a row that says
    processed is named after an event that was delivered, signed and in date, and
    whose money is in the ledger (the transaction it maps to, or one with its
    identity); a row that says no_money_moved is named after a delivered event
    that is of no handled type or maps to no transaction; every row is stored
    under the id of its payload. *)
Theorem statuses_tell_truth {F R} `{Arith F} `{RedisClient F R} (cfg : app_config F) other (s : system (F := F) (R := R)) row :
  reachable cfg other s → row ∈ stripe_events (db_of s) →
  named row ∧
  match ev_status row with
  | Processed => ∃ event e t, delivered cfg s event ∧ strip_trace_context event = Ok e ∧
      py_index e "id" = Ok (PStr (ev_id row)) ∧ mapped e t ∧ in_ledger (db_of s) t
  | NoMoneyMoved => ∃ event e, delivered cfg s event ∧ strip_trace_context event = Ok e ∧
      py_index e "id" = Ok (PStr (ev_id row)) ∧ moneyless e
  | _ => True
  end.
Proof.
  intros Hs Hin. split; [by eapply reachable_named|]. pose proof (reachable_statuses cfg other s Hs row Hin) as Hp. unfold promise in Hp.
  destruct (ev_status row); try done.
  - destruct (Hp paid eq_refl) as (event & e & ? & ? & ? & t & ? & ?). by exists event, e, t.
  - by apply (Hp (λ _, moneyless)).
Qed.

Definition sample_answer : result http_res * app_state sim_redis :=
  backpressure sample_config no_route sample_world sample_request sample_state.
Definition sample_accepted : system := System sample_answer.2 [(sample_world, sample_request)].
Definition sample_processed : system :=
  work None [] Undisturbed Undisturbed 0 0%Q (sample_event "evt_1" "ch_1") [] sample_accepted.

Lemma sample_processed_reachable : reachable sample_config no_route sample_processed.
Proof.
  exists sample_system. split; [exact sample_initial|]. eapply rtc_l.
  - exact (step_deliver sample_config no_route sample_system sample_world sample_request).
  - apply rtc_once. apply step_work; [|by apply list_subseteq_nil].
    assert (queue_of sample_accepted = [sample_event "evt_1" "ch_1"]) as E by (vm_compute; reflexivity).
    change (sample_event "evt_1" "ch_1" ∈ queue_of sample_accepted). rewrite E. by left.
Qed.

Lemma statuses_tell_truth_witness : ∃ event e t, delivered sample_config sample_processed event ∧
  strip_trace_context event = Ok e ∧ mapped e t ∧ in_ledger (db_of sample_processed) t.
Proof.
  set (row := EventRow "evt_1" "charge.succeeded" (Some "ch_1") (sample_event "evt_1" "ch_1") Processed).
  assert (row ∈ stripe_events (db_of sample_processed)) as Hin.
  { assert (stripe_events (db_of sample_processed) = [row]) as -> by (vm_compute; reflexivity). by left. }
  destruct (statuses_tell_truth sample_config no_route sample_processed row sample_processed_reachable Hin)
    as [_ (event & e & t & H1 & H2 & _ & H3 & H4)].
  exists event, e, t. exact (conj H1 (conj H2 (conj H3 H4))).
Defined.

Lemma admissible_accounts d d' t : accounts d = accounts d' → admissible d t → admissible d' t.
Proof. intros E (Ha & ?). split; [|done]. eapply Forall_impl; [exact Ha|]. intros e. by apply entry_acceptable_accounts. Qed.

(** C4: an event answered 200 is never lost for good.  In every later state,
    whatever crashes, losses and reorderings came between, the log still holds a
    row that blocks the event's id or object, and what that row's status says is
    true.  If the row is still pending, the very next delivery of the event that is
    answered 200 appends exactly one message to the queue, and one healthy
    execution of the task on that message puts the money of the row's event in the
    ledger and marks the row processed, provided the event maps to a transaction
    the schema admits. *)
Theorem acknowledged_event_recovers {F R} `{Arith F} `{RedisClient F R} (cfg : app_config F) other
    (s s2 : system (F := F) (R := R)) w r a1 event id :
  reachable cfg other s → accepted_event cfg w r = inr (event, id) → answered_200 cfg other w r (sys_app s) a1 →
  rtc (step cfg other) (System a1 (deliveries s ++ [(w, r)])) s2 →
  ∃ r0 row, event_row_of event Received = Ok r0 ∧ blocking_row r0 (db_of s2) = Some row ∧ promise cfg s2 row ∧
    (pending_row row → ∀ w' r' a3 id' client e ty t,
      accepted_event cfg w' r' = inr (event, id') → answered_200 cfg other w' r' (sys_app s2) a3 →
      strip_trace_context (ev_payload row) = Ok e → py_index e "type" = Ok (PStr ty) → ty ∈ HANDLED_EVENT_TYPES →
      map_event client e = Ok (Some t) → admissible (db_of s2) t →
      let s3 := System a3 (deliveries s2 ++ [(w', r')]) in
      ∃ m, queue_of s3 = queue_of s2 ++ [m] ∧ ∀ retries draw q,
        let s4 := work client [] Undisturbed Undisturbed retries draw m q s3 in
        in_ledger (db_of s4) t ∧ marked (ev_id row) Processed (db_of s4)).
Proof.
  intros Hs Ha Hans Hrtc. set (s1 := System a1 (deliveries s ++ [(w, r)])) in *.
  assert (∀ s w r a', answered_200 cfg other w r (sys_app s) a' → step cfg other s (System a' (deliveries s ++ [(w, r)]))) as Hstep.
  { intros s' w' r' a' (_ & _ & res & Hb & _). pose proof (step_deliver cfg other s' w' r') as Hd. by rewrite Hb in Hd. }
  assert (reachable cfg other s2) as Hs2.
  { destruct Hs as (s0 & ? & ?). exists s0. split; [done|]. etrans; [done|]. eapply rtc_l; [by apply Hstep|done]. }
  destruct (answered_webhook cfg other w r _ _ Hans) as (a & res & _ & _ & Hw & H200).
  destruct (webhook_outboxed cfg w r a res a1 event id Ha Hw H200) as (r0 & row0 & Hr0 & Hin0 & Hfor0 & _).
  destruct (steps_evolve cfg other s1 s2) as [Hok2 [Hkept _]]; [|done|].
  { eapply step_ok_system; [by apply Hstep|by eapply reachable_ok]. }
  destruct (Hkept row0 Hin0) as (row1 & Hin1 & E1 & E2 & E3 & _).
  pose proof (blocking_row_spec r0 (db_of s2)) as Hb. destruct (blocking_row r0 (db_of s2)) as [row|] eqn:Eb.
  2:{ specialize (Hb row1 Hin1). fold (row_for r0 row1) in Hb. apply (row_for_ext r0 row0 row1) in Hfor0; [|done..].
      unfold row_for in Hfor0. congruence. }
  destruct Hb as (Hin & _). exists r0, row. split_and!; [done..|by eapply reachable_statuses|].
  intros Hp w' r' a3 id' client e ty t Ha' Hans' He Hty Hh Hmap Hadm.
  destruct (answered_webhook cfg other w' r' _ _ Hans') as (a2 & res' & Ed & Eq & Hw' & H200').
  destruct (webhook_requeues cfg w' r' a2 a3 event id' r0 row res') as (m & Hm & Hq & [Hk _]); [done|done|by rewrite Ed|done..|].
  set (s3 := System a3 (deliveries s2 ++ [(w', r')])). rewrite Ed in Hk. destruct (Hk row Hin) as (row' & Hin' & Hsame).
  pose proof (Hstep s2 w' r' a3 Hans') as Hst. fold s3 in Hst.
  exists m. split; [unfold queue_of; rewrite <- Eq; exact Hq|]. intros retries draw q.
  apply (work_settles s3 client row (w_carrier w') m e ty t); try done.
  - by eapply so_ledger, step_ok_system.
  - by eapply reachable_named.
  - exists row'. split; [done|]. by destruct Hsame.
  - eapply admissible_accounts; [|exact Hadm]. unfold s3, db_of. cbn [sys_app].
    destruct (webhook_keeps cfg w' r' a2) as [(Eacc & _) _]. rewrite Hw' in Eacc. cbn [snd] in Eacc. by rewrite Eacc, Ed.
Qed.

(** The message of the first delivery is lost; the second brings it back. *)
Definition sample_lost : system := with_queue sample_accepted [].
Definition sample_logged : event_row :=
  EventRow "evt_1" "charge.succeeded" (Some "ch_1") (sample_event "evt_1" "ch_1") Queued.

Lemma acknowledged_event_recovers_witness :
  queue_of sample_lost = [] ∧
  let s3 := System (backpressure sample_config no_route sample_world sample_request (sys_app sample_lost)).2
    (deliveries sample_lost ++ [(sample_world, sample_request)]) in
  ∃ m, queue_of s3 = [m] ∧ in_ledger (db_of (work None [] Undisturbed Undisturbed 0 0%Q m [] s3)) sample_map.
Proof.
  split; [reflexivity|].
  assert (accepted_event sample_config sample_world sample_request = inr (sample_event "evt_1" "ch_1", "evt_1")) as Ha
    by (vm_compute; reflexivity).
  assert (∀ a, (∃ res, (backpressure sample_config no_route sample_world sample_request a).1 = Ok res ∧ rs_status res = 200) →
    answered_200 sample_config no_route sample_world sample_request a (backpressure sample_config no_route sample_world sample_request a).2) as H200.
  { intros a (res & E & Hres). split; [reflexivity|]. split; [reflexivity|]. exists res. split; [|exact Hres].
    rewrite <- E. apply surjective_pairing. }
  assert (event_row_of (sample_event "evt_1" "ch_1") Received = Ok sample_row) as Hr by (vm_compute; reflexivity).
  assert (blocking_row sample_row (db_of sample_lost) = Some sample_logged) as Hb by (vm_compute; reflexivity).
  assert (accounts (db_of sample_lost) = accounts empty_db) as Hacc by (vm_compute; reflexivity).
  destruct (acknowledged_event_recovers sample_config no_route sample_system sample_lost sample_world sample_request
    sample_answer.2 (sample_event "evt_1" "ch_1") "evt_1") as (r0 & row & E1 & E2 & _ & Hrec).
  - exists sample_system. split; [exact sample_initial|apply rtc_refl].
  - exact Ha.
  - apply H200. eexists. split; vm_compute; reflexivity.
  - apply rtc_once. apply step_broker. by apply list_subseteq_nil.
  - rewrite Hr in E1. injection E1 as <-. rewrite Hb in E2. injection E2 as <-.
    destruct (Hrec (or_intror eq_refl) sample_world sample_request _ "evt_1" None (sample_event "evt_1" "ch_1") "charge.succeeded"
      sample_map Ha (H200 (sys_app sample_lost) ltac:(eexists; split; vm_compute; reflexivity)) eq_refl eq_refl
      ltac:(left) sample_map_ok) as (m & H3 & H4).
    + eapply admissible_accounts; [symmetry; exact Hacc|]. exact (proj2 sample_map_acceptable).
    + exists m. exact (conj H3 (proj1 (H4 0 0%Q []))).
Defined.
