(* ===== verification/Book.v ===== *)
(** The abstract specification of the service of System.v: a book that hears
    authentic events and enters, once per identity, a balanced transaction built
    from an event it heard.  Requests, queue, retries, crashes, replays, the event
    log and the tables are gone; the refinement says they never show. *)
From Stdlib Require Import QArith.
From S2P Require Import Prelude PyVal Json Hash Ledger Post Balances Mapping Signature Dedupe.
From S2P Require Import Handlers Shed Gcra Ingest System Outbox.
#[local] Open Scope Z_scope.

(** ** The book *)
Record book := MkBook { heard : list pyval; posted : list ledger_transaction }.
Definition blank : book := MkBook [] [].

(** Two transactions the schema takes for one movement of money. *)
Definition same_movement (t t' : ledger_transaction) : Prop :=
  lt_id t = lt_id t' ∨ (∃ i, stripe_event_id t = Some i ∧ stripe_event_id t' = Some i) ∨
  (∃ ty o, event_type t = Some ty ∧ event_type t' = Some ty ∧ stripe_object_id t = Some o ∧ stripe_object_id t' = Some o).

Inductive book_step : book → book → Prop :=
  | book_hears b event : book_step b (MkBook (heard b ++ [event]) (posted b))
  | book_enters b event e t :
      event ∈ heard b → strip_trace_context event = Ok e → mapped e t → admissible empty_db t →
      (∀ t', t' ∈ posted b → ¬ same_movement t' t) →
      book_step b (MkBook (heard b) (posted b ++ [t])).

(** One step of the book, or none. *)
Definition moves (b b' : book) : Prop := b' = b ∨ book_step b b'.

(** The balance of an account is the sum of what was entered. *)
Definition book_balance (a : account) (b : book) : Z :=
  Zsum (λ t, Zsum (entry_effect a) (lt_entries t)) (posted b).

(** ** What the book satisfies by itself *)
Record book_ok (b : book) : Prop := {
  bo_admissible : ∀ t, t ∈ posted b → admissible empty_db t;
  bo_heard : ∀ t, t ∈ posted b → ∃ event e, event ∈ heard b ∧ strip_trace_context event = Ok e ∧ mapped e t;
  bo_once : ∀ i j t t', posted b !! i = Some t → posted b !! j = Some t' → same_movement t t' → i = j }.

Lemma same_movement_sym t t' : same_movement t t' → same_movement t' t.
Proof. intros [?|[(i & ? & ?)|(ty & o & ? & ? & ? & ?)]]; [by left|right; left; by exists i|right; right; by exists ty, o]. Qed.

Lemma book_step_ok b b' : book_step b b' → book_ok b → book_ok b'.
Proof.
  destruct 1 as [b event|b event e t Hh He Hb Ha Hno]; intros [H1 H2 H3].
  - split; cbn; [done| |done]. intros t Hin. destruct (H2 t Hin) as (ev & e & ? & ?). exists ev, e.
    split; [apply elem_of_app; by left|done].
  - split; cbn.
    + intros t' [?| ->%list_elem_of_singleton]%elem_of_app; [by apply H1|done].
    + intros t' [?| ->%list_elem_of_singleton]%elem_of_app; [by apply H2|by exists event, e].
    + assert (∀ i t', (posted b ++ [t]) !! i = Some t' → posted b !! i = Some t' ∨ i = length (posted b) ∧ t' = t) as Hl.
      { intros i t' [?|[? Hs]]%lookup_app_Some; [by left|right]. apply list_lookup_singleton_Some in Hs as [? ->]. split; [lia|done]. }
      intros i j u u' [Hi|[-> ->]]%Hl [Hj|[-> ->]]%Hl Hm; [by eapply H3|..|done].
      * by apply list_elem_of_lookup_2, Hno in Hi.
      * apply same_movement_sym in Hm. by apply list_elem_of_lookup_2, Hno in Hj.
Qed.
Lemma book_reachable_ok b : rtc book_step blank b → book_ok b.
Proof.
  assert (book_ok blank) as Hb by (split; [by intros t ?%elem_of_nil..|done]). revert Hb.
  induction 2; [done|]. eauto using book_step_ok.
Qed.

(** ** Freshness in the tables is freshness in the book *)
Lemma fresh_book l d t : transactions d = txn_row_of <$> l →
  fresh_txn d t ↔ ∀ t', t' ∈ l → ¬ same_movement t' t.
Proof.
  intros E. unfold fresh_txn, same_movement. rewrite E. split.
  - intros Hf t' Hin Hs. destruct (Hf (txn_row_of t') ltac:(by apply list_elem_of_fmap_2)) as (H1 & H2 & H3). cbn in *.
    destruct Hs as [?|[(i & E1 & E2)|(ty & o & E1 & E2 & E3 & E4)]]; [done|..].
    + apply not_true_iff_false in H2. apply H2, clashes_true. by exists i.
    + apply not_true_iff_false in H3. apply H3, andb_true_iff. rewrite !clashes_true. split; [by exists ty|by exists o].
  - intros Hno r (t' & -> & Hin)%list_elem_of_fmap. specialize (Hno t' Hin). cbn. split_and!.
    + intros ?. apply Hno. by left.
    + apply not_true_iff_false. intros (i & ? & ?)%clashes_true. apply Hno. right. left. by exists i.
    + apply not_true_iff_false. intros [(ty & ? & ?)%clashes_true (o & ? & ?)%clashes_true]%andb_true_iff.
      apply Hno. right. right. by exists ty, o.
Qed.

(** ** The abstraction *)
Section refinement.
Context {F R : Type} `{HA : Arith F} `{HR : RedisClient F R} (cfg : app_config F) (other : http_req → http_res).
Implicit Types (s : system (F := F) (R := R)) (b : book) (w : world F).

(** The event an authentic delivery carried. *)
Definition event_of (wr : world F * http_req) : option pyval :=
  match accepted_event cfg wr.1 wr.2 with inr (event, _) => Some event | inl _ => None end.

Definition book_rows (t : ledger_transaction) : list entry_row := entry_row_of empty_db (lt_id t) <$> lt_entries t.

(** The tables are the book written out. *)
Record shows b s : Prop := {
  sh_accounts : accounts (db_of s) = seed_accounts;
  sh_heard : heard b = omap event_of (deliveries s);
  sh_transactions : transactions (db_of s) = txn_row_of <$> posted b;
  sh_entries : entries (db_of s) = posted b ≫= book_rows }.

Lemma shows_same b s s' : same_ledger (db_of s) (db_of s') → deliveries s' = deliveries s → shows b s → shows b s'.
Proof. intros (E1 & E2 & E3) Ed [H1 H2 H3 H4]. by split; rewrite ?E1, ?E2, ?E3, ?Ed. Qed.

Lemma delivered_heard b s event : shows b s → delivered cfg s event → event ∈ heard b.
Proof.
  intros Hb (w & r & id & Hin & Ha). rewrite (sh_heard b s Hb). apply list_elem_of_omap. exists (w, r).
  split; [done|]. unfold event_of. cbn. by rewrite Ha.
Qed.

(** A task is a stutter, or enters its event's transaction. *)
Lemma work_simulates b s client posts mark mark_failed retries draw message q : system_ok cfg s → message ∈ queue_of s →
  shows b s → let s' := work client posts mark mark_failed retries draw message q s in
  ∃ b', moves b b' ∧ shows b' s'.
Proof.
  intros Hok Hm Hb s'. destruct (so_queue cfg s Hok message Hm) as (event & Hd & E).
  destruct (strip_trace_context message) as [e|x] eqn:Es.
  2:{ exists b. split; [by left|]. apply (shows_same b s); [|done|exact Hb]. assert (db_of s' = db_of s) as ->; [|done].
      unfold s', work, with_app, db_of. cbn [sys_app a_db]. unfold process_event. run.
      destruct (extract_trace_context message); run; [|done]. by rewrite Es. }
  destruct (process_event_step client posts mark mark_failed retries draw message (db_of s) (so_ledger _ _ Hok) e Es) as [_ _ Hmv].
  change (process_event client posts mark mark_failed retries draw message (db_of s)).2 with (db_of s') in Hmv.
  destruct Hmv as [Hl|(t & Hbt & (Hf & Hadm) & (E1 & E2 & E3))]; [exists b; split; [by left|by apply (shows_same b s)]|].
  destruct Hb as [B1 B2 B3 B4]. exists (MkBook (heard b) (posted b ++ [t])). split.
  - right. econstructor; [by eapply (delivered_heard b s)|by rewrite <- E|done| |].
    + by eapply admissible_accounts.
    + by eapply fresh_book.
  - split; cbn [heard posted].
    + by rewrite E1.
    + exact B2.
    + rewrite E2. cbn [posted_db transactions]. by rewrite B3, fmap_app.
    + rewrite E3. cbn [posted_db entries]. rewrite B4, bind_app. f_equal. cbn. rewrite app_nil_r. unfold book_rows.
      apply list_fmap_ext. intros _ x _. by apply entry_row_of_accounts.
Qed.

Lemma step_simulates b s s' : system_ok cfg s → shows b s → step cfg other s s' →
  ∃ b', moves b b' ∧ shows b' s'.
Proof.
  intros Hok Hb. destruct 1 as [s w r|s client posts mark mark_failed retries draw message q Hm Hq|s q Hq|s sh l].
  - set (s' := System _ _). assert (same_ledger (db_of s) (db_of s')) as (E1 & E2 & E3).
    { unfold s', db_of. cbn [sys_app]. destruct (backpressure_reaches cfg other w r (sys_app s)) as [[-> _]|(a1 & <- & _ & ->)]; [done|].
      apply webhook_keeps. }
    destruct Hb as [B1 B2 B3 B4].
    assert (heard b ++ from_option (λ event, [event]) [] (event_of (w, r)) = omap event_of (deliveries s')) as Eh.
    { unfold s'. cbn [deliveries]. rewrite omap_snoc, B2. by destruct (event_of (w, r)). }
    destruct (event_of (w, r)) as [event|]; cbn [from_option] in Eh.
    + exists (MkBook (heard b ++ [event]) (posted b)). split; [right; apply book_hears|].
      split; cbn [heard posted]; rewrite ?E1, ?E2, ?E3; done.
    + exists b. split; [by left|]. rewrite app_nil_r in Eh. split; rewrite ?E1, ?E2, ?E3; done.
  - by apply work_simulates.
  - exists b. split; [by left|]. by apply (shows_same b s).
  - exists b. split; [by left|]. by apply (shows_same b s).
Qed.

Lemma initial_shows s : initial s → shows blank s.
Proof. intros (E1 & E2 & E3). by split; rewrite ?E1, ?E3. Qed.

Lemma reachable_shows s : reachable cfg other s → ∃ b, rtc book_step blank b ∧ shows b s.
Proof.
  intros (s0 & Hi & Hs). assert (∀ s1 s2, rtc (step cfg other) s1 s2 → system_ok cfg s1 → ∀ b1, shows b1 s1 →
    ∃ b2, rtc book_step b1 b2 ∧ shows b2 s2) as H.
  { induction 1 as [s1|s1 s2 s3 H1 _ IH]; intros Hok b1 Hb1; [by exists b1|].
    destruct (step_simulates b1 s1 s2 Hok Hb1 H1) as (b2 & Hr & Hb2).
    destruct (IH (step_ok_system cfg other s1 s2 H1 Hok) b2 Hb2) as (b3 & Hr3 & Hb3).
    exists b3. split; [|done]. etrans; [|exact Hr3]. destruct Hr as [->|?]; [done|by apply rtc_once]. }
  eapply H; [exact Hs|by apply initial_ok|by apply initial_shows].
Qed.

(** ** What the readers see *)
Lemma rows_balance a (l : list ledger_transaction) : find_account (acc_name a) empty_db = Some a →
  (∀ t, t ∈ l → admissible empty_db t) →
  balance_minor a (l ≫= book_rows) = Zsum (λ t, Zsum (entry_effect a) (lt_entries t)) l.
Proof.
  intros Ha H. unfold balance_minor. fold (row_effect a). induction l as [|t l IH]; [done|].
  assert (Zsum (row_effect a) (book_rows t) = Zsum (entry_effect a) (lt_entries t)) as Et.
  { unfold book_rows. rewrite Zsum_fmap. apply Zsum_ext. intros e He. destruct (H t ltac:(by left)) as (Hall & _).
    rewrite Forall_forall in Hall. apply (entry_row_effect empty_db (lt_id t) a e); [apply empty_db_ok|by apply Hall|done]. }
  change ((t :: l) ≫= book_rows) with (book_rows t ++ (l ≫= book_rows)). rewrite Zsum_app, IH by (intros; apply H; by right).
  by rewrite Et.
Qed.

Lemma shown_balance b s name : book_ok b → shows b s →
  Balances.balance name (db_of s) =
  match find_account name empty_db with Some a => Ok (book_balance a b) | None => Err (KeyError name) end.
Proof.
  intros Hb Hs. rewrite balance_find, (find_account_accounts name (db_of s) empty_db) by apply Hs.
  destruct (find_account name empty_db) as [a|] eqn:Ea; [|done]. destruct (find_account_Some _ _ _ Ea) as [_ <-].
  rewrite (sh_entries b s Hs), rows_balance; [done|done|apply Hb].
Qed.
End refinement.

(** ** Property *)

(** C2: the service refines the book.  Every reachable state is a book
    written out: the ledger tables hold exactly the transactions entered, with
    their entries, and the events heard are those of the accepted deliveries; the
    book is one the specification reaches, so each transaction is built from an
    event heard, balances, and is entered once per movement of money; every
    balance the service reads is the sum over the book; and each further step of
    the service, a request, a task cut short anywhere, a loss or a repetition in
    the broker, is one step of the book or none. *)
Theorem system_refines_book {F R} `{Arith F} `{RedisClient F R} (cfg : app_config F) other (s : system (F := F) (R := R)) :
  reachable cfg other s →
  ∃ b, rtc book_step blank b ∧ book_ok b ∧ shows cfg b s ∧
    (∀ name, Balances.balance name (db_of s) =
      match find_account name empty_db with Some a => Ok (book_balance a b) | None => Err (KeyError name) end) ∧
    (∀ s', step cfg other s s' → ∃ b', moves b b' ∧ shows cfg b' s').
Proof.
  intros Hs. destruct (reachable_shows cfg other s Hs) as (b & Hb & Hsh). pose proof (book_reachable_ok b Hb) as Hok.
  exists b. split_and!; [done..| |].
  - intros name. by apply (shown_balance cfg b s).
  - intros s'. by apply step_simulates; [eapply reachable_ok|].
Qed.

Lemma system_refines_book_witness :
  ∃ b t, rtc book_step blank b ∧ posted b = [t] ∧ mapped (sample_event "evt_1" "ch_1") t ∧
    (a ← find_account "revenue" empty_db; Some (book_balance a b)) = Some 10000.
Proof.
  destruct (system_refines_book sample_config no_route sample_processed sample_processed_reachable) as (b & H1 & H2 & H3 & H4 & _).
  assert (length (transactions (db_of sample_processed)) = 1%nat) as Hl by (vm_compute; reflexivity).
  rewrite (sh_transactions sample_config b _ H3), length_fmap in Hl.
  destruct (posted b) as [|t [|? ?]] eqn:Ep; try done. exists b, t. split; [exact H1|]. split; [exact Ep|]. split.
  - destruct (bo_heard b H2 t) as (event & e & Hin & He & Hb); [rewrite Ep; by left|].
    rewrite (sh_heard sample_config b _ H3) in Hin.
    assert (omap (event_of sample_config) (deliveries sample_processed) = [sample_event "evt_1" "ch_1"]) as E by (vm_compute; reflexivity).
    rewrite E in Hin. apply list_elem_of_singleton in Hin as ->.
    assert (strip_trace_context (sample_event "evt_1" "ch_1") = Ok (sample_event "evt_1" "ch_1")) as E2 by (vm_compute; reflexivity).
    rewrite E2 in He. by injection He as <-.
  - assert (Balances.balance "revenue" (db_of sample_processed) = Ok 10000) as E by (vm_compute; reflexivity).
    rewrite H4 in E. destruct (find_account "revenue" empty_db) as [a|]; [|done]. cbn in *. by injection E as ->.
Defined.
