(* ===== verification/Recon.v ===== *)
(** src/ledgerproof/recon/breaks.py and recon/reconciler.py: diffing the ledger
    against the events known to be delivered and against Stripe's balance
    transactions.  A reconciliation reads one snapshot, the database it is given;
    it returns no database. *)
From S2P Require Import Prelude PyVal Ledger Post Balances Handlers.

(** ** breaks.py *)
Inductive BreakKind :=
  | MISSING_IN_LEDGER | MISSING_IN_SOURCE | AMOUNT_MISMATCH | FEE_MISMATCH | INVARIANT_VIOLATION.
#[export] Instance BreakKind_eq_dec : EqDecision BreakKind.
Proof. solve_decision. Defined.

Definition kind_value (k : BreakKind) : string :=
  match k with
  | MISSING_IN_LEDGER => "missing_in_ledger" | MISSING_IN_SOURCE => "missing_in_source"
  | AMOUNT_MISMATCH => "amount_mismatch" | FEE_MISMATCH => "fee_mismatch"
  | INVARIANT_VIOLATION => "invariant_violation"
  end.

(** An optional string or integer as a JSON value. *)
Definition opt_str (o : option string) : pyval := match o with Some s => PStr s | None => PNone end.
Definition opt_int (o : option Z) : pyval := match o with Some z => PInt z | None => PNone end.

Record Break := MkBreak {
  b_kind : BreakKind; b_object_id : pyval; b_event_id : option string;
  b_expected_minor : option Z; b_actual_minor : option Z; b_detail : string }.

Definition break_as_dict (b : Break) : pyval :=
  PDict [("kind", PStr (kind_value (b_kind b))); ("object_id", b_object_id b);
         ("event_id", opt_str (b_event_id b)); ("expected_minor", opt_int (b_expected_minor b));
         ("actual_minor", opt_int (b_actual_minor b)); ("detail", PStr (b_detail b))].

Record ReconResult := MkReconResult { breaks : list Break; checked : Z; recon_invariant_ok : bool }.

Definition recon_ok (r : ReconResult) : bool :=
  (bool_decide (breaks r = []) && recon_invariant_ok r)%bool.
Definition recon_as_dict (r : ReconResult) : pyval :=
  PDict [("ok", PBool (recon_ok r)); ("checked", PInt (checked r));
         ("invariant_ok", PBool (recon_invariant_ok r)); ("breaks", PList (break_as_dict <$> breaks r))].

(** ** Loading the ledger *)
Definition _FEE_ACCOUNT : string := "processing_fees".
Definition _STRIPE_BALANCE_ACCOUNT : string := "stripe_balance".

Record _LedgerTxn := MkLedgerTxn {
  txn_id : string; event_id : option string; object_id : option string;
  l_event_type : option string; delta : gmap string Z; debit_total : Z }.

(** One entry of the join: account name, signed effect, debit. *)
Definition joined_rows (currency : option string) (d : database) (t : txn_row) : list (string * Z * Z) :=
  e ← filter (λ e, e_txn e = t_id t) (entries d);
  a ← filter (λ a, acc_id a = e_account e ∧ default (acc_currency a) currency = acc_currency a) (accounts d);
  [(acc_name a, if bool_decide (e_dir e = acc_normal a) then e_amount e else - e_amount e,
    if bool_decide (e_dir e = Debit) then e_amount e else 0)].

(** ORDER BY t.occurred_at, t.id (a uuid, ordered as its text) *)
Definition txn_le (t u : txn_row) : Prop :=
  t_occurred_at t < t_occurred_at u ∨ (t_occurred_at t = t_occurred_at u ∧ string_le (t_id t) (t_id u)).
#[export] Instance txn_le_dec : RelDecision txn_le.
Proof. intros t u. unfold txn_le. apply _. Defined.

(** The GROUP BY: one row per transaction and account name. *)
Definition grouped_rows (currency : option string) (since : option Z) (d : database)
    : list (txn_row * string * Z * Z) :=
  t ← merge_sort txn_le (filter (λ t, default (t_occurred_at t) since <= t_occurred_at t) (transactions d));
  let rows := joined_rows currency d t in
  name ← sort_strings (remove_dups (rows.*1.*1));
  [(t, name, Zsum (λ r, if bool_decide (r.1.1 = name) then r.1.2 else 0) rows,
             Zsum (λ r, if bool_decide (r.1.1 = name) then r.2 else 0) rows)].

(** One turn of the loop over the rows: [setdefault], then the two updates. *)
Definition load_row (grouped : list (string * _LedgerTxn)) (row : txn_row * string * Z * Z)
    : list (string * _LedgerTxn) :=
  let '(t, account, net, debit) := row in
  let txn := default (MkLedgerTxn (t_id t) (t_event t) (t_object t) (t_type t) ∅ 0) (dict_get (t_id t) grouped) in
  dict_set (t_id t)
    (MkLedgerTxn (txn_id txn) (event_id txn) (object_id txn) (l_event_type txn)
       (if negb (net =? 0) then <[account := net]> (delta txn) else delta txn) (debit_total txn + debit))
    grouped.

Definition _load_ledger (currency : option string) (since : option Z) (d : database) : list _LedgerTxn :=
  (foldl load_row [] (grouped_rows currency since d)).*2.

(** ** Rendering *)
Definition _magnitude (m : gmap string Z) : Z := Zsum (λ kv, Z.abs kv.2) (map_to_list m) / 2.
Definition _fmt (m : gmap string Z) : string :=
  "{" +:+ join ", " ((λ kv, kv.1 +:+ "=" +:+ signed_str kv.2) <$> sort_items (map_to_list m)) +:+ "}".

(** [f"{o}"] for an optional string. *)
Definition show_opt (o : option string) : string := default "None" o.

Definition _invariant_breaks (inv : InvariantResult) : list Break :=
  (λ c, MkBreak INVARIANT_VIOLATION PNone None (Some (sum_credit_normal c)) (Some (sum_debit_normal c))
     (cc_currency c +:+ ": debit-normal " +:+ str_of_Z (sum_debit_normal c) +:+ " != credit-normal " +:+
      str_of_Z (sum_credit_normal c) +:+ " (difference " +:+ str_of_Z (difference c) +:+ ")")) <$>
  filter (λ c, negb (cc_ok c)) inv.

(** ** Against the delivered events *)
Record ExpectedEvent := MkExpectedEvent { x_event_id : string; expected_delta : gmap string Z }.

Definition nonzero (m : gmap string Z) : gmap string Z := filter (λ kv, kv.2 ≠ 0) m.

Definition missing_in_ledger (id : string) (m : gmap string Z) : Break :=
  MkBreak MISSING_IN_LEDGER PNone (Some id) (Some (_magnitude m)) None
    ("expected event " +:+ id +:+ " produced no ledger transaction; expected delta " +:+ _fmt m).

Definition amount_mismatches (id : string) (want_delta : gmap string Z) (txn : _LedgerTxn) : list Break :=
  account ← sort_strings (elements (dom want_delta ∪ dom (delta txn)));
  let want := default 0 (want_delta !! account) in
  let got := default 0 (delta txn !! account) in
  if negb (want =? got)
  then [MkBreak AMOUNT_MISMATCH (opt_str (object_id txn)) (Some id) (Some want) (Some got)
          ("event " +:+ id +:+ ": account " +:+ account +:+ " moved " +:+ signed_str got +:+
           " minor units, expected " +:+ signed_str want)]
  else [].

Definition missing_in_source (txn : _LedgerTxn) : Break :=
  MkBreak MISSING_IN_SOURCE (opt_str (object_id txn)) (event_id txn) None (Some (debit_total txn))
    ("ledger transaction " +:+ txn_id txn +:+ " (event " +:+ show_opt (event_id txn) +:+ ", object " +:+
     show_opt (object_id txn) +:+ ", type " +:+ show_opt (l_event_type txn) +:+
     ") has no matching delivered event; ledger delta " +:+ _fmt (delta txn)).

(** [by_event]: a later transaction replaces an earlier one. *)
Definition by_event (ledger : list _LedgerTxn) : gmap string _LedgerTxn :=
  foldl (λ m t, match event_id t with Some id => <[id := t]> m | None => m end) ∅ ledger.

(** What the loop carries: breaks, the ids seen, and the number checked. *)
Definition expected_step (index : gmap string _LedgerTxn) (acc : list Break * list string * Z)
    (item : ExpectedEvent) : list Break * list string * Z :=
  let '(bs, seen, n) := acc in
  let id := x_event_id item in
  if bool_decide (id ∈ seen) then acc
  else
    let want := nonzero (expected_delta item) in
    match index !! id with
    | None => if bool_decide (want = ∅) then (bs, id :: seen, n)
              else (bs ++ [missing_in_ledger id want], id :: seen, n + 1)
    | Some txn => (bs ++ amount_mismatches id want txn, id :: seen, n + 1)
    end.

Definition was_seen (seen : list string) (txn : _LedgerTxn) : bool :=
  match event_id txn with Some id => bool_decide (id ∈ seen) | None => false end.

Definition reconcile_expected (expected : list ExpectedEvent) (currency : string) (d : database) : ReconResult :=
  let ledger := _load_ledger (Some currency) None d in
  let inv := Balances.check d in
  let '(bs, seen, n) := foldl (expected_step (by_event ledger)) ([], [], 0) expected in
  let unknown := filter (λ t, negb (was_seen seen t)) ledger in
  MkReconResult (bs ++ (missing_in_source <$> unknown) ++ _invariant_breaks inv) n (invariant_ok inv).

(** ** Stripe's balance transactions *)

(** What [yield from] takes out of a truthy value. *)
Definition iterate (v : pyval) : result (list pyval) :=
  match v with
  | PList l => Ok l
  | PStr s => Ok ((λ c, PStr (of_chars [c])) <$> chars s)
  | PDict m => Ok ((λ kv, PStr kv.1) <$> m)
  | _ => Err TypeError
  end.

(** How the generator ends. *)
Inductive gen_end := Finished | Raised (e : exn) | OutOfFuel.

Definition page_params (limit : Z) (created_gte : option Z) (cursor : option string) : list (string * pyval) :=
  [("limit", PInt limit)] ++
  match created_gte with Some t => [("created", PDict [("gte", PInt t)])] | None => [] end ++
  match cursor with Some c => [("starting_after", PStr c)] | None => [] end.

(** The loop, one unit of fuel per request. *)
Fixpoint iter_loop (fuel : nat) (client : egress) (limit : Z) (created_gte : option Z)
    (cursor : option string) (seen : list string) : list pyval * gen_end :=
  match fuel with
  | O => ([], OutOfFuel)
  | S fuel =>
      match (page ← get client "/v1/balance_transactions" (page_params limit created_gte cursor);
             data ← py_get page "data"; more ← py_get page "has_more";
             items ← (if truthy data then iterate data else Ok []); mret (items, more)) with
      | Err e => ([], Raised e)
      | Ok (items, more) =>
          if (negb (truthy more) || bool_decide (items = []))%bool then (items, Finished)
          else
            match py_get (default PNone (last items)) "id" with
            | Err e => (items, Raised e)
            | Ok (PStr c) =>
                if bool_decide (c ∈ seen) then (items, Finished)
                else let '(rest, e) := iter_loop fuel client limit created_gte (Some c) (c :: seen) in
                     (items ++ rest, e)
            | Ok _ => (items, Finished)
            end
      end
  end.

Definition _iter_balance_transactions (fuel : nat) (client : egress) (limit : Z) (created_gte : option Z)
    : list pyval * gen_end :=
  iter_loop fuel client limit created_gte None [].

Definition _source_id (bt : pyval) : result (option string) :=
  source ← py_get bt "source";
  source ← (if is_dict source then py_get source "id" else Ok source);
  mret (as_str source).

(** [f"{v}"] for a scalar; a container is outside the model. *)
Definition show (v : pyval) : result string :=
  match v with
  | PNone => Ok "None"
  | PBool b => Ok (if b then "True" else "False")
  | PInt z => Ok (str_of_Z z)
  | PFloat r => Ok r
  | PStr s => Ok s
  | PList _ | PDict _ => Err (IllTyped "container in a message")
  end.

Definition by_object (ledger : list _LedgerTxn) : list (string * list _LedgerTxn) :=
  foldl (λ m t, match object_id t with
                | Some o => dict_set o (default [] (dict_get o m) ++ [t]) m
                | None => m end) [] ledger.

Definition ledger_fee (t : _LedgerTxn) : Z := default 0 (delta t !! _FEE_ACCOUNT).
Definition ledger_amount (t : _LedgerTxn) : Z := default 0 (delta t !! _STRIPE_BALANCE_ACCOUNT) + ledger_fee t.

(** The transaction a balance transaction is compared with. *)
Definition choose (candidates : list _LedgerTxn) (matched : list string) : option _LedgerTxn :=
  match filter (λ c, txn_id c ∉ matched) candidates with
  | c :: _ => Some c
  | [] => head candidates
  end.

Definition stripe_step (index : list (string * list _LedgerTxn)) (acc : list Break * list string * Z)
    (bt : pyval) : result (list Break * list string * Z) :=
  let '(bs, matched, n) := acc in
  bt_id ← py_get bt "id"; source_id ← _source_id bt;
  amount ← py_get_default bt "amount" (PInt 0); amount ← py_int amount;
  fee ← py_get_default bt "fee" (PInt 0); fee ← py_int fee;
  let candidates := match source_id with Some s => default [] (dict_get s index) | None => [] end in
  match choose candidates matched with
  | None =>
      ty ← py_get bt "type"; id_text ← show bt_id; ty_text ← show ty;
      mret (bs ++ [MkBreak MISSING_IN_LEDGER (match source_id with Some s => PStr s | None => bt_id end) None
                     (Some amount) None
                     ("balance transaction " +:+ id_text +:+ " (type " +:+ ty_text +:+ ", source " +:+
                      show_opt source_id +:+ ") has no ledger transaction")], matched, n + 1)
  | Some txn =>
      id_text ← (if (ledger_amount txn =? amount) && (ledger_fee txn =? fee) then Ok "" else show bt_id)%bool;
      mret (bs ++
        (if negb (ledger_amount txn =? amount)
         then [MkBreak AMOUNT_MISMATCH (opt_str source_id) (event_id txn) (Some amount) (Some (ledger_amount txn))
                 ("balance transaction " +:+ id_text +:+ ": Stripe amount " +:+ signed_str amount +:+ ", ledger " +:+
                  signed_str (ledger_amount txn) +:+ " (delta " +:+ _fmt (delta txn) +:+ ")")] else []) ++
        (if negb (ledger_fee txn =? fee)
         then [MkBreak FEE_MISMATCH (opt_str source_id) (event_id txn) (Some fee) (Some (ledger_fee txn))
                 ("balance transaction " +:+ id_text +:+ ": Stripe fee " +:+ str_of_Z fee +:+ ", ledger " +:+
                  str_of_Z (ledger_fee txn))] else []),
        txn_id txn :: matched, n + 1)
  end.

Fixpoint stripe_fold (index : list (string * list _LedgerTxn)) (acc : list Break * list string * Z)
    (bts : list pyval) : result (list Break * list string * Z) :=
  match bts with
  | [] => Ok acc
  | bt :: bts => acc ← stripe_step index acc bt; stripe_fold index acc bts
  end.

Definition unmatched_object (txn : _LedgerTxn) : Break :=
  MkBreak MISSING_IN_SOURCE (opt_str (object_id txn)) (event_id txn) None (Some (debit_total txn))
    ("ledger transaction " +:+ txn_id txn +:+ " (object " +:+ show_opt (object_id txn) +:+ ", type " +:+
     show_opt (l_event_type txn) +:+ ") has no Stripe balance transaction in this window").

(** [None] when [fuel] requests did not end the pagination. *)
Definition reconcile_stripe (fuel : nat) (client : egress) (limit : Z) (created_gte : option Z) (d : database)
    : option (result ReconResult) :=
  let ledger := _load_ledger None created_gte d in
  let inv := Balances.check d in
  let '(bts, e) := _iter_balance_transactions fuel client limit created_gte in
  match stripe_fold (by_object ledger) ([], [], 0) bts, e with
  | Err x, _ => Some (Err x)
  | Ok _, Raised x => Some (Err x)
  | Ok _, OutOfFuel => None
  | Ok (bs, matched, n), Finished =>
      let unmatched := filter (λ t, is_Some (object_id t) ∧ txn_id t ∉ matched) ledger in
      Some (Ok (MkReconResult (bs ++ (unmatched_object <$> unmatched) ++ _invariant_breaks inv) n (invariant_ok inv)))
  end.

(** ** What the load computes *)

(** The signed effect of a transaction on the accounts of a name. *)
Definition net_effect (currency : option string) (d : database) (t : txn_row) (name : string) : Z :=
  Zsum (λ r, if bool_decide (r.1.1 = name) then r.1.2 else 0) (joined_rows currency d t).

(** A transaction of the window with an entry in the currency. *)
Definition visible (currency : option string) (since : option Z) (d : database) (t : txn_row) : Prop :=
  t ∈ transactions d ∧ default (t_occurred_at t) since <= t_occurred_at t ∧ joined_rows currency d t ≠ [].

Lemma dict_get_app_new {V} k (v : V) g : k ∉ g.*1 → dict_get k (g ++ [(k, v)]) = Some v.
Proof.
  induction g as [|[k' v'] g IH]; cbn; intros H; [by rewrite decide_True|].
  rewrite decide_False by set_solver. apply IH. set_solver.
Qed.
Lemma dict_set_app_new {V} k (v w : V) g : k ∉ g.*1 → dict_set k w (g ++ [(k, v)]) = g ++ [(k, w)].
Proof.
  induction g as [|[k' v'] g IH]; cbn; intros H; [by rewrite decide_True|].
  rewrite decide_False by set_solver. rewrite IH; [done|set_solver].
Qed.

(** The loop over the rows of one transaction. *)
Definition txn_update (txn : _LedgerTxn) (row : txn_row * string * Z * Z) : _LedgerTxn :=
  let '(_, account, net, debit) := row in
  MkLedgerTxn (txn_id txn) (event_id txn) (object_id txn) (l_event_type txn)
    (if negb (net =? 0) then <[account := net]> (delta txn) else delta txn) (debit_total txn + debit).
Definition txn_start (t : txn_row) : _LedgerTxn := MkLedgerTxn (t_id t) (t_event t) (t_object t) (t_type t) ∅ 0.

Lemma load_rows_same t rows : ∀ g x, t_id t ∉ g.*1 → (∀ r, r ∈ rows → r.1.1.1 = t) →
  foldl load_row (g ++ [(t_id t, x)]) rows = g ++ [(t_id t, foldl txn_update x rows)].
Proof.
  induction rows as [|[[[t' a] net] deb] rows IH]; intros g x Hg Hrows; [done|]. cbn [foldl].
  assert (t' = t) as -> by (apply (Hrows (t', a, net, deb)); left).
  cbn [load_row]. rewrite dict_get_app_new by done. cbn [default]. rewrite dict_set_app_new by done.
  change (MkLedgerTxn _ _ _ _ _ _) with (txn_update x (t, a, net, deb)). apply IH; [done|].
  intros r Hr. apply Hrows. by right.
Qed.

Lemma load_rows_txn t rows g : t_id t ∉ g.*1 → (∀ r, r ∈ rows → r.1.1.1 = t) → rows ≠ [] →
  foldl load_row g rows = g ++ [(t_id t, foldl txn_update (txn_start t) rows)].
Proof.
  destruct rows as [|[[[t' a] net] deb] rows]; [done|]. intros Hg Hrows _. cbn [foldl].
  assert (t' = t) as -> by (apply (Hrows (t', a, net, deb)); left).
  cbn [load_row]. pose proof (proj2 (dict_get_None (t_id t) g) Hg) as ->. cbn [default].
  rewrite dict_set_new by done. change (MkLedgerTxn _ _ _ _ _ _) with (txn_update (txn_start t) (t, a, net, deb)).
  apply load_rows_same; [done|]. intros r Hr. apply Hrows. by right.
Qed.

Definition rows_of (currency : option string) (d : database) (t : txn_row) : list (txn_row * string * Z * Z) :=
  (λ name, (t, name, net_effect currency d t name,
     Zsum (λ r, if bool_decide (r.1.1 = name) then r.2 else 0) (joined_rows currency d t))) <$>
  sort_strings (remove_dups ((joined_rows currency d t).*1.*1)).
Definition reduced (currency : option string) (d : database) (t : txn_row) : _LedgerTxn :=
  foldl txn_update (txn_start t) (rows_of currency d t).

Lemma load_txns currency d ts : ∀ g, NoDup (t_id <$> ts) → (∀ t, t ∈ ts → t_id t ∉ g.*1) →
  foldl load_row g (ts ≫= rows_of currency d) =
  g ++ ((λ t, (t_id t, reduced currency d t)) <$> filter (λ t, rows_of currency d t ≠ []) ts).
Proof.
  induction ts as [|t ts IH]; intros g Hnd Hg; [by rewrite app_nil_r|].
  cbn in Hnd. apply NoDup_cons in Hnd as [Hnin Hnd]. rewrite bind_cons, foldl_app, filter_cons.
  case_decide as Hr; cbn.
  - rewrite (load_rows_txn t (rows_of currency d t) g).
    + rewrite IH; [by rewrite <- app_assoc|done|]. intros t' Ht'. rewrite fmap_app. cbn.
      intros [Hin|E%list_elem_of_singleton]%elem_of_app; [by eapply Hg; [right|]|].
      apply Hnin. rewrite <- E. by apply list_elem_of_fmap_2.
    + apply Hg. left.
    + intros r (name & -> & _)%list_elem_of_fmap. done.
    + done.
  - rewrite Hr. cbn. apply IH; [done|]. intros t' Ht'. apply Hg. by right.
Qed.

Lemma rows_of_nil currency d t : rows_of currency d t = [] ↔ joined_rows currency d t = [].
Proof.
  unfold rows_of. split; [|by intros ->]. intros H%fmap_nil_inv.
  destruct (joined_rows currency d t) as [|[[n s] b] l]; [done|]. exfalso. apply (not_elem_of_nil n).
  rewrite <- H. apply sort_strings_elem, elem_of_remove_dups. left.
Qed.

Definition in_window (since : option Z) (d : database) : list txn_row :=
  merge_sort txn_le (filter (λ t, default (t_occurred_at t) since <= t_occurred_at t) (transactions d)).

Lemma in_window_perm since d :
  in_window since d ≡ₚ filter (λ t, default (t_occurred_at t) since <= t_occurred_at t) (transactions d).
Proof. apply merge_sort_Permutation. Qed.

Lemma grouped_rows_eq currency since d : grouped_rows currency since d = in_window since d ≫= rows_of currency d.
Proof.
  unfold grouped_rows. fold (in_window since d). induction (in_window since d) as [|t l IH]; [done|].
  by rewrite !bind_cons, IH.
Qed.

Lemma load_ledger_eq currency since d : rows_ok d →
  _load_ledger currency since d =
  reduced currency d <$> filter (λ t, rows_of currency d t ≠ []) (in_window since d).
Proof.
  intros Hok. unfold _load_ledger. rewrite grouped_rows_eq, load_txns.
  - cbn. by rewrite <- list_fmap_compose.
  - rewrite in_window_perm. eapply sublist_NoDup; [apply (ok_txn_ids d Hok)|].
    apply fmap_sublist, sublist_filter.
  - intros t _. cbn. by intros ?%elem_of_nil.
Qed.

Lemma load_ledger_elem currency since d x : rows_ok d →
  x ∈ _load_ledger currency since d ↔ ∃ t, visible currency since d t ∧ x = reduced currency d t.
Proof.
  intros Hok. rewrite load_ledger_eq by done. rewrite list_elem_of_fmap. unfold visible.
  setoid_rewrite list_elem_of_filter. setoid_rewrite in_window_perm. setoid_rewrite list_elem_of_filter.
  split; intros (t & H1 & H2); exists t; (rewrite rows_of_nil in * || rewrite <- rows_of_nil in *); tauto.
Qed.

Lemma omap_sublist {A B} (f : A → option B) (l k : list A) : l `sublist_of` k → omap f l `sublist_of` omap f k.
Proof.
  induction 1 as [|x l k _ IH|x l k _ IH]; [done| |]; cbn; destruct (f x); by constructor || done.
Qed.

Lemma load_ledger_NoDup {K} (key : txn_row → option K) (key' : _LedgerTxn → option K) currency since d : rows_ok d →
  (∀ t, key' (reduced currency d t) = key t) → NoDup (omap key (transactions d)) →
  NoDup (omap key' (_load_ledger currency since d)).
Proof.
  intros Hok Hkey Hnd. rewrite load_ledger_eq by done.
  assert (∀ l, omap key' (reduced currency d <$> l) = omap key l) as ->.
  { induction l as [|t l IH]; [done|]. cbn. by rewrite Hkey, IH. }
  eapply sublist_NoDup; [|apply omap_sublist, sublist_filter].
  rewrite in_window_perm. eapply sublist_NoDup; [done|apply omap_sublist, sublist_filter].
Qed.

(** The fields of a reduced transaction. *)
Lemma update_fields rows : ∀ x, let y := foldl txn_update x rows in
  txn_id y = txn_id x ∧ event_id y = event_id x ∧ object_id y = object_id x.
Proof.
  induction rows as [|[[[t a] net] deb] rows IH]; intros x; [done|]. cbn [foldl].
  specialize (IH (txn_update x (t, a, net, deb))). exact IH.
Qed.
Lemma reduced_id currency d t : txn_id (reduced currency d t) = t_id t.
Proof. apply (update_fields (rows_of currency d t) (txn_start t)). Qed.
Lemma reduced_event currency d t : event_id (reduced currency d t) = t_event t.
Proof. apply (update_fields (rows_of currency d t) (txn_start t)). Qed.
Lemma reduced_object currency d t : object_id (reduced currency d t) = t_object t.
Proof. apply (update_fields (rows_of currency d t) (txn_start t)). Qed.

Lemma update_delta rows : ∀ x a, NoDup ((λ r, r.1.1.2) <$> rows) →
  (a ∉ (λ r, r.1.1.2) <$> rows → default 0 (delta (foldl txn_update x rows) !! a) = default 0 (delta x !! a)) ∧
  (∀ t net deb, (t, a, net, deb) ∈ rows → delta x !! a = None →
     default 0 (delta (foldl txn_update x rows) !! a) = net).
Proof.
  induction rows as [|[[[t' a'] net'] deb'] rows IH]; intros x a Hnd; [split; [done|by intros ??? ?%elem_of_nil]|].
  cbn [foldl]. rewrite fmap_cons in *. cbn [fst snd] in *. apply NoDup_cons in Hnd as [Hnin Hnd].
  destruct (IH (txn_update x (t', a', net', deb')) a Hnd) as [IH1 IH2]. cbn [txn_update delta] in *. split.
  - intros [Hne Hr]%not_elem_of_cons. rewrite IH1 by done. case_match; [by rewrite lookup_insert_ne|done].
  - intros t net deb [Heq|Hin]%elem_of_cons Hx.
    + injection Heq as <- <- <- <-. rewrite IH1 by done. destruct (net =? 0) eqn:E; cbn [negb].
      * rewrite Hx. apply Z.eqb_eq in E. by rewrite E.
      * by rewrite lookup_insert_eq.
    + eapply IH2; [exact Hin|]. assert (a ≠ a') as Hne.
      { intros ->. apply Hnin. by apply (list_elem_of_fmap_2 (λ r, r.1.1.2) _ _ Hin). }
      case_match; [by rewrite lookup_insert_ne|done].
Qed.

Lemma rows_of_names currency d t :
  (λ r, r.1.1.2) <$> rows_of currency d t = sort_strings (remove_dups ((joined_rows currency d t).*1.*1)).
Proof. unfold rows_of. rewrite <- list_fmap_compose. by rewrite list_fmap_id. Qed.

Lemma reduced_delta currency d t a : default 0 (delta (reduced currency d t) !! a) = net_effect currency d t a.
Proof.
  assert (NoDup ((λ r, r.1.1.2) <$> rows_of currency d t)) as Hnd.
  { rewrite rows_of_names. unfold sort_strings. rewrite merge_sort_Permutation. apply NoDup_remove_dups. }
  destruct (update_delta (rows_of currency d t) (txn_start t) a Hnd) as [H1 H2].
  destruct (decide (a ∈ (joined_rows currency d t).*1.*1)) as [Hin|Hnin].
  - eapply (H2 t (net_effect currency d t a)); [|done]. unfold rows_of.
    apply list_elem_of_fmap. exists a. split; [done|]. by apply sort_strings_elem, elem_of_remove_dups.
  - unfold reduced. rewrite H1.
    + cbn. symmetry. apply Zsum_zero. intros r Hr. case_bool_decide as E; [|done]. destruct Hnin. rewrite <- E.
      apply list_elem_of_fmap_2. by apply list_elem_of_fmap_2.
    + rewrite rows_of_names, sort_strings_elem, elem_of_remove_dups. exact Hnin.
Qed.

(** ** The loop over the expected events *)

(** The first expectation of each id not in [seen]. *)
Fixpoint first_of (seen : list string) (l : list ExpectedEvent) : list ExpectedEvent :=
  match l with
  | [] => []
  | x :: l => if bool_decide (x_event_id x ∈ seen) then first_of seen l else x :: first_of (x_event_id x :: seen) l
  end.

Definition item_breaks (index : gmap string _LedgerTxn) (item : ExpectedEvent) : list Break :=
  let want := nonzero (expected_delta item) in
  match index !! x_event_id item with
  | None => if bool_decide (want = ∅) then [] else [missing_in_ledger (x_event_id item) want]
  | Some txn => amount_mismatches (x_event_id item) want txn
  end.

Lemma expected_loop index l : ∀ bs seen n, ∃ seen' n',
  foldl (expected_step index) (bs, seen, n) l = (bs ++ (first_of seen l ≫= item_breaks index), seen', n') ∧
  (∀ id, id ∈ seen' ↔ id ∈ seen ∨ id ∈ x_event_id <$> l).
Proof.
  induction l as [|x l IH]; intros bs seen n.
  { exists seen, n. split; [by rewrite app_nil_r|]. cbn. set_solver. }
  cbn [foldl expected_step first_of]. case_bool_decide as Hin.
  { destruct (IH bs seen n) as (seen' & n' & -> & Hs). exists seen', n'. split; [done|].
    intros id. rewrite Hs. cbn. set_solver. }
  rewrite bind_cons, app_assoc. unfold item_breaks at 1.
  assert (∀ bs' n, ∃ seen' n', foldl (expected_step index) (bs', x_event_id x :: seen, n) l =
      (bs' ++ (first_of (x_event_id x :: seen) l ≫= item_breaks index), seen', n') ∧
      (∀ id, id ∈ seen' ↔ id ∈ seen ∨ id ∈ x_event_id <$> x :: l)) as Hgo.
  { intros bs' n1. destruct (IH bs' (x_event_id x :: seen) n1) as (seen' & n' & -> & Hs).
    exists seen', n'. split; [done|]. intros id. rewrite Hs. cbn. set_solver. }
  destruct (index !! x_event_id x); [|case_bool_decide; rewrite ?app_nil_r]; apply Hgo.
Qed.

Definition expects (expected : list ExpectedEvent) (id : string) (m : gmap string Z) : Prop :=
  ∃ x, head (filter (λ x, x_event_id x = id) expected) = Some x ∧ expected_delta x = m.

Lemma first_of_elem l : ∀ seen x, x ∈ first_of seen l ↔
  x_event_id x ∉ seen ∧ head (filter (λ y, x_event_id y = x_event_id x) l) = Some x.
Proof.
  induction l as [|y l IH]; intros seen x; cbn [first_of].
  { split; [by intros ?%elem_of_nil|]. intros [_ H]. cbn in H. discriminate H. }
  rewrite filter_cons. destruct (decide (x_event_id y = x_event_id x)) as [E|E].
  - rewrite E. case_bool_decide as Hin; [rewrite IH; tauto|]. rewrite elem_of_cons, IH. cbn. split.
    + intros [-> |[Hc _]]; [done|]. destruct Hc. left.
    + intros [_ [= ->]]. by left.
  - case_bool_decide as Hin; rewrite ?elem_of_cons, IH; [done|]. rewrite not_elem_of_cons.
    split; [intros [-> |[[_ ?] ?]]; done|]. intros [? ?]. right. done.
Qed.

Lemma nonzero_get m a : default 0 (nonzero m !! a) = default 0 (m !! a).
Proof.
  unfold nonzero. destruct (m !! a) as [v|] eqn:E.
  - destruct (decide (v = 0)) as [-> |Hv].
    + rewrite (map_lookup_filter_None_2 (λ kv : string * Z, kv.2 ≠ 0)); [done|]. right. intros v E'. rewrite E in E'. injection E' as <-. cbn. by intros [].
    + by rewrite (map_lookup_filter_Some_2 (λ kv : string * Z, kv.2 ≠ 0) m a v).
  - rewrite (map_lookup_filter_None_2 (λ kv : string * Z, kv.2 ≠ 0)); [done|by left].
Qed.

Lemma nonzero_empty m : nonzero m = ∅ ↔ ∀ a, default 0 (m !! a) = 0.
Proof.
  split.
  - intros E a. by rewrite <- nonzero_get, E, lookup_empty.
  - intros H. apply map_eq. intros a. rewrite lookup_empty. apply map_lookup_filter_None_2. right.
    intros v E. specialize (H a). rewrite E in H. cbn in *. by intros [].
Qed.

Lemma bind_nil {A B} (f : A → list B) l : l ≫= f = [] ↔ ∀ x, x ∈ l → f x = [].
Proof.
  induction l as [|x l IH]; [split; [by intros _ ? ?%elem_of_nil|done]|]. rewrite bind_cons. split.
  - intros [H1 H2]%app_eq_nil y [-> |Hy]%elem_of_cons; [done|]. by apply IH.
  - intros H. rewrite (H x) by left. apply IH. intros y Hy. apply H. by right.
Qed.

Lemma amount_mismatches_nil id want txn :
  amount_mismatches id want txn = [] ↔ ∀ a, default 0 (delta txn !! a) = default 0 (want !! a).
Proof.
  unfold amount_mismatches. rewrite bind_nil. split.
  - intros H a. destruct (decide (a ∈ dom want ∪ dom (delta txn))) as [Hin|Hnin].
    + specialize (H a). rewrite sort_strings_elem, elem_of_elements in H. specialize (H Hin).
      destruct (_ =? _) eqn:E in H; [|done]. apply Z.eqb_eq in E. by rewrite E.
    + rewrite not_elem_of_union, !not_elem_of_dom in Hnin. by destruct Hnin as [-> ->].
  - intros H a _. by rewrite H, Z.eqb_refl.
Qed.

Lemma by_event_lookup (ledger : list _LedgerTxn) : ∀ (m : gmap string _LedgerTxn) (id : string) (x : _LedgerTxn),
  NoDup (omap event_id ledger) → (∀ i, i ∈ omap event_id ledger → m !! i = None) →
  foldl (λ m t, match event_id t with Some id => <[id := t]> m | None => m end) m ledger !! id = Some x ↔
  m !! id = Some x ∨ (x ∈ ledger ∧ event_id x = Some id).
Proof.
  induction ledger as [|t l IH]; intros m id x Hnd Hm; cbn [foldl]; [set_solver|].
  cbn in Hnd, Hm. destruct (event_id t) as [i|] eqn:Ei.
  - apply NoDup_cons in Hnd as [Hnin Hnd]. rewrite IH; [|done|].
    + destruct (decide (i = id)) as [-> |Hne].
      * rewrite lookup_insert_eq, elem_of_cons. rewrite (Hm id) by left. split.
        -- intros [[= ->]|[? ?]]; right; tauto.
        -- intros [?|[[-> |Hin] E]]; [done|by left|]. destruct Hnin. apply list_elem_of_omap. eauto.
      * rewrite lookup_insert_ne by done. rewrite elem_of_cons. naive_solver congruence.
    + intros j Hj. rewrite lookup_insert_ne; [apply Hm; by right|]. by intros ->.
  - rewrite IH by done. rewrite elem_of_cons. naive_solver congruence.
Qed.

Lemma by_event_visible cur d id x : rows_ok d →
  by_event (_load_ledger cur None d) !! id = Some x ↔
  ∃ t, visible cur None d t ∧ t_event t = Some id ∧ x = reduced cur d t.
Proof.
  intros Hok. unfold by_event. rewrite by_event_lookup.
  - rewrite lookup_empty, load_ledger_elem by done. split.
    + intros [?|[(t & Hv & ->) E]]; [done|]. exists t. by rewrite reduced_event in E.
    + intros (t & Hv & E & ->). right. rewrite reduced_event. eauto.
  - eapply load_ledger_NoDup; [done|apply reduced_event|apply Hok].
  - intros i _. apply lookup_empty.
Qed.

Lemma invariant_breaks_nil inv : invariant_ok inv = true → _invariant_breaks inv = [].
Proof.
  unfold invariant_ok, _invariant_breaks. rewrite forallb_forall_stdpp. intros H.
  assert (filter (λ c, negb (cc_ok c)) inv = []) as ->; [|done].
  destruct (filter _ inv) as [|c l] eqn:E; [done|]. assert (c ∈ c :: l) as Hin by left. rewrite <- E in Hin.
  apply list_elem_of_filter in Hin as [Hn Hin]. by rewrite (H c Hin) in Hn.
Qed.

Lemma check_ok d : ledger_ok d → invariant_ok (Balances.check d) = true.
Proof.
  intros Hok. apply forallb_forall_stdpp. intros c [_ Hc]%check_currency. unfold cc_ok. by rewrite Hc, conservation.
Qed.

(** What agreement with one expectation means. *)
Definition agrees (currency : string) (d : database) (id : string) (m : gmap string Z) : Prop :=
  (∃ t, visible (Some currency) None d t ∧ t_event t = Some id ∧
        ∀ a, net_effect (Some currency) d t a = default 0 (m !! a)) ∨
  ((∀ t, visible (Some currency) None d t → t_event t ≠ Some id) ∧ ∀ a, default 0 (m !! a) = 0).

Lemma item_breaks_nil cur d x : rows_ok d →
  item_breaks (by_event (_load_ledger (Some cur) None d)) x = [] ↔ agrees cur d (x_event_id x) (expected_delta x).
Proof.
  intros Hok. unfold item_breaks, agrees. pose proof (λ y, by_event_visible (Some cur) d (x_event_id x) y Hok) as Hi.
  destruct (by_event _ !! x_event_id x) as [y|].
  - destruct (proj1 (Hi y) eq_refl) as (t & Hv & E & ->). rewrite amount_mismatches_nil.
    setoid_rewrite nonzero_get. setoid_rewrite reduced_delta. split.
    + intros H. left. eauto.
    + intros [(t' & Hv' & E' & H)|[H _]]; [|by destruct (H t Hv)]. intros a. rewrite <- H, <- !reduced_delta.
      assert (Some (reduced (Some cur) d t) = Some (reduced (Some cur) d t')) as [= ->]; [|done].
      apply Hi. eauto.
  - assert (∀ t, visible (Some cur) None d t → t_event t ≠ Some (x_event_id x)) as Hno.
    { intros t Hv E. by discriminate (proj2 (Hi (reduced (Some cur) d t)) (ex_intro _ t (conj Hv (conj E eq_refl)))). }
    case_bool_decide as Hn; rewrite nonzero_empty in Hn.
    + split; [intros _; by right|done].
    + split; [done|]. intros [(t & Hv & E & _)|[_ H]]; [by destruct (Hno t Hv)|by destruct Hn].
Qed.

Lemma reconcile_expected_breaks expected cur d : ledger_ok d →
  let r := reconcile_expected expected cur d in
  recon_invariant_ok r = true ∧
  breaks r = (first_of [] expected ≫= item_breaks (by_event (_load_ledger (Some cur) None d))) ++
    (missing_in_source <$> filter (λ t, negb (was_seen (x_event_id <$> expected) t)) (_load_ledger (Some cur) None d)).
Proof.
  intros Hok. cbv zeta. unfold reconcile_expected.
  destruct (expected_loop (by_event (_load_ledger (Some cur) None d)) expected [] [] 0) as (seen & n & -> & Hs).
  cbn [recon_invariant_ok breaks]. rewrite check_ok, invariant_breaks_nil by (try apply check_ok; done). split; [done|].
  rewrite app_nil_r, app_nil_l. f_equal. f_equal. apply list_filter_iff. intros t. unfold was_seen.
  destruct (event_id t) as [i|]; [|done]. f_equiv. f_equiv. apply bool_decide_ext. rewrite Hs. set_solver.
Qed.

Lemma expects_first expected id m : expects expected id m ↔
  ∃ x, x ∈ first_of [] expected ∧ x_event_id x = id ∧ expected_delta x = m.
Proof.
  unfold expects. setoid_rewrite first_of_elem. split.
  - intros (x & Hx & E). pose proof (head_Some_elem_of _ _ Hx) as Hin. apply list_elem_of_filter in Hin as [<- _].
    exists x. split_and!; try done. set_solver.
  - intros (x & [_ Hx] & <- & E). eauto.
Qed.

(** ** Properties *)

(** C11: on a ledger the database can commit, reconciling against the
    delivered events finds nothing exactly when both sides agree: the first
    expectation of every event id is met by a transaction of that event whose
    effect on each account is the expected one, or expects no movement and has
    no transaction, and every transaction with an entry in the currency belongs
    to an expected event.  The invariant check passes in either case. *)
Theorem reconcile_expected_ok_iff expected cur d : ledger_ok d →
  recon_invariant_ok (reconcile_expected expected cur d) = true ∧
  (recon_ok (reconcile_expected expected cur d) = true ↔
   (∀ id m, expects expected id m → agrees cur d id m) ∧
   (∀ t, visible (Some cur) None d t → ∃ id, t_event t = Some id ∧ id ∈ x_event_id <$> expected)).
Proof.
  intros Hok. destruct (reconcile_expected_breaks expected cur d Hok) as [Hi Hb]. split; [done|].
  unfold recon_ok. rewrite Hi, andb_true_r, bool_decide_eq_true, Hb. split.
  - intros [H1 H2]%app_eq_nil. split.
    + intros id m (x & Hx & <- & <-)%expects_first. rewrite bind_nil in H1. by apply item_breaks_nil; [apply Hok|apply H1].
    + intros t Hv. apply fmap_nil_inv in H2.
      assert (reduced (Some cur) d t ∈ _load_ledger (Some cur) None d) as Hin by (apply load_ledger_elem; [apply Hok|eauto]).
      destruct (was_seen (x_event_id <$> expected) (reduced (Some cur) d t)) eqn:E.
      * unfold was_seen in E. rewrite reduced_event in E. destruct (t_event t) as [i|]; [|done].
        bool_to_prop. eauto.
      * exfalso. apply (not_elem_of_nil (reduced (Some cur) d t)). rewrite <- H2. apply list_elem_of_filter. by rewrite E.
  - intros [H1 H2].
    assert (first_of [] expected ≫= item_breaks (by_event (_load_ledger (Some cur) None d)) = []) as ->.
    { apply bind_nil. intros x Hx. apply item_breaks_nil; [apply Hok|]. apply H1, expects_first. eauto. }
    cbn. destruct (filter _ _) as [|x l] eqn:E; [done|]. assert (x ∈ x :: l) as Hin by left. rewrite <- E in Hin.
    apply list_elem_of_filter in Hin as [Hn Hin]. apply load_ledger_elem in Hin as (t & Hv & ->); [|apply Hok].
    destruct (H2 t Hv) as (i & Ei & Hi'). unfold was_seen in Hn. rewrite reduced_event, Ei, bool_decide_true in Hn by done.
    done.
Qed.

(** A delivered event that should have moved money and has no
    transaction is always reported, with its id and the size of the missing
    transaction, although the global invariant check passes. *)
Theorem dropped_event_reported expected cur d id m : ledger_ok d →
  expects expected id m → (∃ a, default 0 (m !! a) ≠ 0) →
  (∀ t, visible (Some cur) None d t → t_event t ≠ Some id) →
  invariant_ok (Balances.check d) = true ∧
  ∃ b, b ∈ breaks (reconcile_expected expected cur d) ∧ b_kind b = MISSING_IN_LEDGER ∧ b_event_id b = Some id ∧
       b_expected_minor b = Some (_magnitude (nonzero m)) ∧ b_actual_minor b = None.
Proof.
  intros Hok (x & Hx & <- & <-)%expects_first [a Ha] Hno. split; [by apply check_ok|].
  destruct (reconcile_expected_breaks expected cur d Hok) as [_ ->].
  exists (missing_in_ledger (x_event_id x) (nonzero (expected_delta x))). split_and!; [|done..].
  apply elem_of_app. left. apply list_elem_of_bind. exists x. split; [|done]. unfold item_breaks.
  destruct (by_event _ !! _) as [y|] eqn:E.
  { apply by_event_visible in E as (t & Hv & E & _); [|apply Hok]. by destruct (Hno t Hv). }
  case_bool_decide as Hn; [|left]. rewrite nonzero_empty in Hn. by destruct (Ha (Hn a)).
Qed.

Definition sample_delta : gmap string Z :=
  {["stripe_balance" := 9680; "processing_fees" := 320; "revenue" := 10000]}.

Lemma reconcile_expected_ok_iff_witness :
  recon_ok (reconcile_expected [MkExpectedEvent "evt_1" sample_delta] "USD" (posted_db empty_db sample_txn)) = true ∧
  ∃ id, t_event (txn_row_of sample_txn) = Some id ∧ id ∈ ["evt_1"].
Proof.
  pose proof (reconcile_expected_ok_iff [MkExpectedEvent "evt_1" sample_delta] "USD" (posted_db empty_db sample_txn)
    sample_posted_ok) as [_ H].
  assert (recon_ok (reconcile_expected [MkExpectedEvent "evt_1" sample_delta] "USD" (posted_db empty_db sample_txn)) = true)
    as Hr by (vm_compute; reflexivity).
  split; [exact Hr|]. apply (proj2 (proj1 H Hr)). split; [left|]. split; [reflexivity|]. vm_compute. discriminate.
Defined.

Lemma dropped_event_reported_witness :
  ∃ b, b ∈ breaks (reconcile_expected [MkExpectedEvent "evt_1" sample_delta] "USD" empty_db) ∧
       b_kind b = MISSING_IN_LEDGER.
Proof.
  assert (expects [MkExpectedEvent "evt_1" sample_delta] "evt_1" sample_delta) as Hx.
  { exists (MkExpectedEvent "evt_1" sample_delta). split; reflexivity. }
  destruct (dropped_event_reported [MkExpectedEvent "evt_1" sample_delta] "USD" empty_db "evt_1" sample_delta
    empty_db_ok Hx) as (_ & b & H1 & H2 & _).
  - exists "revenue". vm_compute. discriminate.
  - intros t (Hin & _). destruct (proj1 (elem_of_nil t) Hin).
  - exists b. exact (conj H1 H2).
Defined.

(** ** Comparing with balance transactions *)

(** A balance transaction [stripe_step] accepts, with what it reads of it. *)
Record bt_reads (bt : pyval) (source : option string) (amount fee : Z) : Prop := {
  bt_fields : ∃ m, bt = PDict m;
  bt_source : _source_id bt = Ok source;
  bt_amount : (v ← py_get_default bt "amount" (PInt 0); py_int v) = Ok amount;
  bt_fee : (v ← py_get_default bt "fee" (PInt 0); py_int v) = Ok fee;
  bt_shown : ∃ s, (v ← py_get bt "id"; show v) = Ok s;
  bt_type_shown : ∃ s, (v ← py_get bt "type"; show v) = Ok s }.

Lemma by_object_get (ledger : list _LedgerTxn) : ∀ m o,
  default [] (dict_get o (foldl (λ m t, match object_id t with
     | Some o => dict_set o (default [] (dict_get o m) ++ [t]) m | None => m end) m ledger)) =
  default [] (dict_get o m) ++ filter (λ t, object_id t = Some o) ledger.
Proof.
  induction ledger as [|t l IH]; intros m o; cbn [foldl]; [by rewrite app_nil_r|].
  rewrite IH, filter_cons. destruct (object_id t) as [i|] eqn:E.
  - destruct (decide (i = o)) as [-> |Hne].
    + rewrite decide_True, dict_get_set_eq by done. cbn. by rewrite <- app_assoc.
    + rewrite decide_False by congruence. by rewrite dict_get_set_ne by done.
  - by rewrite decide_False.
Qed.

(** The loaded transactions of an object, in order; how many of some balance
    transactions are of it; and the one the next is compared with: each takes the first that is
    left, and the first of all when none is. *)
Definition loaded (ledger : list _LedgerTxn) (o : string) : list _LedgerTxn := filter (λ t, object_id t = Some o) ledger.
Definition sourced (o : string) (bt : pyval) : bool :=
  match _source_id bt with Ok (Some s) => bool_decide (s = o) | _ => false end.
Definition turns (bts : list pyval) (o : string) : nat := length (filter (λ bt, sourced o bt = true) bts).
Definition nth_or_first {A} (n : nat) (l : list A) : option A := match l !! n with Some x => Some x | None => head l end.
Definition mate (ledger : list _LedgerTxn) (before : list pyval) (source : option string) : option _LedgerTxn :=
  match source with Some o => nth_or_first (turns before o) (loaded ledger o) | None => None end.

Lemma filter_drop {A} (Q : A → Prop) `{∀ x, Decision (Q x)} l : ∀ n, (∀ j x, l !! j = Some x → Q x ↔ (n <= j)%nat) → filter Q l = drop n l.
Proof.
  induction l as [|x l IH]; intros n Hl; [by destruct n|]. rewrite filter_cons. pose proof (Hl 0%nat x eq_refl) as H0.
  destruct n as [|n].
  - rewrite decide_True by (apply H0; lia). cbn [drop]. f_equal. rewrite (IH 0%nat); [by rewrite drop_0|].
    intros j y Hy. rewrite (Hl (S j) y Hy). lia.
  - rewrite decide_False by (rewrite H0; lia). cbn [drop]. apply IH. intros j y Hy. rewrite (Hl (S j) y Hy). lia.
Qed.

Lemma turns_app bts bt o : turns (bts ++ [bt]) o = (turns bts o + (if sourced o bt then 1 else 0))%nat.
Proof.
  unfold turns. rewrite filter_app, length_app, filter_cons. destruct (sourced o bt); [by rewrite decide_True|by rewrite decide_False].
Qed.

Section matching.
Context (ledger : list _LedgerTxn) (Hids : NoDup (txn_id <$> ledger)).

(** What is matched after some balance transactions: of each object, as many as there were turns. *)
Definition matched_after (before : list pyval) (matched : list string) : Prop :=
  ∀ o j t, loaded ledger o !! j = Some t → txn_id t ∈ matched ↔ (j < turns before o)%nat.

Lemma loaded_elem o t : t ∈ loaded ledger o ↔ t ∈ ledger ∧ object_id t = Some o.
Proof. unfold loaded. rewrite list_elem_of_filter. tauto. Qed.

Lemma ledger_id_inj t u : t ∈ ledger → u ∈ ledger → txn_id t = txn_id u → t = u.
Proof.
  intros [i Hi]%list_elem_of_lookup [j Hj]%list_elem_of_lookup E.
  assert (i = j) as ->; [|congruence]. eapply NoDup_lookup; [exact Hids|by rewrite list_lookup_fmap, Hi|].
  by rewrite list_lookup_fmap, Hj, E.
Qed.

Lemma loaded_place o i j t : loaded ledger o !! i = Some t → loaded ledger o !! j = Some t → i = j.
Proof.
  apply NoDup_lookup. apply NoDup_filter. by eapply NoDup_fmap_1.
Qed.

Lemma choose_mate before matched source : matched_after before matched →
  choose (match source with Some s => default [] (dict_get s (by_object ledger)) | None => [] end) matched = mate ledger before source.
Proof.
  intros Hm. destruct source as [o|]; [|done]. unfold by_object. rewrite by_object_get. cbn [dict_get default app].
  change (filter (λ t, object_id t = Some o) ledger) with (loaded ledger o). unfold choose, mate, nth_or_first.
  rewrite (filter_drop _ _ (turns before o)) by (intros j t Hj; rewrite (Hm o j t Hj); lia).
  rewrite <- (Nat.add_0_r (turns before o)) at 2. rewrite <- lookup_drop. by destruct (drop _ _).
Qed.

Lemma matched_mate before matched bt source : matched_after before matched → _source_id bt = Ok source →
  matched_after (before ++ [bt]) (match mate ledger before source with Some t => txn_id t :: matched | None => matched end).
Proof.
  intros Hm Hs o j t Hj. rewrite turns_app. assert (sourced o bt = bool_decide (source = Some o)) as ->.
  { unfold sourced. rewrite Hs. destruct source as [s|]; [|done]. apply bool_decide_ext. split; congruence. }
  specialize (Hm o j t Hj) as Hmt. assert (t ∈ ledger ∧ object_id t = Some o) as [Ht Ho] by (by apply loaded_elem, list_elem_of_lookup_2 with j).
  case_bool_decide as Eo; [subst source; cbn [mate]|].
  - destruct (nth_or_first (turns before o) (loaded ledger o)) as [u|] eqn:Eu; unfold nth_or_first in Eu.
    2:{ apply lookup_lt_Some in Hj. destruct (loaded ledger o) as [|x l]; [cbn in Hj; lia|]. by destruct ((x :: l) !! turns before o). }
    rewrite elem_of_cons, Hmt. destruct (loaded ledger o !! turns before o) as [u'|] eqn:Eu'.
    + injection Eu as ->. assert (u ∈ ledger ∧ object_id u = Some o) as [Hu _] by (by apply loaded_elem, list_elem_of_lookup_2 with (turns before o)).
      split; [intros [E|?]; [|lia]|].
      * assert (t = u) as -> by (by apply ledger_id_inj). rewrite (loaded_place o j _ u Hj Eu'). lia.
      * intros Hlt. destruct (decide (j = turns before o)) as [->|]; [left; congruence|right; lia].
    + apply lookup_ge_None in Eu'. apply lookup_lt_Some in Hj as Hlt. split; [intros [_|?]; lia|right; lia].
  - destruct (mate ledger before source) as [u|] eqn:Eu; rewrite ?elem_of_cons, Hmt; [|lia]. split; [|right; lia].
    intros [E|?]; [|lia]. exfalso. apply Eo. destruct source as [s|]; [|done]. cbn [mate] in Eu.
    assert (u ∈ loaded ledger s) as [Hu Hus]%loaded_elem.
    { unfold nth_or_first in Eu. destruct (loaded ledger s !! _) eqn:El; [injection Eu as ->; by eapply list_elem_of_lookup_2|by apply head_Some_elem_of]. }
    assert (t = u) as -> by (by apply ledger_id_inj). congruence.
Qed.
End matching.

(** A balance transaction that is compared with a transaction of the same numbers. *)
Definition bt_agrees (ledger : list _LedgerTxn) (before : list pyval) (bt : pyval) : Prop :=
  ∃ source amount fee txn, bt_reads bt source amount fee ∧ mate ledger before source = Some txn ∧
    ledger_amount txn = amount ∧ ledger_fee txn = fee.

Lemma py_get_default_dict m k dflt : py_get_default (PDict m) k dflt = Ok (default dflt (dict_get k m)).
Proof. cbn. by destruct (dict_get k m). Qed.

Lemma stripe_step_spec ledger before bs matched n bt source amount fee :
  matched_after ledger before matched → bt_reads bt source amount fee →
  ∃ new, stripe_step (by_object ledger) (bs, matched, n) bt =
    Ok (bs ++ new, match mate ledger before source with Some t => txn_id t :: matched | None => matched end, n + 1) ∧
    (new = [] ↔ ∃ txn, mate ledger before source = Some txn ∧ ledger_amount txn = amount ∧ ledger_fee txn = fee).
Proof.
  intros Hm [(m & ->) Hs Ha Hf (s1 & H1) (s2 & H2)]. unfold stripe_step, py_get in *.
  rewrite py_get_default_dict, bind_ok_run in H1. rewrite py_get_default_dict, bind_ok_run in H2.
  rewrite py_get_default_dict, bind_ok_run in Ha. rewrite py_get_default_dict, bind_ok_run in Hf.
  rewrite !py_get_default_dict, bind_ok_run, Hs, !bind_ok_run, Ha, !bind_ok_run, Hf, bind_ok_run.
  rewrite (choose_mate ledger before matched source Hm). destruct (mate ledger before source) as [t|].
  2:{ rewrite ?bind_ok_run, H1, bind_ok_run, H2, bind_ok_run. eexists. split; [done|]. split; [done|]. by intros (? & ? & _). }
  destruct (ledger_amount t =? amount) eqn:Ea, (ledger_fee t =? fee) eqn:Ef; cbn [andb negb];
    rewrite ?H1, bind_ok_run; bool_to_prop; eexists; (split; [done|]); (split; [try done; eauto|]);
    intros (? & [= <-] & ? & ?); done.
Qed.

Lemma stripe_fold_spec ledger bts : NoDup (txn_id <$> ledger) →
  Forall (λ bt, ∃ s a f, bt_reads bt s a f) bts → ∀ before bs matched n, matched_after ledger before matched →
  ∃ new matched', stripe_fold (by_object ledger) (bs, matched, n) bts =
      Ok (bs ++ new, matched', n + Z.of_nat (length bts)) ∧
    (new = [] ↔ ∀ i bt, bts !! i = Some bt → bt_agrees ledger (before ++ take i bts) bt) ∧
    matched_after ledger (before ++ bts) matched'.
Proof.
  intros Hids. induction 1 as [|bt bts (s & a & f & Hbt) _ IH]; intros before bs matched n Hm.
  { exists [], matched. split_and!; [by rewrite app_nil_r, Z.add_0_r|split; [by intros _ ? ?|done]|by rewrite app_nil_r]. }
  destruct (stripe_step_spec ledger before bs matched n bt s a f Hm Hbt) as (new1 & E1 & H1). cbn [stripe_fold].
  rewrite E1, bind_ok_run.
  pose proof (matched_mate ledger Hids before matched bt s Hm (bt_source _ _ _ _ Hbt)) as Hm'.
  destruct (IH (before ++ [bt]) (bs ++ new1) _ (n + 1) Hm') as (new2 & matched' & -> & H2 & H3).
  exists (new1 ++ new2), matched'. rewrite <- app_assoc in H3. split_and!; [rewrite app_assoc; cbn [length]; do 2 f_equal; lia| |done].
  assert (new1 = [] ↔ bt_agrees ledger before bt) as H1'.
  { rewrite H1. unfold bt_agrees. split; [intros (txn & ? & ? & ?); by exists s, a, f, txn|].
    intros (s' & a' & f' & txn & [_ Es' Ea' Ef' _ _] & ? & <- & <-). destruct Hbt as [_ Es Ea Ef _ _]. exists txn.
    assert (s = s') as -> by congruence. split_and!; [done|congruence|congruence]. }
  rewrite app_nil, H1', H2. split.
  - intros [Hb Hl] [|i] bt' Hi; cbn [take lookup list_lookup] in *; [injection Hi as <-; by rewrite app_nil_r|].
    specialize (Hl i bt' Hi). by rewrite <- app_assoc in Hl.
  - intros Hl. split; [specialize (Hl 0%nat bt eq_refl); cbn [take] in Hl; by rewrite app_nil_r in Hl|].
    intros i bt' Hi. specialize (Hl (S i) bt' Hi). cbn [take] in Hl. by rewrite <- app_assoc.
Qed.

Lemma load_ids_unique cur since d t u : rows_ok d → t ∈ _load_ledger cur since d → u ∈ _load_ledger cur since d →
  txn_id t = txn_id u → t = u.
Proof.
  intros Hok Ht Hu. apply load_ledger_elem in Ht as (x & [Hx _] & ->); [|done].
  apply load_ledger_elem in Hu as (y & [Hy _] & ->); [|done]. rewrite !reduced_id. intros E.
  assert (x = y) as ->; [|done]. pose proof (ok_txn_ids d Hok) as Hnd. revert Hnd Hx Hy E.
  induction (transactions d) as [|z l IH]; [by intros _ ?%elem_of_nil|]. cbn.
  intros [Hz Hnd]%NoDup_cons [-> |Hx]%elem_of_cons [-> |Hy]%elem_of_cons E; [done| | |auto].
  - destruct Hz. rewrite E. by apply list_elem_of_fmap_2.
  - destruct Hz. rewrite <- E. by apply list_elem_of_fmap_2.
Qed.

(** The transactions that post an object in the window, by time and id. *)
Definition postings (since : option Z) (d : database) (o : string) : list txn_row :=
  filter (λ t, t_object t = Some o ∧ joined_rows None d t ≠ []) (in_window since d).
(** The posting a balance transaction of the object is compared with, when [before]
    came before it: each takes the next one, and the first when there is none left. *)
Definition compared_with (since : option Z) (d : database) (before : list pyval) (o : string) : option txn_row :=
  nth_or_first (turns before o) (postings since d o).
(** A ledger transaction has the amount and the fee Stripe has. *)
Definition posts_as (d : database) (t : txn_row) (amount fee : Z) : Prop :=
  net_effect None d t _FEE_ACCOUNT = fee ∧ net_effect None d t _STRIPE_BALANCE_ACCOUNT + fee = amount.

Lemma loaded_postings since d o : rows_ok d → loaded (_load_ledger None since d) o = reduced None d <$> postings since d o.
Proof.
  intros Hok. rewrite load_ledger_eq by done. unfold loaded, postings. induction (in_window since d) as [|t l IH]; [done|].
  rewrite !filter_cons. pose proof (rows_of_nil None d t) as Hn. destruct (decide (rows_of None d t ≠ [])) as [Hr|Hr].
  - rewrite fmap_cons, filter_cons, reduced_object. destruct (decide (t_object t = Some o)) as [Ho|Ho].
    + rewrite decide_True by tauto. by rewrite fmap_cons, IH.
    + rewrite decide_False by tauto. exact IH.
  - rewrite (decide_False (P := _ ∧ _)) by tauto. exact IH.
Qed.

Lemma nth_or_first_fmap {A B} (f : A → B) n l : nth_or_first n (f <$> l) = f <$> nth_or_first n l.
Proof. unfold nth_or_first. rewrite list_lookup_fmap. destruct (l !! n); [done|]. by destruct l. Qed.

Lemma bt_agrees_posts since d before bt s a f : rows_ok d → bt_reads bt s a f →
  bt_agrees (_load_ledger None since d) before bt ↔ ∃ o t, s = Some o ∧ compared_with since d before o = Some t ∧ posts_as d t a f.
Proof.
  intros Hok Hr. unfold bt_agrees, posts_as, compared_with.
  assert (∀ t, ledger_fee (reduced None d t) = net_effect None d t _FEE_ACCOUNT) as Hfee by (intros t; apply reduced_delta).
  assert (∀ t, ledger_amount (reduced None d t) = net_effect None d t _STRIPE_BALANCE_ACCOUNT + net_effect None d t _FEE_ACCOUNT) as Hamount.
  { intros t. unfold ledger_amount. by rewrite Hfee, reduced_delta. }
  split.
  - intros (s' & a' & f' & x & [_ E1' E2' E3' _ _] & Hx & <- & <-). destruct Hr as [_ E1 E2 E3 _ _].
    destruct s' as [o|]; [|done]. cbn [mate] in Hx. rewrite loaded_postings, nth_or_first_fmap in Hx by done.
    apply fmap_Some in Hx as (t & Ht & ->). exists o, t. rewrite Hfee in E3'. rewrite Hamount in E2'.
    split_and!; [congruence|done|congruence|]. assert (f = net_effect None d t _FEE_ACCOUNT) as -> by congruence. congruence.
  - intros (o & t & -> & Ht & <- & <-). exists (Some o), (net_effect None d t _STRIPE_BALANCE_ACCOUNT + net_effect None d t _FEE_ACCOUNT), (net_effect None d t _FEE_ACCOUNT), (reduced None d t).
    split_and!; [done| |apply Hamount|apply Hfee]. cbn [mate]. by rewrite loaded_postings, nth_or_first_fmap, Ht.
Qed.

(** ** Pagination *)

(** [client] lists [items], whose ids are [ids], in pages of [limit]. *)
Record lists (client : egress) (limit : Z) (since : option Z) (items : list pyval) (ids : list string) : Prop := {
  li_ids : Forall2 (λ v i, py_get v "id" = Ok (PStr i)) items ids;
  li_NoDup : NoDup ids;
  li_page : ∀ k cursor, (k < length items)%nat ∨ k = O →
    match k with O => cursor = None | S j => cursor = ids !! j end →
    get client "/v1/balance_transactions" (page_params limit since cursor) =
    Ok (PDict [("data", PList (take (Z.to_nat limit) (drop k items)));
               ("has_more", PBool (bool_decide (k + Z.to_nat limit < length items)%nat))]) }.

Lemma iter_loop_lists client limit since items ids : 0 < limit → lists client limit since items ids →
  ∀ fuel k cursor seen, (length items - k < fuel)%nat → (k < length items)%nat ∨ k = O →
  match k with O => cursor = None | S j => cursor = ids !! j end →
  (∀ c, c ∈ seen → ∃ j, (j < k)%nat ∧ ids !! j = Some c) →
  iter_loop fuel client limit since cursor seen = (drop k items, Finished).
Proof.
  intros Hlim [Hids Hnd Hpage]. induction fuel as [|fuel IH]; intros k cursor seen Hfuel Hk Hc Hseen; [lia|].
  cbn [iter_loop]. rewrite (Hpage k cursor Hk Hc), bind_ok_run.
  set (n := Z.to_nat limit). assert (0 < n)%nat as Hn by lia. set (page := take n (drop k items)).
  change (py_get (PDict [("data", PList page); ("has_more", PBool (bool_decide (k + n < length items)%nat))]) "data")
    with (Ok (PList page)).
  change (py_get (PDict [("data", PList page); ("has_more", PBool (bool_decide (k + n < length items)%nat))]) "has_more")
    with (Ok (PBool (bool_decide (k + n < length items)%nat))).
  rewrite !bind_ok_run.
  assert ((if truthy (PList page) then iterate (PList page) else Ok []) = Ok page) as -> by (by destruct page).
  rewrite bind_ok_run. cbn [truthy].
  change (mret (page, PBool (bool_decide (k + n < length items)%nat))) with
    (Ok (page, PBool (bool_decide (k + n < length items)%nat))). cbn [truthy].
  case_bool_decide as Hmore; cbn [negb orb].
  2:{ f_equal. subst page. apply take_ge. rewrite length_drop. lia. }
  assert (length page = n) as Hlen by (subst page; rewrite length_take, length_drop; lia).
  rewrite bool_decide_false by (intros E; rewrite E in Hlen; cbn in Hlen; lia).
  assert (∃ v, items !! (k + n - 1)%nat = Some v) as [v Hv] by (apply lookup_lt_is_Some; lia).
  assert (last page = Some v) as ->.
  { rewrite last_lookup, Hlen. subst page. rewrite lookup_take_lt by lia. rewrite lookup_drop. by rewrite <- Hv; f_equal; lia. }
  destruct (Forall2_lookup_l _ _ _ _ _ Hids Hv) as (i & Hi & Ei). change (default PNone (Some v)) with v. cbn beta in Ei. rewrite Ei.
  rewrite bool_decide_false.
  2:{ intros Hin. destruct (Hseen i Hin) as (j & Hj & Ej). pose proof (NoDup_lookup ids j _ i Hnd Ej Hi). lia. }
  rewrite (IH (k + n)%nat); [| | | |].
  - f_equal. subst page. rewrite <- (take_drop n (drop k items)) at 2. by rewrite drop_drop.
  - lia.
  - lia.
  - replace (k + n)%nat with (S (k + n - 1)) by lia. done.
  - intros c [-> |Hin]%elem_of_cons.
    + exists (k + n - 1)%nat. split; [lia|done].
    + destruct (Hseen c Hin) as (j & Hj & Ej). exists j. split; [lia|done].
Qed.

(** The cursors a client can hand out, whatever it answers. *)
Definition cursors_in (client : egress) (ids : list string) : Prop :=
  ∀ params page data items c, get client "/v1/balance_transactions" params = Ok page →
    py_get page "data" = Ok data → (if truthy data then iterate data else Ok []) = Ok items →
    py_get (default PNone (last items)) "id" = Ok (PStr c) → c ∈ ids.

Lemma iter_loop_ends client limit since ids : cursors_in client ids →
  ∀ fuel cursor seen, NoDup seen → seen ⊆ ids → (length ids < fuel + length seen)%nat →
  (iter_loop fuel client limit since cursor seen).2 ≠ OutOfFuel.
Proof.
  intros Hc. induction fuel as [|fuel IH]; intros cursor seen Hnd Hsub Hlen.
  { apply (NoDup_submseteq _ _ Hnd) in Hsub. apply submseteq_length in Hsub. lia. }
  cbn [iter_loop].
  destruct (get client "/v1/balance_transactions" (page_params limit since cursor)) as [page|] eqn:Eg; [|done].
  rewrite bind_ok_run. destruct (py_get page "data") as [data|] eqn:Ed; [|done]. rewrite bind_ok_run.
  destruct (py_get page "has_more") as [more|]; [|done]. rewrite bind_ok_run.
  destruct (if truthy data then iterate data else Ok []) as [items|] eqn:Ei; [|done]. rewrite bind_ok_run.
  change (mret (items, more)) with (Ok (items, more)). cbv iota beta.
  destruct (_ || _)%bool; [done|].
  destruct (py_get (default PNone (last items)) "id") as [[| | | |c| |]|] eqn:El; try done.
  case_bool_decide; [done|].
  specialize (IH (Some c) (c :: seen)). destruct (iter_loop fuel client limit since (Some c) (c :: seen)) as [rest e].
  apply IH; [by constructor| |cbn; lia].
  intros x [-> |Hx]%elem_of_cons; [by eapply Hc|by apply Hsub].
Qed.

(** C18: against a client that pages through a list of balance
    transactions, with more fuel than the list is long, the reconciliation returns, having
    checked every balance transaction.  It finds nothing exactly when each balance
    transaction has the amount and fee of the posting it is compared with, the
    k-th of an object with the k-th posting of it in the window, or with the
    first when the object is posted less often, and no object of the window is posted
    more often than it has balance transactions.  So an object posted once may have
    several equal balance transactions unnoticed. *)
Theorem reconcile_stripe_ok_iff fuel client limit since d items ids : ledger_ok d → 0 < limit →
  lists client limit since items ids → (length items < fuel)%nat →
  Forall (λ bt, ∃ s a f, bt_reads bt s a f) items →
  ∃ r, reconcile_stripe fuel client limit since d = Some (Ok r) ∧ checked r = Z.of_nat (length items) ∧
    (recon_ok r = true ↔
     (∀ i bt s a f, items !! i = Some bt → bt_reads bt s a f →
        ∃ o t, s = Some o ∧ compared_with since d (take i items) o = Some t ∧ posts_as d t a f) ∧
     (∀ o, (length (postings since d o) <= turns items o)%nat)).
Proof.
  intros Hok Hlim Hl Hfuel Hread. pose proof (ok_rows d Hok) as Hrows. set (ledger := _load_ledger None since d) in *.
  assert (NoDup (txn_id <$> ledger)) as Hids.
  { pose proof (load_ledger_NoDup (λ t, Some (t_id t)) (λ t, Some (txn_id t)) None since d Hrows) as H.
    assert (∀ A (f : A → string) (l : list A), omap (λ x, Some (f x)) l = f <$> l) as Homap
      by (intros A f l; induction l as [|x l IH]; [done|cbn; by rewrite IH]).
    rewrite !Homap in H. apply H; [intros t; by rewrite reduced_id|apply (ok_txn_ids d Hrows)]. }
  assert (matched_after ledger [] []) as Hm0 by (intros o j t _; split; [by intros ?%elem_of_nil|cbn; lia]).
  destruct (stripe_fold_spec ledger items Hids Hread [] [] [] 0 Hm0) as (new & matched & Ef & Hnew & Hmatched).
  unfold reconcile_stripe, _iter_balance_transactions. fold ledger.
  rewrite (iter_loop_lists client limit since items ids Hlim Hl fuel 0 None []);
    [|lia|by right|done|by intros c ?%elem_of_nil].
  rewrite drop_0, Ef. eexists. split; [done|]. split; [cbn [checked]; lia|].
  unfold recon_ok. cbn [breaks recon_invariant_ok].
  rewrite check_ok, andb_true_r, bool_decide_eq_true, invariant_breaks_nil by (try apply check_ok; done).
  rewrite app_nil_r, app_nil_l, app_nil, Hnew. cbn [app] in Hmatched. f_equiv.
  - split.
    + intros H i bt s a f Hin Hr. apply (bt_agrees_posts since d (take i items) bt s a f Hrows Hr). by apply H.
    + intros H i bt Hin. rewrite Forall_forall in Hread. destruct (Hread bt (list_elem_of_lookup_2 _ _ _ Hin)) as (s & a & f & Hr).
      apply (bt_agrees_posts since d (take i items) bt s a f Hrows Hr). by eapply H.
  - assert (∀ o, length (postings since d o) = length (loaded ledger o)) as Hlen
      by (intros o; unfold ledger; by rewrite loaded_postings, length_fmap).
    split.
    + intros H o. apply fmap_nil_inv in H. rewrite Hlen. apply Nat.nlt_ge. intros Hlt.
      destruct (lookup_lt_is_Some_2 (loaded ledger o) (turns items o) Hlt) as [t Ht].
      apply (not_elem_of_nil t). rewrite <- H. apply list_elem_of_filter.
      assert (t ∈ loaded ledger o) as [Hin Ho]%loaded_elem by by eapply list_elem_of_lookup_2.
      split_and!; [by eexists| |done]. rewrite (Hmatched o _ t Ht). lia.
    + intros H. destruct (filter _ ledger) as [|x l] eqn:E; [done|]. exfalso.
      assert (x ∈ x :: l) as Hin by left. rewrite <- E in Hin.
      apply list_elem_of_filter in Hin as [[[o Ho] Hm] Hin].
      assert (x ∈ loaded ledger o) as [j Hj]%list_elem_of_lookup by by apply loaded_elem.
      apply Hm, (Hmatched o j x Hj). apply lookup_lt_Some in Hj. rewrite <- Hlen in Hj. specialize (H o). lia.
Qed.

Definition sample_bt : pyval :=
  PDict [("id", PStr "txn_1"); ("type", PStr "charge"); ("source", PStr "ch_1"); ("amount", PInt 10000);
         ("fee", PInt 320); ("net", PInt 9680)].
Definition sample_client : egress := Egress (λ _ _,
  Ok (PDict [("data", PList [sample_bt]); ("has_more", PBool false)])).

Lemma sample_lists : lists sample_client 100 None [sample_bt] ["txn_1"].
Proof.
  split.
  - by repeat constructor.
  - apply NoDup_singleton.
  - intros k cursor [Hk| ->] _; [|reflexivity]. cbn in Hk. by assert (k = O) as -> by lia.
Qed.

Lemma reconcile_stripe_ok_iff_witness :
  ∃ r, reconcile_stripe 2 sample_client 100 None (posted_db empty_db sample_txn) = Some (Ok r) ∧ checked r = 1.
Proof.
  destruct (reconcile_stripe_ok_iff 2 sample_client 100 None (posted_db empty_db sample_txn) [sample_bt] ["txn_1"]
    sample_posted_ok eq_refl sample_lists) as (r & H1 & H2 & _).
  - cbn. lia.
  - apply Forall_singleton. exists (Some "ch_1"), 10000, 320. split; try reflexivity; by eexists.
  - exists r. exact (conj H1 H2).
Defined.

(** A payment Stripe has twice and the ledger once goes unnoticed. *)
Example same_object_twice_unseen :
  let again := PDict [("id", PStr "txn_2"); ("type", PStr "charge"); ("source", PStr "ch_1"); ("amount", PInt 10000); ("fee", PInt 320)] in
  let client := Egress (λ _ _, Ok (PDict [("data", PList [sample_bt; again]); ("has_more", PBool false)])) in
  match reconcile_stripe 3 client 100 None (posted_db empty_db sample_txn) with
  | Some (Ok r) => recon_ok r = true ∧ checked r = 2
  | _ => False
  end.
Proof. vm_compute. auto. Qed.

(** The pagination ends, whatever the service answers, as soon as the
    cursors it hands out come from a finite list: it never needs more requests
    than there are cursors plus one. *)
Theorem pagination_ends client limit since ids fuel : cursors_in client ids → (length ids < fuel)%nat →
  (_iter_balance_transactions fuel client limit since).2 ≠ OutOfFuel.
Proof.
  intros Hc Hfuel. apply (iter_loop_ends client limit since ids Hc).
  - apply NoDup_nil_2.
  - set_solver.
  - cbn. lia.
Qed.

(** A service that answers every request with the same full page. *)
Definition stuck_client : egress := Egress (λ _ _,
  Ok (PDict [("data", PList [sample_bt]); ("has_more", PBool true)])).

Lemma pagination_ends_witness : (_iter_balance_transactions 2 stuck_client 1 None).2 ≠ OutOfFuel.
Proof.
  refine (pagination_ends stuck_client 1 None ["txn_1"] 2 _ _); [|cbn; lia].
  intros params page data items c [= <-] [= <-] [= <-] [= <-]. left.
Defined.
