(* ===== verification/Auditor.v ===== *)
(** The reconciler of Recon.v run on the service of System.v: what
    [reconcile_expected] reports is exactly the events that were lost. *)
From Stdlib Require Import QArith.
From S2P Require Import Prelude PyVal Json Hash Ledger Post Balances Mapping Signature Dedupe.
From S2P Require Import Handlers Shed Gcra Ingest System Outbox Book Recon.
#[local] Open Scope Z_scope.

(** ** The join, account by account *)
Lemma Zsum_bind {A B} (f : B → Z) (g : A → list B) l : Zsum f (l ≫= g) = Zsum (λ x, Zsum f (g x)) l.
Proof. induction l as [|x l IH]; [done|]. rewrite bind_cons, Zsum_app, Zsum_cons. by rewrite IH. Qed.

Lemma Zsum_one {A} (key : A → string) (f : A → Z) l name : NoDup (key <$> l) → (∀ x, key x ≠ name → f x = 0) →
  Zsum f l = match head (filter (λ x, key x = name) l) with Some x => f x | None => 0 end.
Proof.
  induction l as [|x l IH]; intros Hnd Hf; [done|]. rewrite fmap_cons in Hnd. apply NoDup_cons in Hnd as [Hnin Hnd].
  rewrite Zsum_cons, filter_cons. case_decide as E; cbn [head].
  - rewrite (Zsum_zero f l); [lia|]. intros y Hy. apply Hf. intros E'. apply Hnin. rewrite E, <- E'. by apply list_elem_of_fmap_2.
  - rewrite (Hf x E), IH by done. lia.
Qed.

(** The net effect the reconciler sees is a balance over one transaction. *)
Lemma net_effect_balance cur d r name : NoDup (acc_name <$> accounts d) →
  net_effect (Some cur) d r name =
  match find_account name d with
  | Some a => if bool_decide (acc_currency a = cur) then balance_minor a (entries_of (t_id r) (entries d)) else 0
  | None => 0
  end.
Proof.
  intros Hnd. unfold net_effect, joined_rows. rewrite Zsum_bind. fold (entries_of (t_id r) (entries d)).
  set (l := entries_of (t_id r) (entries d)).
  transitivity (Zsum (λ a, if bool_decide (acc_name a = name ∧ acc_currency a = cur) then Zsum (row_effect a) l else 0) (accounts d)).
  - rewrite (Zsum_ext _ (λ e, Zsum (λ a, if bool_decide (acc_name a = name ∧ acc_currency a = cur) then row_effect a e else 0) (accounts d))).
    + rewrite Zsum_swap. apply Zsum_ext. intros a _. case_bool_decide; [done|]. by apply Zsum_zero.
    + intros e _. rewrite Zsum_bind, Zsum_filter. apply Zsum_ext. intros a _. rewrite Zsum_cons, Zsum_nil. cbn [fst snd default].
      unfold row_effect. repeat first [case_bool_decide | case_decide]; first [lia | exfalso; naive_solver].
  - rewrite (Zsum_one acc_name _ (accounts d) name Hnd).
    + unfold find_account. destruct (head _) as [a|] eqn:E; [|done]. apply head_Some_elem_of, list_elem_of_filter in E as [En _].
      repeat case_bool_decide; first [done | exfalso; naive_solver].
    + intros a Ha. rewrite bool_decide_false; [done|]. by intros [? _].
Qed.

(** ** The reconciler reads the book *)

(** What a transaction does to the account of a name. *)
Definition effect_on (name : string) (t : ledger_transaction) : Z :=
  match find_account name empty_db with Some a => Zsum (entry_effect a) (lt_entries t) | None => 0 end.

Lemma seeded_usd a : a ∈ seed_accounts → acc_currency a = "USD".
Proof. revert a. apply Forall_forall, (bool_decide_unpack _). vm_compute. exact I. Qed.

Lemma entries_of_book l t : NoDup (lt_id <$> l) → t ∈ l → entries_of (lt_id t) (l ≫= book_rows) = book_rows t.
Proof.
  assert (∀ u, entries_of (lt_id u) (book_rows u) = book_rows u) as Hself.
  { intros u. unfold book_rows, entries_of. induction (lt_entries u) as [|e k IH]; [done|].
    rewrite fmap_cons, filter_cons_True by done. by rewrite IH. }
  assert (∀ i u, lt_id u ≠ i → entries_of i (book_rows u) = []) as Hother.
  { intros i u Hne. apply entries_of_none. by intros e (x & -> & _)%list_elem_of_fmap. }
  induction l as [|u l IH]; intros Hnd Hin; [by apply elem_of_nil in Hin|]. apply NoDup_cons in Hnd as [Hnin Hnd].
  rewrite bind_cons, entries_of_app. apply elem_of_cons in Hin as [-> |Hin].
  - rewrite Hself, entries_of_none; [by rewrite app_nil_r|]. intros e (v & Hv & Hl)%list_elem_of_bind.
    apply list_elem_of_fmap in Hv as (x & -> & _). cbn. intros E. apply Hnin. rewrite <- E. by apply list_elem_of_fmap_2.
  - rewrite Hother, IH; [done..|]. intros E. apply Hnin. rewrite E. by apply list_elem_of_fmap_2.
Qed.

Section reading.
Context {F R : Type} `{HA : Arith F} `{HR : RedisClient F R} (cfg : app_config F) (s : system (F := F) (R := R)) (b : book).
Context (Hok : ledger_ok (db_of s)) (Hb : book_ok b) (Hs : shows cfg b s).

Lemma posted_ids : NoDup (lt_id <$> posted b).
Proof.
  pose proof (ok_txn_ids _ (ok_rows _ Hok)) as H. rewrite (sh_transactions cfg b s Hs), <- list_fmap_compose in H. exact H.
Qed.

Lemma entries_of_posted t : t ∈ posted b → entries_of (t_id (txn_row_of t)) (entries (db_of s)) = book_rows t.
Proof. intros Ht. rewrite (sh_entries cfg b s Hs). apply (entries_of_book _ _ posted_ids Ht). Qed.

Lemma net_effect_posted t name : t ∈ posted b → net_effect (Some "USD") (db_of s) (txn_row_of t) name = effect_on name t.
Proof.
  intros Ht. rewrite net_effect_balance by (rewrite (sh_accounts cfg b s Hs); apply seed_names_NoDup).
  rewrite (find_account_accounts name (db_of s) empty_db) by apply Hs. unfold effect_on.
  destruct (find_account name empty_db) as [a|] eqn:Ea; [|done]. destruct (find_account_Some _ _ _ Ea) as [Hin <-].
  rewrite bool_decide_true by (by apply seeded_usd). rewrite entries_of_posted by done.
  pose proof (rows_balance a [t] Ea) as H. change ([t] ≫= book_rows) with (book_rows t ++ []) in H.
  rewrite app_nil_r, Zsum_cons, Zsum_nil in H. rewrite H; [lia|].
  intros u ->%list_elem_of_singleton. by apply Hb.
Qed.

Lemma posted_visible t : t ∈ posted b → visible (Some "USD") None (db_of s) (txn_row_of t).
Proof.
  intros Ht. split_and!; [rewrite (sh_transactions cfg b s Hs); by apply list_elem_of_fmap_2|done|].
  destruct (bo_admissible b Hb t Ht) as (Ha & _ & Hl). pose proof (entries_of_posted t Ht) as He. unfold entries_of in He.
  unfold joined_rows. rewrite He. unfold book_rows. destruct (lt_entries t) as [|e l]; [cbn in Hl; lia|].
  apply Forall_cons in Ha as [(_ & a & Hf & _) _]. destruct (find_account_Some _ _ _ Hf) as [Hin _].
  rewrite fmap_cons, bind_cons. intros [E _]%app_eq_nil. revert E. rewrite bind_nil. intros E.
  specialize (E a). rewrite list_elem_of_filter in E. unfold entry_row_of in E. rewrite Hf in E. cbn [e_account] in E.
  rewrite (sh_accounts cfg b s Hs) in E. discriminate E. split_and!; [done| |done]. cbn. by rewrite seeded_usd.
Qed.

Lemma visible_posted r : visible (Some "USD") None (db_of s) r ↔ ∃ t, t ∈ posted b ∧ r = txn_row_of t.
Proof.
  split; [|intros (t & Ht & ->); by apply posted_visible].
  intros (Hin & _). rewrite (sh_transactions cfg b s Hs) in Hin. apply list_elem_of_fmap in Hin as (t & -> & Ht). eauto.
Qed.
End reading.

(** ** Property *)

(** An expected movement for which the ledger has no transaction of the event. *)
Definition lost (d : database) (x : ExpectedEvent) : Prop :=
  nonzero (expected_delta x) ≠ ∅ ∧ ∀ r, r ∈ transactions d → t_event r ≠ Some (x_event_id x).
#[export] Instance lost_dec d x : base.Decision (lost d x).
Proof.
  unfold lost. refine (cast_if (decide (nonzero (expected_delta x) ≠ ∅ ∧ Forall (λ r, t_event r ≠ Some (x_event_id x)) (transactions d))));
    by rewrite <- Forall_forall.
Defined.
Definition lost_break (x : ExpectedEvent) : Break := missing_in_ledger (x_event_id x) (nonzero (expected_delta x)).

(** The expectations know what happened: they cover every delivered event, and
    say of each what the mapping makes of it. *)
Definition covers {F R} (cfg : app_config F) (s : system (F := F) (R := R)) (expected : list ExpectedEvent) : Prop :=
  ∀ event id, delivered cfg s event → py_index event "id" = Ok (PStr id) → id ∈ x_event_id <$> expected.
Definition truthful {F R} (cfg : app_config F) (s : system (F := F) (R := R)) (expected : list ExpectedEvent) : Prop :=
  ∀ id m event e t, expects expected id m → delivered cfg s event → strip_trace_context event = Ok e →
    py_index e "id" = Ok (PStr id) → mapped e t → ∀ name, default 0 (m !! name) = effect_on name t.

Lemma bind_filter {A B} (P : A → Prop) `{∀ x, base.Decision (P x)} (f : A → list B) (g : A → B) l :
  (∀ x, x ∈ l → f x = if decide (P x) then [g x] else []) → l ≫= f = g <$> filter P l.
Proof.
  induction l as [|x l IH]; intros H0; [done|]. rewrite bind_cons, filter_cons, (H0 x) by left.
  rewrite IH by (intros; apply H0; by right). by case_decide.
Qed.

Lemma first_of_expects expected x : x ∈ first_of [] expected → expects expected (x_event_id x) (expected_delta x).
Proof. intros Hx. apply expects_first. eauto. Qed.

(** C9: the audit of the service is exact.  In every reachable state, whatever
    was repeated, reordered, lost or cut short, reconciling the ledger against
    expectations that cover the delivered events and say what each maps to reports
    precisely the lost events, each once and in order: an event expected to move
    money that has no transaction of its own.  No amount is ever wrong, and no
    transaction is unaccounted for. *)
Theorem audit_finds_exactly_the_lost {F R} `{Arith F} `{RedisClient F R} (cfg : app_config F) other
    (s : system (F := F) (R := R)) expected :
  reachable cfg other s → covers cfg s expected → truthful cfg s expected →
  recon_invariant_ok (reconcile_expected expected "USD" (db_of s)) = true ∧
  breaks (reconcile_expected expected "USD" (db_of s)) = lost_break <$> filter (lost (db_of s)) (first_of [] expected).
Proof.
  intros Hr Hcov Htr. pose proof (so_ledger _ _ (reachable_ok cfg other s Hr)) as Hok.
  destruct (reachable_shows cfg other s Hr) as (b & Hb%book_reachable_ok & Hs).
  destruct (reconcile_expected_breaks expected "USD" (db_of s) Hok) as [Hi ->]. split; [done|].
  assert (∀ t, t ∈ posted b → ∃ event e id, delivered cfg s event ∧ strip_trace_context event = Ok e ∧ mapped e t ∧
    py_index e "id" = Ok (PStr id) ∧ py_index event "id" = Ok (PStr id) ∧ stripe_event_id t = Some id) as Hsrc.
  { intros t Ht. destruct (bo_heard b Hb t Ht) as (event & e & Hin & He & Hm). rewrite (sh_heard cfg b s Hs) in Hin.
    apply list_elem_of_omap in Hin as ([w r] & Hd & Ha). unfold event_of in Ha. cbn in Ha.
    destruct (accepted_event cfg w r) as [|[ev i]] eqn:Ea; [done|]. injection Ha as ->.
    destruct (built_id _ _ (mapped_built _ _ Hm)) as (id & Hid & Hev & _).
    exists event, e, id. split_and!; [by exists w, r, i|done..| |done]. by rewrite <- (strip_index event e "id" He). }
  pose proof (visible_posted cfg s b Hok Hb Hs) as Hvis.
  assert (filter (λ t, negb (was_seen (x_event_id <$> expected) t)) (_load_ledger (Some "USD") None (db_of s)) = []) as ->.
  { apply elem_of_nil_inv. intros x [Hn Hx]%list_elem_of_filter. apply load_ledger_elem in Hx as (r & Hv & ->); [|apply Hok].
    apply Hvis in Hv as (t & Ht & ->). destruct (Hsrc t Ht) as (event & e & id & H1 & _ & _ & _ & H5 & H6).
    unfold was_seen in Hn. rewrite reduced_event in Hn. cbn [t_event txn_row_of] in Hn. rewrite H6, bool_decide_true in Hn; [done|].
    by apply (Hcov event). }
  rewrite app_nil_r. apply bind_filter. intros x Hx. apply first_of_expects in Hx. unfold item_breaks.
  pose proof (λ y, by_event_visible (Some "USD") (db_of s) (x_event_id x) y (ok_rows _ Hok)) as Hidx.
  destruct (by_event _ !! x_event_id x) as [y|].
  - destruct (proj1 (Hidx y) eq_refl) as (r & Hv & Er & ->). pose proof Hv as Hv'. apply Hvis in Hv' as (t & Ht & ->).
    rewrite decide_False by (intros [_ Hno]; by apply (Hno (txn_row_of t)); [apply Hv|]).
    apply amount_mismatches_nil. intros a. rewrite nonzero_get, reduced_delta, (net_effect_posted cfg s b Hok Hb Hs) by done.
    destruct (Hsrc t Ht) as (event & e & id & H1 & H2 & H3 & H4 & _ & H6). cbn in Er. rewrite H6 in Er. injection Er as ->.
    symmetry. by apply (Htr (x_event_id x) (expected_delta x) event e t).
  - assert (∀ r, r ∈ transactions (db_of s) → t_event r ≠ Some (x_event_id x)) as Hno.
    { intros r Hin Er. rewrite (sh_transactions cfg b s Hs) in Hin. apply list_elem_of_fmap in Hin as (t & -> & Ht).
      assert (visible (Some "USD") None (db_of s) (txn_row_of t)) as Hv by (apply Hvis; eauto).
      discriminate (proj2 (Hidx (reduced (Some "USD") (db_of s) (txn_row_of t))) (ex_intro _ _ (conj Hv (conj Er eq_refl)))). }
    case_bool_decide as Hn; [rewrite decide_False by (by intros [? _])|rewrite decide_True by done]; done.
Qed.

(** Effects are compared on the names of the chart and of the map. *)
Lemma effects_known (m : gmap string Z) t :
  forallb (λ name, default 0 (m !! name) =? effect_on name t) ((acc_name <$> seed_accounts) ++ base.elements (dom m)) = true →
  ∀ name, default 0 (m !! name) = effect_on name t.
Proof.
  rewrite forallb_forall_stdpp. intros Hall name.
  destruct (decide (name ∈ (acc_name <$> seed_accounts) ++ base.elements (dom m))) as [Hin|Hin]; [by apply Z.eqb_eq, Hall|].
  rewrite not_elem_of_app, elem_of_elements, not_elem_of_dom in Hin. destruct Hin as [Hn ->]. unfold effect_on.
  destruct (find_account name empty_db) as [a|] eqn:Ea; [|done]. destruct (find_account_Some _ _ _ Ea) as [Ha <-].
  destruct Hn. by apply list_elem_of_fmap_2.
Qed.

Definition sample_expected : ExpectedEvent := MkExpectedEvent "evt_1" sample_delta.

Lemma sample_lost_delivered event : delivered sample_config sample_lost event → event = sample_event "evt_1" "ch_1".
Proof.
  intros (w & r & id & Hin & Ha).
  assert (accepted_event sample_config sample_world sample_request = inr (sample_event "evt_1" "ch_1", "evt_1")) as E
    by (vm_compute; reflexivity).
  change (deliveries sample_lost) with [(sample_world, sample_request)] in Hin.
  apply list_elem_of_singleton in Hin. injection Hin as -> ->. rewrite E in Ha. by injection Ha.
Qed.

Lemma sample_expected_lost d : transactions d = [] → lost d sample_expected.
Proof.
  intros Hd. split; [|rewrite Hd; by intros r ?%elem_of_nil]. intros E. pose proof (proj1 (nonzero_empty _) E "revenue") as E0.
  assert (default 0 (expected_delta sample_expected !! "revenue") = 10000) as E1 by (vm_compute; reflexivity).
  rewrite E1 in E0. discriminate E0.
Qed.

(** The message of the one delivery was lost: the audit names it. *)
Lemma audit_finds_exactly_the_lost_witness :
  breaks (reconcile_expected [sample_expected] "USD" (db_of sample_lost)) = [lost_break sample_expected].
Proof.
  assert (reachable sample_config no_route sample_lost) as Hr.
  { exists sample_system. split; [exact sample_initial|]. eapply rtc_l.
    - exact (step_deliver sample_config no_route sample_system sample_world sample_request).
    - apply rtc_once. apply step_broker. by apply list_subseteq_nil. }
  assert (covers sample_config sample_lost [sample_expected]) as Hc.
  { intros event id ->%sample_lost_delivered [= <-]. by left. }
  assert (build_transaction (sample_event "evt_1" "ch_1") None = Ok (Some sample_map)) as Hb by (vm_compute; reflexivity).
  assert (strip_trace_context (sample_event "evt_1" "ch_1") = Ok (sample_event "evt_1" "ch_1")) as Hst by (vm_compute; reflexivity).
  assert (truthful sample_config sample_lost [sample_expected]) as Ht.
  { intros id m event e t (x & Hx & <-) ->%sample_lost_delivered He Hid [client Hm]. rewrite Hst in He. injection He as <-.
    assert (id = "evt_1") as -> by (by injection Hid). cbn in Hx. injection Hx as <-.
    unfold map_event in Hm. rewrite Hb in Hm. injection Hm as <-. apply effects_known. vm_compute. reflexivity. }
  pose proof (proj2 (audit_finds_exactly_the_lost sample_config no_route sample_lost [sample_expected] Hr Hc Ht)) as H.
  assert (transactions (db_of sample_lost) = []) as Hn by (vm_compute; reflexivity).
  rewrite H. change (first_of [] [sample_expected]) with [sample_expected].
  rewrite filter_cons_True; [reflexivity|]. exact (sample_expected_lost _ Hn).
Defined.
