(* ===== verification/Prompts.v ===== *)
(** src/ledgerproof/triage/prompts.py: what the triage agent is shown of an
    incident, and how it is laid out. *)
From S2P Require Import Prelude PyVal Recon PromptText.

(** ** Field lists *)
Definition OBSERVABLE_FIELDS : list string :=
  ["ledger_diff"; "invariant_after"; "event_log"; "deliveries"; "worker_restarted"].

Definition FORBIDDEN_FIELDS : list string :=
  ["fault"; "params"; "scenario_id"; "label"; "expected"; "breaks"; "recon"; "kinds";
   "killed_with_task_in_flight"; "redelivered_after_kill"; "ledger_reset"; "accepted_rejected";
   "wrong_rejection_reason"; "quiescent"].

(** ** The cacheable prefix *)
Definition text_block (text : string) (rest : list (string * pyval)) : pyval :=
  PDict ([("type", PStr "text"); ("text", PStr text)] ++ rest).

Definition system_prefix : list pyval :=
  ((λ t, text_block t []) <$> [TASK; ARCHITECTURE; CHART_OF_ACCOUNTS; TAXONOMY; TELLING_THEM_APART; REPAIRS]) ++
  [text_block ANSWERING [("cache_control", PDict [("type", PStr "ephemeral")])]].

(** ** Extracting the evidence *)
Section map_result.
Context {A B : Type} (f : A → result B).
Fixpoint map_result (l : list A) : result (list B) :=
  match l with
  | [] => Ok []
  | x :: l => y ← f x; ys ← map_result l; mret (y :: ys)
  end.
End map_result.

Definition build_delivery (d : pyval) : result pyval :=
  http_status ← py_get d "status_code"; response_body ← py_get_default d "body" (PStr "");
  duration_ms ← py_get d "duration_ms"; error ← py_get d "error";
  signature_header ← py_get d "request_signature_header"; body_bytes ← py_get d "request_body_bytes";
  parses ← py_get d "request_body_parses_as_json"; arrived ← py_get d "arrived_after_ms";
  upstream ← py_get d "upstream_status"; age ← py_get d "signature_age_at_arrival_s";
  mret (PDict [("http_status", http_status); ("response_body", response_body); ("duration_ms", duration_ms);
    ("error", error); ("signature_header", signature_header); ("body_bytes", body_bytes);
    ("body_parses_as_json", parses); ("arrived_after_ms", arrived); ("upstream_status", upstream);
    ("signature_age_s", age)]).

(** [v or {}] and [v or []], then [dict] and [list]. *)
Definition dict_or_empty (v : pyval) : result pyval :=
  if truthy v then
    match v with
    | PDict d => Ok (PDict d)
    | PList _ | PStr _ => Err (IllTyped "dict of a sequence")
    | _ => Err TypeError
    end
  else Ok (PDict []).
Definition list_or_empty (v : pyval) : result pyval :=
  if truthy v then l ← iterate v; mret (PList l) else Ok (PList []).

Definition build_case (record : pyval) : result pyval :=
  ds ← py_get_default record "deliveries" (PList []); ds ← iterate ds; deliveries ← map_result build_delivery ds;
  diff ← py_get record "ledger_diff"; diff ← dict_or_empty diff;
  invariant ← py_get_default record "invariant_after" (PBool true);
  log ← py_get record "event_log"; log ← list_or_empty log;
  restarted ← py_get_default record "worker_restarted" (PBool false);
  mret (PDict [("ledger_diff", diff); ("invariant_holds", PBool (truthy invariant)); ("event_log", log);
               ("deliveries", PList deliveries); ("worker_restarted", PBool (truthy restarted))]).

(** ** Rendering *)
Definition newline : string := String (ascii_of_nat 10) EmptyString.

(** [v != w] on scalars: [bool] compares as [int]. *)
Definition py_ne (v w : pyval) : bool :=
  match v, w with
  | (PInt _ | PBool _), (PInt _ | PBool _) => bool_decide (as_num v ≠ as_num w)
  | _, _ => bool_decide (v ≠ w)
  end.

(** [f"{v:+d}"] *)
Definition show_signed (v : pyval) : result string :=
  match v with
  | PInt z => Ok (signed_str z)
  | PBool b => Ok (signed_str (Z.b2z b))
  | PFloat _ | PStr _ => Err (ValueError "Unknown format code 'd'")
  | _ => Err TypeError
  end.

Definition str_of (v : pyval) : result string := of_option AttributeError (as_str v).

(** The lines on one delivery, numbered [i]. *)
Definition render_delivery (i : Z) (d : pyval) : result (list string) :=
  http_status ← py_index d "http_status";
  status ← (if is_none http_status then Ok "no response" else show http_status);
  body ← py_index d "response_body"; body ← (if truthy body then str_of body else Ok "");
  let body := strip body in
  let detail := if bool_decide (body ≠ "") then " response=" +:+ body else "" in
  error ← py_get d "error"; err ← (if truthy error then e ← show error; mret (" error=" +:+ e) else Ok "");
  arrived ← py_get d "arrived_after_ms";
  when ← (if is_none arrived then Ok "arrival unknown" else a ← show arrived; mret ("arrived +" +:+ a +:+ " ms"));
  duration ← py_index d "duration_ms"; duration ← show duration;
  upstream ← py_get d "upstream_status";
  answered ← (if (negb (is_none upstream) && py_ne upstream http_status)%bool
              then u ← show upstream; mret ["   the sender was answered HTTP " +:+ u +:+ " for this attempt"]
              else Ok []);
  header ← py_get d "signature_header";
  request ← (if truthy header then
      parses ← py_get d "body_parses_as_json"; h ← show header;
      age ← py_get d "signature_age_s";
      old ← (if is_none age then Ok []
             else a ← show age; mret ["   signature was " +:+ a +:+ " seconds old on arrival (tolerance is 300 s)"]);
      bytes ← py_get d "body_bytes"; n ← show bytes;
      mret (["   request: Stripe-Signature: " +:+ h] ++ old ++
            ["   request body: " +:+ n +:+ " bytes, valid JSON: " +:+ (if truthy parses then "yes" else "no")])
    else Ok []);
  mret ([str_of_Z i +:+ ". [" +:+ when +:+ "] HTTP " +:+ status +:+ " after " +:+ duration +:+ " ms" +:+ detail +:+ err]
        ++ answered ++ request).

Fixpoint render_deliveries (i : Z) (ds : list pyval) : result (list string) :=
  match ds with
  | [] => Ok []
  | d :: ds => lines ← render_delivery i d; rest ← render_deliveries (i + 1) ds; mret (lines ++ rest)
  end.

Definition render_row (row : pyval) : result string :=
  id ← py_get row "id"; id ← show id; ty ← py_get row "event_type"; ty ← show ty;
  o ← py_get row "object_id"; o ← show o; st ← py_get row "status"; st ← show st;
  mret ("- id=" +:+ id +:+ " type=" +:+ ty +:+ " object=" +:+ o +:+ " status=" +:+ st).

Definition render_balance (kv : string * pyval) : result string :=
  delta ← show_signed kv.2; mret ("- " +:+ kv.1 +:+ ": " +:+ delta).

Definition render_case (case : pyval) : result string :=
  deliveries ← py_index case "deliveries";
  shown ← (if truthy deliveries then ds ← iterate deliveries; render_deliveries 1 ds
           else Ok ["(none — no HTTP request reached ingest for this event at all)"]);
  log ← py_index case "event_log";
  rows ← (if truthy log then rows ← iterate log; map_result render_row rows
          else Ok ["(none — ingest recorded no row for this event)"]);
  diff ← py_index case "ledger_diff";
  balances ← (if truthy diff then d ← of_option AttributeError (as_dict diff); map_result render_balance (sort_items d)
              else Ok ["(no balances changed)"]);
  restarted ← py_get case "worker_restarted"; holds ← py_index case "invariant_holds";
  mret (join newline
    (["# Incident evidence"; ""; "## HTTP deliveries observed at ingest"] ++ shown ++
     [""; "## Event log rows recorded by ingest"] ++ rows ++
     [""; "## Ledger balance change over the incident (minor units)"] ++ balances ++
     [""; "## Infrastructure during this window";
      "- worker process restarted: " +:+ (if truthy restarted then "yes" else "no"); "";
      "## Money conservation: " +:+ (if truthy holds then "holds" else "BROKEN"); "";
      "Diagnose this incident."])).

Definition build_messages (case : pyval) : result (list pyval) :=
  text ← render_case case; mret [PDict [("role", PStr "user"); ("content", PStr text)]].

(** ** What the case depends on *)

(** The fields of a delivery record that are copied. *)
Definition DELIVERY_FIELDS : list string :=
  ["status_code"; "body"; "duration_ms"; "error"; "request_signature_header"; "request_body_bytes";
   "request_body_parses_as_json"; "arrived_after_ms"; "upstream_status"; "signature_age_at_arrival_s"].

Definition agree_on (fields : list string) (d d' : list (string * pyval)) : Prop :=
  ∀ k, k ∈ fields → dict_get k d = dict_get k d'.

Definition same_delivery (v v' : pyval) : Prop :=
  ∃ d d', v = PDict d ∧ v' = PDict d' ∧ agree_on DELIVERY_FIELDS d d'.

(** Two records with the same observable evidence. *)
Definition same_evidence (r r' : list (string * pyval)) : Prop :=
  agree_on (filter (λ k, k ≠ "deliveries") OBSERVABLE_FIELDS) r r' ∧
  (dict_get "deliveries" r = dict_get "deliveries" r' ∨
   ∃ ds ds', dict_get "deliveries" r = Some (PList ds) ∧ dict_get "deliveries" r' = Some (PList ds') ∧
             Forall2 same_delivery ds ds').

Lemma build_delivery_same v v' : same_delivery v v' → build_delivery v = build_delivery v'.
Proof.
  intros (d & d' & -> & -> & H). unfold build_delivery, py_get, py_get_default.
  by rewrite !H by (apply (bool_decide_unpack _); vm_compute; exact I).
Qed.

Lemma map_result_same {A B} (f : A → result B) R l l' :
  (∀ x x', R x x' → f x = f x') → Forall2 R l l' → map_result f l = map_result f l'.
Proof. intros Hf. induction 1 as [|x x' l l' Hx _ IH]; [done|]. cbn. by rewrite (Hf x x'), IH. Qed.

Lemma build_case_same r r' : same_evidence r r' → build_case (PDict r) = build_case (PDict r').
Proof.
  intros [H Hd]. unfold build_case, py_get, py_get_default.
  assert (∀ {B} (k : list pyval → result B),
    (ds ← Ok (match dict_get "deliveries" r with Some x => x | None => PList [] end); ds ← iterate ds;
     ds ← map_result build_delivery ds; k ds) =
    (ds ← Ok (match dict_get "deliveries" r' with Some x => x | None => PList [] end); ds ← iterate ds;
     ds ← map_result build_delivery ds; k ds)) as E.
  { intros B k. destruct Hd as [-> |(ds & ds' & -> & -> & Hds)]; [done|]. rewrite !bind_ok_run. cbn [iterate].
    rewrite !bind_ok_run. by rewrite (map_result_same _ _ _ _ build_delivery_same Hds). }
  rewrite E. by rewrite !H by (apply (bool_decide_unpack _); vm_compute; exact I).
Qed.

(** ** Property *)

(** The user turn written for an artifact record. *)
Definition prompt_of (record : list (string * pyval)) : result (list pyval) :=
  case ← build_case (PDict record); build_messages case.

(** C37: the prompt depends on nothing but the observable evidence: records
    that agree on the observable fields, and in each delivery on the copied
    fields, are rendered alike, so setting a forbidden field, or any field that
    is not observable, to any value leaves the prompt unchanged. *)
Theorem prompt_no_leak r r' : same_evidence r r' →
  prompt_of r = prompt_of r' ∧
  ∀ k v, k ∈ FORBIDDEN_FIELDS ∨ k ∉ OBSERVABLE_FIELDS → prompt_of (dict_set k v r) = prompt_of r'.
Proof.
  assert (∀ r r', same_evidence r r' → prompt_of r = prompt_of r') as Hsame.
  { intros r1 r2 H. unfold prompt_of. by rewrite (build_case_same r1 r2 H). }
  intros H. split; [by apply Hsame|]. intros k v Hk. rewrite <- (Hsame r r' H). apply Hsame.
  assert (k ∉ OBSERVABLE_FIELDS) as Hno.
  { destruct Hk as [Hk|]; [|done]. revert k Hk. apply Forall_forall, (bool_decide_unpack _). vm_compute. exact I. }
  split.
  - intros k' [_ Hk']%list_elem_of_filter. apply dict_get_set_ne. by intros ->.
  - left. apply dict_get_set_ne. intros ->. apply Hno. by do 3 right; left.
Qed.

Definition sample_delivery : pyval :=
  PDict [("status_code", PInt 200); ("body", PStr "queued"); ("duration_ms", PInt 12); ("arrived_after_ms", PInt 30)].
Definition sample_record : list (string * pyval) :=
  [("scenario_id", PStr "sc-1"); ("fault", PStr "DUPLICATE"); ("deliveries", PList [sample_delivery; sample_delivery]);
   ("ledger_diff", PDict [("revenue", PInt 10000); ("bank", PInt (-5))]); ("invariant_after", PBool true)].

Lemma prompt_no_leak_witness :
  prompt_of (dict_set "fault" (PStr "NONE") sample_record) = prompt_of sample_record ∧ is_ok (prompt_of sample_record) = true.
Proof.
  assert (same_evidence sample_record sample_record) as H by (split; [by intros k _|by left]).
  split; [apply (proj2 (prompt_no_leak sample_record sample_record H)); do 1 left; left|vm_compute; reflexivity].
Defined.
