(* ===== verification/Triage.v ===== *)
(** src/ledgerproof/triage/schema.py, triage/batch.py and triage/agent.py: the
    verdict, the schema transform of the Batch API, the request built for a
    model, and the gate between a proposal and the ledger. *)
From Stdlib Require Import SpecFloat.
From S2P Require Import Prelude PyVal Json Ledger Post Handlers Recon PromptText Prompts.
#[local] Open Scope Z_scope.

(** ** schema.py *)
Module Fault.
Inductive FaultClass :=
  | NONE | DUPLICATE | DUPLICATE_OBJECT | CONCURRENT_DUPLICATE | REORDER | DELAY | DROP | RESPOND_500
  | TAMPER_BODY | TRUNCATE_BODY | STALE_TIMESTAMP | DOWNGRADE_SCHEME | PARTIAL_WRITE | SLOW_LORIS.
#[export] Instance FaultClass_eq_dec : EqDecision FaultClass.
Proof. solve_decision. Defined.

Definition value (f : FaultClass) : string :=
  match f with
  | NONE => "NONE" | DUPLICATE => "DUPLICATE" | DUPLICATE_OBJECT => "DUPLICATE_OBJECT"
  | CONCURRENT_DUPLICATE => "CONCURRENT_DUPLICATE" | REORDER => "REORDER" | DELAY => "DELAY" | DROP => "DROP"
  | RESPOND_500 => "RESPOND_500" | TAMPER_BODY => "TAMPER_BODY" | TRUNCATE_BODY => "TRUNCATE_BODY"
  | STALE_TIMESTAMP => "STALE_TIMESTAMP" | DOWNGRADE_SCHEME => "DOWNGRADE_SCHEME"
  | PARTIAL_WRITE => "PARTIAL_WRITE" | SLOW_LORIS => "SLOW_LORIS"
  end.

Definition all : list FaultClass :=
  [NONE; DUPLICATE; DUPLICATE_OBJECT; CONCURRENT_DUPLICATE; REORDER; DELAY; DROP; RESPOND_500;
   TAMPER_BODY; TRUNCATE_BODY; STALE_TIMESTAMP; DOWNGRADE_SCHEME; PARTIAL_WRITE; SLOW_LORIS].
End Fault.
Export (hints) Fault.

Record RepairEntry := MkRepairEntry {
  re_account : string; re_direction : string; re_amount : Z; re_currency : string }.

Record Verdict := MkVerdict {
  fault_class : Fault.FaultClass; alternate_fault_classes : list Fault.FaultClass; confidence : spec_float;
  root_cause : string; affected_accounts : list string; money_is_missing : bool;
  proposed_repair : list RepairEntry; repair_memo : string }.

(** Code points of a text: its bytes less the continuation bytes. *)
Definition is_continuation (c : ascii) : bool := Z.land (code c) 0xC0 =? 0x80.
Definition points (s : string) : Z := Zsum (λ c, if is_continuation c then 0 else 1) (chars s).

(** The constraints of the fields, which validation into the model checks. *)
Definition verdict_valid (v : Verdict) : bool :=
  (Nat.leb (length (alternate_fault_classes v)) 2 &&
   SFleb (S754_zero false) (confidence v) && SFleb (confidence v) (binary_normalize 53 1024 1 0 false) &&
   (1 <=? points (root_cause v)) && (points (root_cause v) <=? 2000) && (points (repair_memo v) <=? 500) &&
   forallb (λ e, 0 <? re_amount e) (proposed_repair v))%bool.

(** [per_currency], or [None] at the first unknown direction. *)
Fixpoint net_per_currency (entries : list RepairEntry) (per_currency : list (string * Z)) : option (list (string * Z)) :=
  match entries with
  | [] => Some per_currency
  | e :: entries =>
      if bool_decide (re_direction e ∉ ["debit"; "credit"]) then None
      else
        let sign := if bool_decide (re_direction e = "debit") then 1 else -1 in
        net_per_currency entries
          (dict_set (re_currency e) (default 0 (dict_get (re_currency e) per_currency) + sign * re_amount e) per_currency)
  end.

Definition repair_is_balanced (entries : list RepairEntry) : bool :=
  if Nat.ltb (length entries) 2 then false
  else match net_per_currency entries [] with
       | None => false
       | Some per_currency => forallb (λ kv, kv.2 =? 0) per_currency
       end.

(** ** batch.py *)
Definition UNSUPPORTED_KEYWORDS : list string :=
  ["minimum"; "maximum"; "exclusiveMinimum"; "exclusiveMaximum"; "multipleOf";
   "minLength"; "maxLength"; "minItems"; "maxItems"; "uniqueItems"].

(** [sorted(properties)] *)
Definition sorted_keys (v : pyval) : result pyval :=
  match v with
  | PDict d => Ok (PList (PStr <$> sort_strings d.*1))
  | _ => Err (IllTyped "properties is not an object")
  end.

(** What is added to an object node once its fields are transformed. *)
Definition close_object (out : list (string * pyval)) : result pyval :=
  if (bool_decide (dict_get "type" out = Some (PStr "object")) || dict_mem "properties" out)%bool then
    let out := dict_set "additionalProperties" (PBool false) out in
    let properties := match dict_get "properties" out with Some v => if truthy v then v else PDict [] | None => PDict [] end in
    required ← sorted_keys properties;
    mret (PDict (dict_set "required" required out))
  else Ok (PDict out).

(** The comprehension over the fields: unsupported keywords are skipped. *)
Section fields.
Context (f : pyval → result pyval).
Fixpoint strictify_fields (d : list (string * pyval)) : result (list (string * pyval)) :=
  match d with
  | [] => Ok []
  | (k, v) :: d =>
      if bool_decide (k ∈ UNSUPPORTED_KEYWORDS) then strictify_fields d
      else v ← f v; rest ← strictify_fields d; mret ((k, v) :: rest)
  end.
End fields.

Fixpoint _strictify (node : pyval) : result pyval :=
  match node with
  | PList l => l ← map_result _strictify l; mret (PList l)
  | PDict d => out ← strictify_fields _strictify d; close_object out
  | v => Ok v
  end.

(** [schema] is what [model.model_json_schema()] returns. *)
Definition strict_schema (schema : pyval) : result pyval := _strictify schema.
Definition output_config (schema : pyval) : result pyval :=
  s ← strict_schema schema;
  mret (PDict [("format", PDict [("type", PStr "json_schema"); ("schema", s)])]).

(** [validate] is [model.model_validate], raising [ValueError] (of which
    [ValidationError] is a subclass).  The text of the error is left out. *)
Definition parse_verdict {V} (validate : pyval → result V) (text : string) : result (V + string) :=
  match json_loads text with
  | None => Ok (inr "JSONDecodeError")
  | Some v =>
      match validate v with
      | Ok x => Ok (inl x)
      | Err (ValueError _) => Ok (inr "ValidationError")
      | Err e => Err e
      end
  end.

(** ** agent.py *)
Definition OPUS : string := "claude-opus-5".
Definition SONNET : string := "claude-sonnet-5".
Definition HAIKU : string := "claude-haiku-4-5".
Definition FRONTIER_MODELS : list string := [OPUS; SONNET; HAIKU].
Definition EFFORT_MODELS : list string := [OPUS; SONNET].
Definition MAX_TOKENS : Z := 8000.
Definition HAIKU_THINKING_BUDGET : Z := 2000.

Definition request_params (model : string) (case : pyval) (effort : option string) : result (list (string * pyval)) :=
  messages ← build_messages case;
  let params := [("model", PStr model); ("max_tokens", PInt MAX_TOKENS); ("system", PList system_prefix);
                 ("messages", PList messages)] in
  mret (if bool_decide (model ∈ EFFORT_MODELS) then
          params ++ [("thinking", PDict [("type", PStr "adaptive")])] ++
          match effort with Some e => [("output_config", PDict [("effort", PStr e)])] | None => [] end
        else params ++ [("thinking", PDict [("type", PStr "enabled"); ("budget_tokens", PInt HAIKU_THINKING_BUDGET)])]).

(** The token counts of a response: [None] for an absent or null attribute. *)
Record Usage := MkUsage {
  input_tokens : option Z; output_tokens : option Z;
  cache_creation_input_tokens : option Z; cache_read_input_tokens : option Z }.

Definition _usage_dict (u : option Usage) : list (string * Z) :=
  match u with
  | None => []
  | Some u => [("input_tokens", default 0 (input_tokens u)); ("output_tokens", default 0 (output_tokens u));
               ("cache_creation_input_tokens", default 0 (cache_creation_input_tokens u));
               ("cache_read_input_tokens", default 0 (cache_read_input_tokens u))]
  end.

Record TriageResult := MkTriageResult {
  tr_verdict : option Verdict; tr_model : string; tr_effort : option string; tr_latency_s : spec_float;
  tr_usage : list (string * Z); tr_stop_reason : option string; tr_refused : bool;
  tr_error : option string; tr_raw_text : string }.

Definition cache_hit (r : TriageResult) : bool :=
  0 <? default 0 (dict_get "cache_read_input_tokens" (tr_usage r)).

(** What [client.messages.parse] returns. *)
Record Response := MkResponse {
  rp_stop_reason : option string; rp_usage : option Usage; rp_parsed_output : option Verdict;
  rp_content : list (string * string) (* type and text of each block *) }.

(** [parse] answers a request with a response or an API error; [latency] is
    what the clock measured. *)
Definition triage (parse : list (string * pyval) → Response + string) (latency : spec_float)
    (case : pyval) (model : string) (effort : option string) : result TriageResult :=
  params ← request_params model case effort;
  mret match parse params with
       | inr error => MkTriageResult None model effort latency [] None false (Some error) ""
       | inl r =>
           if bool_decide (rp_stop_reason r = Some "refusal") then
             MkTriageResult None model effort latency (_usage_dict (rp_usage r)) (rp_stop_reason r) true None ""
           else
             MkTriageResult (rp_parsed_output r) model effort latency (_usage_dict (rp_usage r)) (rp_stop_reason r)
               false None (join "" (filter (λ b, b.1 = "text") (rp_content r)).*2)
       end.

(** ** The gate *)
Record RepairApproval := MkRepairApproval { approved_by : string; a_scenario_id : string; a_reason : string }.

(** [s[:n]], counting code points. *)
Fixpoint take_points (n : nat) (l : list ascii) : list ascii :=
  match l with
  | [] => []
  | c :: l =>
      if is_continuation c then c :: take_points n l
      else match n with O => [] | S n => c :: take_points n l end
  end.
Definition str_take (n : nat) (s : string) : string := of_chars (take_points n (chars s)).

(** Once the directions are known to be two. *)
Definition direction_of (s : string) : direction := if bool_decide (s = "debit") then Debit else Credit.
Definition entry_of (e : RepairEntry) : entry :=
  Entry (re_account e) (direction_of (re_direction e)) (re_amount e) (re_currency e).

(** [new_id] is the fresh uuid; [now] the clock. *)
Definition repair_txn (verdict : Verdict) (approval : RepairApproval) (occurred_at : option Z)
    (new_id : string) (now : Z) : ledger_transaction :=
  LedgerTransaction new_id (default now occurred_at) (entry_of <$> proposed_repair verdict) None None None
    (Some (str_take 500 ("compensating transaction approved by " +:+ approved_by approval +:+ " for " +:+
                         a_scenario_id approval +:+ ": " +:+ repair_memo verdict))).

Definition gate (verdict : Verdict) (approval : RepairApproval) : result () :=
  _ ← guard_or (negb (bool_decide (strip (approved_by approval) = ""))) (RepairRejected "no human approver recorded");
  _ ← guard_or (money_is_missing verdict) (RepairRejected "nothing to repair");
  _ ← guard_or (negb (bool_decide (proposed_repair verdict = []))) (RepairRejected "no entries");
  guard_or (repair_is_balanced (proposed_repair verdict)) (RepairRejected "does not balance").

Definition approve_and_apply (fates : list fate) (new_id : string) (now : Z) (verdict : Verdict)
    (approval : RepairApproval) (occurred_at : option Z) : stx database post_outcome :=
  _ ← lift (gate verdict approval);
  post fates (repair_txn verdict approval occurred_at new_id now).

(** ** Balance of a repair *)
Definition signed_amount_of (e : RepairEntry) : Z :=
  if bool_decide (re_direction e = "debit") then re_amount e else - re_amount e.
Definition known_direction (e : RepairEntry) : Prop := re_direction e ∈ ["debit"; "credit"].

Lemma net_per_currency_spec es : ∀ acc, NoDup acc.*1 →
  match net_per_currency es acc with
  | Some out => Forall known_direction es ∧ NoDup out.*1 ∧ ∀ cur, default 0 (dict_get cur out) =
      default 0 (dict_get cur acc) + Zsum (λ e, if bool_decide (re_currency e = cur) then signed_amount_of e else 0) es
  | None => ¬ Forall known_direction es
  end.
Proof.
  induction es as [|e es IH]; intros acc Hnd; cbn [net_per_currency].
  { split_and!; [by constructor|done|]. intros cur. cbn. lia. }
  case_bool_decide as Hd; [by intros [H _]%Forall_cons|].
  specialize (IH _ (dict_set_NoDup (re_currency e) (default 0 (dict_get (re_currency e) acc) +
    (if bool_decide (re_direction e = "debit") then 1 else -1) * re_amount e) acc Hnd)).
  destruct (net_per_currency es _) as [out|]; [|by intros [_ H]%Forall_cons].
  destruct IH as (H1 & H2 & H3). split_and!; [|done|].
  - by constructor.
  - intros cur. rewrite H3, Zsum_cons. destruct (decide (re_currency e = cur)) as [<-|Hne].
    + rewrite dict_get_set_eq, (bool_decide_true (re_currency e = re_currency e)) by done. unfold signed_amount_of at 2. cbn [from_option id].
      case_bool_decide; lia.
    + rewrite dict_get_set_ne, (bool_decide_false (re_currency e = cur)) by done. lia.
Qed.

Lemma dict_values_zero (m : list (string * Z)) : NoDup m.*1 →
  forallb (λ kv, kv.2 =? 0) m = true ↔ ∀ k, default 0 (dict_get k m) = 0.
Proof.
  intros Hnd. rewrite forallb_forall_stdpp. split.
  - intros H k. destruct (dict_get k m) as [v|] eqn:E; [|done]. apply dict_get_elem in E.
    specialize (H _ E). cbn in *. lia.
  - intros H [k v] Hin. cbn. specialize (H k). assert (dict_get k m = Some v) as E.
    { clear H. induction m as [|[k' v'] m IH]; [by apply elem_of_nil in Hin|]. cbn in *.
      apply NoDup_cons in Hnd as [Hnin Hnd]. apply elem_of_cons in Hin as [[= <- <-]|Hin]; [by rewrite decide_True|].
      rewrite decide_False; [by apply IH|]. intros ->. apply Hnin. by apply (list_elem_of_fmap_2 fst _ _ Hin). }
    rewrite E in H. cbn in H. lia.
Qed.

Lemma repair_is_balanced_spec es : repair_is_balanced es = true ↔
  (2 <= length es)%nat ∧ Forall known_direction es ∧
  ∀ cur, Zsum (λ e, if bool_decide (re_currency e = cur) then signed_amount_of e else 0) es = 0.
Proof.
  unfold repair_is_balanced. destruct (Nat.ltb_spec (length es) 2) as [Hl|Hl]; [split; [done|lia]|].
  pose proof (net_per_currency_spec es [] (NoDup_nil_2)) as H. destruct (net_per_currency es []) as [out|].
  - destruct H as (H1 & H2 & H3). rewrite dict_values_zero by done. setoid_rewrite H3. cbn. naive_solver lia.
  - split; [done|]. by intros (_ & ? & _).
Qed.

(** The two readings of a balanced list: by the currency as written, and by the
    currency the column stores. *)
Lemma signed_total dr cur es :
  entries_total dr cur (entry_of <$> es) =
  Zsum (λ e, if bool_decide (direction_of (re_direction e) = dr ∧ char3 (re_currency e) = Ok cur) then re_amount e else 0) es.
Proof. unfold entries_total. by rewrite Zsum_fmap. Qed.

Lemma entries_net cur es : Forall known_direction es →
  entries_total Debit cur (entry_of <$> es) - entries_total Credit cur (entry_of <$> es) =
  Zsum (λ e, if bool_decide (char3 (re_currency e) = Ok cur) then signed_amount_of e else 0) es.
Proof.
  intros Hd. rewrite !signed_total, <- Zsum_sub. apply Zsum_ext. intros e He.
  unfold signed_amount_of, direction_of. destruct (decide (char3 (re_currency e) = Ok cur)) as [Ec|Ec].
  - rewrite (bool_decide_true (char3 _ = _)) by done. destruct (decide (re_direction e = "debit")) as [E|E].
    + rewrite !(bool_decide_true (re_direction e = _)) by done.
      rewrite bool_decide_true by done. rewrite bool_decide_false by naive_solver. lia.
    + rewrite !(bool_decide_false (re_direction e = _)) by done.
      rewrite bool_decide_false by naive_solver. rewrite bool_decide_true by done. lia.
  - rewrite !bool_decide_false; naive_solver lia.
Qed.

Lemma balanced_entries es : repair_is_balanced es = true → entries_balanced (entry_of <$> es).
Proof.
  intros (_ & Hd & Hz)%repair_is_balanced_spec cur. pose proof (entries_net cur es Hd) as E.
  enough (Zsum (λ e, if bool_decide (char3 (re_currency e) = Ok cur) then signed_amount_of e else 0) es = 0) by lia.
  rewrite (Zsum_group re_currency). apply Zsum_zero. intros c _. rewrite Zsum_filter.
  destruct (decide (char3 c = Ok cur)) as [Ec|Ec].
  - rewrite <- (Hz c). apply Zsum_ext. intros e _. destruct (decide (re_currency e = c)) as [Er|Er].
    + rewrite !bool_decide_true; congruence.
    + by rewrite bool_decide_false.
  - apply Zsum_zero. intros e _. case_decide as Er; [|done]. rewrite bool_decide_false; congruence.
Qed.

(** ** The strict schema *)
Definition property_names (out : list (string * pyval)) : result pyval :=
  sorted_keys (match dict_get "properties" out with Some v => if truthy v then v else PDict [] | None => PDict [] end).
Definition is_object (out : list (string * pyval)) : bool :=
  (bool_decide (dict_get "type" out = Some (PStr "object")) || dict_mem "properties" out)%bool.

(** What the structured-outputs API asks of an object node. *)
Definition closed (d : list (string * pyval)) : Prop :=
  is_object d = true → dict_get "additionalProperties" d = Some (PBool false) ∧
    ∃ names, property_names d = Ok names ∧ dict_get "required" d = Some names.

(** A schema it accepts: no unsupported keyword anywhere, every object closed. *)
Inductive strict : pyval → Prop :=
  | strict_leaf v : as_dict v = None → (∀ l, v ≠ PList l) → strict v
  | strict_list l : Forall strict l → strict (PList l)
  | strict_dict d : Forall (λ kv, kv.1 ∉ UNSUPPORTED_KEYWORDS ∧ strict kv.2) d → closed d → strict (PDict d).

Lemma dict_set_same {V} k (v : V) d : dict_get k d = Some v → dict_set k v d = d.
Proof.
  induction d as [|[k' v'] d IH]; [done|]. cbn. case_decide as E; [by intros [= ->]; subst|].
  intros H. by rewrite IH.
Qed.

Lemma dict_set_Forall {V} (P : string * V → Prop) k v d : P (k, v) → Forall P d → Forall P (dict_set k v d).
Proof.
  intros Hv. induction 1 as [|[k' v'] d Hx Hd IH]; [by repeat constructor|]. cbn. case_decide; by constructor.
Qed.

Lemma sorted_keys_strict v names : sorted_keys v = Ok names → strict names.
Proof.
  destruct v; cbn; try done. intros [= <-]. apply strict_list, Forall_forall.
  intros x (s & -> & _)%list_elem_of_fmap. by constructor.
Qed.

Lemma close_object_strict out v : Forall (λ kv, kv.1 ∉ UNSUPPORTED_KEYWORDS ∧ strict kv.2) out →
  close_object out = Ok v → strict v.
Proof.
  intros Hf. unfold close_object. fold (is_object out). destruct (is_object out) eqn:Eo.
  2:{ intros [= <-]. apply strict_dict; [done|]. intros H. congruence. }
  set (out1 := dict_set "additionalProperties" (PBool false) out). fold (property_names out1).
  intros (names & Hn & [= <-])%bind_Ok.
  assert ("additionalProperties" ∉ UNSUPPORTED_KEYWORDS) as K1 by (apply (bool_decide_unpack _); vm_compute; exact I).
  assert ("required" ∉ UNSUPPORTED_KEYWORDS) as K2 by (apply (bool_decide_unpack _); vm_compute; exact I).
  apply strict_dict.
  - apply dict_set_Forall; [split; [exact K2|by eapply sorted_keys_strict]|].
    apply dict_set_Forall; [split; [exact K1|by constructor]|done].
  - intros _. split.
    + rewrite dict_get_set_ne by done. apply dict_get_set_eq.
    + exists names. rewrite dict_get_set_eq. split; [|done]. rewrite <- Hn. unfold property_names.
      by rewrite dict_get_set_ne.
Qed.

Lemma strictify_strict_all v : ∀ v', _strictify v = Ok v' → strict v'.
Proof.
  induction v as [| | | | |l IH|d IH] using pyval_nested_ind; intros v'; cbn [_strictify];
    try (intros [= <-]; by constructor).
  - intros (ys & Hys & [= <-])%bind_Ok. apply strict_list. revert ys Hys.
    induction IH as [|x l Hx _ IHl]; intros ys; cbn [map_result]; [by intros [= <-]|].
    intros (y & Hy & (zs & Hzs & [= <-])%bind_Ok)%bind_Ok. constructor; [by apply Hx|by apply IHl].
  - intros (out & Hout & Hc)%bind_Ok. eapply close_object_strict; [|exact Hc]. clear Hc. revert out Hout.
    induction IH as [|[k x] d Hx _ IHd]; intros out; cbn [strictify_fields]; [by intros [= <-]|].
    case_bool_decide as Hk; [apply IHd|].
    intros (y & Hy & (rest & Hrest & [= <-])%bind_Ok)%bind_Ok. constructor; [split; [done|by apply Hx]|by apply IHd].
Qed.

Lemma strictify_fixed v : strict v → _strictify v = Ok v.
Proof.
  induction v as [| | | | |l IH|d IH] using pyval_nested_ind; intros Hs; try done; cbn [_strictify].
  - assert (Forall strict l) as Hl by (inversion Hs; subst; [naive_solver|done]). clear Hs.
    assert (map_result _strictify l = Ok l) as ->; [|done].
    induction IH as [|x l Hx _ IHl]; [done|]. apply Forall_cons in Hl as [H1 H2]. cbn [map_result].
    by rewrite (Hx H1), bind_ok_run, (IHl H2).
  - assert (Forall (λ kv, kv.1 ∉ UNSUPPORTED_KEYWORDS ∧ strict kv.2) d ∧ closed d) as [Hd Hc]
      by (inversion Hs; subst; naive_solver). clear Hs.
    assert (strictify_fields _strictify d = Ok d) as ->.
    { clear Hc. induction IH as [|[k x] d Hx _ IHd]; [done|]. apply Forall_cons in Hd as [[Hk H1] H2].
      cbn [strictify_fields fst snd] in *. rewrite bool_decide_false by done.
      by rewrite (Hx H1), bind_ok_run, (IHd H2). }
    rewrite bind_ok_run. unfold close_object. fold (is_object d). destruct (is_object d) eqn:Eo; [|done].
    destruct (Hc Eo) as (Ha & names & Hn & Hr). rewrite (dict_set_same "additionalProperties") by done.
    fold (property_names d). by rewrite Hn, bind_ok_run, dict_set_same.
Qed.

(** ** The gate and the ledger *)
Lemma gate_Ok v a : gate v a = Ok () ↔
  strip (approved_by a) ≠ "" ∧ money_is_missing v = true ∧ repair_is_balanced (proposed_repair v) = true.
Proof.
  unfold gate. split.
  - intros H. inv_ok H. by bool_to_prop.
  - intros (H1 & H2 & H3). rewrite (bool_decide_false (strip (approved_by a) = "")) by done. cbn [negb guard_or]. rewrite bind_ok_run, H2.
    cbn [guard_or]. rewrite bind_ok_run, bool_decide_false; [cbn [negb guard_or]; by rewrite bind_ok_run, H3|].
    intros E. by rewrite E in H3.
Qed.

(** What a repair needs of the chart of accounts and of the column types. *)
Definition postable (d : database) (e : RepairEntry) : Prop :=
  0 < re_amount e <= bigint_max ∧ char3 (re_currency e) = Ok (re_currency e) ∧
  ∃ a, find_account (re_account e) d = Some a ∧ acc_currency a = re_currency e.

Lemma postable_acceptable d e : postable d e → entry_acceptable d (entry_of e).
Proof. intros (H1 & H2 & a & H3 & H4). split; [done|]. exists a. cbn. by rewrite H2, H4. Qed.

Lemma acceptable_balanced d es txn : lt_entries txn = entry_of <$> es → fresh_txn d txn →
  Forall (postable d) es → Forall known_direction es →
  acceptable d txn ↔ repair_is_balanced es = true.
Proof.
  intros He Hf Hp Hd. unfold acceptable. rewrite He. split.
  - intros (_ & _ & Hb & Hl). apply repair_is_balanced_spec. split_and!; [by rewrite length_fmap in Hl|done|].
    intros cur. pose proof (entries_net cur es Hd) as E. rewrite (Hb cur) in E.
    rewrite Z.sub_diag in E. rewrite E. apply Zsum_ext. intros e Hin.
    rewrite Forall_forall in Hp. destruct (Hp e Hin) as (_ & Hc & _). rewrite Hc.
    destruct (decide (re_currency e = cur)); [rewrite !bool_decide_true|rewrite !bool_decide_false]; congruence.
  - intros Hb. split_and!; [done| |by apply balanced_entries|].
    + rewrite Forall_fmap. eapply Forall_impl; [exact Hp|]. apply postable_acceptable.
    + apply repair_is_balanced_spec in Hb as [Hl _]. by rewrite length_fmap.
Qed.

Lemma gate_Err v a e : gate v a = Err e → ∃ w, e = RepairRejected w.
Proof.
  unfold gate. destruct (negb (bool_decide (strip _ = ""))); cbn [guard_or]; [rewrite bind_ok_run|by intros [= <-]; eauto].
  destruct (money_is_missing v); cbn [guard_or]; [rewrite bind_ok_run|by intros [= <-]; eauto].
  destruct (negb _); cbn [guard_or]; [rewrite bind_ok_run|by intros [= <-]; eauto].
  destruct (repair_is_balanced _); [done|]. intros [= <-]. eauto.
Qed.

Lemma post_outcomes fates txn d : ledger_ok d → post_spec d txn (post fates txn d).1 (post fates txn d).2.
Proof.
  intros Hok. unfold post. destruct (post_transaction_attempt default_max_attempts fates [] txn d Hok) as [f ->].
  by apply attempt_spec.
Qed.
Lemma post_healthy txn d : ledger_ok d → acceptable d txn → post [] txn d = (Ok POSTED, posted_db d txn).
Proof. intros Hok Hacc. unfold post, post_transaction. by rewrite post_loop_acceptable. Qed.

Definition sample_verdict : Verdict :=
  MkVerdict Fault.DROP [] (S754_zero false) "the event was never delivered" ["revenue"] true
    [MkRepairEntry "stripe_balance" "debit" 941 "USD"; MkRepairEntry "processing_fees" "debit" 59 "USD";
     MkRepairEntry "revenue" "credit" 1000 "USD"] "post the missing charge".
Definition sample_approval : RepairApproval := MkRepairApproval "alice" "sc-1" "".

Lemma sample_postable : Forall (postable empty_db) (proposed_repair sample_verdict).
Proof. repeat constructor; try done; cbn; try lia; by eexists. Qed.

(** ** Properties *)

(** C15: nothing a model returns reaches the ledger without the gate: when
    no person is named, no money is missing or the entries do not balance, the
    call raises RepairRejected and the database is untouched; otherwise it
    changes the database by at most the one transaction of exactly the proposed
    entries, by exactly that one when it answers POSTED, and by nothing when it
    answers DUPLICATE. *)
Theorem approve_and_apply_gated fates new_id now v a o d : ledger_ok d →
  let t := repair_txn v a o new_id now in
  let '(res, d') := approve_and_apply fates new_id now v a o d in
  if decide (strip (approved_by a) ≠ "" ∧ money_is_missing v = true ∧ repair_is_balanced (proposed_repair v) = true)
  then ledger_ok d' ∧ post_spec d t res d' ∧ (d' = d ∨ d' = posted_db d t)
  else d' = d ∧ ∃ w, res = Err (RepairRejected w).
Proof.
  intros Hok. cbv zeta. unfold approve_and_apply. run. destruct (gate v a) as [[]|e] eqn:Eg.
  - pose proof (post_outcomes fates (repair_txn v a o new_id now) d Hok) as Hp.
    pose proof (post_keeps fates (repair_txn v a o new_id now) d Hok) as [Hl _].
    destruct (post fates (repair_txn v a o new_id now) d) as [res d']. cbn [fst snd] in *.
    rewrite decide_True by (by apply gate_Ok). split_and!; [done|done|].
    inversion Hp; subst; naive_solver.
  - destruct (gate_Err v a e Eg) as [w ->]. rewrite decide_False; [by eauto|].
    intros H%gate_Ok. by rewrite H in Eg.
Qed.

Lemma approve_and_apply_gated_witness :
  ledger_ok (approve_and_apply [Conflicts] "id-1" 1700000000 sample_verdict sample_approval None empty_db).2.
Proof.
  pose proof (approve_and_apply_gated [Conflicts] "id-1" 1700000000 sample_verdict sample_approval None empty_db
    empty_db_ok) as H.
  destruct (approve_and_apply _ _ _ _ _ _ _) as [res d'].
  rewrite decide_True in H; [|split_and!; vm_compute; (reflexivity || discriminate)]. exact (proj1 H).
Defined.

(** The balance check is the database's own verdict: for entries of
    known direction that name accounts of their currency with amounts in range,
    and a fresh id, posting the repair succeeds exactly when
    [repair_is_balanced] holds, and otherwise is refused and changes nothing. *)
Theorem repair_check_mirrors_database new_id now v a o d : ledger_ok d →
  Forall (postable d) (proposed_repair v) → Forall known_direction (proposed_repair v) →
  (∀ r, r ∈ transactions d → t_id r ≠ new_id) →
  let t := repair_txn v a o new_id now in
  let '(res, d') := post [] t d in
  if repair_is_balanced (proposed_repair v) then res = Ok POSTED ∧ d' = posted_db d t
  else is_ok res = false ∧ d' = d.
Proof.
  intros Hok Hp Hd Hid. cbv zeta. set (t := repair_txn v a o new_id now).
  assert (fresh_txn d t) as Hf.
  { intros r Hr. split_and!; [by apply Hid| |]; cbn; by destruct (t_event r), (t_type r). }
  pose proof (acceptable_balanced d (proposed_repair v) t eq_refl Hf Hp Hd) as Hacc.
  destruct (repair_is_balanced (proposed_repair v)).
  - rewrite post_healthy; [done..|]. by apply Hacc.
  - assert (¬ acceptable d t) as Hn by (intros H; by apply Hacc in H).
    pose proof (post_outcomes [] t d Hok) as Hs. destruct (post [] t d) as [res d']. cbn [fst snd] in Hs.
    inversion Hs as [|Hk| |x Hx]; subst; try done.
    + by apply key_taken_not_fresh in Hk.
    + destruct Hx as [-> |[? _]]; done.
Qed.

Lemma repair_check_mirrors_database_witness :
  (post [] (repair_txn sample_verdict sample_approval None "id-1" 1700000000) empty_db).1 = Ok POSTED.
Proof.
  pose proof (repair_check_mirrors_database "id-1" 1700000000 sample_verdict sample_approval None empty_db empty_db_ok
    sample_postable) as H.
  assert (repair_is_balanced (proposed_repair sample_verdict) = true) as Hb by (vm_compute; reflexivity).
  assert (Forall known_direction (proposed_repair sample_verdict)) as Hd
    by (repeat constructor; apply (bool_decide_unpack _); vm_compute; exact I).
  specialize (H Hd). rewrite Hb in H. cbv zeta in H.
  destruct (post [] (repair_txn sample_verdict sample_approval None "id-1" 1700000000) empty_db) as [res d'].
  refine (proj1 (H _)). intros r Hr. destruct (proj1 (elem_of_nil r) Hr).
Defined.

(** C39: whatever schema it is given, the transform returns one the
    structured-outputs API accepts: no unsupported keyword at any depth, and
    every object node closed, with all its properties required in order; and it
    leaves such a schema as it is, so that it is idempotent. *)
Theorem strictify_strict v v' : _strictify v = Ok v' → strict v' ∧ _strictify v' = Ok v'.
Proof. intros H%strictify_strict_all. split; [done|by apply strictify_fixed]. Qed.

Definition sample_schema : pyval :=
  PDict [("type", PStr "object"); ("properties", PDict [
    ("confidence", PDict [("maximum", PInt 1); ("minimum", PInt 0); ("type", PStr "number")]);
    ("affected_accounts", PDict [("default", PList []); ("items", PDict [("type", PStr "string")]); ("type", PStr "array")])]);
    ("required", PList [PStr "confidence"])].

Lemma strictify_strict_witness : ∃ v', _strictify sample_schema = Ok v' ∧ strict v'.
Proof.
  assert (∃ v', _strictify sample_schema = Ok v') as [v' E] by (eexists; vm_compute; reflexivity).
  exists v'. split; [exact E|]. exact (proj1 (strictify_strict sample_schema v' E)).
Defined.
