(* ===== verification/Bench.v ===== *)
(** src/ledgerproof/triage/bench.py: the labelled cases, the split, the scoring
    of verdicts and of repairs, the price of a call and the spending cap; and
    the choice of pilot cases of scripts/run_pilot.py.  The report is in Sweep.v. *)
From Stdlib Require Import SpecFloat QArith Qround Lqa.
From S2P Require Import Prelude PyVal Json Ledger Post Balances Handlers Gcra Recon Prompts Triage.
#[local] Open Scope Z_scope.

(** ** Cases *)
Definition ACCOUNT_NORMALS : list (string * string) := [
  ("stripe_balance", "debit"); ("bank", "debit"); ("processing_fees", "debit"); ("dispute_losses", "debit");
  ("refunds_contra", "debit"); ("revenue", "credit"); ("customer_liability", "credit")].

Record Case := MkCase {
  case_id : string; evidence : pyval; label_fault : string; label_kind : string; money_was_missing : bool;
  c_expected_delta : gmap string Z; observed_delta : gmap string Z; repairable : bool; stratum : string }.

(** A line ends at any of these, or at a carriage return and line feed. *)
Definition is_line_end (c : ascii) : bool :=
  let z := code c in ((10 <=? z) && (z <=? 13) || (28 <=? z) && (z <=? 30))%bool.
Fixpoint splitlines_chars (l cur : list ascii) : list (list ascii) :=
  match l with
  | [] => match cur with [] => [] | _ => [rev cur] end
  | c :: l =>
      if is_line_end c then
        rev cur ::
        match l with
        | c' :: l' => if ((code c =? 13) && (code c' =? 10))%bool then splitlines_chars l' [] else splitlines_chars l []
        | [] => splitlines_chars l []
        end
      else splitlines_chars l (c :: cur)
  end.
Definition splitlines (s : string) : list string := of_chars <$> splitlines_chars (chars s) [].

(** A decoded field that the dataclass declares a string, or a map to integers. *)
Definition str_field (v : pyval) : result string := of_option (IllTyped "not a string") (as_str v).
Definition int_field (v : pyval) : result Z :=
  match v with PInt z => Ok z | _ => Err (IllTyped "not an integer") end.
Definition int_map (v : pyval) : result (gmap string Z) :=
  d ← of_option (IllTyped "not a map") (PyVal.as_dict v);
  kvs ← map_result (λ kv : string * pyval, z ← int_field kv.2; mret (kv.1, z)) d;
  mret (list_to_map kvs).

(** [(record.get("kinds") or ["unknown"])[0]] *)
Definition first_kind (record : pyval) : result string :=
  kinds ← py_get record "kinds";
  if truthy kinds then
    match kinds with PList (k :: _) => str_field k | _ => Err (IllTyped "kinds is not a list") end
  else Ok "unknown".

Definition or_empty (v : pyval) : pyval := if truthy v then v else PDict [].

Definition load_case (record : pyval) : result Case :=
  label ← py_get record "label"; let label := or_empty label in
  id ← py_index record "scenario_id"; id ← str_field id; ev ← build_case record;
  fault ← py_index record "fault"; fault ← str_field fault; kind ← first_kind record;
  after ← py_get_default record "invariant_after" (PBool true); breaks ← py_get record "breaks";
  delta ← py_get label "balances_delta"; expected ← int_map (or_empty delta);
  mret (MkCase id ev fault kind (negb (truthy after) || truthy breaks)%bool expected ∅ true "classification").

Definition load_repair_case (record : pyval) : result Case :=
  label ← py_index record "repair_label";
  mutation ← py_index label "mutation"; mutation ← str_field mutation;
  id ← py_index record "scenario_id"; id ← str_field id; ev ← build_case record;
  fault ← py_index record "fault"; fault ← str_field fault; kind ← first_kind record;
  expected ← py_index label "expected_balances_delta"; expected ← int_map expected;
  observed ← py_index label "observed_balances_delta"; observed ← int_map observed;
  repairable ← py_index label "repairable_by_compensating_transaction";
  mret (MkCase (mutation +:+ "::" +:+ id) ev fault kind true expected observed (truthy repairable) mutation).

(** The loop over the lines of an artifact: blank lines and records of crashed
    scenarios are skipped. *)
Fixpoint load_lines (load : pyval → result Case) (lines : list string) : result (list Case) :=
  match lines with
  | [] => Ok []
  | line :: lines =>
      if bool_decide (strip line = "") then load_lines load lines
      else
        record ← of_option (ValueError "JSONDecodeError") (json_loads line);
        error ← py_get record "error";
        if truthy error then load_lines load lines
        else c ← load record; cs ← load_lines load lines; mret (c :: cs)
  end.
Definition load_cases (artifact : string) : result (list Case) := load_lines load_case (splitlines artifact).
Definition load_repair_cases (artifact : string) : result (list Case) := load_lines load_repair_case (splitlines artifact).

(** ** Repairs *)
Definition apply_entry (result : gmap string Z) (e : RepairEntry) : gmap string Z :=
  match dict_get (re_account e) ACCOUNT_NORMALS with
  | None => <[re_account e := default 0 (result !! re_account e)]> result
  | Some normal =>
      let signed := if bool_decide (re_direction e = normal) then re_amount e else - re_amount e in
      <[re_account e := default 0 (result !! re_account e) + signed]> result
  end.
Definition apply_repair (observed : gmap string Z) (entries : list RepairEntry) : gmap string Z :=
  nonzero (foldl apply_entry observed entries).

Definition repair_restores_expected_balances (c : Case) (v : Verdict) : bool :=
  if (bool_decide (proposed_repair v = []) || negb (repair_is_balanced (proposed_repair v)))%bool then false
  else bool_decide (apply_repair (observed_delta c) (proposed_repair v) = nonzero (c_expected_delta c)).

(** ** Balance of the classes and the split *)
Definition counter (l : list string) : list (string * Z) :=
  foldl (λ m x, dict_set x (default 0 (dict_get x m) + 1) m) [] l.
Definition class_balance (cases : list Case) : list (string * Z) := sort_items (counter (label_fault <$> cases)).

Definition group_by_fault (cases : list Case) : list (string * list Case) :=
  foldl (λ m c, dict_set (label_fault c) (default [] (dict_get (label_fault c) m) ++ [c]) m) [] cases.

Definition case_le (c d : Case) : Prop := string_le (case_id c) (case_id d).
#[export] Instance case_le_dec : RelDecision case_le.
Proof. intros c d. unfold case_le. apply _. Defined.

(** [round(q)]: to the nearest integer, halves to even. *)
Definition py_round (q : Q) : Z :=
  let f := Qfloor q in
  let twice := (2 * (q - inject_Z f))%Q in
  if f_lt twice 1%Q then f else if f_lt 1%Q twice then f + 1 else if Z.even f then f else f + 1.

Definition n_test (n : nat) (test_fraction : spec_float) : result Z :=
  q ← sf_to_Q (f_mul (f_of_Z (Z.of_nat n)) test_fraction); mret (Z.max 1 (py_round q)).

(** [shuffle fault] is what [rng.shuffle] makes of the sorted items of a fault;
    the generator is seeded, so it is a function of the fault's turn. *)
Fixpoint split_faults (shuffle : string → list Case → list Case) (test_fraction : spec_float)
    (by_fault : list (string * list Case)) (faults : list string) : result (list Case * list Case) :=
  match faults with
  | [] => Ok ([], [])
  | fault :: faults =>
      let items := shuffle fault (merge_sort case_le (default [] (dict_get fault by_fault))) in
      n ← n_test (length items) test_fraction;
      rest ← split_faults shuffle test_fraction by_fault faults;
      mret (drop (Z.to_nat n) items ++ rest.1, take (Z.to_nat n) items ++ rest.2)
  end.
Definition stratified_split (shuffle : string → list Case → list Case) (test_fraction : spec_float)
    (cases : list Case) : result (list Case * list Case) :=
  let by_fault := group_by_fault cases in
  split_faults shuffle test_fraction by_fault (sort_strings by_fault.*1).

(** ** Scoring *)
Record Scored := MkScored {
  s_case_id : string; s_label_fault : string; predicted : option string; ranked : list string;
  correct_at_1 : bool; correct_at_3 : bool; s_confidence : spec_float; latency_s : spec_float; cost_usd : spec_float;
  s_proposed_repair : bool; repair_balanced : bool; over_repair : bool; refused : bool;
  repair_correct : option bool; false_repair : option bool; claimed_to_fix_the_unfixable : option bool }.

Definition score (c : Case) (verdict : option Verdict) (latency cost : spec_float) (was_refused : bool) : Scored :=
  match verdict with
  | None => MkScored (case_id c) (label_fault c) None [] false false (S754_zero false) latency cost
              false false false was_refused None None None
  | Some v =>
      let ranks := Fault.value (fault_class v) :: (Fault.value <$> alternate_fault_classes v) in
      let proposed := (negb (bool_decide (proposed_repair v = [])) && money_is_missing v)%bool in
      let balanced := (proposed && repair_is_balanced (proposed_repair v))%bool in
      let '(correct, false_repair, unfixable) :=
        if money_was_missing c then
          let correct := repair_restores_expected_balances c v in
          let wrong := (balanced && negb correct)%bool in
          if repairable c then (Some correct, Some wrong, None)
          else ((if proposed then Some false else None), Some wrong, Some proposed)
        else (None, None, None) in
      MkScored (case_id c) (label_fault c) (Some (Fault.value (fault_class v))) ranks
        (bool_decide (head ranks = Some (label_fault c))) (bool_decide (label_fault c ∈ take 3 ranks))
        (confidence v) latency cost proposed balanced (proposed && negb (money_was_missing c))%bool was_refused
        correct false_repair unfixable
  end.

Definition _confusion (scored : list Scored) : list (string * list (string * Z)) :=
  let matrix := foldl (λ m s,
    match predicted s with
    | None => m
    | Some p =>
        let row := default [] (dict_get (s_label_fault s) m) in
        dict_set (s_label_fault s) (dict_set p (default 0 (dict_get p row) + 1) row) m
    end) [] scored in
  (λ kv, (kv.1, sort_items kv.2)) <$> sort_items matrix.

(** ** Cost *)
Section cost.
Context {F : Type} `{Arith F}.
Local Notation num := (f_of_Z (F := F)).

Definition PRICING : list (string * (F * F)) :=
  [(OPUS, (num 5, num 25)); (SONNET, (num 3, num 15)); (HAIKU, (num 1, num 5))].
Definition CACHE_READ_MULTIPLIER : F := f_div (num 1) (num 10).
Definition CACHE_WRITE_MULTIPLIER : F := f_div (num 5) (num 4).
Definition BATCH_MULTIPLIER : F := f_div (num 1) (num 2).

Definition call_cost (model : string) (usage : list (string * Z)) (batch : bool) : result F :=
  rates ← of_option (KeyError model) (dict_get model PRICING);
  let '(in_rate, out_rate) := rates in
  let tokens k := num (default 0 (dict_get k usage)) in
  let uncached := f_mul (tokens "input_tokens") in_rate in
  let cache_read := f_mul (f_mul (tokens "cache_read_input_tokens") in_rate) CACHE_READ_MULTIPLIER in
  let cache_write := f_mul (f_mul (tokens "cache_creation_input_tokens") in_rate) CACHE_WRITE_MULTIPLIER in
  let output := f_mul (tokens "output_tokens") out_rate in
  let total := f_div (f_add (f_add (f_add uncached cache_read) cache_write) output) (num 1000000) in
  mret (f_mul total (if batch then BATCH_MULTIPLIER else num 1)).

(** The guard; [calls_log] stands for the lines appended to the usage log. *)
Record BudgetGuard := MkBudgetGuard {
  cap_usd : F; spent_usd : F; calls : Z; calls_log : list (string * bool * list (string * Z) * F) }.

Definition budget_check (projected : F) : stx BudgetGuard () := λ g,
  if f_lt (cap_usd g) (f_add (spent_usd g) projected) then (Err BudgetExceeded, g) else (Ok (), g).
Definition record (model : string) (usage : list (string * Z)) (batch : bool) : stx BudgetGuard F :=
  cost ← lift (call_cost model usage batch);
  _ ← modify (λ g, MkBudgetGuard (cap_usd g) (f_add (spent_usd g) cost) (calls g + 1)
                     (calls_log g ++ [(model, batch, usage, cost)]));
  mret cost.

(** One turn of the loops that spend: check, call, record. *)
Definition guarded_call (projected : F) (model : string) (usage : list (string * Z)) (batch : bool) : stx BudgetGuard F :=
  _ ← budget_check projected; record model usage batch.
End cost.
Arguments BudgetGuard F : clear implicits.

(** ** scripts/run_pilot.py *)

(** One pass of the inner loop: the last item of each non-empty class, while
    fewer than [n] are picked. *)
Fixpoint pick_pass (n : nat) (faults : list string) (by_fault : list (string * list Case)) (picked : list Case)
    : list (string * list Case) * list Case :=
  match faults with
  | [] => (by_fault, picked)
  | fault :: faults =>
      let items := default [] (dict_get fault by_fault) in
      match last items with
      | Some c =>
          if (length picked <? n)%nat
          then pick_pass n faults (dict_set fault (take (length items - 1) items) by_fault) (picked ++ [c])
          else pick_pass n faults by_fault picked
      | None => pick_pass n faults by_fault picked
      end
  end.
Definition any_left (faults : list string) (by_fault : list (string * list Case)) : bool :=
  existsb (λ f, negb (bool_decide (default [] (dict_get f by_fault) = []))) faults.
Fixpoint pick_loop (fuel n : nat) (faults : list string) (by_fault : list (string * list Case)) (picked : list Case)
    : option (list Case) :=
  match fuel with
  | O => None
  | S fuel =>
      if ((length picked <? n)%nat && any_left faults by_fault)%bool then
        let '(by_fault, picked) := pick_pass n faults by_fault picked in pick_loop fuel n faults by_fault picked
      else Some picked
  end.
Definition pick (fuel : nat) (shuffle : string → list Case → list Case) (cases : list Case) (n : nat) : option (list Case) :=
  let by_fault := (λ kv, (kv.1, shuffle kv.1 kv.2)) <$> group_by_fault cases in
  pick_loop fuel n (sort_strings by_fault.*1) by_fault [].

(** ** Applying a repair and posting it *)






(** ** The split *)
Definition with_fault (f : string) (cases : list Case) : list Case := filter (λ c, label_fault c = f) cases.

Lemma group_get cases : ∀ m f,
  default [] (dict_get f (foldl (λ m c, dict_set (label_fault c) (default [] (dict_get (label_fault c) m) ++ [c]) m) m cases)) =
  default [] (dict_get f m) ++ with_fault f cases.
Proof.
  unfold with_fault. induction cases as [|c cs IH]; intros m f; cbn [foldl]; [by rewrite app_nil_r|].
  rewrite IH, filter_cons. destruct (decide (label_fault c = f)) as [E|Hne].
  - subst f. rewrite dict_get_set_eq. cbn [from_option id]. by rewrite <- app_assoc.
  - by rewrite dict_get_set_ne by done.
Qed.

Lemma group_by_fault_get f cases : default [] (dict_get f (group_by_fault cases)) = with_fault f cases.
Proof. unfold group_by_fault. by rewrite group_get. Qed.

Lemma group_keys cases : ∀ m : list (string * list Case), NoDup m.*1 →
  let g := foldl (λ m c, dict_set (label_fault c) (default [] (dict_get (label_fault c) m) ++ [c]) m) m cases in
  NoDup g.*1 ∧ ∀ f, f ∈ g.*1 ↔ f ∈ m.*1 ∨ f ∈ label_fault <$> cases.
Proof.
  induction cases as [|c cs IH]; intros m Hnd; cbn [foldl]; [split; [done|set_solver]|].
  destruct (IH _ (dict_set_NoDup (label_fault c) (default [] (dict_get (label_fault c) m) ++ [c]) m Hnd)) as [H1 H2].
  split; [done|]. intros f. rewrite H2, dict_set_keys, fmap_cons, elem_of_cons. case_decide; [set_solver|].
  rewrite elem_of_app, list_elem_of_singleton. tauto.
Qed.

Lemma bind_filter_cons (faults : list string) (c : Case) cs : NoDup faults → label_fault c ∈ faults →
  (faults ≫= λ f, with_fault f (c :: cs)) ≡ₚ c :: (faults ≫= λ f, with_fault f cs).
Proof.
  assert (∀ l, label_fault c ∉ l → (l ≫= λ f, with_fault f (c :: cs)) = (l ≫= λ f, with_fault f cs)) as Hno.
  { induction l as [|g l IH]; intros Hn; [done|]. rewrite !bind_cons, IH by set_solver.
    unfold with_fault. rewrite filter_cons_False; [done|set_solver]. }
  induction faults as [|g l IH]; intros Hnd Hin; [by apply elem_of_nil in Hin|].
  apply NoDup_cons in Hnd as [Hg Hnd]. rewrite !bind_cons. destruct (decide (label_fault c = g)) as [E|Hne].
  - rewrite Hno by congruence. unfold with_fault at 1. by rewrite filter_cons_True.
  - apply elem_of_cons in Hin as [|Hin]; [done|]. rewrite IH by done.
    unfold with_fault at 1. rewrite filter_cons_False by done. by rewrite Permutation_middle.
Qed.

Lemma groups_partition faults cases : NoDup faults → (∀ c, c ∈ cases → label_fault c ∈ faults) →
  (faults ≫= λ f, with_fault f cases) ≡ₚ cases.
Proof.
  intros Hnd. induction cases as [|c cs IH]; intros H.
  - assert ((faults ≫= λ f, with_fault f []) = []) as ->; [|done]. apply bind_nil. done.
  - rewrite bind_filter_cons by (done || apply H; left). rewrite IH; [done|]. intros c' Hc'. apply H. by right.
Qed.

Section split.
Context (shuffle : string → list Case → list Case) (test_fraction : spec_float).
Context (Hshuffle : ∀ f l, shuffle f l ≡ₚ l).

Lemma split_faults_spec cases faults :
  (∀ n, (n <= length cases)%nat → is_ok (n_test n test_fraction) = true) →
  ∃ train test, split_faults shuffle test_fraction (group_by_fault cases) faults = Ok (train, test) ∧
    train ++ test ≡ₚ (faults ≫= λ f, with_fault f cases) ∧
    (∀ f, f ∈ faults → with_fault f cases ≠ [] → ∃ c, c ∈ test ∧ label_fault c = f).
Proof.
  intros Hn. induction faults as [|f l (train & test & E & Hp & Ht)].
  { exists [], []. split_and!; [done|done|]. by intros f ?%elem_of_nil. }
  cbn [split_faults]. cbv zeta. rewrite group_by_fault_get.
  set (items := shuffle f _).
  assert (items ≡ₚ with_fault f cases) as Hitems by (subst items; by rewrite Hshuffle, merge_sort_Permutation).
  assert (length items <= length cases)%nat as Hlen by (rewrite Hitems; apply length_filter).
  pose proof (Hn _ Hlen) as Hok. destruct (n_test (length items) test_fraction) as [n|] eqn:En; [|done]. clear Hok.
  assert (1 <= n) as Hpos by (unfold n_test in En; inv_ok En; simplify_eq/=; lia).
  rewrite bind_ok_run, E, bind_ok_run. cbn [fst snd]. eexists _, _. split_and!; [done| |].
  - rewrite bind_cons, <- Hitems, <- Hp. transitivity ((take (Z.to_nat n) items ++ drop (Z.to_nat n) items) ++ train ++ test);
      [|by rewrite take_drop].
    rewrite <- !app_assoc, (Permutation_app_swap_app train). apply Permutation_app_swap_app.
  - intros g [-> |Hg]%elem_of_cons Hne.
    + destruct items as [|c k] eqn:Ei; [apply Permutation_nil_l in Hitems; congruence|].
      exists c. split.
      * apply elem_of_app. left. destruct (Z.to_nat n) eqn:Ez; [lia|]. left.
      * assert (c ∈ with_fault f cases) as Hc by (rewrite <- Hitems; left). by apply list_elem_of_filter in Hc as [? _].
    + destruct (Ht g Hg Hne) as (c & Hc & ?). exists c. split; [apply elem_of_app; by right|done].
Qed.
End split.

(** ** The pilot's choice ends *)
Lemma pick_pass_length n faults : ∀ by_fault picked,
  (length picked <= length (pick_pass n faults by_fault picked).2)%nat.
Proof.
  induction faults as [|f l IH]; intros m picked; cbn [pick_pass]; [done|].
  destruct (last _); [case_match|]; etrans; [|apply IH| |apply IH| |apply IH]; rewrite ?length_app; lia.
Qed.

Lemma pick_pass_progress n faults : ∀ by_fault picked, (length picked < n)%nat → any_left faults by_fault = true →
  (length picked < length (pick_pass n faults by_fault picked).2)%nat.
Proof.
  induction faults as [|f l IH]; intros m picked Hn; [done|]. unfold any_left. cbn [existsb pick_pass].
  destruct (last (default [] (dict_get f m))) as [c|] eqn:El.
  - intros _. rewrite (proj2 (Nat.ltb_lt _ _) Hn).
    eapply Nat.lt_le_trans; [|apply pick_pass_length]. rewrite length_app. cbn. lia.
  - apply last_None in El. rewrite El, bool_decide_true by done. cbn. apply IH; done.
Qed.

(** [n + 1] passes are enough. *)
Lemma pick_ends fuel shuffle cases n : (n < fuel)%nat → pick fuel shuffle cases n ≠ None.
Proof.
  unfold pick. intros Hf. set (faults := sort_strings _). set (m := _ <$> _). clearbody m faults.
  assert (∀ fuel m picked, (n - length picked < fuel)%nat → pick_loop fuel n faults m picked ≠ None) as H.
  { clear. induction fuel as [|fuel IH]; intros m picked Hf; [lia|]. cbn [pick_loop].
    destruct (Nat.ltb_spec (length picked) n) as [Hn|Hn]; cbn [andb]; [|done].
    destruct (any_left faults m) eqn:Ea; [|done].
    pose proof (pick_pass_progress n faults m picked Hn Ea). destruct (pick_pass n faults m picked) as [m' p'].
    cbn [snd] in *. apply IH. lia. }
  apply H. cbn. lia.
Qed.

(** ** The cap *)
Lemma Q_lt_false x y : f_lt (F := Q) x y = false → (y <= x)%Q.
Proof. cbn. intros H%negb_false_iff. by apply Qle_bool_iff. Qed.

(** ** Properties *)

Definition sample_case : Case :=
  MkCase "DROP::sc-1" PNone "DROP" "charge" true
    {["stripe_balance" := 941; "processing_fees" := 59; "revenue" := 1000]} ∅ true "DROP".

(** What the ledger asks of an entry that the score does not: an amount of the column's
    range, an account of the chart, and the currency of the accounts. *)
Definition bookable (e : RepairEntry) : Prop :=
  0 < re_amount e <= bigint_max ∧ re_account e ∈ ACCOUNT_NORMALS.*1 ∧ char3 (re_currency e) = Ok "USD".
#[export] Instance bookable_dec e : base.Decision (bookable e).
Proof. unfold bookable. apply _. Defined.



(** Nothing observed, 100 expected in the bank; the repair balances it against an account
    that does not exist. *)
Definition unbookable_case : Case := MkCase "DROP::sc-2" PNone "DROP" "charge" true {["bank" := 100]} ∅ true "DROP".
Definition unbookable_verdict : Verdict :=
  MkVerdict Fault.DROP [] (S754_zero false) "" ["bank"] true
    [MkRepairEntry "bank" "debit" 100 "USD"; MkRepairEntry "suspense" "credit" 100 "USD"] "".
Lemma unbookable_scored : repair_restores_expected_balances unbookable_case unbookable_verdict = true ∧
  (approve_and_apply [] "id-1" 1700000000 unbookable_verdict sample_approval None empty_db).1 = Err (ValueError "unknown account").
Proof. split; vm_compute; reflexivity. Qed.


(** The stratified split is a partition: it returns two halves that
    together are the cases, each once, and every fault class among the cases has
    a case in the test half. *)
Theorem stratified_split_partitions shuffle test_fraction cases :
  (∀ f l, shuffle f l ≡ₚ l) → (∀ n, (n <= length cases)%nat → is_ok (n_test n test_fraction) = true) →
  ∃ train test, stratified_split shuffle test_fraction cases = Ok (train, test) ∧ train ++ test ≡ₚ cases ∧
    ∀ c, c ∈ cases → ∃ c', c' ∈ test ∧ label_fault c' = label_fault c.
Proof.
  intros Hs Hn. unfold stratified_split.
  destruct (group_keys cases [] (NoDup_nil_2)) as [Hnd Hkeys]. fold (group_by_fault cases) in Hnd, Hkeys.
  destruct (split_faults_spec shuffle test_fraction Hs cases (sort_strings (group_by_fault cases).*1) Hn)
    as (train & test & E & Hp & Ht).
  assert (∀ c, c ∈ cases → label_fault c ∈ sort_strings (group_by_fault cases).*1) as Hin.
  { intros c Hc. apply sort_strings_elem, Hkeys. right. by apply list_elem_of_fmap_2. }
  exists train, test. split_and!; [done| |].
  - rewrite Hp. apply groups_partition; [|done]. unfold sort_strings. by rewrite merge_sort_Permutation.
  - intros c Hc. apply Ht; [by apply Hin|]. intros E'. apply (not_elem_of_nil c). rewrite <- E'.
    by apply list_elem_of_filter.
Qed.

Definition two_fifths : spec_float := SFdiv 53 1024 (f_of_Z 2) (f_of_Z 5).

Lemma stratified_split_partitions_witness :
  ∃ train test, stratified_split (λ _ l, l) two_fifths [sample_case; sample_case] = Ok (train, test) ∧
    train ++ test ≡ₚ [sample_case; sample_case].
Proof.
  destruct (stratified_split_partitions (λ _ l, l) two_fifths [sample_case; sample_case]) as (train & test & H1 & H2 & _).
  - intros _ l. reflexivity.
  - intros n Hn. destruct n as [|[|[|n]]]; [vm_compute; reflexivity..|]. cbn in Hn. lia.
  - exists train, test. exact (conj H1 H2).
Defined.

(** A call is refused before it is made when what is spent plus its
    projected price passes the cap, and then nothing is recorded; a call that is
    made leaves the total at most the cap plus what its price exceeds the
    projection by, so calls priced at or below their projection never pass the
    cap.  Sums are exact here, rationals for the doubles of the code. *)
Theorem guarded_call_respects_cap projected model usage batch (g : BudgetGuard Q) :
  match guarded_call projected model usage batch g with
  | (Ok cost, g') => cap_usd g' = cap_usd g ∧ calls g' = calls g + 1 ∧ (spent_usd g' == spent_usd g + cost)%Q ∧
      (spent_usd g' <= cap_usd g + (cost - projected))%Q
  | (Err e, g') => g' = g ∧ ((e = BudgetExceeded ∧ (cap_usd g < spent_usd g + projected)%Q) ∨
                             (e = KeyError model ∧ model ∉ FRONTIER_MODELS))
  end.
Proof.
  unfold guarded_call, budget_check, record. run.
  destruct (f_lt (cap_usd g) (f_add (spent_usd g) projected)) eqn:El.
  { split; [done|]. left. split; [done|]. cbn in El. apply negb_true_iff in El.
    apply Qnot_le_lt. intros H%Qle_bool_iff. congruence. }
  apply Q_lt_false in El. run. unfold call_cost.
  destruct (dict_get model PRICING) as [[i o]|] eqn:Ep; cbn [of_option].
  - rewrite bind_ok_run. run. cbn [cap_usd calls spent_usd]. split_and!; [done|done|reflexivity|].
    cbn in El |- *. revert El. generalize (spent_usd g) (cap_usd g). intros sp cp El.
    match goal with |- (_ + ?x <= _)%Q => generalize x end. intros x. lra.
  - split; [done|]. right. split; [done|]. apply dict_get_None in Ep. exact Ep.
Qed.
