(* ===== verification/Events.v ===== *)
(** harness/events.py: the Stripe event fixtures of the chaos harness with their
    ground-truth deltas.  [clock] is the reading of time.time() taken when no
    creation time is given. *)
From S2P Require Import Prelude PyVal Json Hash Ledger Post Balances Mapping.
#[local] Open Scope Z_scope.

Definition ACCOUNT_NORMALS : list (string * string) := [
  ("stripe_balance", "debit"); ("bank", "debit"); ("processing_fees", "debit"); ("dispute_losses", "debit");
  ("refunds_contra", "debit"); ("revenue", "credit"); ("customer_liability", "credit")].

Definition ALL_KINDS : list string :=
  ["charge_succeeded"; "charge_refunded"; "dispute_created"; "payout_paid"; "invoice_payment_failed"].

Definition _API_VERSION : string := "2025-06-30.basil".

Record EventFixture := MkEventFixture { fx_event : pyval; fx_kind : string; fx_delta : gmap string Z }.

Definition fixture_id (fx : EventFixture) : result string :=
  id ← py_index (fx_event fx) "id"; of_option (IllTyped "event id") (as_str id).

Definition serialize (event : pyval) : string := json_dumps event.

(** ** Deltas *)
Definition signed_delta (account dir_ : string) (amount_minor : Z) : result Z :=
  normal ← of_option (KeyError account) (dict_get account ACCOUNT_NORMALS);
  mret (if bool_decide (dir_ = normal) then amount_minor else - amount_minor).

Fixpoint delta_loop (entries : list (string * string * Z)) (totals : gmap string Z) : result (gmap string Z) :=
  match entries with
  | [] => Ok totals
  | (account, dir_, amount) :: entries =>
      if amount =? 0 then delta_loop entries totals
      else
        s ← signed_delta account dir_ amount;
        delta_loop entries (<[account := default 0 (totals !! account) + s]> totals)
  end.
Definition _delta (entries : list (string * string * Z)) : result (gmap string Z) := delta_loop entries ∅.

Definition _now (created : option Z) (clock : Z) : Z := default clock created.

(** [base.split("_", 1)[1]], or the base without an underscore. *)
Definition _sibling_id (base prefix : string) : string :=
  let '(_, found, suffix) := partition "_" base in
  prefix +:+ "_" +:+ (if found then suffix else base).

(** ** Payloads *)
Definition _envelope (event_id event_type : string) (obj : pyval) (created : Z) : pyval :=
  PDict [("id", PStr event_id); ("object", PStr "event"); ("api_version", PStr _API_VERSION);
    ("created", PInt created); ("data", PDict [("object", obj)]); ("livemode", PBool false);
    ("pending_webhooks", PInt 1); ("request", PDict [("id", PNone); ("idempotency_key", PNone)]);
    ("type", PStr event_type)].

Definition _balance_transaction (bt_id source : string) (amount fee created : Z)
    (currency reporting_category bt_type : string) : pyval :=
  PDict [("id", PStr bt_id); ("object", PStr "balance_transaction"); ("amount", PInt amount);
    ("available_on", PInt (created + 172800)); ("created", PInt created); ("currency", PStr currency);
    ("description", PNone); ("exchange_rate", PNone); ("fee", PInt fee);
    ("fee_details", PList (if negb (fee =? 0) then
       [PDict [("amount", PInt fee); ("application", PNone); ("currency", PStr currency);
               ("description", PStr "Stripe processing fees"); ("type", PStr "stripe_fee")]] else []));
    ("net", PInt (amount - fee)); ("reporting_category", PStr reporting_category); ("source", PStr source);
    ("status", PStr "available"); ("type", PStr bt_type)].

Definition refund_list (charge_id : string) (data : list pyval) (total : Z) : pyval :=
  PDict [("object", PStr "list"); ("data", PList data); ("has_more", PBool false); ("total_count", PInt total);
         ("url", PStr ("/v1/charges/" +:+ charge_id +:+ "/refunds"))].

Definition make_charge_succeeded (event_id charge_id : string) (amount fee : Z) (created : option Z)
    (currency : string) (clock : Z) : result EventFixture :=
  let created := _now created clock in
  let obj := PDict [("id", PStr charge_id); ("object", PStr "charge"); ("amount", PInt amount);
    ("amount_captured", PInt amount); ("amount_refunded", PInt 0); ("application_fee_amount", PNone);
    ("balance_transaction", _balance_transaction (_sibling_id charge_id "txn") charge_id amount fee created currency
                              "charge" "charge");
    ("captured", PBool true); ("created", PInt created); ("currency", PStr currency);
    ("customer", PStr (_sibling_id charge_id "cus")); ("description", PStr "LedgerProof chaos harness");
    ("disputed", PBool false); ("failure_code", PNone); ("failure_message", PNone); ("livemode", PBool false);
    ("metadata", PDict []); ("paid", PBool true); ("payment_intent", PStr (_sibling_id charge_id "pi"));
    ("payment_method", PStr (_sibling_id charge_id "pm"));
    ("payment_method_details", PDict [
       ("card", PDict [("brand", PStr "visa"); ("country", PStr "US"); ("exp_month", PInt 12); ("exp_year", PInt 2030);
                       ("funding", PStr "credit"); ("last4", PStr "4242"); ("network", PStr "visa")]);
       ("type", PStr "card")]);
    ("refunded", PBool false); ("refunds", refund_list charge_id [] 0); ("status", PStr "succeeded")] in
  delta ← _delta [("stripe_balance", "debit", amount - fee); ("processing_fees", "debit", fee); ("revenue", "credit", amount)];
  mret (MkEventFixture (_envelope event_id "charge.succeeded" obj created) "charge_succeeded" delta).

Definition make_charge_refunded (event_id charge_id refund_id : string) (amount refunded : Z) (created : option Z)
    (currency : string) (clock : Z) : result EventFixture :=
  let created := _now created clock in
  let refund := PDict [("id", PStr refund_id); ("object", PStr "refund"); ("amount", PInt refunded);
    ("balance_transaction", PStr (_sibling_id refund_id "txn")); ("charge", PStr charge_id); ("created", PInt created);
    ("currency", PStr currency); ("metadata", PDict []); ("payment_intent", PStr (_sibling_id charge_id "pi"));
    ("reason", PNone); ("receipt_number", PNone); ("status", PStr "succeeded")] in
  let obj := PDict [("id", PStr charge_id); ("object", PStr "charge"); ("amount", PInt amount);
    ("amount_captured", PInt amount); ("amount_refunded", PInt refunded); ("captured", PBool true);
    ("created", PInt created); ("currency", PStr currency); ("customer", PStr (_sibling_id charge_id "cus"));
    ("disputed", PBool false); ("livemode", PBool false); ("metadata", PDict []); ("paid", PBool true);
    ("payment_intent", PStr (_sibling_id charge_id "pi")); ("refunded", PBool (amount <=? refunded));
    ("refunds", refund_list charge_id [refund] 1); ("status", PStr "succeeded")] in
  delta ← _delta [("refunds_contra", "debit", refunded); ("stripe_balance", "credit", refunded)];
  mret (MkEventFixture (_envelope event_id "charge.refunded" obj created) "charge_refunded" delta).

Definition make_dispute_created (event_id dispute_id charge_id : string) (amount fee : Z) (created : option Z)
    (currency : string) (clock : Z) : result EventFixture :=
  let created := _now created clock in
  let obj := PDict [("id", PStr dispute_id); ("object", PStr "dispute"); ("amount", PInt amount);
    ("balance_transactions", PList [_balance_transaction (_sibling_id dispute_id "txn") dispute_id (- amount) fee created
                                      currency "dispute" "adjustment"]);
    ("charge", PStr charge_id); ("created", PInt created); ("currency", PStr currency);
    ("evidence_details", PDict [("due_by", PInt (created + 604800)); ("has_evidence", PBool false);
                                ("past_due", PBool false); ("submission_count", PInt 0)]);
    ("is_charge_refundable", PBool false); ("livemode", PBool false); ("metadata", PDict []);
    ("payment_intent", PStr (_sibling_id charge_id "pi")); ("reason", PStr "fraudulent");
    ("status", PStr "needs_response")] in
  delta ← _delta [("dispute_losses", "debit", amount); ("processing_fees", "debit", fee);
                  ("stripe_balance", "credit", amount + fee)];
  mret (MkEventFixture (_envelope event_id "charge.dispute.created" obj created) "dispute_created" delta).

Definition make_payout_paid (event_id payout_id : string) (amount : Z) (created : option Z) (currency : string)
    (clock : Z) : result EventFixture :=
  let created := _now created clock in
  let obj := PDict [("id", PStr payout_id); ("object", PStr "payout"); ("amount", PInt amount);
    ("arrival_date", PInt (created + 172800)); ("automatic", PBool true);
    ("balance_transaction", PStr (_sibling_id payout_id "txn")); ("created", PInt created); ("currency", PStr currency);
    ("description", PStr "STRIPE PAYOUT"); ("destination", PStr (_sibling_id payout_id "ba")); ("failure_code", PNone);
    ("failure_message", PNone); ("livemode", PBool false); ("metadata", PDict []); ("method", PStr "standard");
    ("reconciliation_status", PStr "completed"); ("source_type", PStr "card"); ("status", PStr "paid");
    ("type", PStr "bank_account")] in
  delta ← _delta [("bank", "debit", amount); ("stripe_balance", "credit", amount)];
  mret (MkEventFixture (_envelope event_id "payout.paid" obj created) "payout_paid" delta).

Definition make_invoice_payment_failed (event_id invoice_id : string) (amount : Z) (created : option Z)
    (currency : string) (clock : Z) : result EventFixture :=
  let created := _now created clock in
  let obj := PDict [("id", PStr invoice_id); ("object", PStr "invoice"); ("amount_due", PInt amount);
    ("amount_paid", PInt 0); ("amount_remaining", PInt amount); ("attempt_count", PInt 1); ("attempted", PBool true);
    ("auto_advance", PBool true); ("billing_reason", PStr "subscription_cycle"); ("charge", PNone);
    ("collection_method", PStr "charge_automatically"); ("created", PInt created); ("currency", PStr currency);
    ("customer", PStr (_sibling_id invoice_id "cus")); ("livemode", PBool false); ("metadata", PDict []);
    ("next_payment_attempt", PInt (created + 3600)); ("paid", PBool false);
    ("payment_intent", PStr (_sibling_id invoice_id "pi")); ("status", PStr "open");
    ("subscription", PStr (_sibling_id invoice_id "sub")); ("subtotal", PInt amount); ("total", PInt amount)] in
  mret (MkEventFixture (_envelope event_id "invoice.payment_failed" obj created) "invoice_payment_failed" ∅).

(** ** Ids from a sequence number *)
Definition pad (width : nat) (s : string) : string :=
  of_chars (replicate (width - String.length s) "0"%char) +:+ s.
(** [f"{seq:06d}"] *)
Definition format_06d (seq : Z) : string :=
  if seq <? 0 then "-" +:+ pad 5 (str_of_Z (- seq)) else pad 6 (str_of_Z seq).

Definition seq_tag (seq : Z) : string := "h" +:+ format_06d seq.

(** The ids [_ids_for] gives each keyword. *)
Record fixture_ids := FixtureIds {
  id_event : string; id_charge : string; id_refund : string; id_dispute : string; id_payout : string; id_invoice : string }.
Definition _ids_for (seq : Z) : fixture_ids :=
  let tag := seq_tag seq in
  FixtureIds ("evt_" +:+ tag) ("ch_" +:+ tag) ("re_" +:+ tag) ("dp_" +:+ tag) ("po_" +:+ tag) ("in_" +:+ tag).

(** The overrides a caller may pass; a maker uses its default for one left out
    and raises TypeError for one it has no parameter for. *)
Record overrides := Overrides { ov_amount : option Z; ov_fee : option Z; ov_refunded : option Z }.
Definition no_fee (o : overrides) : result () := guard_or (bool_decide (ov_fee o = None)) TypeError.
Definition no_refunded (o : overrides) : result () := guard_or (bool_decide (ov_refunded o = None)) TypeError.

Definition make (kind : string) (seq : Z) (created : option Z) (o : overrides) (clock : Z) : result EventFixture :=
  let ids := _ids_for seq in
  if bool_decide (kind = "charge_succeeded") then
    _ ← no_refunded o;
    make_charge_succeeded (id_event ids) (id_charge ids) (default 1000 (ov_amount o)) (default 59 (ov_fee o)) created "usd" clock
  else if bool_decide (kind = "charge_refunded") then
    _ ← no_fee o;
    make_charge_refunded (id_event ids) (id_charge ids) (id_refund ids) (default 1000 (ov_amount o))
      (default 400 (ov_refunded o)) created "usd" clock
  else if bool_decide (kind = "dispute_created") then
    _ ← no_refunded o;
    make_dispute_created (id_event ids) (id_dispute ids) (id_charge ids) (default 2000 (ov_amount o))
      (default 1500 (ov_fee o)) created "usd" clock
  else if bool_decide (kind = "payout_paid") then
    _ ← no_fee o; _ ← no_refunded o;
    make_payout_paid (id_event ids) (id_payout ids) (default 5000 (ov_amount o)) created "usd" clock
  else if bool_decide (kind = "invoice_payment_failed") then
    _ ← no_fee o; _ ← no_refunded o;
    make_invoice_payment_failed (id_event ids) (id_invoice ids) (default 1000 (ov_amount o)) created "usd" clock
  else Err (ValueError "unknown fixture kind").

(** ** The deltas and the mapping *)

(** What one ground-truth entry does to the named account. *)
Definition truth_effect (name : string) (e : string * string * Z) : Z :=
  let '(account, dir_, amount) := e in
  match dict_get account ACCOUNT_NORMALS with
  | Some normal => if bool_decide (account = name) then (if bool_decide (dir_ = normal) then amount else - amount) else 0
  | None => 0
  end.

Lemma delta_loop_spec es : ∀ m, Forall (λ e, e.1.1 ∈ ACCOUNT_NORMALS.*1) es →
  ∃ m', delta_loop es m = Ok m' ∧ ∀ name, default 0 (m' !! name) = default 0 (m !! name) + Zsum (truth_effect name) es.
Proof.
  induction es as [|[[account dir_] amount] es IH]; intros m Hk; cbn [delta_loop].
  { exists m. split; [done|]. intros name. cbn. lia. }
  apply Forall_cons in Hk as [Hin Hk]. cbn [fst] in Hin.
  destruct (dict_get account ACCOUNT_NORMALS) as [normal|] eqn:En; [|by apply dict_get_None in En].
  destruct (amount =? 0) eqn:Ez.
  - destruct (IH m Hk) as (m' & E & Hm). exists m'. split; [done|]. intros name. rewrite Hm, Zsum_cons.
    unfold truth_effect at 2. rewrite En. apply Z.eqb_eq in Ez. subst amount. repeat case_bool_decide; lia.
  - unfold signed_delta. rewrite En. cbn [of_option]. rewrite !bind_ok_run.
    destruct (IH (<[account := default 0 (m !! account) + (if bool_decide (dir_ = normal) then amount else - amount)]> m) Hk)
      as (m' & E & Hm).
    exists m'. split; [exact E|]. intros name. rewrite Hm, Zsum_cons. unfold truth_effect at 2. rewrite En.
    destruct (decide (account = name)) as [<-|Hne].
    + rewrite lookup_insert_eq, (bool_decide_true (account = account)) by done. cbn [from_option id]. lia.
    + rewrite lookup_insert_ne, (bool_decide_false (account = name)) by done. lia.
Qed.

Lemma seeded_normal a : a ∈ seed_accounts →
  dict_get (acc_name a) ACCOUNT_NORMALS = Some (direction_name (acc_normal a)).
Proof. revert a. apply Forall_forall, (bool_decide_unpack _). vm_compute. exact I. Qed.

(** An entry of the mapping does what the ground truth says. *)
Lemma add_effect a currency account d amount : a ∈ seed_accounts → account ∈ ACCOUNT_NORMALS.*1 →
  Zsum (entry_effect a) (add currency account d amount) = truth_effect (acc_name a) (account, direction_name d, amount).
Proof.
  intros Ha Hin. unfold truth_effect. destruct (dict_get account ACCOUNT_NORMALS) as [normal|] eqn:En;
    [|by apply dict_get_None in En].
  unfold add. destruct (amount =? 0) eqn:Ez.
  - apply Z.eqb_eq in Ez. subst. cbn. by repeat case_bool_decide.
  - cbn [negb]. rewrite Zsum_cons, Zsum_nil. unfold entry_effect. cbn [account_name dir amount_minor].
    destruct (decide (account = acc_name a)) as [E|E].
    + rewrite !(bool_decide_true (account = acc_name a)) by done. rewrite E, seeded_normal in En by done.
      injection En as <-. destruct d, (acc_normal a); repeat case_bool_decide; first [lia | done | congruence].
    + rewrite !(bool_decide_false (account = acc_name a)) by done. lia.
Qed.

(** The fixture tells what posting its event does, by the mapping's account. *)
Definition tells_truth (fx : EventFixture) : Prop :=
  match build_transaction (fx_event fx) None with
  | Ok (Some t) => (∀ a, a ∈ seed_accounts →
                      Zsum (entry_effect a) (lt_entries t) = default 0 (fx_delta fx !! acc_name a)) ∧
                   fixture_id fx = of_option (IllTyped "event id") (stripe_event_id t)
  | Ok None => fx_delta fx = ∅
  | Err _ => False
  end.

Definition entries_for (etype currency : string) (obj : pyval) : result (list entry) :=
  if bool_decide (etype = "charge.succeeded" ∨ etype = "payment_intent.succeeded")
  then charge_entries etype currency obj None
  else if bool_decide (etype = "charge.refunded") then refund_entries currency obj
  else if bool_decide (etype = "charge.dispute.created") then dispute_entries currency obj None
  else payout_entries currency obj.

Lemma build_envelope event_id etype obj created currency es oid :
  etype ∈ handled → etype ≠ "invoice.payment_failed" → py_index obj "currency" = Ok (PStr currency) →
  entries_for etype (upper currency) obj = Ok es → min_timestamp <= created <= max_timestamp →
  money_movement_object_id (_envelope event_id etype obj created) = Ok oid →
  build_transaction (_envelope event_id etype obj created) None =
  Ok (Some (LedgerTransaction (uuid5 ("ledgerproof:" +:+ event_id)) created es (Some event_id) oid (Some etype) None)).
Proof.
  intros Hh Hne Hc He Ht Ho. unfold build_transaction, event_id_of. rewrite Ho.
  set (event := _envelope event_id etype obj created).
  change (py_index event "type") with (Ok (PStr etype)).
  change (py_index event "data") with (Ok (PDict [("object", obj)])).
  change (py_index event "id") with (Ok (PStr event_id)).
  change (py_index event "created") with (Ok (PInt created)).
  rewrite !bind_ok_run. change (py_index (PDict [("object", obj)]) "object") with (Ok obj).
  rewrite bind_ok_run, bool_decide_false, Hc by done.
  rewrite (bool_decide_true (_ ∈ handled)) by done. cbn [guard_or as_str of_option]. rewrite !bind_ok_run.
  cbn [as_str of_option]. rewrite !bind_ok_run. cbv zeta. fold (entries_for etype (upper currency) obj). rewrite He.
  rewrite !bind_ok_run. unfold fromtimestamp. cbn [as_num]. rewrite bind_ok_run.
  by rewrite !(proj2 (Z.leb_le _ _)) by lia.
Qed.

Lemma tells_truth_entries event_id etype obj created kind delta es truth : 
  etype ∈ handled → etype ≠ "invoice.payment_failed" → py_index obj "currency" = Ok (PStr "usd") →
  entries_for etype (upper "usd") obj = Ok es → min_timestamp <= created <= max_timestamp →
  (∃ oid, money_movement_object_id (_envelope event_id etype obj created) = Ok oid) →
  Forall (λ e : string * string * Z, e.1.1 ∈ ACCOUNT_NORMALS.*1) truth → _delta truth = Ok delta →
  (∀ a, a ∈ seed_accounts → Zsum (entry_effect a) es = Zsum (truth_effect (acc_name a)) truth) →
  tells_truth (MkEventFixture (_envelope event_id etype obj created) kind delta).
Proof.
  intros Hh Hne Hc He Ht [oid Ho] Hk Hd Hsum. unfold tells_truth. cbn [fx_event fx_delta].
  rewrite (build_envelope event_id etype obj created "usd" es oid) by done. cbn [lt_entries stripe_event_id].
  split; [|done]. intros a Ha. rewrite Hsum by done. destruct (delta_loop_spec truth ∅ Hk) as (m & E & Hm).
  unfold _delta in Hd. rewrite Hd in E. injection E as <-. rewrite Hm, lookup_empty. cbn. lia.
Qed.

Ltac known_accounts := apply (bool_decide_unpack _); vm_compute; exact I.

(** Both sides as the same sum of three, or two, effects. *)
Ltac same_effects :=
  intros a Ha; rewrite ?Zsum_app, !add_effect by first [exact Ha | known_accounts];
  rewrite ?Zsum_cons, Zsum_nil, ?Z.add_0_l; cbn [direction_name]; lia.

Lemma delta_ok truth : Forall (λ e : string * string * Z, e.1.1 ∈ ACCOUNT_NORMALS.*1) truth →
  ∃ delta, _delta truth = Ok delta.
Proof. intros H. destruct (delta_loop_spec truth ∅ H) as (m & E & _). by exists m. Qed.

Ltac deltas := match goal with |- context [_delta ?l] =>
  destruct (delta_ok l) as [m Em]; [repeat constructor; known_accounts|rewrite Em, bind_ok_run] end.

(** A maker's fixture, from the entries the mapping computes on its payload. *)
Ltac fixture_truth :=
  cbv zeta; deltas; eexists; split; [done|];
  match goal with Em : _delta ?l = Ok ?m |- _ => eapply (tells_truth_entries _ _ _ _ _ m _ l);
    [known_accounts | done | reflexivity | reflexivity | done | by eexists | repeat constructor; known_accounts
    | exact Em | same_effects] end.

Lemma charge_truth event_id charge_id amount fee created clock :
  min_timestamp <= _now created clock <= max_timestamp →
  ∃ fx, make_charge_succeeded event_id charge_id amount fee created "usd" clock = Ok fx ∧ tells_truth fx.
Proof.
  intros Ht. unfold make_charge_succeeded. by fixture_truth.
Qed.

Lemma refund_truth event_id charge_id refund_id amount refunded created clock :
  min_timestamp <= _now created clock <= max_timestamp →
  ∃ fx, make_charge_refunded event_id charge_id refund_id amount refunded created "usd" clock = Ok fx ∧ tells_truth fx.
Proof.
  intros Ht. unfold make_charge_refunded. by fixture_truth.
Qed.

Lemma dispute_truth event_id dispute_id charge_id amount fee created clock :
  min_timestamp <= _now created clock <= max_timestamp →
  ∃ fx, make_dispute_created event_id dispute_id charge_id amount fee created "usd" clock = Ok fx ∧ tells_truth fx.
Proof.
  intros Ht. unfold make_dispute_created. by fixture_truth.
Qed.

Lemma payout_truth event_id payout_id amount created clock :
  min_timestamp <= _now created clock <= max_timestamp →
  ∃ fx, make_payout_paid event_id payout_id amount created "usd" clock = Ok fx ∧ tells_truth fx.
Proof.
  intros Ht. unfold make_payout_paid. by fixture_truth.
Qed.

(** ** Ids *)
Lemma int_digits_zeros k l : int_digits (replicate k "0"%char ++ l) 0 true = int_digits l 0 true.
Proof. induction k as [|k IH]; [done|]. cbn. exact IH. Qed.

Lemma int_digits_str z : 0 <= z → int_digits (chars (str_of_Z z)) 0 true = Some z.
Proof.
  intros Hz. destruct z as [|p|p]; [done| |lia]. unfold str_of_Z.
  change (pretty (Z.pos p)) with (pretty (N.pos p)). pose proof (pretty_N_digits (N.pos p)) as Hd.
  assert (int_digits (chars (pretty (N.pos p))) 0 false = Some (Z.pos p)) as H.
  { unfold pretty, pretty_N. rewrite decide_False by done. by rewrite int_digits_pretty by done. }
  destruct (chars (pretty (N.pos p))) as [|c l]; [done|]. apply Forall_cons in Hd as [Hc _].
  cbn [int_digits] in *. by rewrite Hc in *.
Qed.

Lemma format_06d_inj z z' : 0 <= z → 0 <= z' → format_06d z = format_06d z' → z = z'.
Proof.
  intros Hz Hz'. unfold format_06d, pad. rewrite !(proj2 (Z.ltb_ge _ _)) by lia. intros E.
  apply (f_equal (λ s, int_digits (chars s) 0 true)) in E.
  rewrite !chars_app, !chars_of_chars, !int_digits_zeros, !int_digits_str in E by done. by injection E.
Qed.

Definition event_id_at (seq : Z) : string := "evt_" +:+ seq_tag seq.
Lemma event_id_at_inj z z' : 0 <= z → 0 <= z' → event_id_at z = event_id_at z' → z = z'.
Proof. unfold event_id_at, seq_tag. cbn. intros Hz Hz' [= E]. by apply format_06d_inj. Qed.

Lemma make_id kind seq created o clock fx : make kind seq created o clock = Ok fx → fixture_id fx = Ok (event_id_at seq).
Proof.
  unfold make. cbv zeta. intros H.
  repeat match type of H with (if ?b then _ else _) = _ => destruct b end; [..|done]; inv_ok H;
    unfold make_charge_succeeded, make_charge_refunded, make_dispute_created, make_payout_paid,
      make_invoice_payment_failed in H; cbv zeta in H; inv_ok H; by simplify_eq/=.
Qed.

(** ** Property *)

(** C19: the ground truth of the harness and the mapping of the service
    agree, whatever the amounts and fees: the event of a fixture of any kind maps to a transaction of its id whose effect on each seeded account
    is the expected delta, or, for the event that moves no money, to no
    transaction with an empty delta. *)
Theorem fixtures_tell_truth kind seq created o clock fx :
  min_timestamp <= _now created clock <= max_timestamp → make kind seq created o clock = Ok fx → tells_truth fx.
Proof.
  intros Ht. unfold make. cbv zeta. intros H.
  repeat match type of H with (if ?b then _ else _) = _ => destruct b end; [..|done]; apply bind_Ok in H as (? & _ & H).
  - destruct (charge_truth (id_event (_ids_for seq)) (id_charge (_ids_for seq)) (default 1000 (ov_amount o))
      (default 59 (ov_fee o)) created clock Ht) as (fx' & Emk & Hfx).
    assert (fx = fx') as -> by congruence. exact Hfx.
  - destruct (refund_truth (id_event (_ids_for seq)) (id_charge (_ids_for seq)) (id_refund (_ids_for seq))
      (default 1000 (ov_amount o)) (default 400 (ov_refunded o)) created clock Ht) as (fx' & Emk & Hfx).
    assert (fx = fx') as -> by congruence. exact Hfx.
  - destruct (dispute_truth (id_event (_ids_for seq)) (id_dispute (_ids_for seq)) (id_charge (_ids_for seq))
      (default 2000 (ov_amount o)) (default 1500 (ov_fee o)) created clock Ht) as (fx' & Emk & Hfx).
    assert (fx = fx') as -> by congruence. exact Hfx.
  - apply bind_Ok in H as (? & _ & H).
    destruct (payout_truth (id_event (_ids_for seq)) (id_payout (_ids_for seq)) (default 5000 (ov_amount o))
      created clock Ht) as (fx' & Emk & Hfx).
    assert (fx = fx') as -> by congruence. exact Hfx.
  - apply bind_Ok in H as (? & _ & H). unfold make_invoice_payment_failed in H. cbv zeta in H. injection H as <-. reflexivity.
Qed.

Lemma fixtures_tell_truth_witness :
  ∃ fx, make "dispute_created" 7 (Some 1700000000) (Overrides (Some 2500) None None) 0 = Ok fx ∧ tells_truth fx.
Proof.
  assert (∃ fx, make "dispute_created" 7 (Some 1700000000) (Overrides (Some 2500) None None) 0 = Ok fx) as [fx E]
    by (eexists; vm_compute; reflexivity).
  exists fx. split; [exact E|].
  refine (fixtures_tell_truth "dispute_created" 7 (Some 1700000000) (Overrides (Some 2500) None None) 0 fx _ E).
  unfold min_timestamp, max_timestamp. cbn. lia.
Defined.
