(* ===== verification/Faults.v ===== *)
(** harness/faults.py: for each fault of the taxonomy, the exact requests to
    deliver and the ground truth they must satisfy.  The fault names are those of
    [Fault.FaultClass] (triage/schema.py), NONE included.  A float parameter is
    carried as its text. *)
From S2P Require Import Prelude PyVal Json Mapping Signature Recon PromptText Prompts Triage Events.
Import Fault.
#[local] Open Scope Z_scope.

Definition INVALID_SIGNATURE : string := "invalid signature".
Definition _STALE_MARGIN_SECONDS : Z := 60.
Definition ALL_FAULTS : list FaultClass := filter (λ f, f ≠ NONE) Fault.all.

Record Delivery := MkDelivery {
  d_body : string; d_sig_header : string; d_event_id : string; delay_before_s : string; slow_loris_s : string;
  expect_rejected : bool; expect_rejection_reason : option string }.

Record Expectation := MkExpectation {
  posted_event_ids : gset string; rejected_event_ids : gset string; balances_delta : gmap string Z;
  x_invariant_after : bool; reconciler_should_report_break : bool; notes : string }.

Record FaultPlan := MkFaultPlan {
  p_fault : FaultClass; p_params : list (string * pyval); p_deliveries : list Delivery; concurrent : bool;
  force_500 : bool; kill_worker_after_s : option string; redeliver_after_kill : bool; p_expectation : Expectation }.

Definition _DEFAULT_PARAMS (f : FaultClass) : list (string * pyval) :=
  match f with
  | DUPLICATE => [("n", PInt 3)]
  | CONCURRENT_DUPLICATE => [("n", PInt 8)]
  | REORDER => [("order", PStr "reverse")]
  | DELAY => [("seconds", PFloat "1.0"); ("past_tolerance", PBool false)]
  | STALE_TIMESTAMP => [("age_s", PInt 600)]
  | PARTIAL_WRITE => [("kill_after_s", PFloat "0.15")]
  | SLOW_LORIS => [("hold_s", PFloat "3.0")]
  | _ => []
  end.

(** [{**d, **e}] *)
Definition merge (d e : list (string * pyval)) : list (string * pyval) :=
  foldl (λ d kv, dict_set kv.1 kv.2 d) d e.

(** [repr(float(v))] *)
Definition float_text (v : pyval) : result string :=
  match v with
  | PFloat r => Ok r
  | PBool b => Ok (if b then "1.0" else "0.0")
  | PInt z => if Z.abs z <? 10 ^ 15 then Ok (str_of_Z z +:+ ".0") else Err (IllTyped "large float")
  | PStr _ => Err (IllTyped "float of a str")
  | _ => Err TypeError
  end.

(** [_flip_one_byte]: the first digit from the data region on. *)
Fixpoint flip_from (start index : nat) (l : list ascii) : option (list ascii * nat) :=
  match l with
  | [] => None
  | c :: l =>
      if ((start <=? index)%nat && is_digit c)%bool
      then Some (chr (48 + (code c - 48 + 1) mod 10) :: l, index)
      else '(l', i) ← flip_from start (S index) l; Some (c :: l', i)
  end.
Definition _flip_one_byte (body : string) : result (string * Z) :=
  let start := default O (String.index 0 (quoted "data" +:+ ":") body) in
  match flip_from start O (chars body) with
  | Some (l, i) => Ok (of_chars l, Z.of_nat i)
  | None => Err (ValueError "no digit to flip")
  end.

Definition has_money (fx : EventFixture) : bool := bool_decide (fx_delta fx ≠ ∅).
Definition _money (fixtures : list EventFixture) : list EventFixture := filter (λ fx, has_money fx) fixtures.

(** [frozenset(fx.event_id for fx in fixtures)] *)
Definition ids_of (fixtures : list EventFixture) : result (gset string) :=
  ids ← map_result fixture_id fixtures; mret (list_to_set ids).

Definition add_delta (totals d : gmap string Z) : gmap string Z :=
  map_fold (λ account amount totals, <[account := default 0 (totals !! account) + amount]> totals) totals d.
Fixpoint sum_loop (fixtures : list EventFixture) (posted : gset string) (totals : gmap string Z) : result (gmap string Z) :=
  match fixtures with
  | [] => Ok totals
  | fx :: fixtures =>
      id ← fixture_id fx;
      sum_loop fixtures posted (if bool_decide (id ∈ posted) then add_delta totals (fx_delta fx) else totals)
  end.
Definition _sum_delta (fixtures : list EventFixture) (posted : gset string) : result (gmap string Z) :=
  totals ← sum_loop fixtures posted ∅; mret (nonzero totals).

Definition sign_at (body secret : string) (timestamp : Z) : string := sign body secret (Some timestamp) 0 [] false None.

(** [_clean], with the keyword arguments its callers pass. *)
Definition clean_with (delay hold : string) (rejected : bool) (fx : EventFixture) (secret : string) (timestamp : Z)
    : result Delivery :=
  let body := serialize (fx_event fx) in
  id ← fixture_id fx;
  mret (MkDelivery body (sign_at body secret timestamp) id delay hold rejected None).
Definition _clean : EventFixture → string → Z → result Delivery := clean_with "0.0" "0.0" false.

Definition _rejected_plan (f : FaultClass) (fx : EventFixture) (params : list (string * pyval))
    (body sig_header notes : string) : result FaultPlan :=
  id ← fixture_id fx;
  mret (MkFaultPlan f params [MkDelivery body sig_header id "0.0" "0.0" true (Some INVALID_SIGNATURE)] false false None true
    (MkExpectation ∅ {[id]} ∅ true false notes)).

(** What most plans share: the posted ids, their summed delta, nothing refused. *)
Definition expecting (fixtures : list EventFixture) (posted : gset string) (notes : string) : result Expectation :=
  delta ← _sum_delta fixtures posted; mret (MkExpectation posted ∅ delta true false notes).

Definition plain_plan (f : FaultClass) (params : list (string * pyval)) (ds : list Delivery) (e : Expectation) : FaultPlan :=
  MkFaultPlan f params ds false false None true e.

Definition param (params : list (string * pyval)) (k : string) : result pyval :=
  of_option (KeyError k) (dict_get k params).

(** The later branches of [plan], each on its own; [posted] is what the target
    posts. *)
Definition plan_tampered (target : EventFixture) (secret : string) (effective : list (string * pyval)) (ts : Z) : result FaultPlan :=
  let body := serialize (fx_event target) in
  flipped ← _flip_one_byte body;
  _rejected_plan TAMPER_BODY target (merge effective [("byte_index", PInt flipped.2)]) flipped.1 (sign_at body secret ts)
    "one byte changed after signing; verification must fail closed".

Definition plan_truncated (target : EventFixture) (secret : string) (effective : list (string * pyval)) (ts : Z) : result FaultPlan :=
  let body := serialize (fx_event target) in
  let kept := str_len body / 2 in
  _rejected_plan TRUNCATE_BODY target (merge effective [("kept_bytes", PInt kept)])
    (of_chars (take (Z.to_nat kept) (chars body))) (sign_at body secret ts)
    "body cut in half after signing; verification must fail closed".

Definition plan_stale (target : EventFixture) (secret : string) (effective : list (string * pyval)) (ts : Z) : result FaultPlan :=
  age ← param effective "age_s"; age ← py_int age;
  _ ← guard_or (DEFAULT_TOLERANCE_SECONDS <? age) (ValueError "age_s is inside the tolerance");
  let body := serialize (fx_event target) in
  _rejected_plan STALE_TIMESTAMP target effective body (sign_at body secret (ts - age))
    ("signed " +:+ str_of_Z age +:+ "s in the past; replay protection must reject it").

Definition plan_downgraded (target : EventFixture) (secret : string) (effective : list (string * pyval)) (ts : Z) : result FaultPlan :=
  let body := serialize (fx_event target) in
  _rejected_plan DOWNGRADE_SCHEME target effective body (sign body secret (Some ts) 0 [] false (Some ["v0"]))
    "v0 is a test-only scheme; accepting it is a downgrade attack".

Definition plan_partial_write (target : EventFixture) (fixtures : list EventFixture) (secret : string)
    (effective : list (string * pyval)) (ts : Z) (posted : gset string) : result FaultPlan :=
  d ← _clean target secret ts;
  kill ← param effective "kill_after_s"; kill ← float_text kill;
  e ← expecting fixtures posted
        ("worker SIGKILLed mid-transaction, then the event is redelivered: exactly one transaction, " +:+
         "and never a half-posted one");
  mret (MkFaultPlan PARTIAL_WRITE effective [d] false false (Some kill) true e).

Definition plan_slow_loris (target : EventFixture) (fixtures : list EventFixture) (secret : string)
    (effective : list (string * pyval)) (ts : Z) (posted : gset string) : result FaultPlan :=
  hold ← param effective "hold_s"; hold ← float_text hold;
  d ← clean_with "0.0" hold false target secret ts;
  e ← expecting fixtures posted
        ("body dribbled over " +:+ hold +:+ "s: ingest must stay responsive, and the event posts if the request completes");
  mret (plain_plan SLOW_LORIS effective [d] e).

(** [fixtures] is not empty: [target] is its first element. *)
Definition plan_for (f : FaultClass) (target : EventFixture) (fixtures : list EventFixture) (secret : string)
    (effective : list (string * pyval)) (ts : Z) : result FaultPlan :=
  target_id ← fixture_id target;
  let target_posted : gset string := if has_money target then {[target_id]} else ∅ in
  match f with
  | NONE =>
      posted ← ids_of (_money fixtures);
      ds ← map_result (λ fx, _clean fx secret ts) fixtures;
      e ← expecting fixtures posted "baseline: every money event posts exactly once";
      mret (plain_plan f effective ds e)
  | DUPLICATE | CONCURRENT_DUPLICATE =>
      n ← param effective "n"; n ← py_int n;
      _ ← guard_or (2 <=? n) (ValueError "needs n >= 2");
      d ← _clean target secret ts;
      let conc := bool_decide (f = CONCURRENT_DUPLICATE) in
      e ← expecting fixtures target_posted
            (if conc then str_of_Z n +:+ " parallel connections carrying one event; the database's unique constraints, " +:+
                          "not the fast-path dedupe, are what must hold"
             else str_of_Z n +:+ " serial redeliveries of one event; event.id dedupe must absorb them");
      mret (MkFaultPlan f effective (replicate (Z.to_nat n) d) conc false None true e)
  | DUPLICATE_OBJECT =>
      twin_event ← (match fx_event target with
                    | PDict m => Ok (PDict (dict_set "id" (PStr (target_id +:+ "_dup")) m)) | _ => Err TypeError end);
      let twin := MkEventFixture twin_event (fx_kind target) (fx_delta target) in
      twin_id ← fixture_id twin;
      d ← _clean target secret ts; d' ← _clean twin secret ts;
      e ← expecting fixtures target_posted
            ("two Event objects for one state change: distinct event ids, identical (type, money-movement object id). " +:+
             "The twin is a 200 duplicate, never a second transaction");
      mret (plain_plan f (merge effective [("twin_event_id", PStr twin_id)]) [d; d'] e)
  | REORDER =>
      _ ← guard_or (2 <=? length fixtures)%nat (ValueError "REORDER needs at least two fixtures");
      order ← param effective "order";
      _ ← guard_or (bool_decide (order = PStr "reverse")) (ValueError "unsupported REORDER order");
      posted ← ids_of (_money fixtures);
      ds ← map_result (λ fx, _clean fx secret ts) (reverse fixtures);
      e ← expecting fixtures posted
            "delivered in reverse generation order; Stripe guarantees no ordering, so every event must still post";
      mret (plain_plan f effective ds e)
  | DELAY =>
      seconds ← param effective "seconds"; seconds ← float_text seconds;
      past ← param effective "past_tolerance"; let past := truthy past in
      let stale_ts := ts - (DEFAULT_TOLERANCE_SECONDS + _STALE_MARGIN_SECONDS) in
      d ← clean_with seconds "0.0" past target secret (if past then stale_ts else ts);
      let posted := if past then ∅ else target_posted in
      delta ← _sum_delta fixtures posted;
      mret (plain_plan f effective [d] (MkExpectation posted (if past then {[target_id]} else ∅) delta true false
        (if past then "held " +:+ seconds +:+ "s and signed outside the " +:+ str_of_Z DEFAULT_TOLERANCE_SECONDS +:+
                      "s tolerance: must be refused"
         else "held " +:+ seconds +:+ "s inside the tolerance window: must still post")))
  | DROP =>
      ids ← map_result fixture_id fixtures;
      mret (plain_plan f (merge effective [("dropped_event_ids", PList (PStr <$> ids))]) []
        (MkExpectation ∅ ∅ ∅ true true
          ("never delivered: the ledger stays balanced and looks healthy, so only the reconciler can catch this one")))
  | RESPOND_500 =>
      d ← _clean target secret ts;
      e ← expecting fixtures target_posted "Stripe's retry after a 500 must not double-post";
      mret (MkFaultPlan f effective [d; d] false true None true e)
  | TAMPER_BODY => plan_tampered target secret effective ts
  | TRUNCATE_BODY => plan_truncated target secret effective ts
  | STALE_TIMESTAMP => plan_stale target secret effective ts
  | DOWNGRADE_SCHEME => plan_downgraded target secret effective ts
  | PARTIAL_WRITE => plan_partial_write target fixtures secret effective ts target_posted
  | SLOW_LORIS => plan_slow_loris target fixtures secret effective ts target_posted
  end.

Definition plan (f : FaultClass) (fixtures : list EventFixture) (secret : string) (params : list (string * pyval))
    (now : option Z) (clock : Z) : result FaultPlan :=
  match fixtures with
  | [] => Err (ValueError "plan() needs at least one fixture")
  | target :: _ => plan_for f target fixtures secret (merge (_DEFAULT_PARAMS f) params) (default clock now)
  end.

(** ** Verdicts of the signature check on planned requests *)

(** The delivered body, which is none of the fixtures' own, has the digest that
    was computed for one of them. *)
Definition collides (secret : string) (fixtures : list EventFixture) (ts : Z) (d : Delivery) : Prop :=
  ∃ fx, fx ∈ fixtures ∧ serialize (fx_event fx) ≠ d_body d ∧
        _v1_digest (d_body d) secret ts = _v1_digest (serialize (fx_event fx)) secret ts.

(** What ingest's check must say of a delivery arriving at [clock]. *)
Definition verdict_as_planned (secret : string) (fixtures : list EventFixture) (ts clock : Z) (d : Delivery) : Prop :=
  let v := verify (RawBytes (d_body d)) (d_sig_header d) secret DEFAULT_TOLERANCE_SECONDS None clock in
  if expect_rejected d then v ≠ Ok () ∨ collides secret fixtures ts d else v = Ok ().

Lemma fixture_dict fx id : fixture_id fx = Ok id → ∃ m, fx_event fx = PDict m.
Proof. unfold fixture_id. destruct (fx_event fx); try done. by eexists. Qed.

Lemma serialize_dict m : serialize (PDict m) ≠ "".
Proof. done. Qed.

Section verdicts.
Context (secret : string) (fixtures : list EventFixture) (ts clock : Z).
Context (Hts : renders ts) (Hclock : ts <= clock <= ts + DEFAULT_TOLERANCE_SECONDS).
Context (Hlate : renders (ts - (DEFAULT_TOLERANCE_SECONDS + _STALE_MARGIN_SECONDS))).

Lemma clean_verdict delay hold fx d : clean_with delay hold false fx secret ts = Ok d →
  verdict_as_planned secret fixtures ts clock d.
Proof.
  unfold clean_with. intros (id & Hid & [= <-])%bind_Ok. destruct (fixture_dict fx id Hid) as [m Hm].
  unfold verdict_as_planned. cbn [expect_rejected d_body d_sig_header]. rewrite Hm.
  apply signed_accepted; [done|apply serialize_dict|done|cbn; lia|left].
Qed.

Lemma late_verdict delay hold fx d : 
  clean_with delay hold true fx secret (ts - (DEFAULT_TOLERANCE_SECONDS + _STALE_MARGIN_SECONDS)) = Ok d →
  verdict_as_planned secret fixtures ts clock d.
Proof.
  unfold clean_with. intros (id & Hid & [= <-])%bind_Ok. unfold verdict_as_planned.
  cbn [expect_rejected d_body d_sig_header]. left. unfold sign_at, _STALE_MARGIN_SECONDS, DEFAULT_TOLERANCE_SECONDS in *.
  apply signed_stale; [done|cbn; exact Hlate|cbn; lia].
Qed.

Lemma rejected_deliveries f fx params body hdr notes p : _rejected_plan f fx params body hdr notes = Ok p →
  ∃ id, p_deliveries p = [MkDelivery body hdr id "0.0" "0.0" true (Some INVALID_SIGNATURE)].
Proof. unfold _rejected_plan. intros (id & _ & [= <-])%bind_Ok. by exists id. Qed.

(** A body altered after signing. *)
Lemma altered_verdict fx body' id delay hold reason : fx ∈ fixtures → serialize (fx_event fx) ≠ body' →
  verdict_as_planned secret fixtures ts clock
    (MkDelivery body' (sign_at (serialize (fx_event fx)) secret ts) id delay hold true reason).
Proof.
  intros Hfx Hne. unfold verdict_as_planned. cbn [expect_rejected d_body d_sig_header]. set (body := serialize _) in *.
  destruct (verify (RawBytes body') (sign_at body secret ts) secret DEFAULT_TOLERANCE_SECONDS None clock)
    as [[]|e] eqn:E; [right|by left].
  exists fx. split_and!; [done..|]. by apply (signed_collision body body' secret (Some ts) 0 false
    DEFAULT_TOLERANCE_SECONDS None clock).
Qed.

Lemma cleans_verdict l : ∀ ds, map_result (λ fx, _clean fx secret ts) l = Ok ds →
  Forall (verdict_as_planned secret fixtures ts clock) ds.
Proof.
  induction l as [|fx l IH]; intros ds; cbn [map_result]; [by intros [= <-]|].
  intros (d & Hd & (rest & Hrest & [= <-])%bind_Ok)%bind_Ok. constructor; [by eapply clean_verdict|by apply IH].
Qed.
End verdicts.

Lemma flip_from_ne start index l l' i : flip_from start index l = Some (l', i) → l ≠ l'.
Proof.
  revert index l' i. induction l as [|c l IH]; intros index l' i; [done|]. cbn [flip_from].
  destruct ((start <=? index)%nat && is_digit c)%bool eqn:E.
  - intros [= <- _] [= Hc]. apply andb_true_iff in E as [_ E]. unfold is_digit in E. bool_to_prop.
    assert (code c = 48 + (code c - 48 + 1) mod 10) as Hw.
    { rewrite Hc at 1. apply code_chr. pose proof (Z.mod_pos_bound (code c - 48 + 1) 10). lia. }
    destruct (decide (code c = 57)) as [E57|].
    + rewrite E57 in Hw. by vm_compute in Hw.
    + rewrite Z.mod_small in Hw by lia. lia.
  - destruct (flip_from start (S index) l) as [[k j]|] eqn:Ef; [|done]. intros [= <- _] [= Hk]. by eapply IH.
Qed.

Lemma flip_ne body body' i : _flip_one_byte body = Ok (body', i) → body ≠ body'.
Proof.
  unfold _flip_one_byte. destruct (flip_from _ O (chars body)) as [[l j]|] eqn:E; [|done].
  intros [= <- _] ->. apply flip_from_ne in E. by rewrite chars_of_chars in E.
Qed.

Lemma half_ne body : body ≠ "" → body ≠ of_chars (take (Z.to_nat (str_len body / 2)) (chars body)).
Proof.
  intros Hb E. apply (f_equal (λ s, length (chars s))) in E. rewrite chars_of_chars, length_take, chars_length in E.
  unfold str_len in E. destruct body as [|c s]; [done|]. cbn [String.length] in E.
  assert (Z.of_nat (S (String.length s)) / 2 < Z.of_nat (S (String.length s))) by (apply Z.div_lt; lia).
  pose proof (Z.div_pos (Z.of_nat (S (String.length s))) 2). lia.
Qed.

Lemma replicate_Forall {A} (P : A → Prop) n x : P x → Forall P (replicate n x).
Proof. intros H. apply Forall_forall. by intros y [-> _]%elem_of_replicate. Qed.

Ltac each_delivery := repeat first [apply Forall_nil_2 | apply Forall_cons_2].
(** Decompose a plan built by binds and read off its deliveries. *)
Ltac planned H := inv_ok H; simplify_eq/=; each_delivery.

(** The back-dating a plan is asked for. *)
Definition age_of (effective : list (string * pyval)) : result Z := v ← param effective "age_s"; py_int v.

Lemma plan_for_verdicts f target fixtures secret effective ts clock p :
  0 <= ts < 10 ^ 19 → (∀ age, age_of effective = Ok age → age < 10 ^ 19) →
  ts <= clock <= ts + DEFAULT_TOLERANCE_SECONDS → target ∈ fixtures → plan_for f target fixtures secret effective ts = Ok p →
  Forall (verdict_as_planned secret fixtures ts clock) (p_deliveries p).
Proof.
  intros Hrange Hage Hclock Htarget H. assert (renders ts) as Hts by (apply renders_small; lia).
  assert (renders (ts - (DEFAULT_TOLERANCE_SECONDS + _STALE_MARGIN_SECONDS))) as Hlate.
  { apply renders_small. unfold DEFAULT_TOLERANCE_SECONDS, _STALE_MARGIN_SECONDS. lia. }
  unfold plan_for, plan_tampered, plan_truncated, plan_stale, plan_downgraded, plan_partial_write, plan_slow_loris in H. apply bind_Ok in H as (id & Hid & H). destruct (fixture_dict target id Hid) as [m Hm].
  assert (serialize (fx_event target) ≠ "") as Hs by (rewrite Hm; apply serialize_dict).
  destruct f.
  - inv_ok H. simplify_eq/=. by eapply (cleans_verdict secret fixtures ts clock Hts Hclock).
  - inv_ok H. simplify_eq/=. apply replicate_Forall. by eapply (clean_verdict secret fixtures ts clock Hts Hclock).
  - planned H; by eapply (clean_verdict secret fixtures ts clock Hts Hclock).
  - inv_ok H. simplify_eq/=. apply replicate_Forall. by eapply (clean_verdict secret fixtures ts clock Hts Hclock).
  - inv_ok H. simplify_eq/=. by eapply (cleans_verdict secret fixtures ts clock Hts Hclock).
  - apply bind_Ok in H as (v & _ & H). apply bind_Ok in H as (sec & _ & H). apply bind_Ok in H as (past & _ & H).
    apply bind_Ok in H as (d & Hd & H). apply bind_Ok in H as (delta & _ & H). injection H as <-. cbn [p_deliveries plain_plan].
    each_delivery. destruct (truthy past); [by eapply (late_verdict secret fixtures ts clock Hclock Hlate)|by eapply (clean_verdict secret fixtures ts clock Hts Hclock)].
  - planned H.
  - planned H; by eapply (clean_verdict secret fixtures ts clock Hts Hclock).
  - apply bind_Ok in H as ([body' i] & Hf & H). apply rejected_deliveries in H as [id' ->]. each_delivery.
    apply (altered_verdict secret fixtures ts clock Hts); [done|]. by eapply flip_ne.
  - apply rejected_deliveries in H as [id' ->]. each_delivery. apply (altered_verdict secret fixtures ts clock Hts); [done|]. by apply half_ne.
  - apply bind_Ok in H as (v & Hv & H). apply bind_Ok in H as (age & Ha & H). apply bind_Ok in H as ([] & Hg & H).
    specialize (Hage age). unfold age_of in Hage. rewrite Hv, bind_ok_run in Hage. specialize (Hage Ha).
    apply guard_or_Ok in Hg. bool_to_prop. apply rejected_deliveries in H as [id' ->]. each_delivery. left.
    unfold DEFAULT_TOLERANCE_SECONDS in *. cbn [d_body d_sig_header].
    apply signed_stale; [done|cbn; apply renders_small; lia|cbn; lia].
  - apply rejected_deliveries in H as [id' ->]. each_delivery. left. cbn [d_body d_sig_header].
    by apply v0_refused.
  - planned H; by eapply (clean_verdict secret fixtures ts clock Hts Hclock).
  - planned H; by eapply (clean_verdict secret fixtures ts clock Hts Hclock).
Qed.

(** ** Property *)

(** C20: the request bytes of every plan are what the plan says they are:
    arriving within the tolerance of the planning time, each delivery not marked
    rejected passes the signature check, and each one marked rejected is refused
    by it, unless its altered body happens to have the very HMAC that was computed
    for a fixture's own body. *)
Theorem plan_deliveries_verdicts f fixtures secret params now clock0 clock p :
  let ts := default clock0 now in
  0 <= ts < 10 ^ 19 → (∀ age, age_of (merge (_DEFAULT_PARAMS f) params) = Ok age → age < 10 ^ 19) →
  ts <= clock <= ts + DEFAULT_TOLERANCE_SECONDS → plan f fixtures secret params now clock0 = Ok p →
  Forall (verdict_as_planned secret fixtures ts clock) (p_deliveries p).
Proof.
  destruct fixtures as [|target l]; [done|]. cbv zeta. intros H1 H2 H3. apply plan_for_verdicts; [done..|left].
Qed.

Definition sample_fixture : EventFixture :=
  match make "charge_succeeded" 1 (Some 1700000000) (Overrides None None None) 0 with
  | Ok fx => fx | Err _ => MkEventFixture PNone "" ∅ end.

Lemma plan_deliveries_verdicts_witness :
  ∃ p, plan STALE_TIMESTAMP [sample_fixture] "whsec" [] (Some 1700000000) 0 = Ok p ∧
       Forall (verdict_as_planned "whsec" [sample_fixture] 1700000000 1700000100) (p_deliveries p).
Proof.
  assert (∃ p, plan STALE_TIMESTAMP [sample_fixture] "whsec" [] (Some 1700000000) 0 = Ok p) as [p E]
    by (eexists; vm_compute; reflexivity).
  exists p. split; [exact E|].
  refine (plan_deliveries_verdicts STALE_TIMESTAMP [sample_fixture] "whsec" [] (Some 1700000000) 0 1700000100 p _ _ _ E).
  - cbn. lia.
  - intros age [= <-]. lia.
  - unfold DEFAULT_TOLERANCE_SECONDS. cbn. lia.
Defined.
