(* ===== verification/Scenarios.v ===== *)
(** harness/scenarios.py: crossing faults, event kinds and repeats into labelled
    scenarios with fresh ids, and reporting the combinations left out. *)
From S2P Require Import Prelude PyVal Recon Prompts Triage Events Faults.
Import Fault.
#[local] Open Scope Z_scope.

Definition _LABEL_SECRET : string := "whsec_" +:+ of_chars (replicate 32 "0"%char).
Definition DEFAULT_FAULTS : list FaultClass := NONE :: ALL_FAULTS.
Definition _DISPUTE_FEE : Z := 1500.
Definition _MIN_AMOUNT : Z := 100.
Definition _MAX_AMOUNT : Z := 100000.

Definition _NEEDS_MONEY (f : FaultClass) : option string :=
  match f with
  | DUPLICATE => Some "dedupe is measured as exactly one transaction; a non-money event posts none"
  | DUPLICATE_OBJECT => Some "the second dedupe key is measured as exactly one transaction; a non-money event posts none"
  | CONCURRENT_DUPLICATE => Some "the race is over a ledger write that a non-money event never makes"
  | REORDER => Some "order independence is measured by money posting regardless of arrival order"
  | RESPOND_500 => Some "retry safety is measured as exactly one transaction"
  | PARTIAL_WRITE => Some "there is no ledger transaction to kill mid-write"
  | DROP => Some ("a dropped non-money event is CORRECTLY invisible to the reconciler (no transaction was " +:+
                  "ever due), so the fault's expectation that a break is reported would be false")
  | _ => None
  end.

Definition _FIXTURE_COUNT (f : FaultClass) : nat := match f with REORDER => 2 | _ => 1 end.

Record Scenario := MkScenario {
  scenario_id : string; sc_fault : FaultClass; sc_params : list (string * pyval);
  fixtures : list EventFixture; sc_label : pyval }.
Record Skip := MkSkip { sk_fault : FaultClass; sk_kind : string; sk_reason : string }.
Definition skip_as_dict (s : Skip) : pyval :=
  PDict [("fault", PStr (Fault.value (sk_fault s))); ("kind", PStr (sk_kind s)); ("reason", PStr (sk_reason s))].

Definition skip_reason (f : FaultClass) (kind : string) : option string :=
  if bool_decide (kind = "invoice_payment_failed") then _NEEDS_MONEY f else None.

Definition skipped_combos (faults : option (list FaultClass)) (kinds : option (list string)) : list Skip :=
  f ← default DEFAULT_FAULTS faults;
  kind ← default ALL_KINDS kinds;
  match skip_reason f kind with Some r => [MkSkip f kind r] | None => [] end.

Definition _fee (amount : Z) : Z := 30 + amount * 29 / 1000.

(** A set of strings as a sorted list, a delta as a JSON object. *)
Definition sorted_set (s : gset string) : pyval := PList (PStr <$> sort_strings (elements s)).
Definition delta_value (m : gmap string Z) : pyval := PDict ((λ kv, (kv.1, PInt kv.2)) <$> map_to_list m).

Definition _label (f : FaultClass) (params : list (string * pyval)) (fixtures : list EventFixture) (exp : Expectation)
    : result pyval :=
  ids ← map_result fixture_id fixtures;
  mret (PDict [("fault", PStr (Fault.value f)); ("params", PDict params); ("event_ids", PList (PStr <$> ids));
    ("posted_event_ids", sorted_set (posted_event_ids exp)); ("rejected_event_ids", sorted_set (rejected_event_ids exp));
    ("balances_delta", delta_value (balances_delta exp)); ("kinds", PList ((λ fx, PStr (fx_kind fx)) <$> fixtures));
    ("reconciler_should_report_break", PBool (reconciler_should_report_break exp)); ("notes", PStr (notes exp))]).

(** Per-repeat parameters. *)
Definition _params (f : FaultClass) (index : Z) : list (string * pyval) :=
  match f with
  | DUPLICATE => [("n", PInt (2 + index mod 3))]
  | CONCURRENT_DUPLICATE => [("n", PInt (if index mod 2 =? 0 then 8 else 4))]
  | DELAY => [("seconds", PFloat "4.0"); ("past_tolerance", PBool (index mod 2 =? 1))]
  | STALE_TIMESTAMP => [("age_s", PInt (600 + 300 * (index mod 2)))]
  | PARTIAL_WRITE => [("kill_after_s", PFloat (if index mod 3 =? 0 then "0.15" else if index mod 3 =? 1 then "0.1" else "0.05"))]
  | SLOW_LORIS => [("hold_s", PFloat "2.0")]
  | _ => []
  end.

(** [f"{index:04d}"] for a repeat number. *)
Definition format_04d (index : Z) : string := pad 4 (str_of_Z index).

Section generate.
(** The seeded generator: [randrange lo hi g] draws from [lo] up to [hi], bound
    excluded, and [clock] is the reading of time.time(). *)
Context {G : Type} (randrange : Z → Z → G → Z * G) (clock : Z).

Definition draw (lo hi : Z) : stx G Z := λ g, let '(z, g) := randrange lo hi g in (Ok z, g).

Definition _fixture (kind : string) (seq : Z) : stx G EventFixture :=
  amount ← draw _MIN_AMOUNT _MAX_AMOUNT;
  if bool_decide (kind = "charge_succeeded") then
    lift (make kind seq None (Overrides (Some amount) (Some (_fee amount)) None) clock)
  else if bool_decide (kind = "charge_refunded") then
    refunded ← draw 1 (amount + 1);
    lift (make kind seq None (Overrides (Some amount) None (Some refunded)) clock)
  else if bool_decide (kind = "dispute_created") then
    lift (make kind seq None (Overrides (Some amount) (Some _DISPUTE_FEE) None) clock)
  else lift (make kind seq None (Overrides (Some amount) None None) clock).

(** [count] fixtures from [seq] on. *)
Fixpoint draw_fixtures (kind : string) (seq : Z) (count : nat) : stx G (list EventFixture) :=
  match count with
  | O => mret []
  | S n => fx ← _fixture kind seq; fxs ← draw_fixtures kind (seq + 1) n; mret (fx :: fxs)
  end.

(** One repeat, from the counter [seq]. *)
Definition one_scenario (f : FaultClass) (kind : string) (seq index : Z) : stx G Scenario :=
  fxs ← draw_fixtures kind seq (_FIXTURE_COUNT f);
  built ← lift (plan f fxs _LABEL_SECRET (_params f index) None clock);
  label ← lift (_label f (p_params built) fxs (p_expectation built));
  mret (MkScenario (lower (Fault.value f) +:+ "-" +:+ kind +:+ "-" +:+ format_04d index) f (p_params built) fxs label).

(** The repeats of one combination: [n] of them from number [index]. *)
Fixpoint repeats (f : FaultClass) (kind : string) (seq index : Z) (n : nat) : stx G (list Scenario) :=
  match n with
  | O => mret []
  | S n =>
      s ← one_scenario f kind seq index;
      rest ← repeats f kind (seq + Z.of_nat (_FIXTURE_COUNT f)) (index + 1) n;
      mret (s :: rest)
  end.

(** The combinations in order, the counter running through. *)
Fixpoint combos (l : list (FaultClass * string)) (per_combo : nat) (seq : Z) : stx G (list Scenario * list Skip) :=
  match l with
  | [] => mret ([], [])
  | (f, kind) :: l =>
      match skip_reason f kind with
      | Some reason => rest ← combos l per_combo seq; mret (rest.1, MkSkip f kind reason :: rest.2)
      | None =>
          scs ← repeats f kind seq 0 per_combo;
          rest ← combos l per_combo (seq + Z.of_nat (per_combo * _FIXTURE_COUNT f));
          mret (scs ++ rest.1, rest.2)
      end
  end.

Definition generate (faults : option (list FaultClass)) (kinds : option (list string)) (per_combo start_seq : Z)
    : stx G (list Scenario * list Skip) :=
  _ ← lift (guard_or (1 <=? per_combo) (ValueError "per_combo must be >= 1"));
  let chosen := default ALL_KINDS kinds in
  _ ← lift (guard_or (forallb (λ k, bool_decide (k ∈ ALL_KINDS)) chosen) (ValueError "unknown event kinds"));
  combos (f ← default DEFAULT_FAULTS faults; kind ← chosen; [(f, kind)]) (Z.to_nat per_combo) start_seq.

(** ** The counter *)

(** Runs of the counter: the ids of [n] sequence numbers from [seq] on. *)
Definition ids_from (seq : Z) (n : nat) : list string := event_id_at <$> seqZ seq (Z.of_nat n).

Lemma ids_from_S seq n : ids_from seq (S n) = event_id_at seq :: ids_from (seq + 1) n.
Proof. unfold ids_from. rewrite seqZ_cons by lia. cbn. do 3 f_equal; lia. Qed.
Lemma ids_from_app seq n m : ids_from seq (n + m) = ids_from seq n ++ ids_from (seq + Z.of_nat n) m.
Proof. unfold ids_from. rewrite Nat2Z.inj_add, seqZ_app, fmap_app by lia. done. Qed.

Definition has_ids (l : list EventFixture) (ids : list string) : Prop := map_result fixture_id l = Ok ids.

Lemma has_ids_app l k i j : has_ids l i → has_ids k j → has_ids (l ++ k) (i ++ j).
Proof.
  unfold has_ids. revert i. induction l as [|fx l IH]; intros i; cbn [map_result app]; [by intros [= <-]|].
  intros (y & Hy & (ys & Hys & [= <-])%bind_Ok)%bind_Ok Hk. rewrite Hy, bind_ok_run, (IH ys Hys Hk). done.
Qed.

Lemma fixture_at kind seq g fx g' : _fixture kind seq g = (Ok fx, g') → fixture_id fx = Ok (event_id_at seq).
Proof.
  unfold _fixture, draw. run. destruct (randrange _MIN_AMOUNT _MAX_AMOUNT g) as [amount g1]. run.
  repeat case_bool_decide; run; try (intros [= Hm _]; by eapply make_id).
  destruct (randrange 1 (amount + 1) g1) as [refunded g2]. run. intros [= Hm _]. by eapply make_id.
Qed.

Lemma draw_fixtures_ids kind count : ∀ seq g l g', draw_fixtures kind seq count g = (Ok l, g') →
  has_ids l (ids_from seq count).
Proof.
  induction count as [|n IH]; intros seq g l g'; cbn [draw_fixtures]; run; [by intros [= <- _]|].
  destruct (_fixture kind seq g) as [[fx|] g1] eqn:E1; run; [|done].
  destruct (draw_fixtures kind (seq + 1) n g1) as [[fxs|] g2] eqn:E2; run; [|done]. intros [= <- _].
  unfold has_ids. cbn [map_result]. apply fixture_at in E1. apply IH in E2. rewrite E1, bind_ok_run, E2, ids_from_S. done.
Qed.

Lemma one_scenario_ids f kind seq index g s g' : one_scenario f kind seq index g = (Ok s, g') →
  has_ids (fixtures s) (ids_from seq (_FIXTURE_COUNT f)).
Proof.
  unfold one_scenario. run. destruct (draw_fixtures kind seq (_FIXTURE_COUNT f) g) as [[fxs|] g1] eqn:E; run; [|done].
  destruct (plan _ _ _ _ _ _); run; [|done]. destruct (_label _ _ _ _); run; [|done].
  intros [= <- _]. by eapply draw_fixtures_ids.
Qed.

Lemma repeats_ids f kind n : ∀ seq index g l g', repeats f kind seq index n g = (Ok l, g') →
  has_ids (l ≫= fixtures) (ids_from seq (n * _FIXTURE_COUNT f)) ∧ length l = n ∧
  Forall (λ s, sc_fault s = f) l.
Proof.
  induction n as [|n IH]; intros seq index g l g'; cbn [repeats]; run; [by intros [= <- _]|].
  destruct (one_scenario f kind seq index g) as [[s|] g1] eqn:E1; run; [|done].
  destruct (repeats f kind _ (index + 1) n g1) as [[rest|] g2] eqn:E2; run; [|done]. intros [= <- _].
  pose proof (one_scenario_ids _ _ _ _ _ _ _ E1) as H1. destruct (IH _ _ _ _ _ E2) as (H2 & H3 & H4).
  split_and!; [|cbn; by rewrite H3|].
  - rewrite bind_cons. cbn [Nat.mul]. rewrite ids_from_app. by apply has_ids_app.
  - constructor; [|done]. clear -E1. unfold one_scenario in E1. run in E1.
    destruct (draw_fixtures kind seq _ g) as [[fxs|] g3]; run in E1; [|done].
    destruct (plan _ _ _ _ _ _); run in E1; [|done]. destruct (_label _ _ _ _); run in E1; [|done]. by simplify_eq/=.
Qed.

Lemma combos_ids per_combo l : ∀ seq g scs skips g', combos l per_combo seq g = (Ok (scs, skips), g') →
  ∃ n, has_ids (scs ≫= fixtures) (ids_from seq n).
Proof.
  induction l as [|[f kind] l IH]; intros seq g scs skips g'; cbn [combos]; run.
  { intros [= <- _ _]. by exists O. }
  destruct (skip_reason f kind) as [reason|]; run.
  - destruct (combos l per_combo seq g) as [[[a b]|] g1] eqn:E; run; [|done]. intros [= <- _ _]. by eapply IH.
  - destruct (repeats f kind seq 0 per_combo g) as [[rs|] g1] eqn:E1; run; [|done].
    destruct (combos l per_combo _ g1) as [[[a b]|] g2] eqn:E2; run; [|done]. intros [= <- _ _].
    destruct (repeats_ids _ _ _ _ _ _ _ _ E1) as (H1 & _). destruct (IH _ _ _ _ _ E2) as [n H2].
    exists (per_combo * _FIXTURE_COUNT f + n)%nat. cbn [fst]. rewrite bind_app, ids_from_app. by apply has_ids_app.
Qed.

(** Every combination is skipped with its reason or generated in full. *)
Definition accounted (scs : list Scenario) (skips : list Skip) (per_combo : nat) (l : list (FaultClass * string)) : Prop :=
  skips = (l ≫= λ c, match skip_reason c.1 c.2 with Some r => [MkSkip c.1 c.2 r] | None => [] end) ∧
  length scs = (per_combo * length (filter (λ c, skip_reason c.1 c.2 = None) l))%nat.

Lemma combos_accounted per_combo l : ∀ seq g scs skips g', combos l per_combo seq g = (Ok (scs, skips), g') →
  accounted scs skips per_combo l.
Proof.
  unfold accounted. induction l as [|[f kind] l IH]; intros seq g scs skips g'; cbn [combos]; run.
  { intros [= <- <- _]. split; [done|]. cbn. lia. }
  rewrite bind_cons, filter_cons. cbn [fst snd].
  destruct (skip_reason f kind) as [reason|] eqn:Es; run.
  - destruct (combos l per_combo seq g) as [[[a b]|] g1] eqn:E; run; [|done]. intros [= <- <- _].
    destruct (IH _ _ _ _ _ E) as [-> H]. split; [done|]. by rewrite decide_False.
  - destruct (repeats f kind seq 0 per_combo g) as [[rs|] g1] eqn:E1; run; [|done].
    destruct (combos l per_combo _ g1) as [[[a b]|] g2] eqn:E2; run; [|done]. intros [= <- <- _].
    destruct (IH _ _ _ _ _ E2) as [-> H]. split; [done|]. cbn [fst]. rewrite length_app, H.
    destruct (repeats_ids _ _ _ _ _ _ _ _ E1) as (_ & -> & _). rewrite decide_True by done. cbn [length]. lia.
Qed.
End generate.

Lemma ids_from_NoDup seq n : 0 <= seq → NoDup (ids_from seq n).
Proof.
  intros Hs. unfold ids_from. apply NoDup_fmap_2_strong; [|apply NoDup_seqZ].
  intros x y Hx Hy E. apply elem_of_seqZ in Hx, Hy. apply event_id_at_inj; lia || done.
Qed.

(** ** Property *)

(** A generated set never reuses an event id, within a scenario or across
    scenarios, and leaves nothing out silently: the combinations without a
    scenario are exactly those reported as skipped, and every other one has
    [per_combo] scenarios. *)
Theorem generate_fresh_and_accounted {G} (randrange : Z → Z → G → Z * G) clock faults kinds per_combo start_seq g scs skips g' :
  0 <= start_seq → generate randrange clock faults kinds per_combo start_seq g = (Ok (scs, skips), g') →
  (∃ ids, has_ids (scs ≫= fixtures) ids ∧ NoDup ids) ∧
  skips = skipped_combos faults kinds ∧
  Z.of_nat (length scs) = per_combo * Z.of_nat (length (filter (λ c, skip_reason c.1 c.2 = None)
    (f ← default DEFAULT_FAULTS faults; kind ← default ALL_KINDS kinds; [(f, kind)]))).
Proof.
  intros Hs. unfold generate. run. destruct (1 <=? per_combo) eqn:Ep; cbn [guard_or]; run; [|done].
  destruct (forallb _ _); cbn [guard_or]; run; [|done]. intros H. bool_to_prop.
  destruct (combos_ids _ _ _ _ _ _ _ _ _ H) as [n Hn]. destruct (combos_accounted _ _ _ _ _ _ _ _ _ H) as [-> Hlen].
  split_and!; [exists (ids_from start_seq n); split; [done|by apply ids_from_NoDup]| |lia].
  unfold skipped_combos. clear. induction (default DEFAULT_FAULTS faults) as [|f l IH]; [done|].
  rewrite !bind_cons, bind_app, IH. f_equal. clear IH.
  induction (default ALL_KINDS kinds) as [|k ks IHk]; [done|]. rewrite !bind_cons. cbn [app].
  rewrite bind_cons, IHk. done.
Qed.

Definition sample_randrange (lo hi g : Z) : Z * Z := (lo + g mod (hi - lo), g + 7919).

Lemma generate_fresh_and_accounted_witness :
  ∃ scs skips g', generate sample_randrange 1700000000 (Some [DUPLICATE; REORDER]) (Some ["payout_paid"; "invoice_payment_failed"])
    1 0 5 = (Ok (scs, skips), g') ∧ length skips = 2%nat ∧ ∃ ids, has_ids (scs ≫= fixtures) ids ∧ NoDup ids.
Proof.
  assert (∃ scs skips g', generate sample_randrange 1700000000 (Some [DUPLICATE; REORDER])
    (Some ["payout_paid"; "invoice_payment_failed"]) 1 0 5 = (Ok (scs, skips), g') ∧ length skips = 2%nat)
    as (scs & skips & g' & E & Hl) by (eexists _, _, _; split; [vm_compute; reflexivity|reflexivity]).
  exists scs, skips, g'. split; [exact E|]. split; [exact Hl|].
  exact (proj1 (generate_fresh_and_accounted sample_randrange 1700000000 (Some [DUPLICATE; REORDER])
    (Some ["payout_paid"; "invoice_payment_failed"]) 1 0 5 scs skips g' ltac:(lia) E)).
Defined.
