(* ===== verification/Runner.v ===== *)
(** harness/runner.py: injecting one scenario into a running stack, and judging
    what the system did against what the plan said.  The processes of the stack,
    its clocks and the wire are the operations of a [Stack] over its state;
    what the runner reads of the ledger is read from the database of that state.
    Times measured as floats are carried as text. *)
From S2P Require Import Prelude PyVal Json Hash Ledger Post Balances Mapping Recon Prompts Triage Events Faults Scenarios.
Import Fault.
#[local] Open Scope Z_scope.

(** ** Text *)

(** [repr] of a str of printable characters, quotes, backslashes and the usual
    control characters. *)
Definition repr_char (quote c : ascii) : list ascii :=
  if bool_decide (c = quote ∨ c = chr 92) then [chr 92; c]
  else if code c =? 10 then [chr 92; "n"%char]
  else if code c =? 13 then [chr 92; "r"%char]
  else if code c =? 9 then [chr 92; "t"%char]
  else if (code c <? 32) || (code c =? 127)
  then [chr 92; "x"%char; hex_digit (code c / 16); hex_digit (code c mod 16)]
  else [c].
Definition py_repr (s : string) : string :=
  let l := chars s in
  let quote := if (bool_decide (chr 39 ∈ l) && negb (bool_decide (chr 34 ∈ l)))%bool then chr 34 else chr 39 in
  of_chars (quote :: (l ≫= repr_char quote) ++ [quote]).
Definition repr_list (l : list string) : string := "[" +:+ join ", " (py_repr <$> l) +:+ "]".

(** [p in s] *)
Definition contains (p s : string) : bool := bool_decide (String.index 0 p s ≠ None).

(** [dict.fromkeys(l)]: first occurrences, in order. *)
Definition fromkeys (l : list string) : list string := reverse (remove_dups (reverse l)).

(** ** The observation and the verdict *)
Definition INVARIANT_VIOLATION : string := "INVARIANT_VIOLATION".
Definition LEDGER_DIFF_MISMATCH : string := "LEDGER_DIFF_MISMATCH".
Definition ACCEPTED_BAD_DELIVERY : string := "ACCEPTED_BAD_DELIVERY".
Definition LOST_EVENT : string := "LOST_EVENT".
Definition DOUBLE_POST : string := "DOUBLE_POST".
Definition NOT_QUIESCENT : string := "NOT_QUIESCENT".
Definition RECONCILER_MISSED_DROP : string := "RECONCILER_MISSED_DROP".
Definition INGEST_UNRESPONSIVE : string := "INGEST_UNRESPONSIVE".
Definition WRONG_REJECTION_REASON : string := "WRONG_REJECTION_REASON".

Record Observation := MkObservation {
  ledger_diff : gmap string Z; invariant_after : bool; posted : list string; transactions : Z; quiescent : bool;
  accepted_rejected : list string; wrong_rejection_reason : list string; recon_reported_break : bool;
  ingest_responsive : option bool }.

Definition _break (kind detail : string) : pyval := PDict [("kind", PStr kind); ("detail", PStr detail)].

Definition _fmt (delta : gmap string Z) : string :=
  "{" +:+ join ", " ((λ kv, kv.1 +:+ "=" +:+ signed_str kv.2) <$> sort_items (map_to_list delta)) +:+ "}".

(** [bad.setdefault(event_id, []).append(why)] *)
Definition add_bad (why : string) (bad : gmap string (list string)) (event_id : string) : gmap string (list string) :=
  <[event_id := default [] (bad !! event_id) ++ [why]]> bad.

Definition bad_deliveries (exp : Expectation) (obs : Observation) : gmap string (list string) :=
  foldl (add_bad "ingest answered 2xx")
    (foldl (add_bad "it produced a ledger transaction") ∅
       (base.elements (rejected_event_ids exp ∩ list_to_set (posted obs) : gset string)))
    (accepted_rejected obs).

Definition detect_breaks (fault_plan : FaultPlan) (obs : Observation) : list pyval :=
  let exp := p_expectation fault_plan in
  let expected := Z.of_nat (size (posted_event_ids exp)) in
  let bad := bad_deliveries exp obs in
  (if negb (invariant_after obs)
   then [_break INVARIANT_VIOLATION "money conservation broke: the ledger created or destroyed money"] else []) ++
  (if bool_decide (ledger_diff obs ≠ balances_delta exp)
   then [_break LEDGER_DIFF_MISMATCH
           ("expected " +:+ _fmt (balances_delta exp) +:+ ", observed " +:+ _fmt (ledger_diff obs))] else []) ++
  ((λ id, _break ACCEPTED_BAD_DELIVERY
            (id +:+ " should have been refused but " +:+ join " and " (default [] (bad !! id)))) <$>
   sort_strings (base.elements (dom bad))) ++
  (_break WRONG_REJECTION_REASON <$> wrong_rejection_reason obs) ++
  ((λ id, _break LOST_EVENT (id +:+ " should have posted exactly one transaction, found none")) <$>
   sort_strings (base.elements (posted_event_ids exp ∖ list_to_set (posted obs)))) ++
  (if expected <? transactions obs
   then [_break DOUBLE_POST
           (str_of_Z (transactions obs) +:+ " transactions for " +:+ str_of_Z expected +:+ " expected posting(s): " +:+
            repr_list (posted obs))] else []) ++
  (if negb (quiescent obs)
   then [_break NOT_QUIESCENT "the queue or the event log never drained: work is stuck in flight"] else []) ++
  (if (reconciler_should_report_break exp && negb (recon_reported_break obs))%bool
   then [_break RECONCILER_MISSED_DROP
           ("the ledger looks healthy and the reconciler reported no break for the " +:+
            "undelivered event — the one failure only reconciliation can catch")] else []) ++
  (if bool_decide (ingest_responsive obs = Some false)
   then [_break INGEST_UNRESPONSIVE "ingest stopped answering /healthz while a body was still on the wire"] else []).

(** Non-zero balance changes between two readings of the balances. *)
Definition _diff (before after : list (string * Z)) : gmap string Z :=
  let names : gset string := list_to_set (before.*1 ++ after.*1) in
  nonzero (list_to_map
    ((λ name, (name, default 0 (dict_get name after) - default 0 (dict_get name before))) <$> base.elements names)).

(** ** Worker log *)

(** A character of the class [[0-9a-f-]]. *)
Definition id_char (c : ascii) : bool :=
  (is_digit c || ((97 <=? code c) && (code c <=? 102)) || (code c =? 45))%bool.
Fixpoint span_ids (l : list ascii) : list ascii * list ascii :=
  match l with
  | c :: l' => if id_char c then let '(a, b) := span_ids l' in (c :: a, b) else ([], l)
  | [] => ([], [])
  end.
Fixpoint strip_prefix (p l : list ascii) : option (list ascii) :=
  match p, l with
  | [], _ => Some l
  | a :: p, c :: l => if bool_decide (a = c) then strip_prefix p l else None
  | _ :: _, [] => None
  end.

(** A match of [process_event\[([0-9a-f-]+)\] <verb>] here: the group and the
    number of characters matched. *)
Definition match_task (verb : string) (l : list ascii) : option (string * nat) :=
  rest ← strip_prefix (chars "process_event[") l;
  let '(id, rest') := span_ids rest in
  if bool_decide (id = []) then None
  else rest'' ← strip_prefix (chars ("] " +:+ verb)) rest'; Some (of_chars id, (length l - length rest'')%nat).

(** [findall]: [skip] characters belong to the match before. *)
Fixpoint findall (verb : string) (skip : nat) (l : list ascii) : list string :=
  match l with
  | [] => []
  | _ :: rest =>
      match skip with
      | S skip => findall verb skip rest
      | O => match match_task verb l with
             | Some (id, n) => id :: findall verb (n - 1) rest
             | None => findall verb O rest
             end
      end
  end.

Definition task_in_flight (worker_log : string) : bool :=
  let finished := findall "succeeded" O (chars worker_log) in
  existsb (λ task, negb (bool_decide (task ∈ finished))) (findall "received" O (chars worker_log)).

Definition _log_size (file : option string) : nat := match file with Some s => String.length s | None => O end.
Definition _log_since (file : option string) (offset : nat) : string :=
  match file with Some s => of_chars (drop offset (chars s)) | None => "" end.

(** ** Reading the ledger *)
Definition _posted_rows (d : database) (event_ids : list string) : list string :=
  omap (λ t, id ← t_event t; if bool_decide (id ∈ event_ids) then Some id else None) (Ledger.transactions d).

Definition _event_log_rows (d : database) (event_ids : list string) : list pyval :=
  (λ e, PDict [("id", PStr (ev_id e)); ("event_type", PStr (ev_type e)); ("object_id", opt_str (ev_object e));
               ("status", PStr (status_name (ev_status e)))]) <$>
  filter (λ e, ev_id e ∈ event_ids) (stripe_events d).

(** ** The stack *)
Record DeliveryResult := MkDeliveryResult {
  r_event_id : string; status_code : option Z; r_body : string; r_error : option string; r_duration_ms : Z;
  started_at : string }.

(** What [proxy.execute] leaves: the results, the failed kills, and the samples
    of the health probe when one was running. *)
Record Execution := MkExecution { results : list DeliveryResult; kill_errors : list string; samples : list bool }.

Record Stack (W : Type) := MkStack {
  webhook_secret : string;
  db : W → database;
  worker_log_file : W → option string;
  wall_clock : W → Z;
  isoformat_now : W → string;
  elapsed_ms : W → W → Z;
  (* [int((result.started_at - scenario_started) * 1000)] *)
  arrived_ms : W → DeliveryResult → Z;
  (* [float(value)], and the age rounded to a tenth of a second *)
  float_of : string → option string;
  age_s : W → DeliveryResult → string → string;
  execute : bool → bool → FaultPlan → stx W Execution;
  send : Delivery → stx W DeliveryResult;
  restart_worker : stx W ();
  wait_quiescent : list string → stx W bool;
  reset_ledger : stx W () }.
Arguments webhook_secret {W}. Arguments db {W}. Arguments worker_log_file {W}. Arguments wall_clock {W}.
Arguments isoformat_now {W}. Arguments elapsed_ms {W}. Arguments arrived_ms {W}. Arguments float_of {W}.
Arguments age_s {W}. Arguments execute {W}. Arguments send {W}. Arguments restart_worker {W}.
Arguments wait_quiescent {W}. Arguments reset_ledger {W}.

(** ** What was sent and what came back *)

(** The [t=] value of a Stripe-Signature header, as a float. *)
Fixpoint timestamp_of (float_of : string → option string) (items : list string) : option string :=
  match items with
  | [] => None
  | item :: items =>
      let '(key, sep, value) := partition "="%char item in
      if (sep && bool_decide (strip key = "t"))%bool then float_of value else timestamp_of float_of items
  end.
Definition _signature_timestamp (float_of : string → option string) (sig_header : string) : option string :=
  timestamp_of float_of (split ","%char sig_header).

Definition _parses_as_json (body : string) : bool := bool_decide (json_loads body ≠ None).

Section stack.
Context {W : Type} (stack : Stack W).

Definition delivery_record (fault_plan : FaultPlan) (w : W) (index : nat) (result : DeliveryResult) : pyval :=
  let planned := p_deliveries fault_plan in
  let sent := match planned !! index with Some d => Some d | None => head planned end in
  PDict ([("event_id", PStr (r_event_id result)); ("status_code", opt_int (status_code result));
          ("body", PStr (r_body result)); ("error", opt_str (r_error result));
          ("duration_ms", PInt (r_duration_ms result)); ("arrived_after_ms", PInt (Z.max 0 (arrived_ms stack w result)));
          ("upstream_status",
            if (force_500 fault_plan && bool_decide (index = O))%bool then PInt 500 else opt_int (status_code result))] ++
    match sent with
    | None => []
    | Some sent =>
        [("request_signature_header", PStr (d_sig_header sent)); ("request_body_bytes", PInt (str_len (d_body sent)));
         ("request_body_parses_as_json", PBool (_parses_as_json (d_body sent)))] ++
        match _signature_timestamp (float_of stack) (d_sig_header sent) with
        | Some signed_at => [("signature_age_at_arrival_s", PFloat (age_s stack w result signed_at))]
        | None => []
        end
    end).

Definition _delivery_records (fault_plan : FaultPlan) (w : W) (l : list DeliveryResult) : list pyval :=
  imap (delivery_record fault_plan w) l.

(** The answers to planned deliveries, [zip(..., strict=False)]. *)
Definition answered (fault_plan : FaultPlan) (l : list DeliveryResult) : list (Delivery * DeliveryResult) :=
  zip (p_deliveries fault_plan) (take (length (p_deliveries fault_plan)) l).

Definition status_within (lo hi : Z) (r : DeliveryResult) : bool :=
  match status_code r with Some s => ((lo <=? s) && (s <? hi))%bool | None => false end.

Definition accepted_of (fault_plan : FaultPlan) (l : list DeliveryResult) : list string :=
  fromkeys ((λ p : Delivery * DeliveryResult, d_event_id p.1) <$>
    filter (λ p : Delivery * DeliveryResult, (expect_rejected p.1 && status_within 200 300 p.2)%bool) (answered fault_plan l)).

Definition wrong_reason (p : Delivery * DeliveryResult) : option string :=
  reason ← expect_rejection_reason p.1;
  status ← status_code p.2;
  if (status_within 400 500 p.2 && negb (contains reason (r_body p.2)))%bool
  then Some (d_event_id p.1 +:+ ": expected refusal by " +:+ py_repr reason +:+ ", got HTTP " +:+ str_of_Z status +:+ " " +:+
             py_repr (of_chars (take 120 (chars (r_body p.2)))))
  else None.
Definition wrong_of (fault_plan : FaultPlan) (l : list DeliveryResult) : list string :=
  fromkeys (omap wrong_reason (answered fault_plan l)).

(** [float > 0] on the text of a float. *)
Definition positive_text (r : string) : bool :=
  match chars r with
  | c :: _ => ((is_digit c || bool_decide (c = "i"%char)) && negb (float_is_zero r))%bool
  | [] => false
  end.

(** The breaks of the reconciler that report a planned event as missing. *)
Definition missing_breaks (candidates : list string) (recon : ReconResult) : list Break :=
  filter (λ b, b_kind b = MISSING_IN_LEDGER ∧ b_event_id b ∈ Some <$> candidates) (Recon.breaks recon).

Definition expected_of (fixtures : list EventFixture) : result (list ExpectedEvent) :=
  map_result (λ fx, id ← fixture_id fx; mret (MkExpectedEvent id (fx_delta fx))) fixtures.

Definition diff_value (m : gmap string Z) : pyval := PDict ((λ kv, (kv.1, PInt kv.2)) <$> sort_items (map_to_list m)).
Definition opt_bool (o : option bool) : pyval := match o with Some b => PBool b | None => PNone end.
Definition strs (l : list string) : pyval := PList (PStr <$> l).

(** [_HealthProbe.responsive]: every sample was an answer; None without one. *)
Definition responsive (samples : list bool) : option bool :=
  match samples with [] => None | _ => Some (forallb id samples) end.

(** ** One scenario *)
Definition only_if (b : bool) (m : stx W ()) : stx W () := if b then m else mret ().

(** The delivery sent again after the worker was killed. *)
Definition redeliver (kills : bool) (fault_plan : FaultPlan) : stx W (list DeliveryResult) :=
  match p_deliveries fault_plan with
  | d :: _ => if (kills && redeliver_after_kill fault_plan)%bool then r ← send stack d; mret [r] else mret []
  | [] => mret []
  end.

(** The record: what was planned, what came back, what was observed. *)
Definition scenario_record (scenario : Scenario) (fault_plan : FaultPlan) (start finish : W) (invariant_before : bool)
    (d : database) (candidates ids : list string) (all_results : list DeliveryResult) (obs : Observation)
    (killed_in_flight : option bool) (recon_record : pyval) (errors : list string) : pyval :=
  let exp := p_expectation fault_plan in
  let kills := bool_decide (kill_worker_after_s fault_plan ≠ None) in
  PDict [
    ("scenario_id", PStr (scenario_id scenario)); ("fault", PStr (Fault.value (sc_fault scenario)));
    ("params", PDict (sc_params scenario)); ("events", strs ids);
    ("invariant_before", PBool invariant_before); ("invariant_after", PBool (invariant_after obs));
    ("ledger_diff", diff_value (ledger_diff obs)); ("duration_ms", PInt (elapsed_ms stack start finish));
    ("deliveries", PList (_delivery_records fault_plan start all_results));
    ("event_log", PList (_event_log_rows d candidates));
    ("expected", PDict [("posted", sorted_set (posted_event_ids exp)); ("rejected", sorted_set (rejected_event_ids exp));
                        ("balances_delta", delta_value (balances_delta exp))]);
    ("actual", PDict [("posted", strs (posted obs)); ("transactions", PInt (transactions obs))]);
    ("breaks", PList (detect_breaks fault_plan obs)); ("quiescent", PBool (quiescent obs)); ("label", sc_label scenario);
    ("kinds", PList ((λ fx, PStr (fx_kind fx)) <$> fixtures scenario));
    ("started_at", PStr (isoformat_now stack start));
    ("accepted_rejected", strs (accepted_rejected obs)); ("wrong_rejection_reason", strs (wrong_rejection_reason obs));
    ("redelivered_after_kill", PBool (kills && redeliver_after_kill fault_plan));
    ("worker_restarted", PBool kills); ("killed_with_task_in_flight", opt_bool killed_in_flight);
    ("ledger_reset", PBool (negb (invariant_after obs))); ("ingest_responsive", opt_bool (ingest_responsive obs));
    ("recon", recon_record); ("invariant_detail", Balances.as_dict (Balances.check d));
    ("error", match errors with [] => PNone | _ => PStr (join "; " errors) end)].

Definition run_scenario (scenario : Scenario) : stx W pyval :=
  start ← gets id;
  fault_plan ← lift (plan (sc_fault scenario) (fixtures scenario) (webhook_secret stack) (sc_params scenario) None
                       (wall_clock stack start));
  let exp := p_expectation fault_plan in
  let deliveries := p_deliveries fault_plan in
  let before := all_balances (db stack start) in
  let invariant_before := invariant_ok (Balances.check (db stack start)) in
  let probing := existsb (λ d, positive_text (slow_loris_s d)) deliveries in
  let kills := bool_decide (kill_worker_after_s fault_plan ≠ None) in
  let log_offset := if kills then _log_size (worker_log_file stack start) else O in
  execution ← execute stack probing kills fault_plan;
  executed ← gets id;
  let killed_in_flight :=
    if kills then Some (task_in_flight (_log_since (worker_log_file stack executed) log_offset)) else None in
  _ ← only_if kills (restart_worker stack);
  redelivered ← redeliver kills fault_plan;
  let all_results := results execution ++ redelivered in
  ids ← lift (map_result fixture_id (fixtures scenario));
  is_quiescent ← wait_quiescent stack ids;
  now ← gets id;
  let d := db stack now in
  let inv := Balances.check d in
  let changes := _diff before (all_balances d) in
  let candidates := fromkeys (ids ++ (d_event_id <$> deliveries)) in
  let rows := _posted_rows d candidates in
  let posted_ids := sort_strings (remove_dups rows) in
  let wrong := wrong_of fault_plan all_results in
  let accepted := accepted_of fault_plan all_results in
  expected ← lift (expected_of (fixtures scenario));
  let recon := reconcile_expected expected "USD" d in
  let missing := missing_breaks candidates recon in
  let reported := (reconciler_should_report_break exp && negb (bool_decide (missing = [])))%bool in
  let recon_record := if reconciler_should_report_break exp
    then PDict [("reported", PBool reported); ("checked", PInt (checked recon));
                ("invariant_ok", PBool (recon_invariant_ok recon)); ("breaks", PList (break_as_dict <$> missing))]
    else PNone in
  let answering := if probing then responsive (samples execution) else None in
  let obs := MkObservation changes (invariant_ok inv) posted_ids (Z.of_nat (length rows)) is_quiescent accepted wrong
               reported answering in
  _ ← only_if (negb (invariant_ok inv)) (reset_ledger stack);
  finish ← gets id;
  mret (scenario_record scenario fault_plan start finish invariant_before d candidates ids all_results obs
          killed_in_flight recon_record (if kills then kill_errors execution else [])).

Definition _failure_record (scenario : Scenario) (exc : string) (duration_ms : Z) : result pyval :=
  ids ← map_result fixture_id (fixtures scenario);
  mret (PDict [
    ("scenario_id", PStr (scenario_id scenario)); ("fault", PStr (Fault.value (sc_fault scenario)));
    ("params", PDict (sc_params scenario)); ("events", strs ids); ("invariant_before", PNone); ("invariant_after", PNone);
    ("ledger_diff", PDict []); ("duration_ms", PInt duration_ms); ("deliveries", PList []);
    ("expected", PDict [("posted", PList []); ("rejected", PList []); ("balances_delta", PDict [])]);
    ("actual", PDict [("posted", PList []); ("transactions", PInt 0)]); ("breaks", PList []); ("quiescent", PBool false);
    ("label", sc_label scenario); ("kinds", PList ((λ fx, PStr (fx_kind fx)) <$> fixtures scenario)); ("error", PStr exc)]).

(** ** A run: one record per scenario, whatever happens to it.  [describe] is
    [f"{type(exc).__name__}: {exc}"]; a reset or a record that fails ends the
    run. *)
Context (describe : exn → string).

Fixpoint run_all (reset_each : bool) (scenarios : list Scenario) : stx W (list pyval) :=
  match scenarios with
  | [] => mret []
  | scenario :: scenarios =>
      _ ← only_if reset_each (reset_ledger stack);
      started ← gets id;
      record ← try_except (run_scenario scenario) (λ exc,
        failed ← gets id;
        lift (_failure_record scenario (describe exc) (elapsed_ms stack started failed)));
      records ← run_all reset_each scenarios;
      mret (record :: records)
  end.
End stack.

(** ** Back from the artifact *)
Definition strs_of (v : pyval) : result (list string) :=
  l ← iterate v; map_result (λ x, of_option (IllTyped "not a str") (as_str x)) l.

Definition observation_from_record (record : pyval) : result Observation :=
  diff ← py_index record "ledger_diff";
  items ← of_option AttributeError (PyVal.as_dict diff);
  changes ← map_result (λ kv : string * pyval, z ← py_int kv.2; mret (kv.1, z)) items;
  inv ← py_index record "invariant_after";
  actual ← py_index record "actual"; posted_v ← py_index actual "posted"; posted_ids ← strs_of posted_v;
  txns ← py_index actual "transactions"; n ← py_int txns;
  q ← py_index record "quiescent";
  acc ← py_get_default record "accepted_rejected" (PList []); accepted ← strs_of acc;
  wr ← py_get_default record "wrong_rejection_reason" (PList []); wrong ← strs_of wr;
  recon ← py_get record "recon";
  reported ← py_get_default (if truthy recon then recon else PDict []) "reported" (PBool false);
  responsive ← py_get record "ingest_responsive";
  responsive ← (match responsive with
                | PNone => Ok None | PBool b => Ok (Some b) | _ => Err (IllTyped "ingest_responsive") end);
  mret (MkObservation (list_to_map changes) (truthy inv) posted_ids n (truthy q) accepted wrong (truthy reported) responsive).

(** ** The summary of a run *)
Definition bump (k : string) (counts : gmap string Z) : gmap string Z := <[k := default 0 (counts !! k) + 1]> counts.

Fixpoint count_each (key : string) (l : list pyval) (counts : gmap string Z) : result (gmap string Z) :=
  match l with
  | [] => Ok counts
  | v :: l => k ← py_index v key; k ← of_option (IllTyped "key") (as_str k); count_each key l (bump k counts)
  end.

(** Counts by fault and breaks by kind. *)
Fixpoint tally (records : list pyval) (by_fault by_kind : gmap string Z) : result (gmap string Z * gmap string Z) :=
  match records with
  | [] => Ok (by_fault, by_kind)
  | r :: records =>
      by_fault ← count_each "fault" [r] by_fault;
      items ← py_index r "breaks"; items ← iterate items;
      by_kind ← count_each "kind" items by_kind;
      tally records by_fault by_kind
  end.

(** [sum(1 for r in records if r.get(key))], with [r[key]] for a key every record has. *)
Definition count_truthy (key : string) (records : list pyval) : result Z :=
  flags ← map_result (λ r, v ← py_get r key; mret (truthy v)) records;
  mret (Z.of_nat (length (filter (λ b : bool, b) flags))).
Definition count_measured (key : string) (records : list pyval) : result Z :=
  flags ← map_result (λ r, v ← py_get r key; mret (negb (is_none v))) records;
  mret (Z.of_nat (length (filter (λ b : bool, b) flags))).

Definition counts_value (m : gmap string Z) : pyval := PDict ((λ kv, (kv.1, PInt kv.2)) <$> sort_items (map_to_list m)).

Definition summarize (records : list pyval) (argv : list string) (skipped : list Skip) (generated : Z)
    (wall_clock_s started finished artifact : string) : result pyval :=
  t ← tally records ∅ ∅;
  broken ← count_truthy "breaks" records;
  errored ← count_truthy "error" records;
  kills ← count_measured "killed_with_task_in_flight" records;
  landed ← count_truthy "killed_with_task_in_flight" records;
  mret (PDict [
    ("argv", strs argv); ("started_at", PStr started); ("finished_at", PStr finished); ("wall_clock_s", PFloat wall_clock_s);
    ("artifact", PStr artifact); ("scenarios_generated", PInt generated); ("scenarios_run", PInt (Z.of_nat (length records)));
    ("scenarios_with_breaks", PInt broken); ("scenarios_errored", PInt errored);
    ("counts_by_fault", counts_value t.1); ("breaks_by_kind", counts_value t.2);
    ("kill_scenarios", PInt kills); ("kills_with_task_in_flight", PInt landed);
    ("skipped_combos", PList (skip_as_dict <$> skipped))]).

(** [None] and the empty string select nothing in particular. *)
Definition names_of (raw : string) : list string :=
  filter (λ s, s ≠ "") (strip <$> split ","%char raw).
Definition fault_named (name : string) : result FaultClass :=
  of_option (ValueError "not a valid Fault") (find (λ f, bool_decide (Fault.value f = name)) Fault.all).
Definition _fault_list (raw : option string) : result (option (list FaultClass)) :=
  match raw with
  | None => Ok None
  | Some raw => if bool_decide (raw = "") then Ok None
                else l ← map_result (λ name, fault_named (upper name)) (names_of raw); mret (Some l)
  end.
Definition _kind_list (raw : option string) : option (list string) :=
  match raw with
  | None => None
  | Some raw => if bool_decide (raw = "") then None else Some (names_of raw)
  end.

(** ** The verdict *)

(** What the plan promises of an observation. *)
Record meets (exp : Expectation) (obs : Observation) : Prop := {
  m_invariant : invariant_after obs = true;
  m_diff : ledger_diff obs = balances_delta exp;
  m_refused : rejected_event_ids exp ## list_to_set (posted obs);
  m_no_2xx : accepted_rejected obs = [];
  m_layer : wrong_rejection_reason obs = [];
  m_posted : posted_event_ids exp ⊆ list_to_set (posted obs);
  m_count : transactions obs <= Z.of_nat (size (posted_event_ids exp));
  m_quiet : quiescent obs = true;
  m_recon : reconciler_should_report_break exp = true → recon_reported_break obs = true;
  m_responsive : ingest_responsive obs ≠ Some false }.

Lemma sort_strings_nil l : sort_strings l = [] ↔ l = [].
Proof.
  split; [|by intros ->]. intros H. destruct l as [|x l]; [done|].
  assert (x ∈ sort_strings (x :: l)) as Hx by (apply sort_strings_elem; left). rewrite H in Hx. by apply elem_of_nil in Hx.
Qed.

Lemma add_bad_dom why l : ∀ bad, dom (foldl (add_bad why) bad l) = dom bad ∪ list_to_set l.
Proof.
  induction l as [|x l IH]; intros bad; cbn [foldl list_to_set]; [set_solver|].
  rewrite IH. unfold add_bad. rewrite dom_insert_L. set_solver.
Qed.

Lemma bad_deliveries_dom exp obs : dom (bad_deliveries exp obs) =
  (rejected_event_ids exp ∩ list_to_set (posted obs)) ∪ list_to_set (accepted_rejected obs).
Proof. unfold bad_deliveries. rewrite !add_bad_dom, dom_empty_L, list_to_set_elements_L. set_solver. Qed.

Lemma fmap_nil_iff {A B} (f : A → B) l : f <$> l = [] ↔ l = [].
Proof. by destruct l. Qed.

Lemma if_nil {A} (b : bool) (x : A) : (if b then [x] else []) = [] ↔ b = false.
Proof. by destruct b. Qed.

Lemma detect_breaks_nil p obs : detect_breaks p obs = [] ↔ meets (p_expectation p) obs.
Proof.
  unfold detect_breaks. set (exp := p_expectation p). cbv zeta.
  rewrite !app_nil, !fmap_nil_iff, !if_nil, !sort_strings_nil, !elements_empty_iff, bad_deliveries_dom.
  split.
  - intros (H1 & H2 & H3 & H4 & H5 & H6 & H7 & H8 & H9).
    constructor; bool_to_prop.
    + by destruct (invariant_after obs).
    + by apply dec_stable.
    + set_solver.
    + destruct (accepted_rejected obs); set_solver.
    + done.
    + set_solver.
    + lia.
    + by destruct (quiescent obs).
    + intros Hr. rewrite Hr in H8. by destruct (recon_reported_break obs).
    + done.
  - intros []. rewrite m_invariant0, m_quiet0, m_no_2xx0. split_and!; try done.
    + by rewrite m_diff0, bool_decide_false by naive_solver.
    + set_solver.
    + set_solver.
    + apply Z.ltb_ge. lia.
    + destruct (reconciler_should_report_break exp); [|done]. by rewrite m_recon0.
    + by apply bool_decide_false.
Qed.

(** ** A record and the observation behind it *)
Lemma strs_of_strs l : strs_of (strs l) = Ok l.
Proof.
  unfold strs_of, strs. cbn [iterate]. rewrite bind_ok_run. induction l as [|x l IH]; [done|].
  rewrite fmap_cons. cbn [map_result as_str of_option]. rewrite bind_ok_run, IH. done.
Qed.

Lemma changes_of_items (l : list (string * Z)) :
  map_result (λ kv : string * pyval, z ← py_int kv.2; mret (kv.1, z)) ((λ kv, (kv.1, PInt kv.2)) <$> l) = Ok l.
Proof.
  induction l as [|[k z] l IH]; [done|]. rewrite fmap_cons. cbn [map_result fst snd py_int as_num].
  rewrite !bind_ok_run. cbn. rewrite IH. done.
Qed.

Lemma sort_items_map (m : gmap string Z) : list_to_map (sort_items (map_to_list m)) = m.
Proof.
  rewrite <- (list_to_map_to_list m) at 2. apply list_to_map_proper; [|apply merge_sort_Permutation].
  unfold sort_items. rewrite merge_sort_Permutation. apply NoDup_fst_map_to_list.
Qed.

Section runs.
Context {W : Type} (stack : Stack W).

(** What a record of a run says of the state [w'] the run ended in. *)
Definition candidates_of (scenario : Scenario) (p : FaultPlan) : result (list string) :=
  ids ← map_result fixture_id (fixtures scenario); mret (fromkeys (ids ++ (d_event_id <$> p_deliveries p))).

(** The observation [obs] reads the ledger as it is in [d]. *)
Record reads_ledger (before d : database) (candidates : list string) (obs : Observation) : Prop := {
  rl_diff : ledger_diff obs = _diff (all_balances before) (all_balances d);
  rl_inv : invariant_after obs = invariant_ok (Balances.check d);
  rl_posted : posted obs = sort_strings (remove_dups (_posted_rows d candidates));
  rl_count : transactions obs = Z.of_nat (length (_posted_rows d candidates)) }.

(** The part of the record that tells whether the reconciler reported. *)
Definition tells_reported (recon_record : pyval) (reported : bool) : Prop :=
  (recon_record = PNone ∧ reported = false) ∨ ∃ rest, recon_record = PDict (("reported", PBool reported) :: rest).

Lemma record_observation scenario p start finish before d candidates ids l obs killed recon_record errors :
  tells_reported recon_record (recon_reported_break obs) →
  observation_from_record
    (scenario_record stack scenario p start finish before d candidates ids l obs killed recon_record errors) = Ok obs.
Proof.
  intros Hr. unfold observation_from_record. set (r := scenario_record _ _ _ _ _ _ _ _ _ _ _ _ _ _).
  set (actual := PDict [("posted", strs (posted obs)); ("transactions", PInt (transactions obs))]).
  change (py_index r "ledger_diff") with (Ok (diff_value (ledger_diff obs))).
  change (py_index r "invariant_after") with (Ok (PBool (invariant_after obs))).
  change (py_index r "actual") with (Ok actual). change (py_index r "quiescent") with (Ok (PBool (quiescent obs))).
  change (py_get_default r "accepted_rejected" (PList [])) with (Ok (strs (accepted_rejected obs))).
  change (py_get_default r "wrong_rejection_reason" (PList [])) with (Ok (strs (wrong_rejection_reason obs))).
  change (py_get r "recon") with (Ok recon_record).
  change (py_get r "ingest_responsive") with (Ok (opt_bool (ingest_responsive obs))).
  clearbody r. rewrite !bind_ok_run. unfold diff_value. cbn [PyVal.as_dict of_option]. rewrite bind_ok_run, changes_of_items, !bind_ok_run.
  change (py_index actual "posted") with (Ok (strs (posted obs))).
  change (py_index actual "transactions") with (Ok (PInt (transactions obs))). clearbody actual.
  rewrite !bind_ok_run, strs_of_strs, !bind_ok_run. cbn [py_int as_num]. repeat first [rewrite bind_ok_run | rewrite strs_of_strs].
  assert (py_get_default (if truthy recon_record then recon_record else PDict []) "reported" (PBool false) =
          Ok (PBool (recon_reported_break obs))) as ->.
  { destruct Hr as [[-> ->]|[rest ->]]; reflexivity. }
  rewrite bind_ok_run, sort_items_map. destruct obs as [? ? ? ? ? ? ? ? [[]|]]; reflexivity.
Qed.
(** The record of a run, with what it was made from. *)
Lemma run_scenario_shape scenario w record w' : run_scenario stack scenario w = (Ok record, w') →
  ∃ p candidates obs now finish ids l killed recon_record errors,
    record = scenario_record stack scenario p w finish (invariant_ok (Balances.check (db stack w))) (db stack now) candidates ids l obs
               killed recon_record errors ∧
    plan (sc_fault scenario) (fixtures scenario) (webhook_secret stack) (sc_params scenario) None (wall_clock stack w) = Ok p ∧
    candidates_of scenario p = Ok candidates ∧ reads_ledger (db stack w) (db stack now) candidates obs ∧
    tells_reported recon_record (recon_reported_break obs) ∧ (invariant_after obs = true → w' = now).
Proof.
  unfold run_scenario, candidates_of. run. unfold id at 1.
  destruct (plan _ _ _ _ _ _) as [p|] eqn:Ep; run; [|done]. cbv zeta.
  destruct (execute stack _ _ p w) as [[ex|] w1]; run; [|done].
  destruct (only_if _ (restart_worker stack) w1) as [[[]|] w2]; run; [|done].
  destruct (redeliver stack _ p w2) as [[red|] w3]; run; [|done].
  destruct (map_result fixture_id (fixtures scenario)) as [ids|] eqn:Ei; run; [|done].
  destruct (wait_quiescent stack ids w3) as [[q|] w4]; run; [|done].
  destruct (expected_of _) as [expected|]; run; [|done].
  match goal with |- context [MkObservation ?a ?b ?c ?e ?f ?g ?h ?i ?j] => set (obs := MkObservation a b c e f g h i j) end.
  match goal with |- context [only_if ?b (reset_ledger stack) ?s] =>
    destruct (only_if b (reset_ledger stack) s) as [[[]|] w5] eqn:Ereset; run; [|done] end.
  intros [= <- <-]. exists p. eexists _, obs, w4. do 6 eexists. split; [reflexivity|]. split_and!; [done|done|by constructor|..].
  - cbn [recon_reported_break obs]. destruct (reconciler_should_report_break (p_expectation p)); [right; by eexists|by left].
  - cbn [invariant_after obs]. intros Hi. unfold only_if, id in *. rewrite Hi in Ereset. by injection Ereset.
Qed.

Lemma run_scenario_record scenario w record w' : run_scenario stack scenario w = (Ok record, w') →
  ∃ p candidates obs now,
    plan (sc_fault scenario) (fixtures scenario) (webhook_secret stack) (sc_params scenario) None (wall_clock stack w) = Ok p ∧
    candidates_of scenario p = Ok candidates ∧
    observation_from_record record = Ok obs ∧
    py_index record "breaks" = Ok (PList (detect_breaks p obs)) ∧
    reads_ledger (db stack w) (db stack now) candidates obs ∧
    (invariant_after obs = true → w' = now).
Proof.
  intros Hrun. destruct (run_scenario_shape scenario w record w' Hrun)
    as (p & candidates & obs & now & finish & ids & l & killed & recon_record & errors & -> & Hp & Hc & Hr & Ht & Hw).
  exists p, candidates, obs, now. split_and!; [done|done|by apply record_observation|reflexivity|done|done].
Qed.
End runs.

(** What was posted, when as many rows as expected ids hold every expected id. *)
Lemma rows_exactly (rows : list string) (expected : gset string) :
  expected ⊆ list_to_set rows → (length rows <= size expected)%nat → rows ≡ₚ base.elements expected.
Proof.
  intros Hsub Hlen. symmetry. apply submseteq_length_Permutation; [|done].
  apply NoDup_submseteq; [apply NoDup_elements|]. intros x Hx%elem_of_elements. set_solver.
Qed.

(** ** Properties *)

(** The runner reports nothing about an observation exactly when the
    observation keeps everything the plan promised: money conserved, the expected
    balance changes, no refused event accepted or posted, refusals by the right
    layer, every expected event posted and no transaction beyond them, a drained
    queue, a reported hole where one was due and a responsive ingest. *)
Theorem detect_breaks_exact p obs : detect_breaks p obs = [] ↔ meets (p_expectation p) obs.
Proof. apply detect_breaks_nil. Qed.

(** C17: a record without breaks means what it is taken for.  The ledger the
    scenario ended in conserves money in every currency, differs from the one it
    started in by the planned balances, has exactly one transaction for each event
    expected to post, none for any other event of the scenario, and none for an
    event that was to be refused. *)
Theorem green_record_exactly_once {W} (stack : Stack W) scenario w record w' :
  run_scenario stack scenario w = (Ok record, w') → py_index record "breaks" = Ok (PList []) →
  ∃ p candidates,
    plan (sc_fault scenario) (fixtures scenario) (webhook_secret stack) (sc_params scenario) None (wall_clock stack w) = Ok p ∧
    candidates_of scenario p = Ok candidates ∧
    invariant_ok (Balances.check (db stack w')) = true ∧
    _diff (all_balances (db stack w)) (all_balances (db stack w')) = balances_delta (p_expectation p) ∧
    _posted_rows (db stack w') candidates ≡ₚ base.elements (posted_event_ids (p_expectation p)) ∧
    (∀ id, id ∈ rejected_event_ids (p_expectation p) → id ∉ _posted_rows (db stack w') candidates).
Proof.
  intros Hrun Hb. destruct (run_scenario_record stack scenario w record w' Hrun)
    as (p & candidates & obs & now & Hp & Hc & _ & Hbreaks & [Hd Hi Hposted Hn] & Hw).
  rewrite Hb in Hbreaks. injection Hbreaks as Hnil. symmetry in Hnil. apply detect_breaks_nil in Hnil as [].
  rewrite (Hw m_invariant0) in *. exists p, candidates.
  assert (∀ id, id ∈ posted obs ↔ id ∈ _posted_rows (db stack now) candidates) as Hin.
  { intros id. by rewrite Hposted, sort_strings_elem, elem_of_remove_dups. }
  split_and!; [done|done|congruence|congruence| |].
  - apply rows_exactly; [|rewrite Hn in m_count0; lia]. intros x Hx. apply elem_of_list_to_set, Hin.
    set_solver.
  - intros id Hid Hrow. apply Hin in Hrow. set_solver.
Qed.

(** Every verdict can be derived again from the artifact: the record
    of a run gives back the observation it was judged from, and its breaks are
    those of that observation and the scenario's plan. *)
Theorem record_rederives_breaks {W} (stack : Stack W) scenario w record w' :
  run_scenario stack scenario w = (Ok record, w') →
  ∃ p obs,
    plan (sc_fault scenario) (fixtures scenario) (webhook_secret stack) (sc_params scenario) None (wall_clock stack w) = Ok p ∧
    observation_from_record record = Ok obs ∧ py_index record "breaks" = Ok (PList (detect_breaks p obs)).
Proof.
  intros Hrun. destruct (run_scenario_record stack scenario w record w' Hrun) as (p & c & obs & now & H1 & _ & H2 & H3 & _).
  by exists p, obs.
Qed.

(** A stack that posts the deliveries of a plan to its database, one after the
    other, whatever they are. *)
Definition post_delivery (d : database) (delivery : Delivery) : database :=
  match json_loads (d_body delivery) with
  | Some event => match build_transaction event None with
                  | Ok (Some t) => (post [] t d).2
                  | _ => d
                  end
  | None => d
  end.
Definition sample_stack : Stack database :=
  MkStack database "whsec" id (λ _, None) (λ _, 1700000000) (λ _, "2026-01-01T00:00:00+00:00") (λ _ _, 25) (λ _ _, 3)
    (λ s, Some s) (λ _ _ s, s)
    (λ _ _ p d, (Ok (MkExecution ((λ x, MkDeliveryResult (d_event_id x) (Some 200) "" None 5 "0.0") <$> p_deliveries p) [] []),
                 foldl post_delivery d (p_deliveries p)))
    (λ x d, (Ok (MkDeliveryResult (d_event_id x) (Some 200) "" None 5 "0.0"), post_delivery d x))
    (λ d, (Ok (), d)) (λ _ d, (Ok true, d)) (λ d, (Ok (), d)).
Definition sample_scenario : Scenario :=
  MkScenario "duplicate-charge_succeeded-0000" DUPLICATE [] [sample_fixture] PNone.

Definition sample_run : result pyval * database := run_scenario sample_stack sample_scenario empty_db.
Definition sample_record : pyval := match sample_run.1 with Ok r => r | Err _ => PNone end.

Lemma sample_run_ok : run_scenario sample_stack sample_scenario empty_db = (Ok sample_record, sample_run.2).
Proof. vm_compute. reflexivity. Qed.

Lemma green_record_exactly_once_witness :
  py_index sample_record "breaks" = Ok (PList []) ∧
  ∃ p candidates, candidates_of sample_scenario p = Ok candidates ∧
    length (p_deliveries p) = 3%nat ∧ length (_posted_rows sample_run.2 candidates) = 1%nat.
Proof.
  assert (py_index sample_record "breaks" = Ok (PList [])) as Hb by (vm_compute; reflexivity).
  split; [exact Hb|].
  destruct (green_record_exactly_once sample_stack sample_scenario empty_db sample_record sample_run.2 sample_run_ok Hb)
    as (p & c & Hp & Hc & _ & _ & Hrows & _).
  exists p, c. split; [exact Hc|].
  assert (∃ q, plan DUPLICATE [sample_fixture] "whsec" [] None 1700000000 = Ok q ∧ length (p_deliveries q) = 3%nat ∧
    length (base.elements (posted_event_ids (p_expectation q))) = 1%nat) as (q & Hq & H3 & H1)
    by (eexists; split; [vm_compute; reflexivity|split; vm_compute; reflexivity]).
  assert (p = q) as -> by (cbn [sc_fault fixtures webhook_secret sc_params wall_clock sample_scenario sample_stack] in Hp; congruence).
  split; [exact H3|]. by rewrite Hrows.
Defined.

Lemma record_rederives_breaks_witness :
  ∃ p obs, observation_from_record sample_record = Ok obs ∧
    py_index sample_record "breaks" = Ok (PList (detect_breaks p obs)) ∧ transactions obs = 1.
Proof.
  destruct (record_rederives_breaks sample_stack sample_scenario empty_db sample_record sample_run.2 sample_run_ok)
    as (p & obs & _ & Ho & Hb).
  exists p, obs. split; [exact Ho|]. split; [exact Hb|].
  assert (∃ o, observation_from_record sample_record = Ok o ∧ transactions o = 1) as (o & Ho' & H)
    by (eexists; split; vm_compute; reflexivity).
  congruence.
Defined.
