(* ===== verification/Proxy.v ===== *)
(** harness/proxy.py: what the chaos proxy puts on the wire.  [_live_plan] says
    for each fault which requests stand in for one received delivery, and
    [ChaosProxy.execute] drives a planned fault over a transport; both forward
    bytes they are not told to alter exactly as they came. *)
From Stdlib Require Import QArith Qround.
From S2P Require Import Prelude PyVal Json Hash Signature Gcra Recon Triage Faults Runner.
Import Fault.
#[local] Open Scope Z_scope.

Definition SLOW_LORIS_CHUNKS : Z := 12.

(** ** A slow body *)

(** The slices [body[i : i + size]]; [n] bounds their number. *)
Fixpoint slices (n size : nat) (l : list ascii) : list (list ascii) :=
  match n, l with
  | _, [] => []
  | O, _ :: _ => [l]
  | S n, _ :: _ => take size l :: slices n size (drop size l)
  end.

(** The quotient is exact here; the double the source rounds it to has the same
    ceiling for bodies below 2^49 bytes. *)
Definition _split (body : string) (chunks : Z) : list string :=
  if bool_decide (body = "") then [""]
  else
    let size := Z.max 1 (Qceiling (inject_Z (str_len body) / inject_Z (Z.max 1 chunks))) in
    of_chars <$> slices (String.length body) (Z.to_nat size) (chars body).

(** The pieces with the pause before each. *)
Definition _dribble (body : string) (seconds : Q) (chunks : Z) : list (Q * string) :=
  let pieces := _split body chunks in
  let interval := (seconds / inject_Z (Z.of_nat (length pieces)))%Q in
  (λ piece, (interval, piece)) <$> pieces.

(** [httpx.Timeout]; [seconds] is the delivery's [slow_loris_s]. *)
Record Timeout := MkTimeout { t_connect : Q; t_read : Q; t_write : Q; t_pool : Q }.
Definition _timeout (timeout seconds : Q) : Timeout :=
  if negb (Qle_bool seconds 0) then MkTimeout timeout (timeout + seconds)%Q (timeout + seconds)%Q timeout
  else MkTimeout timeout timeout timeout timeout.

(** ** Altering a delivery *)
Definition _event_id (raw : string) : option string :=
  match json_loads raw with
  | Some (PDict d) => match dict_get "id" d with Some (PStr id) => Some id | _ => None end
  | _ => None
  end.

(** [chr(b).isalnum()] for a byte: Latin-1 letters and numerals. *)
Definition is_alnum (c : ascii) : bool :=
  existsb (λ r, (r.1 <=? code c) && (code c <=? r.2))%bool
    [(48, 57); (65, 90); (97, 122); (170, 170); (178, 179); (181, 181); (185, 186); (188, 190); (192, 214); (216, 246);
     (248, 255)].

(** The first alphanumeric byte of [l] replaced. *)
Fixpoint flip_first (l : list ascii) : option (list ascii) :=
  match l with
  | [] => None
  | c :: l =>
      if is_alnum c then Some ((if bool_decide (c = "0"%char) then "1"%char else "0"%char) :: l)
      else l' ← flip_first l; Some (c :: l')
  end.

(** Near the middle first: from the middle on, then from the start. *)
Definition _flip_byte (body : string) : string :=
  if bool_decide (body = "") then "x"
  else
    let l := chars body in
    let half := Nat.div2 (length l) in
    match flip_first (drop half l) with
    | Some r => of_chars (take half l ++ r)
    | None =>
        match flip_first (take half l) with
        | Some r => of_chars (r ++ drop half l)
        | None => of_chars (l ++ [" "%char])
        end
    end.

Definition parse_sig_item (item : string) : option (string * string) :=
  let '(key, sep, value) := partition "=" item in
  if (sep : bool) then Some (strip key, value) else None.
Definition _parse_sig (sig_header : string) : list (string * string) := omap parse_sig_item (split "," sig_header).

Definition has_key (k : string) (items : list (string * string)) : bool := existsb (λ kv, bool_decide (kv.1 = k)) items.

Definition _downgraded (sig_header : string) : string * bool :=
  let items := _parse_sig sig_header in
  if has_key "v1" items then
    (join "," ((header_item <$> filter (λ kv, kv.1 = "t") items) ++
               ((λ kv, header_item ("v0", kv.2)) <$> filter (λ kv, kv.1 = "v1") items)), true)
  else (sig_header, false).

(** [stale] is [int(time.time() - age_s)]. *)
Definition _backdated (sig_header body : string) (stale : Z) (secret : option string) : string * bool :=
  match secret with
  | Some secret => (sign body secret (Some stale) 0 [] false None, true)
  | None =>
      let items := _parse_sig sig_header in
      if has_key "t" items then
        (join "," ((λ kv : string * string, header_item (kv.1, if bool_decide (kv.1 = "t") then str_of_Z stale else kv.2)) <$> items),
         true)
      else (sig_header, false)
  end.

Definition _reissued (body secret event_id : string) (clock : Z) : result (string * string) :=
  event ← of_option (ValueError "JSONDecodeError") (json_loads body);
  d ← of_option TypeError (PyVal.as_dict event);
  let reissued := json_dumps (PDict (dict_set "id" (PStr event_id) d)) in
  mret (reissued, sign reissued secret None clock [] false None).

(** ** The live plan *)
Record _LivePlan := MkLivePlan {
  lp_deliveries : list (string * string); lp_delay_before_s : string; lp_slow_loris_s : string;
  lp_concurrent : bool; lp_force_500 : bool; lp_applied : bool; lp_note : string }.

(** The defaults of the dataclass. *)
Definition live (deliveries : list (string * string)) : _LivePlan := MkLivePlan deliveries "0.0" "0.0" false false true "".

Section live.
(** [float] of a text, and the arithmetic of the interpreter. *)
Context {F : Type} `{Arith F} (float_of : string → F).

(** [params.get(k, default)] *)
Definition param_or (params : list (string * pyval)) (k : string) (dflt : pyval) : pyval := default dflt (dict_get k params).

(** [params.get("secret")], when truthy. *)
Definition secret_of (params : list (string * pyval)) : result (option string) :=
  let v := param_or params "secret" PNone in
  if truthy v then s ← of_option (IllTyped "secret") (as_str v); mret (Some s) else mret None.

(** [int(time.time() - age_s)] *)
Definition stale_of (params : list (string * pyval)) (now : F) : result Z :=
  age ← float_text (param_or params "age_s" (PInt 600)); f_trunc (f_sub now (float_of age)).

(** [now] is the reading of time.time(). *)
Definition _live_plan (fault : FaultClass) (params : list (string * pyval)) (raw sig : string) (now : F) : result _LivePlan :=
  let once := [(raw, sig)] in
  match fault with
  | NONE | REORDER => mret (live once)
  | DUPLICATE => n ← py_int (param_or params "n" (PInt 3)); mret (live (mjoin (replicate (Z.to_nat n) once)))
  | CONCURRENT_DUPLICATE =>
      n ← py_int (param_or params "n" (PInt 8));
      mret (MkLivePlan (mjoin (replicate (Z.to_nat n) once)) "0.0" "0.0" true false true "")
  | DUPLICATE_OBJECT =>
      secret ← secret_of params;
      match secret with
      | None => mret (MkLivePlan once "0.0" "0.0" false false false
                        "DUPLICATE_OBJECT needs params['secret'] to re-sign the second envelope")
      | Some secret =>
          let event_id := match _event_id raw with
                          | Some id => if bool_decide (id = "") then "evt_unknown" else id
                          | None => "evt_unknown" end in
          clock ← f_trunc now;
          twin ← _reissued raw secret (event_id +:+ "_dup") clock;
          mret (live (once ++ [twin]))
      end
  | DELAY =>
      seconds ← float_text (param_or params "seconds" (PFloat "1.0"));
      mret (MkLivePlan once seconds "0.0" false false true "")
  | DROP => mret (live [])
  | RESPOND_500 => mret (MkLivePlan once "0.0" "0.0" false true true "")
  | TAMPER_BODY => mret (live [(_flip_byte raw, sig)])
  | TRUNCATE_BODY =>
      let cut := Z.max 1 (str_len raw / 2) in
      mret (live [(of_chars (take (Z.to_nat cut) (chars raw)), sig)])
  | STALE_TIMESTAMP =>
      secret ← secret_of params;
      stale ← stale_of params now;
      let '(header, applied) := _backdated sig raw stale secret in
      mret (MkLivePlan [(raw, header)] "0.0" "0.0" false false applied "")
  | DOWNGRADE_SCHEME =>
      let '(header, applied) := _downgraded sig in
      mret (MkLivePlan [(raw, header)] "0.0" "0.0" false false applied "")
  | SLOW_LORIS =>
      hold ← float_text (param_or params "hold_s" (PFloat "3.0"));
      mret (MkLivePlan once "0.0" hold false false true "")
  | PARTIAL_WRITE =>
      mret (MkLivePlan once "0.0" "0.0" false false false
              "PARTIAL_WRITE kills the worker process; the runner owns that, not the proxy")
  end.
End live.

(** ** The slow body is the body *)
Lemma slices_concat size l : (0 < size)%nat → ∀ n, (length l <= n)%nat → mjoin (slices n size l) = l.
Proof.
  intros Hs n. revert l. induction n as [|n IH]; intros [|c l] Hn; cbn [length] in Hn; [done|lia|done|].
  cbn [slices mjoin list_join]. change (list_join ?x) with (mjoin x). rewrite IH; [apply take_drop|].
  rewrite length_drop. cbn [length]. lia.
Qed.

Lemma slices_length size k n : (0 < size)%nat → ∀ l, (length l <= k * size)%nat → (length (slices n size l) <= Nat.max k 1)%nat.
Proof.
  intros Hs. revert k. induction n as [|n IH]; intros k [|c l] Hl; cbn [slices length]; try lia.
  destruct k as [|k]; [cbn in Hl; lia|].
  destruct (decide (k = 0%nat)) as [->|Hk].
  - assert (drop size (c :: l) = []) as -> by (apply drop_ge; lia). destruct n; cbn; lia.
  - specialize (IH k (drop size (c :: l))). rewrite length_drop in IH. cbn [length] in *. lia.
Qed.

Lemma join_empty l : join "" l = of_chars (mjoin (chars <$> l)).
Proof.
  induction l as [|s l IH]; [done|]. destruct l as [|t l].
  - cbn. by rewrite app_nil_r, of_chars_chars.
  - change (join "" (s :: t :: l)) with (s +:+ ("" +:+ join "" (t :: l))). rewrite IH.
    change (mjoin (chars <$> s :: t :: l)) with (chars s ++ mjoin (chars <$> t :: l)).
    by rewrite of_chars_app, of_chars_chars.
Qed.

Lemma ceiling_covers len chunks : 0 <= len →
  len <= Z.max 1 chunks * Z.max 1 (Qceiling (inject_Z len / inject_Z (Z.max 1 chunks))).
Proof.
  intros Hl. set (k := Z.max 1 chunks). assert (0 < k) as Hk by lia.
  pose proof (Qle_ceiling (inject_Z len / inject_Z k)) as Hq. set (c := Qceiling _) in *.
  assert (len <= k * c); [|nia].
  unfold Qle, Qdiv, inject_Z in Hq. cbn in Hq. destruct k as [|p|p]; cbn in Hq; lia.
Qed.

Lemma split_bytes body chunks : join "" (_split body chunks) = body ∧
  (1 <= length (_split body chunks))%nat ∧ Z.of_nat (length (_split body chunks)) <= Z.max 1 chunks.
Proof.
  unfold _split. destruct (bool_decide (body = "")) eqn:E; bool_to_prop; [subst; cbn; split_and!; [done|lia|lia]|].
  set (size := Z.max 1 _). assert (0 < size) by lia.
  assert (0 <= str_len body) as Hlen by (unfold str_len; lia).
  pose proof (ceiling_covers (str_len body) chunks Hlen) as Hc. fold size in Hc.
  rewrite length_fmap. split_and!.
  - rewrite join_empty, <- list_fmap_compose. rewrite (list_fmap_ext _ id) by (intros; apply chars_of_chars).
    rewrite list_fmap_id, slices_concat by (rewrite ?chars_length; lia). apply of_chars_chars.
  - destruct body as [|a s]; [done|]. cbn. lia.
  - pose proof (slices_length (Z.to_nat size) (Z.to_nat (Z.max 1 chunks)) (String.length body) ltac:(lia) (chars body)) as Hn.
    rewrite chars_length in Hn. unfold str_len in *. nia.
Qed.

(** ** What the signature check makes of an altered header *)

(** No item of the header that parses has the key. *)
Definition lacks (k hdr : string) : Prop :=
  ∀ item kv, item ∈ split "," hdr → item_of item = Some kv → kv.1 ≠ k.

(** A slow body keeps its bytes, takes the time asked for, and fits the write
    budget of its request. *)
Theorem dribble_fits body seconds chunks timeout : (0 <= timeout)%Q →
  let pieces := _dribble body seconds chunks in
  join "" pieces.*2 = body ∧ (foldr Qplus 0 pieces.*1 == seconds)%Q ∧
  ((0 < seconds)%Q → (foldr Qplus 0 pieces.*1 <= t_write (_timeout timeout seconds))%Q).
Proof.
  intros Ht pieces. destruct (split_bytes body chunks) as (Hb & Hl & _).
  assert (pieces.*2 = _split body chunks) as -> by (unfold pieces, _dribble; rewrite <- list_fmap_compose; apply list_fmap_id).
  assert (∀ (q : Q) (l : list string), (foldr Qplus 0 ((λ piece, (q, piece)) <$> l).*1 == q * inject_Z (Z.of_nat (length l)))%Q) as Hsum.
  { intros q l. induction l as [|x l IH]; [cbn; ring|]. rewrite !fmap_cons. cbn [foldr fst length]. rewrite IH, Nat2Z.inj_succ.
    unfold Z.succ. rewrite inject_Z_plus. change (inject_Z 1) with 1%Q. ring. }
  assert (foldr Qplus 0 pieces.*1 == seconds)%Q as Hs.
  { unfold pieces, _dribble. rewrite Hsum. set (n := length (_split body chunks)) in *. field. destruct n; [lia|]. cbn. discriminate. }
  split; [done|]. split; [done|]. intros Hpos. rewrite Hs. unfold _timeout.
  destruct (Qle_bool seconds 0) eqn:E; [apply Qle_bool_iff in E; exfalso; by apply (Qlt_not_le 0 seconds)|]. cbn [negb t_write].
  rewrite <- (Qplus_0_l seconds) at 1. by apply Qplus_le_compat; [|apply Qle_refl].
Qed.

Lemma items_of_split hdr items kv : mapM item_of (split "," hdr) = Some items → kv ∈ items →
  ∃ item, item ∈ split "," hdr ∧ item_of item = Some kv.
Proof.
  intros Hm%mapM_Some Hin. apply list_elem_of_lookup in Hin as [i Hi].
  destruct (Forall2_lookup_r _ _ _ _ _ Hm Hi) as (item & Hl & Hk). exists item. split; [|done]. by eapply list_elem_of_lookup_2.
Qed.

Lemma lacks_v1_refused body hdr secret tol now clock : 0 < tol → lacks "v1" hdr →
  verify (RawBytes body) hdr secret tol now clock ≠ Ok ().
Proof.
  intros Ht Hl E. pose proof (verify_spec body hdr secret tol now clock Ht) as Hv. rewrite E in Hv.
  destruct Hv as (_ & ts & (items & Hm & _ & Hc) & _). unfold candidates_of in Hc.
  apply list_elem_of_fmap in Hc as (kv & _ & [Hk Hin]%list_elem_of_filter).
  destruct (items_of_split hdr items kv Hm Hin) as (item & Hi & Hio). by apply (Hl item kv).
Qed.

(** Every [t] item of the header that parses says [ts]. *)
Definition dated (ts : Z) (hdr : string) : Prop :=
  ∀ item kv, item ∈ split "," hdr → item_of item = Some kv → kv.1 = "t" → kv.2 = str_of_Z ts.

Lemma dated_stale_refused body hdr secret stale tol now clock : 0 < tol → renders stale → dated stale hdr →
  tol < Z.abs (default clock now - stale) → verify (RawBytes body) hdr secret tol now clock ≠ Ok ().
Proof.
  intros Ht Hr Hd Hstale E. pose proof (verify_spec body hdr secret tol now clock Ht) as Hv. rewrite E in Hv.
  destruct Hv as (_ & ts & (items & Hm & Hts & _) & Habs). unfold timestamps_of in Hts.
  assert (Some ts ∈ (λ kv : string * string, int_of_str kv.2) <$> filter (λ kv, kv.1 = "t") items) as Hin by (rewrite Hts; left).
  apply list_elem_of_fmap in Hin as (kv & Hkv & [Hk Hin]%list_elem_of_filter).
  destruct (items_of_split hdr items kv Hm Hin) as (item & Hi & Hio).
  rewrite (Hd item kv Hi Hio Hk), int_of_str_of_Z in Hkv by done. simplify_eq. lia.
Qed.

Lemma partition_parts c s k v : partition c s = (k, true, v) → chars s = chars k ++ c :: chars v ∧ c ∉ chars k.
Proof.
  unfold partition. intros H.
  assert (∀ l h t, partition_chars c l = (h, true, t) → l = h ++ c :: t ∧ c ∉ h) as Hp.
  { induction l as [|x l IH]; intros h t; [done|]. cbn [partition_chars]. case_decide as E.
    - intros [= <- <-]. subst. split; [done|]. apply not_elem_of_nil.
    - destruct (partition_chars c l) as [[h' sep] t'] eqn:Ep. intros [= <- -> <-].
      destruct (IH h' t' eq_refl) as [-> Hn]. split; [done|]. rewrite not_elem_of_cons. naive_solver. }
  destruct (partition_chars c (chars s)) as [[h sep] t] eqn:Ep. simplify_eq. rewrite !chars_of_chars. by apply Hp.
Qed.

Lemma split_no_sep c s piece : piece ∈ split c s → c ∉ chars piece.
Proof.
  unfold split. intros (l & -> & Hl)%list_elem_of_fmap. rewrite chars_of_chars. revert l Hl.
  assert (∀ r l, l ∈ split_chars c r → c ∉ l) as Hr; [|intros l; apply Hr].
  induction r as [|x r IH]; intros l; cbn [split_chars].
  - intros ->%list_elem_of_singleton. apply not_elem_of_nil.
  - case_decide; [rewrite elem_of_cons; intros [->|?]; [apply not_elem_of_nil|by apply IH]|].
    destruct (split_chars c r) as [|h t] eqn:Es; rewrite elem_of_cons.
    + intros [->|Hn]; [|by apply not_elem_of_nil in Hn]. set_solver.
    + intros [->|Hl]; [|apply IH; by right]. rewrite not_elem_of_cons. split; [done|]. apply IH. left.
Qed.

(** ** Headers put together again *)
Definition clean_item (kv : string * string) : Prop :=
  "="%char ∉ chars kv.1 ∧ ","%char ∉ chars kv.1 ∧ ","%char ∉ chars kv.2.

Lemma drop_space_in c l : c ∈ drop_space l → c ∈ l.
Proof. induction l as [|x l IH]; [done|]. cbn. destruct (is_space x); [right; by apply IH|done]. Qed.
Lemma strip_in c s : c ∈ chars (strip s) → c ∈ chars s.
Proof.
  unfold strip, strip_chars. rewrite chars_of_chars. rewrite elem_of_reverse. intros H%drop_space_in.
  rewrite elem_of_reverse in H. by apply drop_space_in.
Qed.

Lemma parse_sig_clean hdr kv : kv ∈ _parse_sig hdr → clean_item kv.
Proof.
  unfold _parse_sig. intros (item & Hi & Hp)%list_elem_of_omap. apply split_no_sep in Hi.
  unfold parse_sig_item in Hp. destruct (partition "=" item) as [[key sep] value] eqn:E.
  destruct sep; [|done]. injection Hp as <-. apply partition_parts in E as [E Hk]. rewrite E in Hi. cbn.
  split_and!; cbn; [intros H%strip_in; set_solver|intros H%strip_in; set_solver|set_solver].
Qed.

Lemma item_of_clean kv kv' : clean_item kv → item_of (header_item kv) = Some kv' → kv' = kv.
Proof.
  destruct kv as [k v]. intros (H1 & _). unfold item_of, header_item, partition. cbn [fst snd] in *.
  rewrite !chars_app. change (chars "=") with ["="%char]. cbn [app].
  rewrite partition_chars_app by done. rewrite !of_chars_chars. by destruct (_ && _)%bool; intros [= <-].
Qed.

Lemma rebuilt_items l item kv : l ≠ [] → Forall clean_item l → item ∈ split "," (join "," (header_item <$> l)) →
  item_of item = Some kv → kv ∈ l.
Proof.
  intros Hne Hl. rewrite split_join.
  - intros (kv0 & -> & Hin)%list_elem_of_fmap Hi. rewrite Forall_forall in Hl. by rewrite (item_of_clean kv0 kv) by auto.
  - by destruct l.
  - apply Forall_fmap. eapply Forall_impl; [exact Hl|]. intros [k v] (H1 & H2 & H3). unfold header_item. cbn in *.
    rewrite !chars_app. change (chars "=") with ["="%char]. set_solver.
Qed.

Lemma has_key_true k items : has_key k items = true ↔ ∃ kv, kv ∈ items ∧ kv.1 = k.
Proof. unfold has_key. rewrite existsb_exists_stdpp. by setoid_rewrite bool_decide_eq_true. Qed.

(** A key [verify] reads is one [_parse_sig] finds. *)
Lemma parsed_key hdr item kv : item ∈ split "," hdr → item_of item = Some kv → kv.1 = strip kv.1 → has_key kv.1 (_parse_sig hdr) = true.
Proof.
  intros Hi Ho Hs. unfold item_of in Ho. destruct (partition "=" item) as [[key sep] value] eqn:E.
  destruct sep; [|done]. destruct (_ && _)%bool; [|done]. injection Ho as <-. cbn [fst] in *.
  apply has_key_true. exists (strip key, value). split; [|by cbn].
  apply list_elem_of_omap. exists item. split; [done|]. unfold parse_sig_item. by rewrite E.
Qed.

(** Whether or not there was a signature to relabel, none is left. *)
Lemma downgraded_lacks_v1 hdr : lacks "v1" (_downgraded hdr).1.
Proof.
  unfold _downgraded. destruct (has_key "v1" (_parse_sig hdr)) eqn:Ev; cbn [fst].
  - set (l := filter (λ kv, kv.1 = "t") (_parse_sig hdr) ++
              ((λ kv : string * string, ("v0", kv.2)) <$> filter (λ kv, kv.1 = "v1") (_parse_sig hdr))).
    assert ((header_item <$> filter (λ kv, kv.1 = "t") (_parse_sig hdr)) ++
            ((λ kv, header_item ("v0", kv.2)) <$> filter (λ kv, kv.1 = "v1") (_parse_sig hdr)) = header_item <$> l) as ->.
    { unfold l. by rewrite fmap_app, <- list_fmap_compose. }
    intros item kv Hi Ho. apply has_key_true in Ev as (kv1 & H1 & H1').
    assert (kv ∈ l) as Hin.
    { eapply rebuilt_items; [| |exact Hi|exact Ho].
      - unfold l. intros [_ Hn]%app_nil. apply fmap_nil_inv in Hn. assert (kv1 ∈ filter (λ kv : string * string, kv.1 = "v1") (_parse_sig hdr)) as Hx.
        { by apply list_elem_of_filter. } rewrite Hn in Hx. by apply elem_of_nil in Hx.
      - apply Forall_forall. intros x [[_ Hx]%list_elem_of_filter|(y & -> & [_ Hy]%list_elem_of_filter)%list_elem_of_fmap]%elem_of_app;
          [by eapply parse_sig_clean|]. apply parse_sig_clean in Hy as (_ & _ & Hy). unfold clean_item. cbn. set_solver. }
    apply elem_of_app in Hin as [[-> _]%list_elem_of_filter|(y & -> & _)%list_elem_of_fmap]; done.
  - intros item kv Hi Ho Hk. pose proof (parsed_key hdr item kv Hi Ho) as Hp. rewrite Hk in Hp. by rewrite Hp in Ev.
Qed.

Lemma str_of_Z_no_comma z : ","%char ∉ chars (str_of_Z z).
Proof. apply plain_no; [by left|apply str_of_Z_plain]. Qed.

(** After [_backdated] without the secret, no [t] other than the stale one is left. *)
Lemma backdated_dated hdr body stale : dated stale (_backdated hdr body stale None).1.
Proof.
  unfold _backdated. destruct (has_key "t" (_parse_sig hdr)) eqn:Et; cbn [fst].
  - set (g := λ kv : string * string, (kv.1, if bool_decide (kv.1 = "t") then str_of_Z stale else kv.2)).
    rewrite (list_fmap_compose g header_item). intros item kv Hi Ho Hk.
    assert (kv ∈ g <$> _parse_sig hdr) as (y & -> & _)%list_elem_of_fmap.
    { eapply rebuilt_items; [| |exact Hi|exact Ho].
      - apply has_key_true in Et as (x & Hx & _). intros Hn%fmap_nil_inv. rewrite Hn in Hx. by apply elem_of_nil in Hx.
      - apply Forall_fmap, Forall_forall. intros x (H1 & H2 & H3)%parse_sig_clean. split_and!; [done|done|]. cbn.
        case_bool_decide; [apply str_of_Z_no_comma|done]. }
    unfold g in *. cbn in *. by rewrite bool_decide_true.
  - intros item kv Hi Ho Hk. pose proof (parsed_key hdr item kv Hi Ho) as Hp. rewrite Hk in Hp. by rewrite Hp in Et.
Qed.

(** ** Altered bodies *)
Lemma flip_first_ne l l' : flip_first l = Some l' → l' ≠ l.
Proof.
  revert l'. induction l as [|c l IH]; intros l'; [done|]. cbn [flip_first]. destruct (is_alnum c).
  - intros [= <-] [= Hc]. case_bool_decide; congruence.
  - destruct (flip_first l) as [k|] eqn:E; [|done]. intros [= <-] [= Hk]. by apply (IH k).
Qed.

Lemma flip_byte_ne body : body ≠ _flip_byte body.
Proof.
  unfold _flip_byte. destruct (bool_decide (body = "")) eqn:E; bool_to_prop; [by subst|].
  set (half := Nat.div2 _). intros Hb%(f_equal chars).
  rewrite <- (take_drop half (chars body)) in Hb at 1.
  destruct (flip_first (drop half (chars body))) as [r|] eqn:E1; [|destruct (flip_first (take half (chars body))) as [r|] eqn:E2];
    rewrite chars_of_chars in Hb.
  - apply app_inv_head in Hb. by apply flip_first_ne in E1.
  - apply app_inv_tail in Hb. by apply flip_first_ne in E2.
  - rewrite take_drop in Hb. apply (f_equal length) in Hb. rewrite length_app in Hb. cbn in Hb. lia.
Qed.

(** ** Live traffic *)

(** The faults whose point is that ingest must refuse the delivery. *)
Definition alters (f : FaultClass) : bool :=
  match f with TAMPER_BODY | TRUNCATE_BODY | STALE_TIMESTAMP | DOWNGRADE_SCHEME => true | _ => false end.

(** What ingest's signature check must say at [clock] of a forwarded delivery
    that came in as [raw], signed at [ts]. *)
Definition live_verdict (f : FaultClass) (raw secret : string) (ts clock : Z) (d : string * string) : Prop :=
  let v := verify (RawBytes d.1) d.2 secret DEFAULT_TOLERANCE_SECONDS None clock in
  if alters f then v ≠ Ok () ∨ (d.1 ≠ raw ∧ _v1_digest d.1 secret ts = _v1_digest raw secret ts)
  else v = Ok () ∧ (f ≠ DUPLICATE_OBJECT → d = (raw, sign_at raw secret ts)).

Section verdicts.
Context (raw secret : string) (ts clock : Z).
Context (Hraw : raw ≠ "") (Hts : renders ts) (Hclock : ts <= clock <= ts + DEFAULT_TOLERANCE_SECONDS).

Lemma untouched_verdict f : alters f = false → live_verdict f raw secret ts clock (raw, sign_at raw secret ts).
Proof.
  intros Hf. unfold live_verdict. rewrite Hf. split; [|done].
  apply signed_accepted; [done|done|done| |left]. cbn. unfold DEFAULT_TOLERANCE_SECONDS in *. lia.
Qed.

Lemma copies_verdict f n : alters f = false →
  Forall (live_verdict f raw secret ts clock) (mjoin (replicate n [(raw, sign_at raw secret ts)])).
Proof. intros Hf. induction n as [|n IH]; [constructor|]. constructor; [by apply untouched_verdict|exact IH]. Qed.

Lemma altered_body_verdict f body : alters f = true → raw ≠ body →
  live_verdict f raw secret ts clock (body, sign_at raw secret ts).
Proof.
  intros Hf Hne. unfold live_verdict. rewrite Hf. cbn [fst snd].
  destruct (verify (RawBytes body) (sign_at raw secret ts) secret DEFAULT_TOLERANCE_SECONDS None clock) as [[]|e] eqn:E;
    [right|by left].
  split; [done|]. by apply (signed_collision raw body secret (Some ts) 0 false DEFAULT_TOLERANCE_SECONDS None clock).
Qed.

Lemma refused_verdict f d : alters f = true →
  verify (RawBytes d.1) d.2 secret DEFAULT_TOLERANCE_SECONDS None clock ≠ Ok () → live_verdict f raw secret ts clock d.
Proof. intros Hf Hv. unfold live_verdict. rewrite Hf. by left. Qed.
End verdicts.

Lemma reissued_verdict raw secret ts clock body id now_s twin : renders now_s → now_s <= clock <= now_s + DEFAULT_TOLERANCE_SECONDS →
  _reissued body secret id now_s = Ok twin → live_verdict DUPLICATE_OBJECT raw secret ts clock twin.
Proof.
  intros Hr Hc. unfold _reissued. intros (ev & _ & (d & _ & [= <-])%bind_Ok)%bind_Ok. unfold live_verdict. cbn [alters fst snd].
  split; [|done]. apply signed_accepted; [done|done|exact Hr| |left]. cbn. unfold DEFAULT_TOLERANCE_SECONDS in *. lia.
Qed.

(** On live traffic each fault is what it is called.  For a delivery
    signed with the endpoint's secret, every request the proxy sends under a fault
    that must not be refused carries the bytes and the header as they came, or, for
    a reissued event, verifies under its own signature; and every request it sends
    under a fault that must be refused is refused by the check, whether or not the
    header had anything to alter, unless the altered body has the HMAC of the
    original. *)
Theorem live_plan_verdicts {F} `{Arith F} (float_of : string → F) f params raw secret ts now now_s clock p :
  2 <= str_len raw → renders ts → ts <= clock <= ts + DEFAULT_TOLERANCE_SECONDS →
  (f = DUPLICATE_OBJECT → f_trunc now = Ok now_s ∧ renders now_s ∧ now_s <= clock <= now_s + DEFAULT_TOLERANCE_SECONDS) →
  (f = STALE_TIMESTAMP → ∀ stale, stale_of float_of params now = Ok stale →
     renders stale ∧ DEFAULT_TOLERANCE_SECONDS < clock - stale) →
  (∀ s, secret_of params = Ok (Some s) → s = secret) →
  _live_plan float_of f params raw (sign_at raw secret ts) now = Ok p →
  Forall (live_verdict f raw secret ts clock) (lp_deliveries p).
Proof.
  intros Hlen Hts Hclock Hnow Hstale Hsecret Hp.
  assert (raw ≠ "") as Hraw by (intros ->; done).
  assert (∀ f, alters f = false → Forall (live_verdict f raw secret ts clock) [(raw, sign_at raw secret ts)]) as Honce.
  { intros g Hg. apply Forall_singleton. by apply untouched_verdict. }
  destruct f; cbn [_live_plan] in Hp; inv_ok Hp; simplify_eq/=; try (by apply Honce); try (by apply copies_verdict); try (by constructor).
  - destruct x as [s|]; [|injection Hp as <-; by apply Honce]. destruct (Hnow eq_refl) as (Hn & Hr & Hc).
    rewrite Hn, bind_ok_run in Hp. apply bind_Ok in Hp as (twin & Ht & [= <-]). cbn [lp_deliveries live].
    constructor; [by apply untouched_verdict|]. constructor; [|constructor].
    rewrite (Hsecret s E) in Ht. by eapply reissued_verdict.
  - apply Forall_singleton, altered_body_verdict; [done|done|apply flip_byte_ne].
  - apply Forall_singleton, altered_body_verdict; [done|done|].
    rewrite Z.max_r; [by apply half_ne|]. apply Z.div_le_lower_bound; lia.
  - destruct (Hstale eq_refl x0 E0) as [Hr Hd].
    destruct (_backdated (sign_at raw secret ts) raw x0 x) as [hdr applied] eqn:Eb. injection Hp as <-.
    apply Forall_singleton, refused_verdict; [done|]. cbn [fst snd]. destruct x as [s|].
    + injection Eb as <- _. apply signed_stale; [done|exact Hr|cbn; lia].
    + eapply dated_stale_refused; [done|exact Hr| |cbn; lia].
      pose proof (backdated_dated (sign_at raw secret ts) raw x0) as Hdated. by rewrite Eb in Hdated.
  - destruct (_downgraded (sign_at raw secret ts)) as [hdr applied] eqn:Ed. injection Hp as <-.
    apply Forall_singleton, refused_verdict; [done|]. cbn [fst snd]. apply lacks_v1_refused; [done|].
    pose proof (downgraded_lacks_v1 (sign_at raw secret ts)) as Hl. by rewrite Ed in Hl.
Qed.

Lemma live_plan_verdicts_witness :
  ∃ p, _live_plan (λ _, 0%Q) DOWNGRADE_SCHEME [] "{}" (sign_at "{}" "whsec" 1700000000) 1700000001%Q = Ok p ∧
       lp_applied p = true ∧ Forall (live_verdict DOWNGRADE_SCHEME "{}" "whsec" 1700000000 1700000100) (lp_deliveries p).
Proof.
  assert (∃ p, _live_plan (λ _, 0%Q) DOWNGRADE_SCHEME [] "{}" (sign_at "{}" "whsec" 1700000000) 1700000001%Q = Ok p ∧
    lp_applied p = true) as (p & E & Ha) by (eexists; split; vm_compute; reflexivity).
  exists p. split; [exact E|]. split; [exact Ha|].
  refine (live_plan_verdicts (λ _, 0%Q) DOWNGRADE_SCHEME [] "{}" "whsec" 1700000000 1700000001%Q 0 1700000100 p _ _ _ _ _ _ E);
    [by vm_compute|apply renders_small; cbn; lia|unfold DEFAULT_TOLERANCE_SECONDS; lia|done|done|].
  intros s Hs. vm_compute in Hs. discriminate Hs.
Defined.

(** ** Jobs on a schedule

    Requests sent one after the other, or released together and served in some
    order, are the same jobs run in the order of a schedule; their results are
    put back in the order of the jobs. *)
Section schedule.
Context {W A B : Type} (job : A → stx W B) (between : stx W ()).

(** [Some i] runs the [i]-th job, [None] what is due between two of them. *)
Fixpoint run_schedule (jobs : list A) (schedule : list (option nat)) (done : gmap nat B) : stx W (gmap nat B) :=
  match schedule with
  | [] => mret done
  | None :: schedule => _ ← between; run_schedule jobs schedule done
  | Some i :: schedule =>
      match jobs !! i with
      | Some a => b ← job a; run_schedule jobs schedule (<[i := b]> done)
      | None => run_schedule jobs schedule done
      end
  end.

Definition scheduled (jobs : list A) (schedule : list (option nat)) : stx W (list B) :=
  results ← run_schedule jobs schedule ∅; mret (omap (λ i, results !! i) (seq 0 (length jobs))).

Context (R : A → B → Prop) (Hjob : ∀ a w, ∃ b w', job a w = (Ok b, w') ∧ R a b).
Context (Hbetween : ∀ w, ∃ w', between w = (Ok (), w')).

Lemma run_schedule_done jobs schedule : ∀ done w, (∀ i b, done !! i = Some b → ∃ a, jobs !! i = Some a ∧ R a b) →
  ∃ done' w', run_schedule jobs schedule done w = (Ok done', w') ∧
    (∀ i b, done' !! i = Some b → ∃ a, jobs !! i = Some a ∧ R a b) ∧
    ∀ i, is_Some (done !! i) ∨ (Some i ∈ schedule ∧ (i < length jobs)%nat) → is_Some (done' !! i).
Proof.
  induction schedule as [|[i|] schedule IH]; intros done w Hd; cbn [run_schedule]; run.
  - exists done, w. split_and!; [done|done|]. intros i [?|[Hn _]]; [done|by apply elem_of_nil in Hn].
  - destruct (jobs !! i) as [a|] eqn:Ea.
    + run. destruct (Hjob a w) as (b & w1 & -> & Hab). cbn [fst snd].
      destruct (IH (<[i := b]> done) w1) as (done' & w' & -> & H1 & H2).
      { intros j c. destruct (decide (i = j)) as [->|]; [rewrite lookup_insert_eq|rewrite lookup_insert_ne by done; by apply Hd].
        intros [= <-]. by exists a. }
      exists done', w'. split_and!; [done|done|]. intros j Hj. apply H2.
      destruct (decide (i = j)) as [->|]; [left; by rewrite lookup_insert_eq|]. rewrite lookup_insert_ne by done.
      destruct Hj as [|[Hj ?]]; [by left|]. apply elem_of_cons in Hj as [[= ->]|]; [done|]. by right.
    + destruct (IH done w Hd) as (done' & w' & -> & H1 & H2). exists done', w'. split_and!; [done|done|].
      intros j [Hj|[Hj Hl]]; apply H2; [by left|]. apply elem_of_cons in Hj as [[= ->]|]; [|by right].
      apply lookup_ge_None in Ea. lia.
  - destruct (Hbetween w) as (w1 & ->). cbn [fst snd]. destruct (IH done w1 Hd) as (done' & w' & -> & H1 & H2).
    exists done', w'. split_and!; [done|done|]. intros j Hj. apply H2. destruct Hj as [|[Hj ?]]; [by left|].
    apply elem_of_cons in Hj as [|]; [done|]. by right.
Qed.

(** Whatever the order, there is one result per job, in the order of the jobs. *)
Lemma scheduled_in_order jobs schedule w : (∀ i, (i < length jobs)%nat → Some i ∈ schedule) →
  ∃ bs w', scheduled jobs schedule w = (Ok bs, w') ∧ Forall2 R jobs bs.
Proof.
  intros Hs. unfold scheduled. run. destruct (run_schedule_done jobs schedule ∅ w) as (done & w' & -> & H1 & H2).
  { intros i b. by rewrite lookup_empty. }
  cbn [fst snd]. eexists _, w'. split; [run; reflexivity|]. 
  assert (∀ k l, (∀ i, l !! i = jobs !! (k + i)%nat) → (k + length l = length jobs)%nat →
    Forall2 R l (omap (λ i, done !! i) (seq k (length l)))) as Hall; [|by apply (Hall 0%nat jobs)].
  intros k l. revert k. induction l as [|a l IH]; intros k Hl Hk; cbn [seq length omap list_omap]; [constructor|].
  cbn [length] in Hk. destruct (H2 k) as [b Hb]; [right; split; [apply Hs|]; lia|]. rewrite Hb.
  destruct (H1 k b Hb) as (a' & Ha & Hab). specialize (Hl 0%nat) as Hl0. rewrite Nat.add_0_r, Ha in Hl0. injection Hl0 as ->.
  constructor; [done|]. apply IH; [|lia]. intros i. etrans; [exact (Hl (S i))|]. f_equal. lia.
Qed.
End schedule.

(** ** ChaosProxy *)
Section wire.
(** The wire: [transport] posts a delivery and gives the status and the text of
    the response, or the exception that stopped it, described as
    [f"{type(exc).__name__}: {exc}"]; the two clocks it is read with are part of
    its answer. *)
Context {W : Type}.
Record wire_answer := MkWireAnswer { a_outcome : (Z * string) + string; a_duration_ms : Z; a_started_at : string }.
Context (transport : Delivery → W → wire_answer * W).

(** Every failure becomes a result with no status. *)
Definition _send (delivery : Delivery) : stx W DeliveryResult := λ w,
  let '(a, w) := transport delivery w in
  let '(status, body, error) := match a_outcome a with
    | inl (status, text) => (Some status, text, None)
    | inr exc => (None, "", Some exc)
    end in
  (Ok (MkDeliveryResult (d_event_id delivery) status body error (a_duration_ms a) (a_started_at a)), w).

(** [on_kill] fires when a kill is planned and something is sent. *)
Definition kill_armed (fault_plan : FaultPlan) (has_on_kill : bool) : bool :=
  (bool_decide (kill_worker_after_s fault_plan ≠ None) && has_on_kill)%bool.

(** What the timer and the threads may do: with a barrier the requests are served
    in any order, otherwise one after the other; the kill falls once anywhere
    between them, before [execute] returns. *)
Definition valid_schedule (fault_plan : FaultPlan) (has_on_kill : bool) (schedule : list (option nat)) : Prop :=
  let n := length (p_deliveries fault_plan) in
  (if (concurrent fault_plan && (1 <? n)%nat)%bool then omap id schedule ≡ₚ seq 0 n else omap id schedule = seq 0 n) ∧
  length (filter (λ e, e = None) schedule) = if kill_armed fault_plan has_on_kill then 1%nat else 0%nat.

(** Every send starts the kill timer through this: the flag is set under a lock before
    the call, so only the first one does, even if the call raises. *)
Definition _Once (fn : stx W ()) : stx (bool * W) () := λ s,
  if s.1 then (Ok (), s) else let '(r, w) := fn s.2 in (r, (true, w)).

Definition chaos_execute (fault_plan : FaultPlan) (on_kill : stx W ()) (schedule : list (option nat))
    : stx W (list DeliveryResult) :=
  match p_deliveries fault_plan with
  | [] => mret []
  | _ => scheduled _send on_kill (p_deliveries fault_plan) schedule
  end.

(** However often it is called, the effect is that of one call. *)
Theorem once_fires_once (fn : stx W ()) n w : Nat.iter (S n) (λ s, (_Once fn s).2) (false, w) = (true, (fn w).2).
Proof. induction n as [|n IH]; [cbn; unfold _Once; cbn; by destruct (fn w)|]. change (Nat.iter (S (S n)) ?f ?x) with (f (Nat.iter (S n) f x)). by rewrite IH. Qed.

(** What a result says of the delivery it is for. *)
Definition result_of (d : Delivery) (r : DeliveryResult) : Prop :=
  r_event_id r = d_event_id d ∧ (status_code r = None ↔ r_error r ≠ None).

Lemma send_result d w : ∃ r w', _send d w = (Ok r, w') ∧ result_of d r.
Proof.
  unfold _send. destruct (transport d w) as [[[[status text]|exc] ms t0] w']; cbn; by eexists _, _.
Qed.

(** No failure on the wire stops a run, and a result is never attributed to
    another delivery, however the requests overlapped. *)
Theorem execute_in_plan_order fault_plan on_kill has_on_kill schedule w : (∀ w, ∃ w', on_kill w = (Ok (), w')) →
  valid_schedule fault_plan has_on_kill schedule →
  ∃ rs w', chaos_execute fault_plan on_kill schedule w = (Ok rs, w') ∧ Forall2 result_of (p_deliveries fault_plan) rs.
Proof.
  intros Hk [Hs _]. unfold chaos_execute. destruct (p_deliveries fault_plan) as [|d l] eqn:Ed; [by exists [], w|].
  apply (scheduled_in_order _ _ result_of send_result Hk). intros i Hi.
  assert (i ∈ omap id schedule) as Hin.
  { assert (omap id schedule ≡ₚ seq 0 (length (d :: l))) as -> by (destruct (_ && _)%bool; [done|by rewrite Hs]).
    apply elem_of_seq. lia. }
  apply list_elem_of_omap in Hin as (e & He & Hid). unfold id in Hid. by subst.
Qed.

(** ** The live proxy *)

(** A forwarded request: [forward_one] never raises. *)
Record forwarded := MkForwarded { fw_status : option Z; fw_error : option string; fw_duration_ms : Z; fw_body_bytes : Z }.
Context (post_live : string → string → string → W → (Z + string) * Z * W).

Definition forward_one (slow_loris_s : string) (d : string * string) : stx W forwarded := λ w,
  let '(outcome, ms, w) := post_live slow_loris_s d.1 d.2 w in
  (Ok (match outcome with
       | inl status => MkForwarded (Some status) None ms (str_len d.1)
       | inr exc => MkForwarded None (Some exc) ms (str_len d.1)
       end), w).

(** [schedule] as for [valid_schedule]. *)
Definition forward_all (schedule : list (option nat)) (plan : _LivePlan) : stx W (list forwarded) :=
  scheduled (forward_one (lp_slow_loris_s plan)) (mret ()) (lp_deliveries plan)
    (if (lp_concurrent plan && (1 <? length (lp_deliveries plan))%nat)%bool then schedule
     else Some <$> seq 0 (length (lp_deliveries plan))).

Definition _loggable (params : list (string * pyval)) : list (string * pyval) :=
  (λ kv : string * pyval, (kv.1, if contains "secret" (lower kv.1) then PStr "<redacted>" else kv.2)) <$> params.

Definition upstream_status (plan : _LivePlan) (results : list forwarded) : Z :=
  if lp_force_500 plan then 500
  else match last results with
       | None => 200
       | Some r => default 502 (fw_status r)
       end.

Definition log_record (base : list (string * pyval)) (attempts attempt : Z) (r : forwarded) : pyval :=
  PDict (base ++ [("attempt", PInt attempt); ("attempts", PInt attempts); ("forwarded", PBool true);
    ("status", opt_int (fw_status r)); ("error", opt_str (fw_error r)); ("duration_ms", PInt (fw_duration_ms r));
    ("body_bytes", PInt (fw_body_bytes r))]).

(** What is appended to the log, and the answer upstream. *)
Definition proxy_answer (fault : FaultClass) (params : list (string * pyval)) (event_id : option string)
    (received_at : string) (plan : _LivePlan) (results : list forwarded) : list pyval * (pyval * Z) :=
  let upstream := upstream_status plan results in
  let base := [("received_at", PFloat received_at); ("fault", PStr (Fault.value fault)); ("params", PDict (_loggable params));
    ("event_id", opt_str event_id); ("applied", PBool (lp_applied plan)); ("note", PStr (lp_note plan));
    ("upstream_status", PInt upstream)] in
  let n := Z.of_nat (length results) in
  (match results with
   | [] => [PDict (base ++ [("attempt", PInt 1); ("attempts", PInt 0); ("forwarded", PBool false)])]
   | _ => imap (λ i r, log_record base n (Z.of_nat i + 1) r) results
   end,
   (PDict [("proxy", PStr "ledgerproof-chaos"); ("fault", PStr (Fault.value fault)); ("forwarded", PInt n)], upstream)).

(** The POST route; [reorder] is the buffer of the REORDER fault. *)
Definition proxy_webhook {F} `{Arith F} (float_of : string → F) (now : F) (received_at : string)
    (reorder : _LivePlan → stx W (list forwarded)) (schedule : list (option nat))
    (fault : FaultClass) (params : list (string * pyval)) (raw sig : string)
    : stx W (list pyval * (pyval * Z)) :=
  plan ← lift (_live_plan float_of fault params raw sig now);
  results ← (if bool_decide (fault = REORDER) then reorder plan else forward_all schedule plan);
  mret (proxy_answer fault params (_event_id raw) received_at plan results).

(** The log holds one line per forwarded request, and one for a delivery that is
    dropped; Stripe is told what ingest said of the last request, unless the fault
    is to lie about it. *)
Theorem proxy_answer_logged fault params event_id received_at plan results :
  let '(log, (_, upstream)) := proxy_answer fault params event_id received_at plan results in
  length log = Nat.max 1 (length results) ∧
  (lp_force_500 plan = true → upstream = 500) ∧
  (lp_force_500 plan = false → results = [] → upstream = 200) ∧
  (lp_force_500 plan = false → ∀ r, last results = Some r → upstream = default 502 (fw_status r)).
Proof.
  unfold proxy_answer, upstream_status. split_and!.
  - destruct results as [|r rs]; [done|]. rewrite length_imap. cbn. lia.
  - by intros ->.
  - by intros -> ->.
  - by intros -> r ->.
Qed.

(** No value of a parameter whose name mentions a secret reaches the log. *)
Theorem loggable_redacts params k v : (k, v) ∈ _loggable params →
  (contains "secret" (lower k) = true ∧ v = PStr "<redacted>") ∨ (contains "secret" (lower k) = false ∧ (k, v) ∈ params).
Proof.
  unfold _loggable. intros ([k' v'] & [= -> ->] & Hin)%list_elem_of_fmap. cbn [fst snd].
  destruct (contains "secret" (lower k')); [by left|by right].
Qed.
End wire.
