(* ===== verification/Reorder.v ===== *)
(** harness/proxy.py, [_Reorderer]: the buffer of the REORDER fault.  The
    submissions are coroutines that share a buffer under a lock; a step of the
    relation is what one of them does between two awaits, so the relation admits
    every interleaving of them.  A delivery is the number of its submission. *)
From S2P Require Import Prelude.
#[local] Open Scope Z_scope.

Section reorderer.
(** [n] deliveries fill the buffer; [A] is what forwarding one gives. *)
Context (n : Z) {A : Type}.

(** One coroutine forwarding deliveries: its own, what it took out of the
    buffer in order of arrival, the delivery on the wire, the ones to come. *)
Record release := MkRelease { owner : nat; batch : list nat; in_flight : option nat; remaining : list nat }.

Record reorderer := MkReorderer {
  submitted : list nat;           (* every submission so far *)
  buffer : list nat;              (* [_buffer] *)
  releasing : list release;
  waiting : list nat;             (* in the first [wait_for] *)
  rewaiting : list nat;           (* in the second one *)
  wire : list nat;                (* in the order they were forwarded *)
  answers : gmap nat A;           (* [results], [done] once set *)
  returned : gmap nat (option A); (* what each submission returned *)
  raised : list nat;              (* TimeoutError out of the second wait *)
  finished : list (list nat) }.   (* batches released in full *)

Definition initial : reorderer := MkReorderer [] [] [] [] [] [] ∅ ∅ [] [].

(** [submit] up to its first wait: under the lock, append, and take the whole
    buffer once it is full. *)
Definition submit (i : nat) (s : reorderer) : reorderer :=
  let buffer' := buffer s ++ [i] in
  if n <=? Z.of_nat (length buffer')
  then MkReorderer (submitted s ++ [i]) [] (MkRelease i buffer' None (reverse buffer') :: releasing s)
         (waiting s) (rewaiting s) (wire s) (answers s) (returned s) (raised s) (finished s)
  else MkReorderer (submitted s ++ [i]) buffer' (releasing s) (i :: waiting s) (rewaiting s) (wire s) (answers s)
         (returned s) (raised s) (finished s).

(** The first wait times out: under the lock, take the delivery out of the buffer
    if it is still there and forward it alone, otherwise wait again. *)
Definition hold_elapsed (i : nat) (s : reorderer) : reorderer :=
  let waiting' := filter (λ j, j ≠ i) (waiting s) in
  if bool_decide (i ∈ buffer s)
  then MkReorderer (submitted s) (filter (λ j, j ≠ i) (buffer s)) (MkRelease i [i] None [i] :: releasing s) waiting'
         (rewaiting s) (wire s) (answers s) (returned s) (raised s) (finished s)
  else MkReorderer (submitted s) (buffer s) (releasing s) waiting' (i :: rewaiting s) (wire s) (answers s)
         (returned s) (raised s) (finished s).

Definition set_releasing (l : list release) (s : reorderer) : reorderer :=
  MkReorderer (submitted s) (buffer s) l (waiting s) (rewaiting s) (wire s) (answers s) (returned s) (raised s) (finished s).
Definition on_wire (i : nat) (s : reorderer) : reorderer :=
  MkReorderer (submitted s) (buffer s) (releasing s) (waiting s) (rewaiting s) (wire s ++ [i]) (answers s) (returned s)
    (raised s) (finished s).
Definition answered (i : nat) (a : A) (s : reorderer) : reorderer :=
  MkReorderer (submitted s) (buffer s) (releasing s) (waiting s) (rewaiting s) (wire s) (<[i := a]> (answers s)) (returned s)
    (raised s) (finished s).
Definition leave (i : nat) (s : reorderer) : reorderer :=
  MkReorderer (submitted s) (buffer s) (releasing s) (filter (λ j, j ≠ i) (waiting s)) (filter (λ j, j ≠ i) (rewaiting s))
    (wire s) (answers s) (<[i := answers s !! i]> (returned s)) (raised s) (finished s).
Definition wait_over (i : nat) (s : reorderer) : reorderer :=
  MkReorderer (submitted s) (buffer s) (releasing s) (waiting s) (filter (λ j, j ≠ i) (rewaiting s)) (wire s) (answers s)
    (returned s) (i :: raised s) (finished s).
Definition close (b : list nat) (s : reorderer) : reorderer :=
  MkReorderer (submitted s) (buffer s) (releasing s) (waiting s) (rewaiting s) (wire s) (answers s) (returned s) (raised s)
    (b :: finished s).

(** What the coroutines already in [submit] do. *)
Inductive internal (s : reorderer) : reorderer → Prop :=
  | forward_next l l' o b i rest : releasing s = l ++ MkRelease o b None (i :: rest) :: l' →
      internal s (on_wire i (set_releasing (l ++ MkRelease o b (Some i) rest :: l') s))
  | forward_done l l' o b i rest a : releasing s = l ++ MkRelease o b (Some i) rest :: l' →
      internal s (answered i a (set_releasing (l ++ MkRelease o b None rest :: l') s))
  | release_done l l' o b : releasing s = l ++ MkRelease o b None [] :: l' →
      internal s (leave o (close b (set_releasing (l ++ l') s)))
  | woken i : i ∈ waiting s ∨ i ∈ rewaiting s → is_Some (answers s !! i) → internal s (leave i s)
  | first_timeout i : i ∈ waiting s → answers s !! i = None → internal s (hold_elapsed i s)
  | second_timeout i : i ∈ rewaiting s → answers s !! i = None → internal s (wait_over i s).

Inductive step (s : reorderer) : reorderer → Prop :=
  | arrives i : i ∉ submitted s → step s (submit i s)
  | proceeds s' : internal s s' → step s s'.

Definition reachable (s : reorderer) : Prop := rtc step initial s.

(** ** Invariant *)
Definition held (s : reorderer) : list nat := r ← releasing s; remaining r.
Definition flying (r : release) : nat := match in_flight r with Some _ => 1 | None => 0 end.

(** A release has put on the wire a prefix of its batch, last arrival first, and
    has the answer of all of it but the one in flight. *)
Definition release_ok (w : list nat) (got : gmap nat A) (r : release) : Prop :=
  owner r ∈ batch r ∧ filter (λ i, i ∈ batch r) w ++ remaining r = reverse (batch r) ∧
  (∀ i, in_flight r = Some i → i ∈ batch r ∧ i ∈ w ∧ got !! i = None) ∧
  ∀ i, i ∈ batch r → i ∈ remaining r ∨ in_flight r = Some i ∨ is_Some (got !! i).

Definition batches (s : reorderer) : list nat := (r ← releasing s; batch r) ++ mjoin (finished s).

Record ok (s : reorderer) : Prop := {
  ok_once : NoDup (submitted s);
  ok_where : submitted s ≡ₚ buffer s ++ held s ++ wire s;
  ok_batched : submitted s ≡ₚ buffer s ++ batches s;
  ok_short : Z.of_nat (length (buffer s)) < Z.max 1 n;
  ok_waited : ∀ i, i ∈ buffer s → i ∈ waiting s;
  ok_callers : ∀ i, i ∈ waiting s ∨ i ∈ rewaiting s → i ∈ submitted s;
  ok_answers : ∀ i, is_Some (answers s !! i) → i ∈ wire s;
  ok_releases : Forall (release_ok (wire s) (answers s)) (releasing s);
  ok_finished : Forall (λ b, filter (λ i, i ∈ b) (wire s) = reverse b) (finished s);
  ok_returned : ∀ i r, returned s !! i = Some r → is_Some r ∧ answers s !! i = r }.

(** No delivery is in two batches, nor in a batch and in the buffer. *)
Lemma batch_alone s l r l' i : ok s → releasing s = l ++ r :: l' → i ∈ batch r →
  i ∉ buffer s ∧ Forall (λ r', i ∉ batch r') (l ++ l') ∧ Forall (λ b, i ∉ b) (finished s).
Proof.
  intros Hs Hl Hi. pose proof (ok_once s Hs) as Hn. rewrite (ok_batched s Hs) in Hn. unfold batches in Hn.
  rewrite Hl, bind_app, bind_cons in Hn. apply NoDup_app in Hn as (_ & Hb & Hn).
  assert (i ∈ ((l ≫= batch) ++ batch r ++ l' ≫= batch) ++ mjoin (finished s)) as Hin by set_solver.
  split; [intros Hx; by apply (Hb i Hx)|].
  apply NoDup_app in Hn as (Hn & Hf & _). apply NoDup_app in Hn as (_ & H1 & Hn). apply NoDup_app in Hn as (_ & H2 & _).
  split.
  - apply Forall_app. split; apply Forall_forall; intros r' Hr' Hx.
    + apply (H1 i); [|set_solver]. apply list_elem_of_bind. by exists r'.
    + apply (H2 i Hi). apply list_elem_of_bind. by exists r'.
  - apply Forall_forall. intros b Hbf Hx. apply (Hf i); [set_solver|]. apply list_elem_of_join. by exists b.
Qed.

Lemma submitted_fresh s i : ok s → i ∉ submitted s →
  i ∉ buffer s ∧ i ∉ wire s ∧ Forall (λ r, i ∉ batch r) (releasing s) ∧ Forall (λ b, i ∉ b) (finished s) ∧ answers s !! i = None.
Proof.
  intros Hs Hi. assert (i ∉ wire s) as Hw by (rewrite (ok_where s Hs) in Hi; set_solver).
  split_and!; [rewrite (ok_where s Hs) in Hi; set_solver|done| | |].
  - apply Forall_forall. intros r Hr Hx. apply Hi. rewrite (ok_batched s Hs). unfold batches.
    rewrite !elem_of_app, list_elem_of_bind. right. left. by exists r.
  - apply Forall_forall. intros b Hb Hx. apply Hi. rewrite (ok_batched s Hs). unfold batches.
    rewrite !elem_of_app. do 2 right. apply list_elem_of_join. by exists b.
  - destruct (answers s !! i) eqn:E; [|done]. exfalso. apply Hw, (ok_answers s Hs). by rewrite E.
Qed.

(** What waits in the buffer has not been on the wire. *)
Lemma buffer_unsent s i : ok s → i ∈ buffer s → i ∉ wire s ∧ answers s !! i = None.
Proof.
  intros Hs Hi. pose proof (ok_once s Hs) as Hn. rewrite (ok_where s Hs), !NoDup_app in Hn.
  assert (i ∉ wire s) as Hw by (intros Hx; apply (proj1 (proj2 Hn) i Hi); set_solver). split; [done|].
  destruct (answers s !! i) eqn:E; [|done]. exfalso. apply Hw, (ok_answers s Hs). by rewrite E.
Qed.


(** A batch as it is taken out of the buffer. *)
Lemma new_release_ok w (got : gmap nat A) o b : o ∈ b → (∀ i, i ∈ b → i ∉ w) → release_ok w got (MkRelease o b None (reverse b)).
Proof.
  intros Ho Hb. split_and!; [done| |done|].
  - cbn. rewrite filter_none; [done|]. intros i Hi Hx. by apply (Hb i).
  - intros i Hi. left. cbn. by apply elem_of_reverse.
Qed.

Lemma submit_ok i s : ok s → i ∉ submitted s → ok (submit i s).
Proof.
  intros Hs Hi. destruct (submitted_fresh s i Hs Hi) as (Hib & Hiw & _ & _ & _). unfold submit.
  assert (NoDup (submitted s ++ [i])) as Hnew by (apply NoDup_app; split_and!; [apply Hs|set_solver|apply NoDup_singleton]).
  pose proof (ok_where s Hs) as H1. pose proof (ok_batched s Hs) as H2.
  destruct (n <=? _) eqn:En; bool_to_prop; constructor; cbn; try apply Hs; try done.
  - unfold held. cbn. rewrite reverse_Permutation, H1. unfold held. solve_Permutation.
  - unfold batches. cbn. rewrite H2. unfold batches. solve_Permutation.
  - lia.
  - set_solver.
  - intros j Hj. apply elem_of_app. left. by apply (ok_callers s Hs).
  - constructor; [|apply Hs]. apply new_release_ok; [set_solver|]. intros j [Hj|Hj]%elem_of_app; [by apply (buffer_unsent s j)|set_solver].
  - rewrite H1. unfold held. solve_Permutation.
  - rewrite H2. unfold batches. solve_Permutation.
  - lia.
  - intros j [Hj|Hj]%elem_of_app; [right; by apply (ok_waited s Hs)|set_solver].
  - intros j. pose proof (ok_callers s Hs j). set_solver.
Qed.

Lemma filter_out (l : list nat) i : NoDup l → i ∈ l → l ≡ₚ i :: filter (λ j, j ≠ i) l.
Proof.
  intros Hn Hi. apply NoDup_Permutation; [done|constructor; [by intros [? _]%list_elem_of_filter|by apply NoDup_filter]|].
  intros j. rewrite elem_of_cons, list_elem_of_filter. destruct (decide (j = i)) as [->|]; naive_solver.
Qed.

Lemma hold_elapsed_ok i s : ok s → i ∈ waiting s → ok (hold_elapsed i s).
Proof.
  intros Hs Hi. assert (i ∈ submitted s) as Hsub by (apply (ok_callers s Hs); by left). unfold hold_elapsed.
  case_bool_decide as Hb.
  - destruct (buffer_unsent s i Hs Hb) as [Hw Ha].
    assert (NoDup (buffer s)) as Hnb.
    { pose proof (ok_once s Hs) as Hn. rewrite (ok_where s Hs) in Hn. by apply NoDup_app in Hn as [? _]. }
    pose proof (filter_out (buffer s) i Hnb Hb) as Hf.
    pose proof (ok_where s Hs) as H1. pose proof (ok_batched s Hs) as H2. rewrite Hf in H1, H2.
    constructor; cbn; try apply Hs.
    + rewrite H1. unfold held. cbn. solve_Permutation.
    + rewrite H2. unfold batches. cbn. solve_Permutation.
    + pose proof (ok_short s Hs) as Hl. rewrite Hf in Hl. cbn in Hl. lia.
    + intros j [Hj Hjb]%list_elem_of_filter. apply list_elem_of_filter. split; [done|by apply (ok_waited s Hs)].
    + intros j [[_ Hj]%list_elem_of_filter|Hj]; apply (ok_callers s Hs); auto.
    + constructor; [|apply Hs]. change [i] with (reverse [i]) at 2. apply new_release_ok; [left|].
      by intros j ->%list_elem_of_singleton.
  - constructor; cbn; try apply Hs.
    + intros j Hj. apply list_elem_of_filter. split; [by intros ->|by apply (ok_waited s Hs)].
    + intros j [[_ Hj]%list_elem_of_filter|[->|Hj]%elem_of_cons]; [apply (ok_callers s Hs); auto|done|apply (ok_callers s Hs); auto].
Qed.

(** What the other releases see of a step of one of them. *)
Lemma release_ok_frame w w' (got got' : gmap nat A) r : (∀ j, j ∈ batch r → got' !! j = got !! j) →
  filter (λ i, i ∈ batch r) w' = filter (λ i, i ∈ batch r) w → (∀ j, j ∈ w → j ∈ w') →
  release_ok w got r → release_ok w' got' r.
Proof.
  intros Hg Hf Hw (H1 & H2 & H3 & H4). split_and!; [done|by rewrite Hf| |].
  - intros j Hj. destruct (H3 j Hj) as (Hb & Hjw & Ha). rewrite Hg by done. auto.
  - intros j Hj. rewrite Hg by done. by apply H4.
Qed.

Lemma filter_skip (b w : list nat) i : i ∉ b → filter (λ j, j ∈ b) (w ++ [i]) = filter (λ j, j ∈ b) w.
Proof. intros Hi. rewrite filter_app, filter_cons_False by done. by rewrite app_nil_r. Qed.

Lemma forward_next_ok s l l' o b i rest : ok s → releasing s = l ++ MkRelease o b None (i :: rest) :: l' →
  ok (on_wire i (set_releasing (l ++ MkRelease o b (Some i) rest :: l') s)).
Proof.
  intros Hs Hl. pose proof (ok_releases s Hs) as Hr. rewrite Hl in Hr. apply Forall_app in Hr as [Hrl Hr].
  apply Forall_cons in Hr as [(Ho & Hf & _ & Hc) Hrl']. cbn [owner batch in_flight remaining] in *.
  assert (i ∈ b) as Hib by (apply elem_of_reverse; rewrite <- Hf; set_solver).
  assert (i ∉ wire s) as Hiw.
  { pose proof (ok_once s Hs) as Hn. rewrite (ok_where s Hs) in Hn. apply NoDup_app in Hn as (_ & _ & Hn).
    apply NoDup_app in Hn as (_ & Hn & _). apply Hn. unfold held. rewrite Hl, bind_app, bind_cons. cbn. set_solver. }
  assert (answers s !! i = None) as Ha.
  { destruct (answers s !! i) eqn:E; [|done]. exfalso. apply Hiw, (ok_answers s Hs). by rewrite E. }
  destruct (batch_alone s l _ l' i Hs Hl Hib) as (_ & Hoth & Hfin). apply Forall_app in Hoth as [Hol Hol'].
  assert (∀ k, Forall (release_ok (wire s) (answers s)) k → Forall (λ r', i ∉ batch r') k →
    Forall (release_ok (wire s ++ [i]) (answers s)) k) as Hframe.
  { intros k Hk1 Hk2. apply Forall_forall. intros r' Hr'. rewrite Forall_forall in Hk1, Hk2.
    apply (release_ok_frame (wire s) _ (answers s)); [done|by apply filter_skip, Hk2|set_solver|by apply Hk1]. }
  constructor; cbn; try apply Hs.
  - rewrite (ok_where s Hs). unfold held. cbn. rewrite Hl, !bind_app, !bind_cons. cbn. solve_Permutation.
  - rewrite (ok_batched s Hs). unfold batches. cbn. by rewrite Hl, !bind_app, !bind_cons.
  - intros j Hj. apply elem_of_app. left. by apply (ok_answers s Hs).
  - apply Forall_app. split; [by apply Hframe|]. constructor; [|by apply Hframe]. split_and!; cbn; [done| | |].
    + rewrite filter_app, filter_cons_True by done. cbn. by rewrite <- app_assoc.
    + intros j [= <-]. split_and!; [done|set_solver|done].
    + intros j Hj. destruct (Hc j Hj) as [[->|Hj']%elem_of_cons|[?|?]]; auto; done.
  - eapply Forall_impl; [apply Forall_and; split; [apply Hs|exact Hfin]|]. cbn. intros b' [<- Hb']. by rewrite filter_skip.
Qed.

Lemma forward_done_ok s l l' o b i rest a : ok s → releasing s = l ++ MkRelease o b (Some i) rest :: l' →
  ok (answered i a (set_releasing (l ++ MkRelease o b None rest :: l') s)).
Proof.
  intros Hs Hl. pose proof (ok_releases s Hs) as Hr. rewrite Hl in Hr. apply Forall_app in Hr as [Hrl Hr].
  apply Forall_cons in Hr as [(Ho & Hf & Hfl & Hc) Hrl']. cbn [owner batch in_flight remaining] in *.
  destruct (Hfl i eq_refl) as (Hib & Hiw & Ha).
  destruct (batch_alone s l _ l' i Hs Hl Hib) as (_ & Hoth & _). apply Forall_app in Hoth as [Hol Hol'].
  assert (∀ k, Forall (release_ok (wire s) (answers s)) k → Forall (λ r', i ∉ batch r') k →
    Forall (release_ok (wire s) (<[i := a]> (answers s))) k) as Hframe.
  { intros k Hk1 Hk2. apply Forall_forall. intros r' Hr'. rewrite Forall_forall in Hk1, Hk2.
    apply (release_ok_frame (wire s) _ (answers s)); [|done|done|by apply Hk1].
    intros j Hj. apply lookup_insert_ne. intros <-. by apply (Hk2 r'). }
  constructor; cbn; try apply Hs.
  - rewrite (ok_where s Hs). unfold held. cbn. by rewrite Hl, !bind_app, !bind_cons.
  - rewrite (ok_batched s Hs). unfold batches. cbn. by rewrite Hl, !bind_app, !bind_cons.
  - intros j [x Hj]. destruct (decide (i = j)) as [<-|Hne]; [done|]. rewrite lookup_insert_ne in Hj by done.
    apply (ok_answers s Hs). by exists x.
  - apply Forall_app. split; [by apply Hframe|]. constructor; [|by apply Hframe]. split_and!; [done|done|done|].
    intros j Hj. cbn. destruct (decide (i = j)) as [<-|Hne]; [right; right; by rewrite lookup_insert_eq|].
    rewrite lookup_insert_ne by done. destruct (Hc j Hj) as [|[|]]; [by left|congruence|by right; right].
  - intros j r Hj. destruct (ok_returned s Hs j r Hj) as [[x ->] Hx]. split; [by exists x|].
    rewrite lookup_insert_ne; [done|]. intros <-. congruence.
Qed.

Lemma close_ok s l l' o b : ok s → releasing s = l ++ MkRelease o b None [] :: l' →
  ok (close b (set_releasing (l ++ l') s)) ∧ is_Some (answers s !! o).
Proof.
  intros Hs Hl. pose proof (ok_releases s Hs) as Hr. rewrite Hl in Hr. apply Forall_app in Hr as [Hrl Hr].
  apply Forall_cons in Hr as [(Ho & Hf & _ & Hc) Hrl']. cbn [owner batch in_flight remaining] in *.
  split; [|destruct (Hc o Ho) as [Hn|[?|?]]; [by apply elem_of_nil in Hn|done|done]].
  constructor; cbn; try apply Hs.
  - rewrite (ok_where s Hs). unfold held. cbn. by rewrite Hl, !bind_app, bind_cons.
  - rewrite (ok_batched s Hs). unfold batches. cbn. rewrite Hl, !bind_app, bind_cons. cbn. solve_Permutation.
  - by apply Forall_app.
  - constructor; [|apply Hs]. by rewrite app_nil_r in Hf.
Qed.

Lemma leave_ok i s : ok s → is_Some (answers s !! i) → ok (leave i s).
Proof.
  intros Hs [a Ha]. constructor; cbn; try apply Hs.
  - intros j Hj. apply list_elem_of_filter. split; [|by apply (ok_waited s Hs)]. intros ->.
    destruct (buffer_unsent s i Hs Hj). congruence.
  - intros j [[_ Hj]%list_elem_of_filter|[_ Hj]%list_elem_of_filter]; apply (ok_callers s Hs); auto.
  - intros j r. destruct (decide (i = j)) as [<-|Hne].
    + rewrite lookup_insert_eq. intros [= <-]. split; [by exists a|done].
    + rewrite lookup_insert_ne by done. apply (ok_returned s Hs).
Qed.

Lemma give_up_ok i s : ok s → ok (wait_over i s).
Proof.
  intros Hs. constructor; cbn; try apply Hs.
  intros j [Hj|[_ Hj]%list_elem_of_filter]; apply (ok_callers s Hs); auto.
Qed.

Lemma internal_ok s s' : ok s → internal s s' → ok s'.
Proof.
  intros Hs [l l' o b i rest Hl|l l' o b i rest a Hl|l l' o b Hl|i _ Ha|i Hi _|i _ _].
  - by apply forward_next_ok.
  - by apply forward_done_ok.
  - destruct (close_ok s l l' o b Hs Hl) as [Hc Ho]. by apply leave_ok.
  - by apply leave_ok.
  - by apply hold_elapsed_ok.
  - by apply give_up_ok.
Qed.

Lemma buffer_initial_ok : ok initial.
Proof.
  constructor; cbn; [constructor|done|done|lia|set_solver|set_solver|by intros i [x Hx]|constructor|constructor|done].
Qed.

Lemma buffer_reachable_ok s : reachable s → ok s.
Proof.
  intros H. assert (ok initial) as Hi by apply buffer_initial_ok. induction H as [|s1 s2 s3 Hstep _ IH]; [done|].
  apply IH. destruct Hstep as [i Hn|s' Hs']; [by apply submit_ok|by eapply internal_ok].
Qed.

(** ** How submissions end *)

(** Every submission is in one of the two waits, releases a batch, has returned,
    or has ended in a TimeoutError. *)
Record ends (s : reorderer) : Prop := {
  en_where : submitted s ≡ₚ waiting s ++ rewaiting s ++ (owner <$> releasing s) ++ (map_to_list (returned s)).*1 ++ raised s;
  en_claimed : ∀ i, i ∈ rewaiting s ∨ i ∈ raised s → i ∉ buffer s }.

Lemma filter_not_in (l : list nat) i : i ∉ l → filter (λ j, j ≠ i) l = l.
Proof. intros Hi. apply filter_every. by intros j Hj ->. Qed.

Lemma returned_keys (m : gmap nat (option A)) i x : i ∉ (map_to_list m).*1 → (map_to_list (<[i := x]> m)).*1 ≡ₚ i :: (map_to_list m).*1.
Proof.
  intros Hi. rewrite map_to_list_insert; [done|]. destruct (m !! i) as [y|] eqn:E; [|done].
  destruct Hi. apply list_elem_of_fmap. exists (i, y). split; [done|]. by apply elem_of_map_to_list.
Qed.

Lemma submit_ends i s : ok s → ends s → i ∉ submitted s → ends (submit i s).
Proof.
  intros Hs [H1 H2] Hi. unfold submit. destruct (n <=? _); constructor; cbn.
  - rewrite H1. solve_Permutation.
  - intros j _. by apply not_elem_of_nil.
  - rewrite H1. solve_Permutation.
  - intros j Hj [Hb|Hb]%elem_of_app; [by apply (H2 j Hj)|]. apply list_elem_of_singleton in Hb as ->.
    apply Hi. rewrite H1. set_solver.
Qed.

Lemma hold_elapsed_ends i s : ok s → ends s → i ∈ waiting s → ends (hold_elapsed i s).
Proof.
  intros Hs [H1 H2] Hi. pose proof (ok_once s Hs) as Hn. rewrite H1 in Hn. apply NoDup_app in Hn as (Hn & _).
  pose proof (filter_out (waiting s) i Hn Hi) as Hf. unfold hold_elapsed. case_bool_decide as Hb; constructor; cbn.
  - rewrite H1. rewrite Hf at 1. solve_Permutation.
  - intros j Hj [_ Hjb]%list_elem_of_filter. by apply (H2 j Hj).
  - rewrite H1. rewrite Hf at 1. solve_Permutation.
  - intros j [[->|Hj]%elem_of_cons|Hj]; [done|apply H2; auto..].
Qed.

(** The one that returns was in exactly one place. *)
Lemma leave_ends i s l : NoDup (submitted s) → i ∈ l ++ waiting s ++ rewaiting s → (∀ j, j ∈ rewaiting s ∨ j ∈ raised s → j ∉ buffer s) →
  (submitted s ≡ₚ (l ++ waiting s ++ rewaiting s) ++ (owner <$> releasing s) ++ (map_to_list (returned s)).*1 ++ raised s) →
  l = [] ∨ l = [i] → ends (leave i s).
Proof.
  intros Hn Hi H2 H1 Hl. rewrite H1 in Hn. apply NoDup_app in Hn as (Hn & Hdis & _).
  assert (i ∉ (map_to_list (returned s)).*1) as Hr by (intros Hx; apply (Hdis i Hi); set_solver).
  constructor; cbn.
  - rewrite (returned_keys _ _ _ Hr), H1. rewrite (filter_out _ i Hn Hi), !filter_app.
    assert (filter (λ j, j ≠ i) l = []) as ->.
    { destruct Hl as [-> | ->]; [done|]. by rewrite filter_cons_False by naive_solver. }
    solve_Permutation.
  - intros j [[_ Hj]%list_elem_of_filter|Hj]; apply H2; auto.
Qed.

Lemma internal_ends s s' : ok s → ends s → internal s s' → ends s'.
Proof.
  intros Hs [H1 H2] Hstep. pose proof (ok_once s Hs) as Hn.
  destruct Hstep as [l l' o b i rest Hl|l l' o b i rest a Hl|l l' o b Hl|i Hi Ha|i Hi _|i Hi _].
  - constructor; cbn; [rewrite H1, Hl, !fmap_app; done|exact H2].
  - constructor; cbn; [rewrite H1, Hl, !fmap_app; done|exact H2].
  - apply (leave_ends o _ [o]); [exact Hn|by left|exact H2| |by right]. cbn.
    rewrite H1, Hl, !fmap_app, fmap_cons. cbn. solve_Permutation.
  - apply (leave_ends i s []); [done|set_solver|done| |by left]. rewrite H1. solve_Permutation.
  - by apply hold_elapsed_ends.
  - assert (NoDup (rewaiting s)) as Hnr by (rewrite H1 in Hn; apply NoDup_app in Hn as (_ & _ & (Hn & _)%NoDup_app); done).
    constructor; cbn; [rewrite H1, (filter_out _ i Hnr Hi) at 1; solve_Permutation|].
    intros j [[_ Hj]%list_elem_of_filter|[->|Hj]%elem_of_cons]; apply H2; auto.
Qed.

Lemma buffer_reachable_ends s : reachable s → ends s.
Proof.
  intros H. assert (ok initial ∧ ends initial) as [Hi He].
  { split; [apply buffer_initial_ok|]. constructor; cbn; [done|set_solver]. }
  induction H as [|s1 s2 s3 Hstep _ IH]; [done|]. destruct Hstep as [i Hn|s' Hs'].
  - apply IH; [by apply submit_ok|by apply submit_ends].
  - apply IH; [by eapply internal_ok|by eapply internal_ends].
Qed.

(** ** Every delivery leaves *)

(** How much is left to do without another arrival. *)
Definition release_left (r : release) : nat := S (2 * length (remaining r) + flying r).
Definition to_do (s : reorderer) : nat :=
  2 * length (buffer s) + sum_list_with release_left (releasing s) + 2 * length (waiting s) + length (rewaiting s).

Lemma filter_shorter (l : list nat) i : (length (filter (λ j, j ≠ i) l) <= length l)%nat.
Proof. apply length_filter. Qed.
Lemma filter_shorter_in (l : list nat) i : i ∈ l → (length (filter (λ j, j ≠ i) l) < length l)%nat.
Proof.
  induction l as [|x l IH]; [by intros ?%elem_of_nil|]. intros [->|Hi]%elem_of_cons.
  - rewrite filter_cons_False by naive_solver. pose proof (filter_shorter l x). cbn. lia.
  - specialize (IH Hi). rewrite filter_cons. case_decide; cbn; lia.
Qed.

Lemma internal_decreases s s' : ok s → internal s s' → (to_do s' < to_do s)%nat.
Proof.
  intros Hs [l l' o b i rest Hl|l l' o b i rest a Hl|l l' o b Hl|i Hi Ha|i Hi _|i Hi _]; unfold to_do.
  - cbn. rewrite Hl, !sum_list_with_app. cbn. lia.
  - cbn. rewrite Hl, !sum_list_with_app. cbn. lia.
  - cbn. rewrite Hl, !sum_list_with_app. cbn. pose proof (filter_shorter (waiting s) o). pose proof (filter_shorter (rewaiting s) o). lia.
  - cbn. pose proof (filter_shorter (waiting s) i). pose proof (filter_shorter (rewaiting s) i).
    destruct Hi as [Hi%filter_shorter_in|Hi%filter_shorter_in]; lia.
  - pose proof (filter_shorter_in (waiting s) i Hi). unfold hold_elapsed. case_bool_decide as Hb; cbn; [|lia].
    pose proof (filter_shorter_in (buffer s) i Hb). lia.
  - cbn. pose proof (filter_shorter_in (rewaiting s) i Hi). lia.
Qed.

(** As long as something is left to do, some coroutine can proceed, given that
    forwarding answers. *)
Lemma internal_progress s (a : A) : ok s → (∀ s', ¬ internal s s') → releasing s = [] ∧ waiting s = [] ∧ rewaiting s = [] ∧ buffer s = [].
Proof.
  intros Hs Hstuck.
  assert (∀ i, i ∉ waiting s ∧ i ∉ rewaiting s) as Hw.
  { intros i. split; intros Hi; (destruct (answers s !! i) as [x|] eqn:E; [eapply Hstuck, (woken s i); [by auto|by eexists]|]).
    - by eapply Hstuck, (first_timeout s i).
    - by eapply Hstuck, (second_timeout s i). }
  assert (waiting s = []) as Hw1 by (apply elem_of_nil_inv; apply Hw).
  split_and!; [|done|apply elem_of_nil_inv; apply Hw|].
  - destruct (releasing s) as [|[o b [i|] rest] l] eqn:E; [done| |destruct rest as [|i rest]]; exfalso.
    + eapply Hstuck, (forward_done s [] l o b i rest a). by rewrite E.
    + eapply Hstuck, (release_done s [] l o b). by rewrite E.
    + eapply Hstuck, (forward_next s [] l o b i rest). by rewrite E.
  - apply elem_of_nil_inv. intros i Hi%(ok_waited s Hs). rewrite Hw1 in Hi. by apply elem_of_nil in Hi.
Qed.

(** [k] steps of the coroutines in progress. *)
Lemma internal_bounded k s s' : ok s → nsteps internal k s s' → ok s' ∧ (k + to_do s' <= to_do s)%nat.
Proof.
  intros Hs H. revert Hs. induction H as [s|k s1 s2 s3 Hstep H IH]; intros Hs; [split; [done|lia]|].
  pose proof (internal_decreases s1 s2 Hs Hstep). destruct (IH (internal_ok s1 s2 Hs Hstep)). split; [done|lia].
Qed.
End reorderer.
Arguments reorderer A : clear implicits.

(** C28: whatever the interleaving of arrivals, releases and timeouts, the
    buffer of the reorder fault forwards no delivery twice, holds fewer than [n],
    and forwards each full batch last arrival first; a submission that returns
    returns the answer of its own delivery, and only one whose delivery another
    submission has claimed can end in a TimeoutError, in place of returning.  Without
    further arrivals its coroutines stop after a bounded number of steps, and
    where none can proceed every submitted delivery has been forwarded exactly once
    and every submission has ended, in exactly one of those two ways. *)
Theorem reorder_delivers {A} n (a : A) (s : reorderer A) : reachable n s →
  NoDup (wire s) ∧ Z.of_nat (length (buffer s)) < Z.max 1 n ∧
  (∀ b, b ∈ finished s → filter (λ i, i ∈ b) (wire s) = reverse b) ∧
  (∀ i r, returned s !! i = Some r → is_Some r ∧ answers s !! i = r) ∧
  (∀ i, i ∈ raised s → i ∉ buffer s ∧ i ∉ owner <$> releasing s ∧ returned s !! i = None) ∧
  ∀ k s', nsteps internal k s s' →
    (k <= to_do s)%nat ∧
    ((∀ s'', ¬ internal s' s'') → wire s' ≡ₚ submitted s' ∧ submitted s' ≡ₚ (map_to_list (returned s')).*1 ++ raised s').
Proof.
  intros Hr. pose proof (buffer_reachable_ok n s Hr) as Hs. pose proof (buffer_reachable_ends n s Hr) as [He Hc].
  pose proof (ok_once n s Hs) as Hn. split_and!.
  - rewrite (ok_where n s Hs) in Hn. by apply NoDup_app in Hn as (_ & _ & (_ & _ & ?)%NoDup_app).
  - apply Hs.
  - apply Forall_forall, Hs.
  - apply Hs.
  - intros i Hi. rewrite He in Hn. apply NoDup_app in Hn as (_ & _ & (_ & _ & (_ & Ho & (_ & Hret & _)%NoDup_app)%NoDup_app)%NoDup_app).
    split_and!; [apply Hc; by right|intros Hx; apply (Ho i Hx); set_solver|]. destruct (returned s !! i) as [x|] eqn:E; [|done].
    destruct (Hret i); [|done]. apply list_elem_of_fmap. exists (i, x). split; [done|by apply elem_of_map_to_list].
  - intros k s' H. destruct (internal_bounded n k s s' Hs H) as [Hs' Hk]. split; [lia|]. intros Hstuck.
    assert (ends s') as [He' _].
    { clear Hk Hstuck He Hc Hn. pose proof (buffer_reachable_ends n s Hr) as He. clear Hr Hs'.
      induction H as [|k s1 s2 s3 Hstep _ IH]; [done|]. apply IH; [by eapply internal_ok|by eapply internal_ends]. }
    destruct (internal_progress n s' a Hs' Hstuck) as (H1 & Hw & Hw' & H2).
    split; [rewrite (ok_where n s' Hs'); unfold held; by rewrite H1, H2|]. by rewrite He', Hw, Hw', H1.
Qed.

(** Two deliveries and a batch of two: the second to arrive leaves first. *)
Definition sample_buffer : reorderer () :=
  let s2 := submit 2 1%nat (submit 2 0%nat initial) in
  answered 1%nat () (set_releasing [MkRelease 1 [0; 1]%nat None [0]%nat]
    (on_wire 1%nat (set_releasing [MkRelease 1 [0; 1]%nat (Some 1%nat) [0]%nat] s2))).

Lemma sample_buffer_reachable : reachable 2 sample_buffer.
Proof.
  eapply rtc_l; [apply (arrives 2 initial 0%nat); cbn; set_solver|].
  eapply rtc_l; [apply (arrives 2 _ 1%nat); cbn; set_solver|].
  eapply rtc_l; [apply proceeds, (forward_next _ [] [] 1 [0; 1]%nat 1 [0]%nat); reflexivity|].
  eapply rtc_l; [apply proceeds, (forward_done _ [] [] 1 [0; 1]%nat 1 [0]%nat ()); reflexivity|]. apply rtc_refl.
Qed.

Lemma reorder_delivers_witness : wire sample_buffer = [1%nat] ∧ Z.of_nat (length (buffer sample_buffer)) < Z.max 1 2 ∧
  ∀ s', internal sample_buffer s' → (1 <= to_do sample_buffer)%nat.
Proof.
  destruct (reorder_delivers 2 () sample_buffer sample_buffer_reachable) as (_ & H1 & _ & _ & _ & H2).
  split; [reflexivity|]. split; [exact H1|]. intros s' Hs'. exact (proj1 (H2 1%nat s' (nsteps_once _ _ Hs'))).
Defined.

(** The second wait is bounded by the same hold: when the release of the batch is
    slower than that, the submission ends in a TimeoutError although its delivery
    is forwarded. *)
Theorem rewait_may_raise : ∃ s : reorderer (), reachable 2 s ∧ 0%nat ∈ raised s ∧ 0%nat ∈ wire s.
Proof.
  set (s3 := wait_over 0%nat (hold_elapsed 0%nat sample_buffer)).
  exists (on_wire 0%nat (set_releasing [MkRelease 1 [0; 1]%nat (Some 0%nat) []] s3)).
  split; [|split; [left|cbn; set_solver]].
  unfold reachable. etrans; [exact sample_buffer_reachable|].
  eapply rtc_l; [apply proceeds, (first_timeout _ 0%nat); [left|reflexivity]|].
  eapply rtc_l; [apply proceeds, (second_timeout _ 0%nat); [left|reflexivity]|].
  eapply rtc_l; [apply proceeds, (forward_next _ [] [] 1 [0; 1]%nat 0 []); reflexivity|]. apply rtc_refl.
Qed.
