(* ===== verification/Processes.v ===== *)
(** harness/stack.py: the processes, the queue and the log files of one deployment of
    the harness.  The operating system, Redis, PostgreSQL and the HTTP client are
    the class [OS]; what the stack relies on of them is [OSLaws].  Times are
    nanoseconds; a wait is given as much fuel as it can take rounds. *)
From S2P Require Import Prelude PyVal Ledger Bench Runner.

(** ** The environment *)

(** What stack.py calls.  [W] is the world around it, which moves inside the calls. *)
Class OS (W : Type) := {
  monotonic : W → Z;                             (* time.monotonic *)
  sleep : Z → W → W;
  popen : list string → gmap string string → string → stx W Z;  (* argv, env, log *)
  poll : Z → W → option Z;                       (* the exit code, once it exited *)
  wait : Z → Z → W → bool * W;                   (* false: TimeoutExpired *)
  kill : Z → W → W;                              (* Popen.kill *)
  taskkill : Z → W → W;                          (* taskkill /F /T /PID *)
  killpg : Z → W → W;                            (* SIGKILL to its process group *)
  open_log : string → bool → W → W;              (* truncated, and opened to append *)
  log_text : string → W → option string;         (* the content, if the file exists *)
  get_healthz : Z → Z → W → option Z * W;        (* the status; None: HTTPError *)
  flushdb : string → stx W ();
  scan_iter : string → stx W (list string);      (* the keys celery* *)
  redis_type : string → string → stx W string;
  redis_llen : string → string → stx W Z;
  connect : string → stx W ();
  select_events : stx W (list event_row);
  (* not called by the code: the live processes a child left, itself included *)
  family : Z → W → gset Z }.

(** A later world: the clock went on, log files grew, and no family that was dead
    came to life. *)
Definition text_of `{OS W} (path : string) (w : W) : string := default "" (log_text path w).
Definition quiet `{OS W} (w w' : W) : Prop :=
  monotonic w <= monotonic w' ∧ ∀ q, family q w = ∅ → family q w' = ∅.
Definition grown `{OS W} (w w' : W) : Prop := ∀ path, ∃ t, text_of path w' = text_of path w +:+ t.

(** Documented behaviour: [sleep] sleeps at least as long as it is told, a new
    process has a pid of its own, what was killed is dead and can be waited for. *)
Class OSLaws (W : Type) `{OS W} := {
  sleep_long d w : monotonic w + d <= monotonic (sleep d w);
  sleep_quiet d w : 0 <= d → quiet w (sleep d w);
  sleep_grown d w : grown w (sleep d w);
  popen_new argv env log w p w' : popen argv env log w = (Ok p, w') → family p w = ∅;
  popen_quiet argv env log w q : family q w = ∅ → (popen argv env log w).1 ≠ Ok q →
    family q (popen argv env log w).2 = ∅;
  popen_clock argv env log w : monotonic w <= monotonic (popen argv env log w).2;
  popen_grown argv env log w : grown w (popen argv env log w).2;
  wait_dead p t w : family p w = ∅ → (wait p t w).1 = true;
  wait_quiet p t w : quiet w (wait p t w).2;
  kill_alone p w : family p w ⊆ {[p]} → family p (kill p w) = ∅;
  kill_quiet p w : quiet w (kill p w);
  taskkill_tree p w : poll p w = None → family p (taskkill p w) = ∅;
  taskkill_quiet p w : quiet w (taskkill p w);
  killpg_group p w : poll p w = None → family p (killpg p w) = ∅;
  killpg_quiet p w : quiet w (killpg p w);
  open_log_quiet log b w : quiet w (open_log log b w);
  healthz_quiet port t w : quiet w (get_healthz port t w).2;
  healthz_grown port t w : grown w (get_healthz port t w).2;
  flushdb_quiet url w : quiet w (flushdb url w).2;
  scan_quiet url w : quiet w (scan_iter url w).2;
  type_quiet url k w : quiet w (redis_type url k w).2;
  llen_quiet url k w : quiet w (redis_llen url k w).2;
  llen_nonneg url k w n w' : redis_llen url k w = (Ok n, w') → 0 <= n;
  connect_quiet url w : quiet w (connect url w).2;
  select_quiet w : quiet w (select_events w).2 }.

(** ** Constants and pure helpers *)
Definition seconds (n : Z) : Z := n * 1000000000.
Definition _INGEST_READY_TIMEOUT : Z := seconds 90.
Definition _WORKER_READY_TIMEOUT : Z := seconds 120.
Definition _SHUTDOWN_TIMEOUT : Z := seconds 15.
Definition _POLL_INTERVAL : Z := 150000000.
Definition _READY_INTERVAL : Z := 200000000.
Definition _WORKER_READY_MARKER : string := "ready".

(** The rounds of a loop that sleeps [interval] each and ends after [timeout]. *)
Definition rounds (timeout interval : Z) : nat := S (S (Z.to_nat (timeout / interval))).

(** [urlsplit(url).path]: after the scheme and the authority, up to [?] or [#]. *)
Fixpoint take_until (stop : ascii → bool) (l : list ascii) : list ascii :=
  match l with c :: l => if stop c then [] else c :: take_until stop l | [] => [] end.
Fixpoint drop_until (stop : ascii → bool) (l : list ascii) : list ascii :=
  match l with c :: l' => if stop c then l else drop_until stop l' | [] => [] end.
Definition one_of (s : string) (c : ascii) : bool := bool_decide (c ∈ chars s).
Definition scheme_char (c : ascii) : bool := (is_alpha c || is_digit c || one_of "+-." c)%bool.
Definition drop_scheme (l : list ascii) : list ascii :=
  let before := take_until (one_of ":") l in
  match before, drop_until (one_of ":") l with
  | c :: _, _ :: rest => if (is_alpha c && forallb scheme_char before)%bool then rest else l
  | _, _ => l
  end.
Definition url_path (url : string) : list ascii :=
  let l := drop_scheme (chars url) in
  let l := if startswith "//" (of_chars l) then drop_until (one_of "/?#") (drop 2 l) else l in
  take_until (one_of "?#") l.
Definition _redis_db_index (url : string) : Z :=
  let path := drop_until (λ c, negb (one_of "/" c)) (url_path url) in
  match path with
  | [] => 0
  | _ => if forallb is_digit path then default 0 (int_of_str (of_chars path)) else 0
  end.

(** [text.splitlines()[-lines:]], which is all of them for 0. *)
Definition _tail (content : option string) (lines : nat) : string :=
  match content with
  | None => ""
  | Some text =>
      let l := splitlines text in
      join (String "010" "") (match lines with O => l | _ => drop (length l - lines) l end)
  end.

(** ** The stack *)
Record config := MkConfig {
  port : Z; db_url : string; app_db_url : string; redis_url : string; webhook_secret : string }.

Record Stack {W : Type} := MkStack {
  _ingest : option Z;
  _worker : option Z;
  _ingest_fh : option string;
  _worker_fh : option string;
  _worker_log_offset : nat;
  world : W }.
Arguments Stack : clear implicits.

Section stack.
Context `{OS W} (is_windows : bool) (environ : gmap string string) (venv_python log_dir : string) (cfg : config).
Notation M := (stx (Stack W)).

Definition set_ingest (p : option Z) (fh : option string) (s : Stack W) : Stack W :=
  MkStack W p (_worker s) fh (_worker_fh s) (_worker_log_offset s) (world s).
Definition set_worker (p : option Z) (fh : option string) (offset : nat) (s : Stack W) : Stack W :=
  MkStack W (_ingest s) p (_ingest_fh s) fh offset (world s).
Definition set_world (w : W) (s : Stack W) : Stack W :=
  MkStack W (_ingest s) (_worker s) (_ingest_fh s) (_worker_fh s) (_worker_log_offset s) w.

(** The calls of the environment, on the world of the stack. *)
Definition act (f : W → W) : M () := λ s, (Ok (), set_world (f (world s)) s).
Definition io {A} (f : W → A * W) : M A := λ s, let r := f (world s) in (Ok r.1, set_world r.2 s).
Definition io_raise {A} (f : stx W A) : M A := λ s, let r := f (world s) in (r.1, set_world r.2 s).
Definition see {A} (f : W → A) : M A := gets (λ s, f (world s)).

Definition ingest_log_path : string := log_dir +:+ "/ingest_" +:+ str_of_Z (port cfg) +:+ ".log".
Definition worker_log_path : string := log_dir +:+ "/worker_" +:+ str_of_Z (port cfg) +:+ ".log".
Definition ingest_log (tail : nat) : M string := see (λ w, _tail (log_text ingest_log_path w) tail).
Definition worker_log (tail : nat) : M string := see (λ w, _tail (log_text worker_log_path w) tail).

(** The environment of the children: the caller's, overridden. *)
Definition _child_env : gmap string string :=
  <["STRIPE_WEBHOOK_SECRET" := webhook_secret cfg]>
  (<["DATABASE_URL" := db_url cfg]>
  (<["APP_DATABASE_URL" := app_db_url cfg]>
  (<["TEST_DATABASE_URL" := db_url cfg]>
  (<["REDIS_URL" := redis_url cfg]>
  (<["STRIPE_SECRET_KEY" := ""]>
  (<["PYTHONUNBUFFERED" := "1"]>
  (<["PYTHONIOENCODING" := "utf-8"]> environ))))))).

Definition _kill_tree (p : Z) : M () :=
  exited ← see (poll p);
  match exited with
  | Some _ => mret ()
  | None =>
      _ ← act (if is_windows then taskkill p else killpg p);
      gone ← io (wait p _SHUTDOWN_TIMEOUT);
      if gone : bool then mret ()
      else
        _ ← act (kill p);
        gone ← io (wait p _SHUTDOWN_TIMEOUT);
        if gone : bool then mret () else raise (TimeoutError "subprocess.TimeoutExpired")
  end.

(** *** Redis *)
Definition purge_queue : M () :=
  if _redis_db_index (redis_url cfg) =? 0 then raise (RuntimeError "refusing to purge redis db 0")
  else io_raise (flushdb (redis_url cfg)).

Fixpoint llen_sum (keys : list string) : M Z :=
  match keys with
  | [] => mret 0
  | key :: keys =>
      ty ← io_raise (redis_type (redis_url cfg) key);
      n ← (if bool_decide (ty = "list") then io_raise (redis_llen (redis_url cfg) key) else mret 0);
      rest ← llen_sum keys;
      mret (n + rest)
  end.
Definition queue_len : M Z := keys ← io_raise (scan_iter (redis_url cfg)); llen_sum keys.

(** *** Starting a process *)
Definition _launch (argv : list string) (log : string) (truncate : bool) : M (Z * string * nat) :=
  _ ← act (open_log log truncate);
  offset ← see (λ w, String.length (text_of log w));
  p ← io_raise (popen argv _child_env log);
  mret (p, log, offset).

Definition ingest_healthy (timeout : Z) : M bool :=
  answer ← io (get_healthz (port cfg) timeout);
  mret (match answer with Some status => status =? 200 | None => false end).

Fixpoint await_ingest (fuel : nat) (p deadline : Z) : M () :=
  match fuel with
  | O => raise (IllTyped "fuel")
  | S fuel =>
      now ← see monotonic;
      if now <? deadline then
        exited ← see (poll p);
        match exited with
        | Some c =>
            log ← ingest_log 60;
            raise (RuntimeError ("ingest exited with code " +:+ str_of_Z c +:+ " before it was ready:" +:+ String "010" log))
        | None =>
            healthy ← ingest_healthy (seconds 2);
            if healthy : bool then mret () else _ ← act (sleep _READY_INTERVAL); await_ingest fuel p deadline
        end
      else raise (TimeoutError "ingest did not answer /healthz")
  end.

Definition ingest_argv : list string :=
  ["uv"; "run"; "uvicorn"; "--factory"; "ledgerproof.ingest.server:build_app"; "--host"; "127.0.0.1";
   "--port"; str_of_Z (port cfg); "--log-level"; "info"].
Definition _start_ingest : M () :=
  r ← _launch ingest_argv ingest_log_path true;
  _ ← modify (set_ingest (Some r.1.1) (Some r.1.2));
  now ← see monotonic;
  await_ingest (rounds _INGEST_READY_TIMEOUT _READY_INTERVAL) r.1.1 (now + _INGEST_READY_TIMEOUT).

(** The log the worker has written since it was launched. *)
Fixpoint drop_string (n : nat) (s : string) : string :=
  match n, s with S n, String _ s => drop_string n s | _, _ => s end.
Fixpoint await_worker (fuel : nat) (p deadline : Z) : M () :=
  match fuel with
  | O => raise (IllTyped "fuel")
  | S fuel =>
      now ← see monotonic;
      if now <? deadline then
        exited ← see (poll p);
        match exited with
        | Some c =>
            log ← worker_log 60;
            raise (RuntimeError ("worker exited with code " +:+ str_of_Z c +:+ " before it was ready:" +:+ String "010" log))
        | None =>
            fresh ← gets (λ s, drop_string (_worker_log_offset s) (text_of worker_log_path (world s)));
            if contains _WORKER_READY_MARKER (lower fresh) then mret ()
            else _ ← act (sleep _READY_INTERVAL); await_worker fuel p deadline
        end
      else raise (TimeoutError "worker did not report ready")
  end.

Definition worker_argv : list string :=
  [venv_python; "-m"; "celery"; "-A"; "ledgerproof.worker.tasks"; "worker"; "--pool=solo"; "-l"; "info";
   "-n"; "chaos" +:+ str_of_Z (port cfg) +:+ "@%h"].
Definition _wait_for_worker_ready (p : Z) : M () :=
  now ← see monotonic;
  await_worker (rounds _WORKER_READY_TIMEOUT _READY_INTERVAL) p (now + _WORKER_READY_TIMEOUT).
Definition _start_worker (truncate : bool) : M () :=
  r ← _launch worker_argv worker_log_path truncate;
  _ ← modify (set_worker (Some r.1.1) (Some r.1.2) r.2);
  _wait_for_worker_ready r.1.1.

(** *** Lifecycle *)
Definition kill_child (p : option Z) : M () := match p with Some p => _kill_tree p | None => mret () end.
Definition stop : M () :=
  worker ← gets _worker; _ ← kill_child worker;
  _ ← modify (λ s, set_worker None (_worker_fh s) (_worker_log_offset s) s);
  ingest ← gets _ingest; _ ← kill_child ingest;
  _ ← modify (λ s, set_ingest None (_ingest_fh s) s);
  modify (λ s, set_ingest None None (set_worker None None (_worker_log_offset s) s)).

Definition start : M () :=
  started ← gets (λ s, bool_decide (_ingest s ≠ None ∨ _worker s ≠ None));
  if started : bool then raise (RuntimeError "stack already started; call stop() first") else
  taken ← ingest_healthy (seconds 1);
  if taken : bool then raise (RuntimeError "port already serves /healthz") else
  _ ← purge_queue;
  try_except (_ ← _start_ingest; _start_worker true) (λ e, _ ← stop; raise e).

Definition kill_worker : M () :=
  worker ← gets _worker;
  match worker with
  | None => raise (RuntimeError "worker is not running")
  | Some p =>
      _ ← act (kill p);
      gone ← io (wait p _SHUTDOWN_TIMEOUT);
      if gone : bool then mret () else _kill_tree p
  end.

Definition restart_worker : M () :=
  worker ← gets _worker; _ ← kill_child worker;
  _ ← modify (λ s, set_worker None None (_worker_log_offset s) s);
  _start_worker false.

(** *** Quiescence *)
Definition pending (event_ids : option (list string)) (row : event_row) : bool :=
  (bool_decide (ev_status row = Received ∨ ev_status row = Queued) &&
   match event_ids with Some ids => bool_decide (ev_id row ∈ ids) | None => true end)%bool.
Definition pending_events (own : bool) (event_ids : option (list string)) : M Z :=
  _ ← (if own then io_raise (connect (db_url cfg)) else mret ());
  rows ← io_raise select_events;
  mret (Z.of_nat (length (filter (λ r, pending event_ids r = true) rows))).

Definition idle (event_ids : option (list string)) : M bool :=
  waiting ← queue_len;
  if waiting =? 0 then n ← pending_events false event_ids; mret (n =? 0) else mret false.
Fixpoint quiesce (fuel : nat) (event_ids : option (list string)) (deadline : Z) (stable : Z) : M bool :=
  match fuel with
  | O => raise (IllTyped "fuel")
  | S fuel =>
      i ← idle event_ids;
      let stable := if i : bool then stable + 1 else 0 in
      if 2 <=? stable then mret true else
      now ← see monotonic;
      if deadline <=? now then mret false
      else _ ← act (sleep _POLL_INTERVAL); quiesce fuel event_ids deadline stable
  end.
Definition wait_quiescent (timeout : Z) (event_ids : option (list string)) : M bool :=
  now ← see monotonic;
  _ ← io_raise (connect (db_url cfg));
  quiesce (rounds timeout _POLL_INTERVAL) event_ids (now + timeout) 0.

(** ** Proofs *)
Context `{!OSLaws W}.

Lemma append_empty (s : string) : s +:+ "" = s.
Proof. induction s as [|c s IH]; [done|]. change (String c (s +:+ "") = String c s). by rewrite IH. Qed.
Lemma append_assoc (s t u : string) : (s +:+ t) +:+ u = s +:+ (t +:+ u).
Proof.
  induction s as [|c s IH]; [done|].
  change (String c ((s +:+ t) +:+ u) = String c (s +:+ (t +:+ u))). by rewrite IH.
Qed.
Lemma drop_string_app s t : drop_string (String.length s) (s +:+ t) = t.
Proof. induction s as [|c s IH]; [by destruct t|done]. Qed.

#[local] Instance quiet_preorder : PreOrder (@quiet W _).
Proof.
  split; [intros w; split; [lia|done]|].
  intros w1 w2 w3 [Ht1 Hf1] [Ht2 Hf2]. split; [lia|auto].
Qed.
#[local] Instance grown_preorder : PreOrder (@grown W _).
Proof.
  split; [intros w path; exists ""; by rewrite append_empty|].
  intros w1 w2 w3 H1 H2 path. destruct (H1 path) as [t1 E1], (H2 path) as [t2 ->]. rewrite E1.
  exists (t1 +:+ t2). by rewrite append_assoc.
Qed.

(** What a computation does to the world only. *)
Lemma set_world_same s : set_world (world s) s = s.
Proof. by destruct s. Qed.
Lemma act_run f s : act f s = (Ok (), set_world (f (world s)) s).
Proof. done. Qed.
Lemma io_run {A} (f : W → A * W) s : io f s = (Ok (f (world s)).1, set_world (f (world s)).2 s).
Proof. done. Qed.
Lemma see_run {A} (f : W → A) s : see f s = (Ok (f (world s)), s).
Proof. done. Qed.
Lemma io_raise_run {A} (f : stx W A) s : io_raise f s = ((f (world s)).1, set_world (f (world s)).2 s).
Proof. done. Qed.
Hint Rewrite act_run @io_run @see_run : stx.
Ltac run_io := autorewrite with stx; rewrite ?io_raise_run; autorewrite with stx.

(** A tree is killed through its leader, so when the leader is still there; the
    tree of one that has exited is left as it is. *)
Lemma kill_tree_kills p s : ∃ w', _kill_tree p s = (Ok (), set_world w' s) ∧
  quiet (world s) w' ∧ (poll p (world s) = None → family p w' = ∅).
Proof.
  unfold _kill_tree. run. destruct (poll p (world s)) as [c|] eqn:Hp.
  { exists (world s). rewrite set_world_same. by split_and!. }
  set (w1 := (if is_windows then taskkill p else killpg p) (world s)).
  assert (H1 : quiet (world s) w1 ∧ family p w1 = ∅).
  { unfold w1. destruct is_windows; split;
      auto using taskkill_quiet, killpg_quiet, taskkill_tree, killpg_group. }
  destruct H1 as [Hq Hd]. run. cbn [world set_world]. rewrite (wait_dead p _ w1 Hd).
  exists (wait p _SHUTDOWN_TIMEOUT w1).2. split_and!; [done|by rewrite <- wait_quiet|].
  intros _. by apply (proj2 (wait_quiet p _SHUTDOWN_TIMEOUT w1)).
Qed.

Lemma kill_child_kills o s : ∃ w', kill_child o s = (Ok (), set_world w' s) ∧
  quiet (world s) w' ∧ (∀ p, o = Some p → poll p (world s) = None → family p w' = ∅).
Proof.
  destruct o as [p|]; cbn.
  - destruct (kill_tree_kills p s) as (w' & -> & ? & ?). exists w'. split_and!; [done..|naive_solver].
  - exists (world s). rewrite set_world_same. split_and!; [done..|naive_solver].
Qed.

Definition stopped (s : Stack W) : Prop :=
  _ingest s = None ∧ _worker s = None ∧ _ingest_fh s = None ∧ _worker_fh s = None.
Definition owned (s : Stack W) (q : Z) : Prop := _ingest s = Some q ∨ _worker s = Some q.

(** A child of [s] that has exited by itself when [stop] comes to it: the worker at
    once, ingest after the worker was killed. *)
Definition exited_before_stop (s : Stack W) (q : Z) : Prop :=
  _worker s = Some q ∧ poll q (world s) ≠ None ∨
  _ingest s = Some q ∧ poll q (world (kill_child (_worker s) s).2) ≠ None.

(** [stop] starts nothing and ends what the stack owns, but for what a child left that had
    exited by itself. *)
Lemma stop_stops s : ∃ s', stop s = (Ok (), s') ∧ stopped s' ∧
  monotonic (world s) <= monotonic (world s') ∧
  ∀ q, family q (world s) = ∅ ∨ owned s q ∧ ¬ exited_before_stop s q → family q (world s') = ∅.
Proof.
  unfold stop, exited_before_stop. run.
  destruct (kill_child_kills (_worker s) s) as (w1 & -> & [Ht1 Hq1] & Hd1). run.
  cbn [set_worker set_world _ingest _worker _ingest_fh _worker_fh world snd].
  edestruct (kill_child_kills (_ingest s)) as (w2 & -> & [Ht2 Hq2] & Hd2). run.
  eexists. split; [done|]. cbn in *. split; [done|]. split; [lia|].
  intros q [Hq|[[Hq|Hq] Hn]]; [by auto|..].
  - apply Hd2; [done|]. destruct (poll q w1) eqn:E; [|done]. destruct Hn. by right.
  - apply Hq2, Hd1; [done|]. destruct (poll q (world s)) eqn:E; [|done]. destruct Hn. by left.
Qed.

(** *** The readiness loops *)
Lemma rounds_enough timeout interval : 0 < interval →
  timeout <= Z.of_nat (pred (rounds timeout interval)) * interval.
Proof.
  intros Hi. unfold rounds. cbn [pred]. rewrite Nat2Z.inj_succ.
  assert (Hd := Z.mul_succ_div_gt timeout interval Hi).
  destruct (Z.le_gt_cases 0 (timeout / interval)); [rewrite Z2Nat.id by done|]; nia.
Qed.

(** How a wait for a child ends. *)
Definition gave_up (p deadline : Z) (e : exn) (w : W) : Prop :=
  (∃ c msg, e = RuntimeError msg ∧ poll p w = Some c) ∨ (∃ msg, e = TimeoutError msg ∧ deadline <= monotonic w).

Lemma await_ingest_ends fuel : ∀ p deadline s,
  (1 <= fuel)%nat → deadline - monotonic (world s) <= Z.of_nat (pred fuel) * _READY_INTERVAL →
  ∃ r w', await_ingest fuel p deadline s = (r, set_world w' s) ∧ quiet (world s) w' ∧
  match r with
  | Ok _ => ∃ w, poll p w = None ∧ get_healthz (port cfg) (seconds 2) w = (Some 200, w')
  | Err e => gave_up p deadline e w'
  end.
Proof.
  induction fuel as [|fuel IH]; intros p deadline s Hf Hd; [lia|]. cbn [await_ingest]. run.
  destruct (_ <? _) eqn:Hnow.
  2:{ run. apply Z.ltb_ge in Hnow. eexists _, (world s). rewrite set_world_same.
      split_and!; [done..|]. right. eauto. }
  apply Z.ltb_lt in Hnow. run. destruct (poll p (world s)) as [c|] eqn:Hp.
  { unfold ingest_log. run. eexists _, (world s). rewrite set_world_same.
    split_and!; [done..|]. left. eauto. }
  unfold ingest_healthy. run.
  destruct (get_healthz _ _ _) as [answer w1] eqn:Hh. cbn [fst snd].
  assert (Hq1 : quiet (world s) w1) by (pose proof (healthz_quiet (port cfg) (seconds 2) (world s)) as Hq; by rewrite Hh in Hq).
  destruct (match answer with Some status => status =? 200 | None => false end) eqn:Ha.
  { destruct answer as [status|]; [|done]. apply Z.eqb_eq in Ha as ->.
    exists (Ok ()), w1. split_and!; [done..|]. by exists (world s). }
  run. cbn [world set_world].
  assert (Hs := sleep_long _READY_INTERVAL w1). assert (Hq2 := sleep_quiet _READY_INTERVAL w1 ltac:(done)).
  assert (Ht : monotonic (world s) <= monotonic w1) by apply Hq1.
  edestruct (IH p deadline (set_world (sleep _READY_INTERVAL w1) (set_world w1 s))) as (r & w' & -> & Hq & Hr);
    [| |exists r, w'; split_and!; [done|by rewrite Hq1, Hq2|done]];
    unfold _READY_INTERVAL in *; cbn [world set_world] in *; destruct fuel; cbn [pred] in *; lia.
Qed.

Lemma await_worker_ends fuel : ∀ p deadline s,
  (1 <= fuel)%nat → deadline - monotonic (world s) <= Z.of_nat (pred fuel) * _READY_INTERVAL →
  ∃ r w', await_worker fuel p deadline s = (r, set_world w' s) ∧
  quiet (world s) w' ∧ grown (world s) w' ∧
  match r with
  | Ok _ => poll p w' = None ∧
      contains _WORKER_READY_MARKER
        (lower (drop_string (_worker_log_offset s) (text_of (worker_log_path) w'))) = true
  | Err e => gave_up p deadline e w'
  end.
Proof.
  induction fuel as [|fuel IH]; intros p deadline s Hf Hd; [lia|]. cbn [await_worker]. run.
  destruct (_ <? _) eqn:Hnow.
  2:{ run. apply Z.ltb_ge in Hnow. eexists _, (world s). rewrite set_world_same.
      split_and!; [done..|]. right. eauto. }
  apply Z.ltb_lt in Hnow. run. destruct (poll p (world s)) as [c|] eqn:Hp.
  { unfold worker_log. run. eexists _, (world s). rewrite set_world_same.
    split_and!; [done..|]. left. eauto. }
  run. destruct (contains _ _) eqn:Hc.
  { exists (Ok ()), (world s). rewrite set_world_same. by split_and!. }
  run. assert (Hs := sleep_long _READY_INTERVAL (world s)).
  assert (Hq2 := sleep_quiet _READY_INTERVAL (world s) ltac:(done)).
  assert (Hg2 := sleep_grown _READY_INTERVAL (world s)).
  edestruct (IH p deadline (set_world (sleep _READY_INTERVAL (world s)) s)) as (r & w' & -> & Hq & Hg & Hr);
    [| |exists r, w'; split_and!; [done|by rewrite Hq2, Hq|by rewrite Hg2, Hg|done]];
    unfold _READY_INTERVAL in *; cbn [world set_world] in *; destruct fuel; cbn [pred] in *; lia.
Qed.

(** *** Starting *)

(** Nothing lives that did not and that the stack does not own. *)
Definition contained (s s' : Stack W) : Prop :=
  ∀ q, family q (world s) = ∅ ∨ owned s q → family q (world s') = ∅ ∨ owned s' q.

(** The worker's own words since it was launched say it is ready. *)
Definition worker_ready (truncate : bool) (q : Z) (s s' : Stack W) : Prop :=
  let w1 := open_log worker_log_path truncate (world s) in
  ∃ w2 t, popen worker_argv _child_env worker_log_path w1 = (Ok q, w2) ∧
  text_of worker_log_path (world s') = text_of worker_log_path w1 +:+ t ∧
  contains _WORKER_READY_MARKER (lower t) = true ∧ poll q (world s') = None.
Definition ingest_answers (p : Z) (s' : Stack W) : Prop :=
  ∃ w, poll p w = None ∧ get_healthz (port cfg) (seconds 2) w = (Some 200, world s').

Lemma popen_contains argv env log w p w' q : popen argv env log w = (Ok p, w') → family q w = ∅ →
  family q w' = ∅ ∨ q = p.
Proof.
  intros Hp Hq. destruct (decide (q = p)); [by right|left].
  assert (Hx := popen_quiet argv env log w q Hq). rewrite Hp in Hx. cbn in Hx. apply Hx. congruence.
Qed.
Lemma popen_fails_quiet argv env log w e w' : popen argv env log w = (Err e, w') → quiet w w'.
Proof.
  intros Hp. split.
  - assert (Hx := popen_clock argv env log w). by rewrite Hp in Hx.
  - intros q Hq. assert (Hx := popen_quiet argv env log w q Hq). rewrite Hp in Hx. by apply Hx.
Qed.
Lemma quiet_contained s w' : quiet (world s) w' → contained s (set_world w' s).
Proof. intros [_ Hq] q [Hx|Hx]; [left; by apply Hq|by right]. Qed.

Lemma start_ingest_ends s : _ingest s = None → ∃ r s', _start_ingest s = (r, s') ∧
  _worker s' = _worker s ∧ contained s s' ∧
  match r with Ok _ => ∃ p, _ingest s' = Some p ∧ ingest_answers p s' | Err _ => True end.
Proof.
  intros Hnone. unfold _start_ingest, _launch. run_io. cbn [world set_world].
  assert (Hq1 := open_log_quiet ingest_log_path true (world s)).
  set (w1 := open_log ingest_log_path true (world s)) in *.
  destruct (popen _ _ _ w1) as [[p|e] w2] eqn:Hp; cbn [fst snd]; run_io.
  2:{ eexists _, _. split; [done|]. split; [done|]. split; [|done].
      apply (quiet_contained s w2). transitivity w1; [done|by eapply popen_fails_quiet]. }
  cbn [world set_world set_ingest fst snd].
  edestruct (await_ingest_ends (rounds _INGEST_READY_TIMEOUT _READY_INTERVAL)) as (r & w' & -> & Hq & Hr).
  { unfold rounds. lia. }
  { cbn [world set_world set_ingest]. assert (Hx := rounds_enough _INGEST_READY_TIMEOUT _READY_INTERVAL eq_refl). lia. }
  eexists _, _. split; [done|]. split; [done|]. split.
  - intros q [Hx|[Hx|Hx]]; [|congruence|by right; right].
    destruct (popen_contains _ _ _ _ _ _ q Hp (proj2 Hq1 q Hx)) as [Hy| ->]; [|by right; left].
    left. by apply Hq.
  - destruct r as [[]|e]; [|done]. exists p. split; [done|]. destruct Hr as (w & ? & ?). by exists w.
Qed.

Lemma start_worker_ends truncate s : _worker s = None → ∃ r s', _start_worker truncate s = (r, s') ∧
  _ingest s' = _ingest s ∧ contained s s' ∧
  match r with Ok _ => ∃ q, _worker s' = Some q ∧ worker_ready truncate q s s' | Err _ => True end.
Proof.
  intros Hnone. unfold _start_worker, _launch, worker_ready. run_io. cbn [world set_world].
  assert (Hq1 := open_log_quiet worker_log_path truncate (world s)).
  set (w1 := open_log worker_log_path truncate (world s)) in *.
  destruct (popen _ _ _ w1) as [[p|e] w2] eqn:Hp; cbn [fst snd]; run_io.
  2:{ eexists _, _. split; [done|]. split; [done|]. split; [|done].
      apply (quiet_contained s w2). transitivity w1; [done|by eapply popen_fails_quiet]. }
  unfold _wait_for_worker_ready. run_io. cbn [world set_world set_worker fst snd].
  edestruct (await_worker_ends (rounds _WORKER_READY_TIMEOUT _READY_INTERVAL)) as (r & w' & -> & Hq & Hg & Hr).
  { unfold rounds. lia. }
  { cbn [world set_world set_worker]. assert (Hx := rounds_enough _WORKER_READY_TIMEOUT _READY_INTERVAL eq_refl). lia. }
  eexists _, _. split; [done|]. split; [done|]. split.
  - intros q [Hx|[Hx|Hx]]; [|by right; left|congruence].
    destruct (popen_contains _ _ _ _ _ _ q Hp (proj2 Hq1 q Hx)) as [Hy| ->]; [|by right; right].
    left. by apply Hq.
  - destruct r as [[]|e]; [|done]. exists p. split; [done|]. destruct Hr as [Hr1 Hr2].
    cbn [world set_world set_worker _worker_log_offset] in *.
    assert (Hgr : grown w1 w').
    { transitivity w2; [|done]. assert (Hx := popen_grown worker_argv _child_env worker_log_path w1). by rewrite Hp in Hx. }
    destruct (Hgr worker_log_path) as [t Ht]. exists w2, t. split_and!; [done..| |done].
    by rewrite Ht, drop_string_app in Hr2.
Qed.

Lemma purge_queue_quiet s : ∃ r w', purge_queue s = (r, set_world w' s) ∧ quiet (world s) w' ∧
  (_redis_db_index (redis_url cfg) = 0 → w' = world s ∧ is_ok r = false).
Proof.
  unfold purge_queue. destruct (_ =? _) eqn:Hi.
  - eexists _, (world s). rewrite set_world_same. by split_and!.
  - apply Z.eqb_neq in Hi. run_io. eexists _, _. split_and!; [done|apply flushdb_quiet|done].
Qed.

(** C29: [Stack.start] is all or nothing, up to what a child that died leaves.
    When it returns, ingest has answered /healthz with 200 while its process was running, and
    the worker process is running and has itself written a ready line to its
    log.  When it raises, the stack has no children, and either nothing was launched and
    it is as it was, or it was stopped in a state [s1] it had reached: then every process
    family that was dead before is dead, except that of a child that had exited by
    itself before [stop] came to it (an ingest under uv run may leave its program).  A
    stack with children is refused as it is, and so is Redis database 0: nothing is
    flushed and nothing launched. *)
Theorem start_all_or_nothing s :
  match start s with
  | (Ok _, s') =>
      (_ingest s = None ∧ _worker s = None) ∧ _redis_db_index (redis_url cfg) ≠ 0 ∧
      ∃ p q s1, _ingest s' = Some p ∧ _worker s' = Some q ∧ contained s s' ∧
      _ingest s1 = Some p ∧ ingest_answers p s1 ∧ worker_ready true q s1 s'
  | (Err e, s') =>
      (_ingest s ≠ None ∨ _worker s ≠ None) ∧ s' = s ∨
      (_ingest s' = None ∧ _worker s' = None ∧ ∀ q, family q (world s) = ∅ → family q (world s') = ∅) ∨
      (_redis_db_index (redis_url cfg) ≠ 0 ∧ _ingest s' = None ∧ _worker s' = None ∧
       ∃ s1, contained s s1 ∧ stop s1 = (Ok (), s') ∧
       ∀ q, family q (world s) = ∅ → family q (world s') = ∅ ∨ exited_before_stop s1 q)
  end.
Proof.
  unfold start. run. case_bool_decide as Hst; [by left|].
  assert (Hn : _ingest s = None ∧ _worker s = None) by (destruct (_ingest s), (_worker s); naive_solver).
  unfold ingest_healthy. run. cbn [fst snd].
  assert (Hq1 := healthz_quiet (port cfg) (seconds 1) (world s)).
  set (w1 := (get_healthz (port cfg) (seconds 1) (world s)).2) in *.
  destruct (match _ with Some status => status =? 200 | None => false end).
  { right. left. split_and!; [apply Hn..|]. apply Hq1. }
  run. destruct (purge_queue_quiet (set_world w1 s)) as (r & w2 & -> & Hq2 & Hdb).
  assert (Hq : quiet (world s) w2) by by rewrite Hq1.
  destruct r as [[]|e]; [|right; left; split_and!; [apply Hn..|apply Hq]].
  assert (Hdb' : _redis_db_index (redis_url cfg) ≠ 0) by (intros H0; by destruct (Hdb H0)).
  assert (Hc0 := quiet_contained s w2 Hq). change (set_world w2 (set_world w1 s)) with (set_world w2 s) in *.
  assert (Hstop : ∀ s1, contained s s1 → ∃ s', stop s1 = (Ok (), s') ∧ _ingest s' = None ∧ _worker s' = None ∧
    ∃ s1', contained s s1' ∧ stop s1' = (Ok (), s') ∧
    ∀ q, family q (world s) = ∅ → family q (world s') = ∅ ∨ exited_before_stop s1' q).
  { intros s1 Hc. destruct (stop_stops s1) as (s3 & E & (Hst1 & Hst2 & _) & _ & Hdead). exists s3.
    split_and!; [done..|]. exists s1. split_and!; [done..|]. intros q Hx.
    assert (Decision (exited_before_stop s1 q)) as [Hd|Hd] by (unfold exited_before_stop; apply _); [by right|left].
    apply Hdead. destruct (Hc q (or_introl Hx)); [by left|by right]. }
  run. destruct (start_ingest_ends (set_world w2 s)) as (r & s1 & -> & Hw & Hc1 & Hr); [apply Hn|].
  assert (Hc01 : contained s s1) by (intros x Hx; by apply Hc1, Hc0).
  destruct r as [[]|e].
  2:{ run. destruct (Hstop s1 Hc01) as (s'' & -> & H'). run. right. right. by split. }
  destruct (start_worker_ends true s1) as (r & s2 & -> & Hi & Hc2 & Hr2); [rewrite Hw; apply Hn|].
  assert (Hc02 : contained s s2) by (intros x Hx; by apply Hc2, Hc01).
  destruct Hr as (p & Hp & Ha). destruct r as [[]|e].
  - destruct Hr2 as (q & Hq2' & Hready). split; [done|]. split; [done|]. exists p, q, s1. split_and!; [congruence|done..].
  - run. destruct (Hstop s2 Hc02) as (s'' & -> & H'). run. right. right. by split.
Qed.

(** [restart_worker] ends a running worker before it launches the new one, and
    waits for the new one's ready line: what the log held before does not count. *)
Theorem restart_waits_for_the_new_worker s :
  ∃ s1, (∀ p, _worker s = Some p → poll p (world s) = None → family p (world s1) = ∅) ∧ _worker s1 = None ∧ _ingest s1 = _ingest s ∧
  match restart_worker s with
  | (Ok _, s') => ∃ q, _worker s' = Some q ∧ worker_ready false q s1 s'
  | (Err _, s') => contained s1 s'
  end.
Proof.
  unfold restart_worker. run.
  destruct (kill_child_kills (_worker s) s) as (w1 & -> & Hq & Hd). run.
  eexists (set_worker None None _ (set_world w1 s)).
  destruct (start_worker_ends false (set_worker None None (_worker_log_offset s) (set_world w1 s)))
    as (r & s2 & Hr & Hi & Hc & Ho); [done|].
  split; [|split; [|split]]; [| | |cbn [_worker_log_offset set_world]; rewrite Hr; by destruct r]; [|done..].
  intros p Hp Hrun. cbn. by apply Hd.
Qed.

(** [with stack: body], through [__enter__] and [__exit__]. *)
Definition with_stack {A} (body : M A) : M A := _ ← start; try_finally body stop.

Lemma start_err_children s : _ingest s = None → _worker s = None →
  match start s with (Ok _, _) => True | (Err _, s') => _ingest s' = None ∧ _worker s' = None end.
Proof.
  intros Hi Hw. unfold start, ingest_healthy. run. rewrite bool_decide_false by naive_solver. run. cbn [fst snd].
  set (w1 := (get_healthz (port cfg) (seconds 1) (world s)).2).
  destruct (match _ with Some status => status =? 200 | None => false end); [by split|].
  run. destruct (purge_queue_quiet (set_world w1 s)) as ([[]|e] & w2 & -> & _); [|by split].
  run. destruct (_start_ingest _) as [[[]|e] s1]; [destruct (_start_worker true s1) as [[[]|e] s2]; [done|]|]; run.
  - by destruct (stop_stops s2) as (s3 & -> & (? & ? & _) & _).
  - by destruct (stop_stops s1) as (s3 & -> & (? & ? & _) & _).
Qed.

(** Whatever the body does, the stack has no children after the block. *)
Theorem with_stack_stops {A} (body : M A) s : _ingest s = None → _worker s = None →
  let s' := (with_stack body s).2 in _ingest s' = None ∧ _worker s' = None.
Proof.
  intros Hi Hw. cbv zeta. unfold with_stack. run. assert (Hs := start_err_children s Hi Hw).
  destruct (start s) as [[[]|e] s1]; [|exact Hs].
  unfold try_finally. destruct (body s1) as [r s2]. by destruct (stop_stops s2) as (s3 & -> & (? & ? & _) & _).
Qed.

(** A child that has exited is not signalled: whatever it had started stays. *)
Theorem kill_tree_skips_orphans p c s : poll p (world s) = Some c → _kill_tree p s = (Ok (), s).
Proof. intros Hp. unfold _kill_tree. run. by rewrite Hp. Qed.

(** *** Quiescence *)

(** The failures of Redis and PostgreSQL. *)
Definition raised (e : exn) : Prop := ∃ w w',
  (∃ url, connect url w = (Err e, w')) ∨ (∃ url, scan_iter url w = (Err e, w')) ∨
  (∃ url k, redis_type url k w = (Err e, w')) ∨ (∃ url k, redis_llen url k w = (Err e, w')) ∨
  select_events w = (Err e, w').

(** One look at the queue, from [w] to [w']: of the keys that begin with celery, each that is
    a list has the length Redis gives for it, and the others do not count. *)
Inductive lengths : list string → W → list Z → W → Prop :=
  | no_key w : lengths [] w [] w
  | list_key key keys w w1 n w2 ns w' : redis_type (redis_url cfg) key w = (Ok "list", w1) →
      redis_llen (redis_url cfg) key w1 = (Ok n, w2) → lengths keys w2 ns w' → lengths (key :: keys) w (n :: ns) w'
  | other_key key keys ty w w1 ns w' : redis_type (redis_url cfg) key w = (Ok ty, w1) → ty ≠ "list" →
      lengths keys w1 ns w' → lengths (key :: keys) w ns w'.

(** A row of the scope that the worker has not finished with. *)
Definition unfinished (event_ids : option (list string)) (row : event_row) : Prop :=
  (match event_ids with Some ids => ev_id row ∈ ids | None => True end) ∧ (ev_status row = Received ∨ ev_status row = Queued).

(** One poll, and whether it found both sources idle: every list empty and then no
    row unfinished. *)
Inductive polled (event_ids : option (list string)) (w : W) : bool → W → Prop :=
  | queue_waiting keys w1 ns w2 : scan_iter (redis_url cfg) w = (Ok keys, w1) → lengths keys w1 ns w2 →
      ¬ Forall (λ n, n = 0) ns → polled event_ids w false w2
  | row_unfinished keys w1 ns w2 rows w3 : scan_iter (redis_url cfg) w = (Ok keys, w1) → lengths keys w1 ns w2 →
      Forall (λ n, n = 0) ns → select_events w2 = (Ok rows, w3) → (∃ r, r ∈ rows ∧ unfinished event_ids r) → polled event_ids w false w3
  | both_idle keys w1 ns w2 rows w3 : scan_iter (redis_url cfg) w = (Ok keys, w1) → lengths keys w1 ns w2 →
      Forall (λ n, n = 0) ns → select_events w2 = (Ok rows, w3) → (∀ r, r ∈ rows → ¬ unfinished event_ids r) → polled event_ids w true w3.

(** A run of polls, each but the last ending before the deadline and followed by a
    sleep of 150 ms and by the next. *)
Inductive poll_run (event_ids : option (list string)) (deadline : Z) : W → list bool → W → Prop :=
  | last_poll w b w' : polled event_ids w b w' → poll_run event_ids deadline w [b] w'
  | next_poll w b w1 obs w' : polled event_ids w b w1 → monotonic w1 < deadline →
      poll_run event_ids deadline (sleep 150000000 w1) obs w' → poll_run event_ids deadline w (b :: obs) w'.

(** Two idle polls in a row. *)
Fixpoint twice (obs : list bool) : bool :=
  match obs with
  | a :: obs => ((a && match obs with b :: _ => b | [] => false end) || twice obs)%bool
  | [] => false
  end.

Lemma io_raise_ends {A} (f : stx W A) s :
  (∀ e w', f (world s) = (Err e, w') → raised e) → quiet (world s) (f (world s)).2 →
  ∃ r w', io_raise f s = (r, set_world w' s) ∧ quiet (world s) w' ∧
  match r with Ok a => f (world s) = (Ok a, w') | Err e => raised e end.
Proof.
  intros He Hq. exists (f (world s)).1, (f (world s)).2. split_and!; [done..|].
  destruct (f (world s)) as [[a|e] w'] eqn:Hf; [done|by eapply He].
Qed.

Lemma llen_sum_ends keys : ∀ s, ∃ r w', llen_sum keys s = (r, set_world w' s) ∧ quiet (world s) w' ∧
  match r with
  | Ok n => ∃ ns, lengths keys (world s) ns w' ∧ n = Zsum id ns ∧ Forall (λ n, 0 <= n) ns
  | Err e => raised e
  end.
Proof.
  induction keys as [|k keys IH]; intros s; cbn [llen_sum].
  { exists (Ok 0), (world s). run. rewrite set_world_same. split_and!; [done..|]. exists []. split_and!; [constructor|done|done]. }
  run. destruct (io_raise_ends (redis_type (redis_url cfg) k) s) as (r & w1 & -> & Hq1 & Hr1);
    [by unfold raised; naive_solver|apply type_quiet|].
  destruct r as [ty|e]; [|by exists (Err e), w1]. run. case_bool_decide as Hty.
  - subst ty. destruct (io_raise_ends (redis_llen (redis_url cfg) k) (set_world w1 s)) as (r & w2 & -> & Hq2 & Hr2);
      [by unfold raised; naive_solver|apply llen_quiet|]. cbn [world set_world] in *.
    destruct r as [n|e]; [|exists (Err e), w2; split_and!; [done|by rewrite Hq1|done]].
    run. destruct (IH (set_world w2 s)) as (r & w3 & E & Hq3 & Hr3). change (set_world w2 (set_world w1 s)) with (set_world w2 s). rewrite E.
    cbn [world set_world] in *. assert (Hq : quiet (world s) w3) by by rewrite Hq1, Hq2.
    destruct r as [m|e]; eexists _, w3; (split_and!; [done..|]); [|done].
    destruct Hr3 as (ns & Hl & -> & Hns). exists (n :: ns). split_and!; [by econstructor|done|].
    constructor; [by eapply llen_nonneg|done].
  - run. destruct (IH (set_world w1 s)) as (r & w3 & E & Hq3 & Hr3). rewrite E.
    cbn [world set_world] in *. assert (Hq : quiet (world s) w3) by by rewrite Hq1.
    destruct r as [m|e]; eexists _, w3; (split_and!; [done..|]); [|done].
    destruct Hr3 as (ns & Hl & -> & Hns). exists ns. split_and!; [by eapply other_key|done|done].
Qed.

Lemma Zsum_all_zero ns : Forall (λ n, 0 <= n) ns → Zsum id ns = 0 ↔ Forall (λ n, n = 0) ns.
Proof.
  induction 1 as [|n ns Hn Hns IH]; [by split|]. rewrite Zsum_cons, Forall_cons, <- IH. unfold id at 1.
  assert (0 <= Zsum id ns) by (apply Zsum_nonneg; intros x Hx; rewrite Forall_forall in Hns; by apply Hns). lia.
Qed.

Lemma pending_unfinished event_ids r : pending event_ids r = true ↔ unfinished event_ids r.
Proof.
  unfold pending, unfinished. rewrite andb_true_iff, bool_decide_eq_true.
  destruct event_ids; rewrite ?bool_decide_eq_true; naive_solver.
Qed.

Lemma idle_ends event_ids s : ∃ r w', idle event_ids s = (r, set_world w' s) ∧ quiet (world s) w' ∧
  match r with Ok b => polled event_ids (world s) b w' | Err e => raised e end.
Proof.
  unfold idle, pending_events, queue_len. run.
  destruct (io_raise_ends (scan_iter (redis_url cfg)) s) as (r & w0 & -> & Hq0 & Hr0);
    [by unfold raised; naive_solver|apply scan_quiet|].
  destruct r as [keys|e]; [|by exists (Err e), w0].
  destruct (llen_sum_ends keys (set_world w0 s)) as (r & w1 & -> & Hq1 & Hr1). cbn [world set_world] in *.
  assert (Hq01 : quiet (world s) w1) by by rewrite Hq0.
  destruct r as [n|e]; [|by exists (Err e), w1]. destruct Hr1 as (ns & Hl & -> & Hns).
  destruct (Zsum id ns =? 0) eqn:Hn.
  2:{ exists (Ok false), w1. run. split_and!; [done..|]. apply (queue_waiting _ _ keys w0 ns); [done..|].
      rewrite <- Zsum_all_zero by done. by apply Z.eqb_neq. }
  apply Z.eqb_eq in Hn. apply Zsum_all_zero in Hn; [|done].
  run. destruct (io_raise_ends select_events (set_world w1 s)) as (r & w2 & E2 & Hq2 & Hr2);
    [by unfold raised; naive_solver|apply select_quiet|]. change (set_world w1 (set_world w0 s)) with (set_world w1 s). rewrite E2.
  assert (Hq : quiet (world s) w2) by by rewrite Hq01.
  destruct r as [rows|e]; [|by exists (Err e), w2].
  eexists _, w2. split; [by run|]. split; [done|]. cbn [world set_world] in Hr2.
  destruct (Z.of_nat _ =? 0) eqn:Hz.
  - apply Z.eqb_eq in Hz. assert (Hnil := nil_length_inv _ ltac:(apply Nat2Z.inj; exact Hz)).
    eapply both_idle; [done..|]. intros r Hr Hu%pending_unfinished.
    assert (Hin : r ∈ filter (λ r, pending event_ids r = true) rows) by by apply list_elem_of_filter.
    rewrite Hnil in Hin. by apply not_elem_of_nil in Hin.
  - destruct (filter (λ r, pending event_ids r = true) rows) as [|r l] eqn:Hf; [done|].
    assert (Hin : r ∈ filter (λ r, pending event_ids r = true) rows) by (rewrite Hf; left).
    apply list_elem_of_filter in Hin as [Hu%pending_unfinished Hr]. eapply row_unfinished; [done..|]. by exists r.
Qed.

Lemma poll_run_some event_ids deadline w obs w' : poll_run event_ids deadline w obs w' → obs ≠ [].
Proof. by inversion 1. Qed.

(** [stable] says whether the poll before was idle. *)
Lemma quiesce_ends fuel : ∀ event_ids deadline (before : bool) s,
  (1 <= fuel)%nat → deadline - monotonic (world s) <= Z.of_nat (pred fuel) * _POLL_INTERVAL →
  ∃ r w', quiesce fuel event_ids deadline (Z.b2z before) s = (r, set_world w' s) ∧ quiet (world s) w' ∧
  match r with
  | Ok b => ∃ obs, poll_run event_ids deadline (world s) obs w' ∧ twice (before :: obs) = b ∧
      twice (before :: removelast obs) = false ∧ (b = false → deadline <= monotonic w')
  | Err e => raised e
  end.
Proof.
  induction fuel as [|fuel IH]; intros event_ids deadline before s Hf Hd; [lia|].
  cbn [quiesce]. run. destruct (idle_ends event_ids s) as (r & w1 & -> & Hq1 & Hr1).
  destruct r as [i|e]; [|by exists (Err e), w1]. run.
  destruct (2 <=? _) eqn:H2.
  { apply Z.leb_le in H2. destruct i, before; cbn in H2; try lia.
    exists (Ok true), w1. split_and!; [done..|]. exists [true]. split_and!; [by constructor|done|done|done]. }
  assert (Hno : (before && i)%bool = false) by (destruct i, before; cbn in H2; done).
  run. destruct (deadline <=? _) eqn:Hnow.
  { apply Z.leb_le in Hnow. exists (Ok false), w1. split_and!; [done..|]. exists [i].
    split_and!; [by constructor|cbn; by rewrite Hno, andb_false_r|cbn; by rewrite andb_false_r|done]. }
  apply Z.leb_gt in Hnow. run. cbn [world set_world] in *.
  assert (Hs := sleep_long _POLL_INTERVAL w1). assert (Hq2 := sleep_quiet _POLL_INTERVAL w1 ltac:(done)).
  assert (Ht : monotonic (world s) <= monotonic w1) by apply Hq1.
  assert (Hfuel : (1 <= fuel)%nat) by (destruct fuel; cbn [pred] in *; lia).
  assert (Hmul : Z.of_nat fuel * _POLL_INTERVAL = Z.of_nat (pred fuel) * _POLL_INTERVAL + _POLL_INTERVAL)
    by (destruct fuel; cbn [pred]; lia).
  assert ((if i then Z.b2z before + 1 else 0) = Z.b2z i) as -> by (by destruct i, before).
  destruct (IH event_ids deadline i (set_world (sleep _POLL_INTERVAL w1) (set_world w1 s)) Hfuel) as (r & w' & -> & Hq & Hr);
    [cbn [world set_world pred] in *; lia|].
  exists r, w'. split_and!; [done|by rewrite Hq1, Hq2|]. destruct r as [b|e]; [|done].
  destruct Hr as (obs & Hrun & Hb & Hfirst & Hlate). exists (i :: obs). split_and!.
  - by eapply next_poll.
  - rewrite <- Hb. cbn [twice]. by rewrite Hno.
  - rewrite <- Hfirst. destruct obs as [|o obs]; [by apply poll_run_some in Hrun|]. cbn [removelast twice]. by rewrite Hno.
  - done.
Qed.

(** C30: [Stack.wait_quiescent] never hangs and never says so too early.
    Within the rounds its timeout allows it returns, or raises what Redis or
    PostgreSQL raised.  What it did is then a run of polls, a sleep of 150 ms after each but
    the last, where a poll is idle when every celery list was empty and after that no
    event of the scope was unfinished (status received or queued).  It returns [True]
    exactly when the last poll and the one right before it are idle, the first such
    pair of the run, and [False] when the timeout has passed with no two idle
    polls in a row. *)
Theorem wait_quiescent_sound timeout event_ids s :
  match wait_quiescent timeout event_ids s with
  | (Ok b, s') => ∃ w0 obs, connect (db_url cfg) (world s) = (Ok (), w0) ∧ quiet (world s) (world s') ∧
      poll_run event_ids (monotonic (world s) + timeout) w0 obs (world s') ∧
      twice obs = b ∧ twice (removelast obs) = false ∧
      (b = false → monotonic (world s) + timeout <= monotonic (world s'))
  | (Err e, _) => raised e
  end.
Proof.
  unfold wait_quiescent. run.
  destruct (io_raise_ends (connect (db_url cfg)) s) as (r & w1 & -> & Hq1 & Hr1);
    [by unfold raised; naive_solver|apply connect_quiet|].
  destruct r as [[]|e]; [|done].
  assert (Hn := rounds_enough timeout _POLL_INTERVAL eq_refl).
  assert (Ht : monotonic (world s) <= monotonic w1) by apply Hq1.
  destruct (quiesce_ends (rounds timeout _POLL_INTERVAL) event_ids (monotonic (world s) + timeout) false
    (set_world w1 s)) as (r & w' & E & Hq & Hr); [unfold rounds; lia|cbn [world set_world]; lia|]. cbn [Z.b2z] in E. rewrite E.
  destruct r as [b|e]; [|done]. destruct Hr as (obs & Hrun & Hb & Hfirst & Hlate).
  exists w1, obs. split_and!; [done|by rewrite Hq1|done..].
Qed.
End stack.

(** ** A machine

    One process per child, an ingest that answers a second after its launch, a
    worker that says so when it is ready, and one event that is processed at a
    given time. *)
Module Machine.
Record machine := MkMachine {
  clock : Z; next : Z; live : gset Z; logs : gmap string string; up_at : Z; done_at : Z; row : event_row }.
Definition tick (d : Z) (w : machine) : machine :=
  MkMachine (clock w + Z.max 0 d) (next w) (live w) (logs w) (up_at w) (done_at w) (row w).
Definition without (p : Z) (w : machine) : machine :=
  MkMachine (clock w) (next w) (live w ∖ {[p]}) (logs w) (up_at w) (done_at w) (row w).
Definition set_logs (l : gmap string string) (w : machine) : machine :=
  MkMachine (clock w) (next w) (live w) l (up_at w) (done_at w) (row w).
Definition alive (p : Z) (w : machine) : bool := (p <? next w) && bool_decide (p ∈ live w).
Definition launched (argv : list string) (log : string) : stx machine Z := λ w,
  (Ok (next w),
   MkMachine (clock w) (next w + 1) (live w ∪ {[next w]})
     (<[log := default "" (logs w !! log) +:+ "starting: celery@host Ready."]> (logs w))
     (if bool_decide (head argv = Some "uv") then clock w + seconds 1 else up_at w) (done_at w) (row w)).
#[global] Instance machine_os : OS machine := {|
  monotonic := clock;
  sleep := tick;
  popen argv _ log := launched argv log;
  poll p w := if alive p w then None else Some 0;
  wait p t w := (negb (alive p w), w);
  kill := without; taskkill := without; killpg := without;
  open_log log b w := if b : bool then set_logs (<[log := ""]> (logs w)) w else w;
  log_text log w := logs w !! log;
  get_healthz port t w := (if ((up_at w <=? clock w) && bool_decide (live w ≠ ∅))%bool then Some 200 else None, tick 1000000 w);
  flushdb url := mret ();
  scan_iter url := mret ["celery"];
  redis_type url k := mret "list";
  redis_llen url k w := (Ok (if clock w <? done_at w then 1 else 0), w);
  connect url := mret ();
  select_events w :=
    (Ok [EventRow (ev_id (row w)) (ev_type (row w)) (ev_object (row w)) (ev_payload (row w))
           (if clock w <? done_at w + seconds 1 then Queued else Processed)], w);
  family p w := if alive p w then {[p]} else ∅ |}.

Lemma family_dead p w : family p w = ∅ ↔ alive p w = false.
Proof. cbn. destruct (alive p w); split; [set_solver|done..]. Qed.
Lemma quiet_alive (w w' : machine) : clock w <= clock w' → next w' = next w → live w' ⊆ live w → quiet w w'.
Proof.
  intros Ht Hn Hl. split; [done|]. intros q. rewrite !family_dead. unfold alive. rewrite Hn.
  destruct (q <? next w); [|done]. cbn. rewrite !bool_decide_eq_false. set_solver.
Qed.
Lemma grown_same (w w' : machine) : logs w' = logs w → grown w w'.
Proof. intros Hl path. exists "". unfold text_of. cbn. by rewrite Hl, append_empty. Qed.

#[global] Instance machine_laws : OSLaws machine.
Proof.
  split.
  - intros d w. cbn. lia.
  - intros d w Hd. apply quiet_alive; cbn; [lia|done..].
  - intros d w. by apply grown_same.
  - intros argv env log w p w' Hp. injection Hp as <- <-. apply family_dead. unfold alive.
    by rewrite Z.ltb_irrefl.
  - intros argv env log w q. cbn [popen machine_os]. rewrite !family_dead. unfold alive. cbn. intros Hq Hne.
    assert (q ≠ next w) by congruence.
    destruct (q <? next w) eqn:Hlt; cbn in *.
    + rewrite bool_decide_eq_false in *. apply andb_false_iff. right. rewrite bool_decide_eq_false. set_solver.
    + apply Z.ltb_ge in Hlt. apply andb_false_iff. left. apply Z.ltb_ge. lia.
  - intros argv env log w. cbn. lia.
  - intros argv env log w path. unfold text_of. cbn. destruct (decide (path = log)) as [->|Hne].
    + rewrite lookup_insert_eq. cbn. eauto.
    + rewrite lookup_insert_ne by done. exists "". by rewrite append_empty.
  - intros p t w Hp. apply family_dead in Hp. cbn. by rewrite Hp.
  - intros p t w. by apply quiet_alive.
  - intros p w _. apply family_dead. unfold alive. cbn. apply andb_false_iff. right. rewrite bool_decide_eq_false. set_solver.
  - intros p w. apply quiet_alive; cbn; [done..|set_solver].
  - intros p w _. apply family_dead. unfold alive. cbn. apply andb_false_iff. right. rewrite bool_decide_eq_false. set_solver.
  - intros p w. apply quiet_alive; cbn; [done..|set_solver].
  - intros p w _. apply family_dead. unfold alive. cbn. apply andb_false_iff. right. rewrite bool_decide_eq_false. set_solver.
  - intros p w. apply quiet_alive; cbn; [done..|set_solver].
  - intros log b w. apply quiet_alive; by destruct b.
  - intros port t w. apply quiet_alive; cbn; [lia|done..].
  - intros port t w. by apply grown_same.
  - intros url w. by apply quiet_alive.
  - intros url w. by apply quiet_alive.
  - intros url k w. by apply quiet_alive.
  - intros url k w. by apply quiet_alive.
  - intros url k w n w' [= <- _]. by destruct (_ <? _).
  - intros url w. by apply quiet_alive.
  - intros w. by apply quiet_alive.
Qed.

Definition cfg : config := MkConfig 8100 "postgresql://localhost/chaos" "postgresql://app@localhost/chaos"
  "redis://localhost:6379/1" "whsec_test".
Definition fresh : Stack machine :=
  MkStack machine None None None None 0
    (MkMachine 0 100 ∅ ∅ (seconds 1000) (seconds 2) (EventRow "evt_1" "charge.succeeded" None PNone Queued)).
End Machine.

Lemma start_all_or_nothing_witness :
  let s' := (start false ∅ "python" "logs" Machine.cfg Machine.fresh).2 in
  _redis_db_index "redis://localhost:6379/1" = 1 ∧ ∃ p q s1, _ingest s' = Some p ∧ _worker s' = Some q ∧
  ingest_answers Machine.cfg p s1 ∧ worker_ready ∅ "python" "logs" Machine.cfg true q s1 s'.
Proof.
  intros s'. split; [vm_compute; reflexivity|].
  assert (Hok : (start false ∅ "python" "logs" Machine.cfg Machine.fresh).1 = Ok ()) by (vm_compute; reflexivity).
  pose proof (start_all_or_nothing false ∅ "python" "logs" Machine.cfg Machine.fresh) as H.
  subst s'. destruct (start _ _ _ _ _ _) as [[u|e] s']; [|discriminate Hok].
  destruct H as (_ & _ & p & q & s1 & Hp & Hq & _ & _ & Ha & Hw). exists p, q, s1. auto.
Defined.

Lemma wait_quiescent_sound_witness :
  (wait_quiescent Machine.cfg (seconds 30) None Machine.fresh).1 = Ok true ∧
  ∃ w0 obs, poll_run Machine.cfg None (seconds 30) w0 obs (world (wait_quiescent Machine.cfg (seconds 30) None Machine.fresh).2) ∧
    twice obs = true ∧ twice (removelast obs) = false.
Proof.
  assert (Hok : (wait_quiescent Machine.cfg (seconds 30) None Machine.fresh).1 = Ok true) by (vm_compute; reflexivity).
  split; [exact Hok|].
  pose proof (wait_quiescent_sound Machine.cfg (seconds 30) None Machine.fresh) as H.
  destruct (wait_quiescent _ _ _ _) as [[b|e] s']; [|discriminate Hok]. injection Hok as ->.
  destruct H as (w0 & obs & _ & _ & H1 & H2 & H3 & _). exists w0, obs. auto.
Defined.

(** The guards of [purge_queue] and the tails of a log. *)
Example processes_examples :
  _redis_db_index "redis://localhost:6379/0" = 0 ∧ _redis_db_index "redis://localhost:6379" = 0 ∧
  _redis_db_index "redis://:pw@h:1//12" = 12 ∧ _redis_db_index "redis://h/one" = 0 ∧
  _tail None 3 = "" ∧ _tail (Some ("a" +:+ String "010" ("b" +:+ String "010" "c"))) 2 = "b" +:+ String "010" "c" ∧
  (wait_quiescent Machine.cfg (seconds 1) (Some ["evt_1"]) Machine.fresh).1 = Ok false ∧
  (start false ∅ "python" "logs" (MkConfig 8100 "" "" "redis://localhost" "") Machine.fresh).1
    = Err (RuntimeError "refusing to purge redis db 0").
Proof. vm_compute. auto 10. Qed.
