(* ===== verification/Stratum.v ===== *)
(** scripts/build_repair_stratum.py: the repair stratum, from the harness run against
    deliberately broken builds.  The working tree is a map from path to text;
    git and the harness run are parameters with their documented behaviour.  The
    progress lines and the printed summary are left out. *)
From S2P Require Import Prelude PyVal Json Prompts Bench.

(** ** Data *)
Record Edit := MkEdit { path : string; old : string; new : string }.
Record Mutation := MkMutation {
  key : string; edits : list Edit; faults : string; kinds : string; per_combo : Z;
  m_repairable : bool; damage : string }.

Definition quote (s : string) : string := String dquote (s +:+ String dquote "").
Definition lines (l : list string) : string := join newline l.

Definition m5_double_post : Mutation := MkMutation "m5_double_post"
  [MkEdit "src/ledgerproof/ingest/dedupe.py"
     "        object_id = money_movement_object_id(event)"
     (lines ["        return DedupeResult(new=True)  # MUTATION M5"; "        object_id = money_movement_object_id(event)"]);
   MkEdit "migrations/001_ledger.sql"
     (lines ["  memo          TEXT,";
             "  -- Stripe's own documented dedupe key: event.id is NOT sufficient, because";
             "  -- two distinct Event objects can be generated for the same state change.";
             "  CONSTRAINT dedupe_event  UNIQUE (stripe_event_id),";
             "  CONSTRAINT dedupe_object UNIQUE (event_type, stripe_object_id)"])
     (lines ["  memo          TEXT"; "  -- MUTATION M5: both dedupe constraints removed"]);
   MkEdit "src/ledgerproof/stripe_io/mapping.py"
     ("id=uuid.uuid5(uuid.NAMESPACE_URL, " +:+ quote "ledgerproof:" +:+ " + event[" +:+ quote "id" +:+ "]),")
     "id=uuid.uuid4(),  # MUTATION M5"]
  "DUPLICATE,CONCURRENT_DUPLICATE,RESPOND_500" "charge_succeeded,charge_refunded,payout_paid,dispute_created" 3
  true "duplicate_post".

Definition m7_unbalanced : Mutation := MkMutation "m7_unbalanced"
  [MkEdit "migrations/001_ledger.sql"
     (lines ["CREATE CONSTRAINT TRIGGER entries_balanced"; "  AFTER INSERT ON entries";
             "  DEFERRABLE INITIALLY DEFERRED"; "  FOR EACH ROW EXECUTE FUNCTION assert_txn_balanced();"])
     "-- MUTATION M7: balance trigger removed";
   MkEdit "src/ledgerproof/stripe_io/mapping.py"
     ("add(" +:+ quote "stripe_balance" +:+ ", " +:+ quote "debit" +:+ ", gross - fee)")
     ("add(" +:+ quote "stripe_balance" +:+ ", " +:+ quote "debit" +:+ ", gross)  # MUTATION M7")]
  "NONE" "charge_succeeded" 8 false "unbalanced_write".

Definition MUTATIONS : list Mutation := [m5_double_post; m7_unbalanced].

Definition edited (m : Mutation) : list string := remove_dups (path <$> edits m).

(** ** The working tree, git and the harness *)
Definition tree : Type := gmap string string.

Definition ARTIFACTS : string := "artifacts/".
Definition OUT : string := "artifacts/repair_stratum.jsonl".
Definition stratum_path (m : Mutation) : string := "artifacts/mutation/" +:+ key m +:+ "_stratum.jsonl".

(** [git status --porcelain], [git checkout --] and the subprocess of the harness. *)
Class Workbench := {
  committed : tree;
  git_status : list string → tree → string;
  git_checkout : list string → tree → result tree;
  harness_run : Mutation → tree → string * tree }.

(** git restores tracked files to what is committed and reports those that
    differ; the harness writes under artifacts/ only. *)
Class WorkbenchLaws `{Workbench} := {
  checkout_restores paths t : (∀ p, p ∈ paths → is_Some (committed !! p)) →
    ∃ t', git_checkout paths t = Ok t' ∧ ∀ p, t' !! p = if decide (p ∈ paths) then committed !! p else t !! p;
  status_clean paths t : strip (git_status paths t) = "" ↔
    ∀ p c, committed !! p = Some c → paths = [] ∨ p ∈ paths → t !! p = Some c;
  harness_writes m t p : startswith ARTIFACTS p = false → (harness_run m t).2 !! p = t !! p }.

(** ** Applying and reverting *)

(** [text.replace(old, new, 1)] for a text that contains [old]. *)
Definition replace_at (n : nat) (old new text : string) : string :=
  String.substring 0 n text +:+ new +:+
  String.substring (n + String.length old) (String.length text - (n + String.length old)) text.

Definition read_text (p : string) : stx tree string := λ t, (of_option (OSError p) (t !! p), t).
Definition write_text (p text : string) : stx tree () := modify (<[p := text]>).

Definition apply_edit (m : Mutation) (e : Edit) : stx tree () :=
  text ← read_text (path e);
  match String.index 0 (old e) text with
  | None => raise (SystemExit (key m +:+ ": anchor not found in " +:+ path e))
  | Some n => write_text (path e) (replace_at n (old e) (new e) text)
  end.
Definition apply (m : Mutation) : stx tree () := for_each (apply_edit m) (edits m).

(** ** Labelling *)
Definition repair_label (m : Mutation) (record : pyval) : result pyval :=
  expected ← py_get record "expected"; delta ← py_get (or_empty expected) "balances_delta";
  expected ← dict_or_empty delta;
  diff ← py_get record "ledger_diff"; observed ← dict_or_empty diff;
  mret (PDict [("mutation", PStr (key m)); ("damage", PStr (damage m));
               ("repairable_by_compensating_transaction", PBool (m_repairable m));
               ("expected_balances_delta", expected); ("observed_balances_delta", observed)]).

Definition label_record (m : Mutation) (record : pyval) : result pyval :=
  label ← repair_label m record; d ← of_option TypeError (PyVal.as_dict record);
  mret (PDict (dict_set "repair_label" label d)).

(** The lines of an artifact: blank lines and crashed scenarios are skipped. *)
Fixpoint label_lines (m : Mutation) (ls : list string) : result (list pyval) :=
  match ls with
  | [] => Ok []
  | line :: ls =>
      if bool_decide (strip line = "") then label_lines m ls
      else
        record ← of_option (ValueError "JSONDecodeError") (json_loads line);
        error ← py_get record "error";
        if truthy error then label_lines m ls
        else r ← label_record m record; rs ← label_lines m ls; mret (r :: rs)
  end.

(** [json.dumps] with its default separators. *)
Fixpoint spaced (l : list (list ascii)) : list ascii :=
  match l with [] => [] | [x] => x | x :: l => x ++ chars ", " ++ spaced l end.
Fixpoint dump_spaced (v : pyval) : list ascii :=
  match v with
  | PList l => "["%char :: spaced (List.map dump_spaced l) ++ ["]"%char]
  | PDict d => "{"%char :: spaced (List.map (λ kv, dump_string kv.1 ++ chars ": " ++ dump_spaced kv.2) d) ++ ["}"%char]
  | v => dump v
  end.

(** ** The script *)
Section script.
Context `{Workbench}.

Definition tree_is_clean (paths : list string) (t : tree) : bool := bool_decide (strip (git_status paths t) = "").
Definition revert (m : Mutation) : stx tree () := λ t,
  match git_checkout (edited m) t with Ok t' => (Ok (), t') | Err e => (Err e, t) end.

Definition sweep (m : Mutation) : stx tree string :=
  _ ← modify (λ t, (harness_run m t).2);
  exists_ ← gets (λ t : tree, bool_decide (is_Some (t !! stratum_path m)));
  if exists_ : bool then mret (stratum_path m)
  else raise (SystemExit (key m +:+ ": harness produced no artifact")).

Definition restore (m : Mutation) : stx tree () :=
  _ ← revert m;
  clean ← gets (tree_is_clean (edited m));
  if clean : bool then mret () else raise AssertionError.

Definition one_mutation (m : Mutation) : stx tree (list pyval) :=
  artifact ← try_finally (_ ← apply m; sweep m) (restore m);
  text ← read_text artifact;
  lift (label_lines m (splitlines text)).

Fixpoint all_mutations (ms : list Mutation) : stx tree (list pyval) :=
  match ms with
  | [] => mret []
  | m :: ms => rs ← one_mutation m; rest ← all_mutations ms; mret (rs ++ rest)
  end.

Definition main : stx tree (list pyval) :=
  clean ← gets (tree_is_clean []);
  if clean : bool then
    records ← all_mutations MUTATIONS;
    _ ← write_text OUT (join newline ((λ r, of_chars (dump_spaced r)) <$> records) +:+ newline);
    mret records
  else raise (SystemExit "working tree is dirty; commit or stash before mutating it").

(** ** The tree is restored *)
Context `{!WorkbenchLaws}.

(** The files outside artifacts/ as in [t]. *)
Definition source_of (t t' : tree) : Prop := ∀ p, startswith ARTIFACTS p = false → t' !! p = t !! p.

Lemma apply_only_edits m es : ∀ t, (∀ e, e ∈ es → path e ∈ edited m) → ∀ p, p ∉ edited m →
  (for_each (apply_edit m) es t).2 !! p = t !! p.
Proof.
  induction es as [|e es IH]; intros t He p Hp; [done|]. run. unfold apply_edit, read_text. run.
  assert (path e ≠ p) by (intros <-; apply Hp, He; by left).
  destruct (t !! path e) as [text|]; cbn; [|done].
  destruct (String.index 0 (old e) text); run; [|done]. unfold write_text. run.
  rewrite IH by (auto; intros e' ?; apply He; by right). by apply lookup_insert_ne.
Qed.

Lemma edited_spec m p : p ∈ edited m ↔ ∃ e, e ∈ edits m ∧ p = path e.
Proof. unfold edited. rewrite elem_of_remove_dups, list_elem_of_fmap. naive_solver. Qed.

(** A mutation of tracked source files. *)
Record sound (m : Mutation) : Prop := {
  sound_some : edited m ≠ [];
  sound_tracked p : p ∈ edited m → is_Some (committed !! p);
  sound_source p : p ∈ edited m → startswith ARTIFACTS p = false }.
Definition clean_at (m : Mutation) (t : tree) : Prop := ∀ p, p ∈ edited m → t !! p = committed !! p.

Lemma restore_run m t : sound m → ∃ t', restore m t = (Ok (), t') ∧
  ∀ p, t' !! p = if decide (p ∈ edited m) then committed !! p else t !! p.
Proof.
  intros Hm. unfold restore, revert. run.
  destruct (checkout_restores (edited m) t (sound_tracked m Hm)) as (t' & -> & Hp).
  run. exists t'. split; [|done]. unfold tree_is_clean. rewrite bool_decide_true; [done|].
  apply status_clean. intros p c Hc [Hn|Hin]; [by destruct (sound_some m Hm)|].
  by rewrite Hp, decide_True.
Qed.

(** One turn of the loop, however it ends. *)
Lemma one_mutation_source m t : sound m → clean_at m t → source_of t (one_mutation m t).2.
Proof.
  intros Hm Hc.
  set (t1 := ((_ ← apply m; sweep m) t).2).
  assert (H1 : ∀ p, startswith ARTIFACTS p = false → p ∉ edited m → t1 !! p = t !! p).
  { intros p Hp He. unfold t1. run. assert (Ha := apply_only_edits m (edits m) t).
    unfold apply. destruct (for_each (apply_edit m) (edits m) t) as [[[]|e] t2]; cbn [snd] in *.
    2:{ apply Ha; [|done]. intros e' ?. apply edited_spec. eauto. }
    unfold sweep. run.
    assert ((harness_run m t2).2 !! p = t !! p).
    { rewrite harness_writes by done. apply Ha; [|done]. intros e' ?. apply edited_spec. eauto. }
    by case_bool_decide. }
  destruct (restore_run m t1 Hm) as (t3 & Hr & H3).
  assert (Hs : source_of t t3).
  { intros p Hp. rewrite H3. case_decide as He; [by rewrite Hc|by apply H1]. }
  unfold one_mutation. run. unfold try_finally.
  change ((_ ← apply m; sweep m) t) with (((_ ← apply m; sweep m) t).1, t1) || rewrite (surjective_pairing ((_ ← apply m; sweep m) t)).
  fold t1. rewrite Hr. destruct ((_ ← apply m; sweep m) t).1 as [artifact|e]; [|done].
  unfold read_text. run. by destruct (of_option _ _).
Qed.

Lemma all_mutations_source ms : ∀ t, Forall sound ms → (∀ m, m ∈ ms → clean_at m t) → source_of t (all_mutations ms t).2.
Proof.
  induction ms as [|m ms IH]; intros t Hs Hc; [by intros p|]. apply Forall_cons in Hs as [Hm Hs].
  cbn [all_mutations]. run. assert (H1 := one_mutation_source m t Hm (Hc m ltac:(by left))).
  destruct (one_mutation m t) as [[rs|e] t1]; [|done]. cbn [snd] in H1. run.
  assert (H2 : source_of t1 (all_mutations ms t1).2).
  { apply IH; [done|]. intros m' Hm' p Hp. rewrite H1; [by apply (Hc m'); [right|]|].
    rewrite Forall_forall in Hs. by apply (sound_source m' (Hs m' Hm')). }
  destruct (all_mutations ms t1) as [[rest|e] t2]; cbn [snd] in *; intros p Hp; by rewrite H2, H1.
Qed.

(** C35: building the stratum leaves the source tree as it was.  With the edited
    files under version control, from a clean tree and however the script ends,
    with an anchor that is missing, a harness that produced nothing, an artifact
    that cannot be read or all records labelled, every file outside artifacts/ has the
    text it had; the assertion after each revert holds from any tree; and a dirty tree
    is refused before anything is touched. *)
Theorem stratum_restores_source t (Htracked : ∀ m p, m ∈ MUTATIONS → p ∈ edited m → is_Some (committed !! p)) :
  source_of t (main t).2 ∧
  (∀ m t', m ∈ MUTATIONS → (restore m t').1 = Ok ()) ∧
  (tree_is_clean [] t = false → (main t).2 = t ∧ is_ok (main t).1 = false).
Proof.
  assert (Hs : Forall sound MUTATIONS).
  { apply Forall_forall. intros m Hm. assert (Hx : edited m ≠ [] ∧ Forall (λ p, startswith ARTIFACTS p = false) (edited m)).
    { revert m Hm. apply Forall_forall. repeat constructor; by vm_compute. }
    destruct Hx as [H1 H2]. split; [done|intros p; by apply Htracked|]. by rewrite Forall_forall in H2. }
  split_and!.
  - unfold main. run. destruct (tree_is_clean [] t) eqn:Hclean; [|by intros p].
    run. assert (H1 : source_of t (all_mutations MUTATIONS t).2).
    { apply all_mutations_source; [done|]. intros m Hm p Hp. destruct (Htracked m p Hm Hp) as [c Hc].
      rewrite Hc. apply bool_decide_eq_true in Hclean. rewrite status_clean in Hclean. by apply Hclean; [|left]. }
    destruct (all_mutations MUTATIONS t) as [[rs|e] t1]; [|done]. unfold write_text. run.
    intros p Hp. cbn. etransitivity; [apply lookup_insert_ne|by apply H1]. intros <-. by vm_compute in Hp.
  - intros m t' Hm. rewrite Forall_forall in Hs. by destruct (restore_run m t' (Hs m Hm)) as (t2 & -> & _).
  - intros Hd. unfold main. run. by rewrite Hd.
Qed.

(** An artifact of an earlier run, and a harness that fails before it writes: the
    old records are labelled as this run's. *)
Theorem stale_artifact_labelled m t text : sound m → (∀ t', (harness_run m t').2 = t') →
  startswith ARTIFACTS (stratum_path m) = true → (apply m t).1 = Ok () →
  t !! stratum_path m = Some text → (one_mutation m t).1 = label_lines m (splitlines text).
Proof.
  intros Hm Hh Hp Ha Ht. unfold one_mutation. run. unfold try_finally. run.
  assert (Hout : stratum_path m ∉ edited m) by (intros Hin; rewrite (sound_source m Hm) in Hp by done; done).
  assert (Hl := apply_only_edits m (edits m) t). unfold apply in *.
  destruct (for_each (apply_edit m) (edits m) t) as [[[]|e] t1]; [|done]. cbn [snd] in Hl.
  unfold sweep. run. rewrite Hh. rewrite bool_decide_true.
  2:{ rewrite Hl; [by rewrite Ht| |done]. intros e' ?. apply edited_spec. eauto. }
  run. destruct (restore_run m t1 Hm) as (t2 & -> & H2). unfold read_text. run.
  rewrite H2, decide_False, Hl, Ht by (done || (intros e' ?; apply edited_spec; eauto)). done.
Qed.
End script.

(** ** The labels *)
Lemma build_case_label v d : build_case (PDict (dict_set "repair_label" v d)) = build_case (PDict d).
Proof.
  symmetry. apply build_case_same. assert (Hk : ∀ k, k ∈ OBSERVABLE_FIELDS → "repair_label" ≠ k).
  { apply Forall_forall. repeat constructor; by vm_compute. }
  split.
  - intros k [_ Hin]%list_elem_of_filter. symmetry. by apply dict_get_set_ne, Hk.
  - left. symmetry. by apply dict_get_set_ne.
Qed.

Lemma dict_or_empty_or_empty v w : dict_or_empty v = Ok w → w = or_empty v.
Proof. unfold dict_or_empty, or_empty. destruct (truthy v); [destruct v|]; by intros [= <-]. Qed.

Definition field (k : string) (d : list (string * pyval)) : pyval := default PNone (dict_get k d).
Lemma py_get_field k d : py_get (PDict d) k = Ok (field k d).
Proof. unfold py_get, py_get_default, field. by destruct (dict_get k d). Qed.

(** A labelled record is the record, to the agent, and the truth, to the
    scorer.  The case built from it shows the evidence of the unlabelled record:
    the label changes nothing the agent sees.  And a repair case loaded from it
    carries the key of the mutation as its stratum and in its id, whether a
    compensating transaction can repair the damage, the balances the record
    expected and those the ledger showed. *)
Theorem labelled_record_loads m d r : label_record m (PDict d) = Ok r →
  build_case r = build_case (PDict d) ∧
  ∀ c, load_repair_case r = Ok c →
    build_case (PDict d) = Ok (evidence c) ∧ stratum c = key m ∧ repairable c = m_repairable m ∧
    (∃ id, dict_get "scenario_id" d = Some (PStr id) ∧ case_id c = key m +:+ "::" +:+ id) ∧
    dict_get "fault" d = Some (PStr (label_fault c)) ∧
    int_map (or_empty (field "ledger_diff" d)) = Ok (observed_delta c) ∧
    ∃ delta, py_get (or_empty (field "expected" d)) "balances_delta" = Ok delta ∧
      int_map (or_empty delta) = Ok (c_expected_delta c).
Proof.
  intros Hl. unfold label_record, repair_label in Hl. rewrite !py_get_field in Hl. inv_ok Hl. simplify_eq/=.
  split; [apply build_case_label|]. intros c Hc. unfold load_repair_case in Hc. inv_ok Hc. simplify_eq/=.
  unfold py_index in *. rewrite dict_get_set_eq in *. rewrite dict_get_set_ne in * by done.
  repeat match goal with
  | E : of_option _ _ = Ok _ |- _ => apply of_option_Ok in E
  | E : dict_or_empty _ = Ok _ |- _ => apply dict_or_empty_or_empty in E
  | E : str_field ?v = Ok _ |- _ => destruct v; try discriminate E; injection E as <-
  end; simplify_eq/=.
  rewrite build_case_label in *.
  split_and!; eauto.
Qed.

Definition sample : list (string * pyval) :=
  dict_set "expected" (PDict [("balances_delta", PDict [("revenue", PInt 5000); ("bank", PInt (-5))])]) sample_record.

Lemma labelled_record_loads_witness : ∃ r c,
  label_record m5_double_post (PDict sample) = Ok r ∧ load_repair_case r = Ok c ∧
  build_case (PDict sample) = Ok (evidence c) ∧ case_id c = "m5_double_post::sc-1" ∧ repairable c = true ∧
  observed_delta c = <["revenue" := 10000]> {["bank" := -5]}.
Proof.
  destruct (label_record m5_double_post (PDict sample)) as [r|] eqn:Hr; [|by vm_compute in Hr].
  destruct (load_repair_case r) as [c|] eqn:Hc; [|by revert Hc; vm_compute in Hr; injection Hr as <-; vm_compute].
  destruct (labelled_record_loads m5_double_post sample r Hr) as [_ Hx].
  destruct (Hx c Hc) as (He & _ & Hrep & (id & Hid & Hcid) & _ & Ho & _).
  vm_compute in Hid. injection Hid as <-. exists r, c.
  split_and!; [done|done|done|by rewrite Hcid|by rewrite Hrep|]. assert (Hm : Ok (observed_delta c) = Ok (<["revenue" := 10000]> {["bank" := -5]})) by (rewrite <- Ho; vm_compute; reflexivity).
  by injection Hm.
Defined.

(** ** A workbench

    A repository with the three files the mutations edit, on the git of the
    documentation. *)
Module Repository.
Definition files : tree :=
  <["src/ledgerproof/ingest/dedupe.py" := "        object_id = money_movement_object_id(event)"]>
  (<["migrations/001_ledger.sql" := lines (old <$> (filter (λ e, path e = "migrations/001_ledger.sql")
       (edits m5_double_post ++ edits m7_unbalanced)))]>
  (<["src/ledgerproof/stripe_io/mapping.py" := lines (old <$> (filter (λ e, path e = "src/ledgerproof/stripe_io/mapping.py")
       (edits m5_double_post ++ edits m7_unbalanced)))]> ∅)).
Definition restored (paths : list string) (t : tree) : tree :=
  foldr (λ p t, partial_alter (λ _, files !! p) p t) t paths.
#[global] Instance bench : Workbench := {|
  committed := files;
  git_status paths t :=
    if bool_decide (map_Forall (λ p c, paths = [] ∨ p ∈ paths → t !! p = Some c) files) then "" else " M";
  git_checkout paths t := Ok (restored paths t);
  harness_run m t := ("", <["artifacts/mutation/" +:+ key m +:+ "_stratum.jsonl" := json_dumps (PDict sample)]> t) |}.

Lemma restored_lookup paths t p : restored paths t !! p = if decide (p ∈ paths) then files !! p else t !! p.
Proof.
  induction paths as [|q paths IH]; [done|]. cbn. destruct (decide (q = p)) as [->|Hne].
  - etransitivity; [apply (lookup_partial_alter_eq (M := gmap string))|]. by rewrite decide_True by left.
  - etransitivity; [by apply (lookup_partial_alter_ne (M := gmap string))|]. etransitivity; [exact IH|].
    destruct (decide (p ∈ paths)); [by rewrite decide_True by by right|].
    rewrite decide_False; [done|]. by intros [->|?]%elem_of_cons.
Qed.
#[global] Instance bench_laws : WorkbenchLaws.
Proof.
  split.
  - intros paths t _. exists (restored paths t). split; [done|]. apply restored_lookup.
  - intros paths t. unfold git_status, bench. case_bool_decide as Hs.
    + split; [|done]. intros _ p c Hc Hp. by apply Hs.
    + split; [by intros Hx; vm_compute in Hx|]. intros Hx. exfalso. apply Hs. intros p c Hc Hp. by apply Hx.
  - intros m t p Hp. cbn. etransitivity; [apply lookup_insert_ne|done]. intros <-. by vm_compute in Hp.
Qed.
End Repository.

Lemma stratum_restores_source_witness :
  source_of Repository.files (main Repository.files).2 ∧ is_ok (main Repository.files).1 = true ∧
  is_Some ((main Repository.files).2 !! OUT) ∧
  let broken := <["migrations/001_ledger.sql" := "-- empty"]> Repository.files in
  (main broken).1 = Err (SystemExit "working tree is dirty; commit or stash before mutating it").
Proof.
  split_and!; [|vm_compute; by eauto..].
  apply (stratum_restores_source Repository.files).
  intros m p Hm Hp. assert (Hx : Forall (λ m, Forall (λ p, is_Some (Repository.files !! p)) (edited m)) MUTATIONS).
  { repeat constructor; vm_compute; by eauto. }
  rewrite Forall_forall in Hx. specialize (Hx m Hm). rewrite Forall_forall in Hx. by apply Hx.
Defined.
