(* ===== verification/Sweep.v ===== *)
(** triage/bench.py [aggregate] and [_repair_metrics], and the two scripts that score
    models with them: scripts/run_sweep.py, over the batch API, and
    scripts/run_pilot.py, one call at a time; their [main] is in Scripts.v.  The API is a
    parameter; what is spent and the lines written per answer are a [run_state]; the progress lines are left out.  Clocks are those of Processes.v. *)
From Stdlib Require Import SpecFloat QArith Qround.
From S2P Require Import Prelude PyVal Gcra Events Triage Bench Processes.
#[local] Open Scope Z_scope.

(** ** Numbers of the report *)
Notation float := spec_float.

(** [sum] of booleans, and the quotient of two integers. *)
Definition tally {A} (p : A → bool) (l : list A) : Z := Zsum (λ x, Z.b2z (p x)) l.
Definition ratio (a b : Z) : float := f_div (f_of_Z a) (f_of_Z b).

(** [round(x, k)]: the decimal nearest to the exact value, halves to even. *)
Definition round_to (k : Z) (x : float) : float :=
  match sf_to_Q x with
  | Ok q => ratio (py_round (q * inject_Z (10 ^ k))) (10 ^ k)
  | Err _ => x
  end.

(** [sum] of floats, compensated since Python 3.12; [c] collects what is lost. *)
Definition is_finite (x : float) : bool := match x with S754_zero _ | S754_finite _ _ _ => true | _ => false end.
Definition is_zero (x : float) : bool := match x with S754_zero _ => true | _ => false end.
Fixpoint sum_from (total c : float) (l : list float) : float :=
  match l with
  | [] => if (negb (is_zero c) && is_finite c)%bool then f_add total c else total
  | x :: l =>
      let t := f_add total x in
      let lost := if SFleb (SFabs x) (SFabs total) then f_add (f_sub total t) x else f_add (f_sub x t) total in
      sum_from t (f_add c lost) l
  end.
Definition float_sum (l : list float) : float :=
  match l with [] => f_of_Z 0 | x :: l => sum_from x (f_of_Z 0) l end.

Definition float_le (x y : float) : Prop := SFleb x y = true.
#[export] Instance float_le_dec : RelDecision float_le.
Proof. intros x y. unfold float_le. apply _. Defined.
Definition at_index (l : list float) (i : Z) : result float :=
  of_option (IllTyped "list index out of range") (if i <? 0 then None else l !! Z.to_nat i).
(** [statistics.median] of sorted data. *)
Definition median (l : list float) : result float :=
  let n := Z.of_nat (length l) in
  if Z.odd n then at_index l (n / 2)
  else x ← at_index l (n / 2 - 1); y ← at_index l (n / 2); mret (f_div (f_add x y) (f_of_Z 2)).

(** ** aggregate *)
Inductive metric :=
  | MInt (z : Z)
  | MNum (x : float)
  | MByFault (l : list (string * float))
  | MConfusion (l : list (string * list (string * Z))).

Definition is_set (o : option bool) : bool := match o with Some _ => true | None => false end.
Definition is_true_flag (o : option bool) : bool := default false o.

Definition _repair_metrics (scored : list Scored) : list (string * metric) :=
  let repairable := filter (λ s, (is_set (repair_correct s) || is_set (false_repair s))%bool = true) scored in
  match repairable with
  | [] => [("repair_stratum_n", MInt 0)]
  | _ =>
      let fixable := filter (λ s, is_set (claimed_to_fix_the_unfixable s) = false) repairable in
      let unfixable := filter (λ s, is_set (claimed_to_fix_the_unfixable s) = true) repairable in
      let len {A} (l : list A) := Z.of_nat (length l) in
      [("repair_stratum_n", MInt (len repairable));
       ("false_repair_rate", MNum (round_to 4 (ratio (tally (λ s, is_true_flag (false_repair s)) repairable) (len repairable))))] ++
      (if bool_decide (fixable = []) then [] else
         [("repair_restores_expected_balances",
           MNum (round_to 4 (ratio (tally (λ s, is_true_flag (repair_correct s)) fixable) (len fixable))));
          ("repair_fixable_n", MInt (len fixable))]) ++
      (if bool_decide (unfixable = []) then [] else
         [("unfixable_n", MInt (len unfixable));
          ("claimed_to_fix_the_unfixable_rate",
           MNum (round_to 4 (ratio (tally (λ s, is_true_flag (claimed_to_fix_the_unfixable s)) unfixable) (len unfixable))))])
  end.

Definition answered (s : Scored) : bool := bool_decide (predicted s ≠ None).
Definition of_fault (f : string) (s : Scored) : bool := bool_decide (s_label_fault s = f).
Definition fault_names (scored : list Scored) : list string := sort_strings (remove_dups (s_label_fault <$> scored)).

Definition aggregate (scored : list Scored) : result (list (string * metric)) :=
  match scored with
  | [] => Ok [("n", MInt 0)]
  | _ =>
      let n := Z.of_nat (length scored) in
      let latencies := merge_sort float_le (latency_s <$> scored) in
      let answers := filter (λ s, answered s = true) scored in
      p50 ← median latencies;
      k ← f_trunc (f_mul (ratio 95 100) (f_of_Z n));
      p95 ← at_index latencies (Z.min (n - 1) k);
      mret ([("n", MInt n); ("answered", MInt (Z.of_nat (length answers))); ("refused", MInt (tally refused scored));
             ("accuracy@1", MNum (round_to 4 (ratio (tally correct_at_1 scored) n)));
             ("accuracy@3", MNum (round_to 4 (ratio (tally correct_at_3 scored) n)));
             ("over_repair_rate", MNum (round_to 4 (ratio (tally over_repair scored) n)));
             ("repair_proposed", MInt (tally s_proposed_repair scored));
             ("repair_balanced", MInt (tally repair_balanced scored))] ++
            _repair_metrics scored ++
            [("mean_confidence",
              MNum (if bool_decide (answers = []) then f_of_Z 0
                    else round_to 4 (f_div (float_sum (s_confidence <$> answers)) (f_of_Z (Z.of_nat (length answers))))));
             ("latency_p50_s", MNum (round_to 3 p50)); ("latency_p95_s", MNum (round_to 3 p95));
             ("cost_usd_total", MNum (round_to 4 (float_sum (cost_usd <$> scored))));
             ("cost_usd_per_scenario", MNum (round_to 6 (f_div (float_sum (cost_usd <$> scored)) (f_of_Z n))));
             ("accuracy_by_fault",
              MByFault ((λ f, (f, round_to 4 (ratio (tally (λ s, (correct_at_1 s && of_fault f s)%bool) scored)
                                                    (Z.max 1 (tally (of_fault f) scored))))) <$> fault_names scored));
             ("confusion", MConfusion (_confusion scored))])
  end.

(** ** The JSON the scripts write *)
Inductive figure :=
  | FNone
  | FInt (z : Z)
  | FNum (x : float)
  | FText (s : string)
  | FFlag (b : bool)
  | FList (l : list figure)
  | FMetrics (l : list (string * metric))
  | FTree (l : list (string * figure)).
Definition counts_figure (l : list (string * Z)) : figure := FTree ((λ kv, (kv.1, FInt kv.2)) <$> l).
Definition text_figure (o : option string) : figure := match o with Some s => FText s | None => FNone end.
Definition flag_figure (o : option bool) : figure := match o with Some b => FFlag b | None => FNone end.

(** What a script has spent and the lines of its file, each flushed when it is written. *)
Definition line : Type := list (string * figure).
Record run_state := MkRunState { rs_guard : BudgetGuard float; rs_lines : list line }.
Definition spend {A} (m : stx (BudgetGuard float) A) : stx run_state A := λ s,
  let '(r, g) := m (rs_guard s) in (r, MkRunState g (rs_lines s)).
Definition write_line (l : line) : stx run_state () := modify (λ s, MkRunState (rs_guard s) (rs_lines s ++ [l])).

Definition paid (model : string) (batch : bool) (usage : list (string * Z)) (cost : float) (s : run_state) : run_state :=
  let g := rs_guard s in
  MkRunState (MkBudgetGuard (cap_usd g) (f_add (spent_usd g) cost) (calls g + 1) (calls_log g ++ [(model, batch, usage, cost)])) (rs_lines s).
Lemma spend_record model usage batch s : spend (record model usage batch) s =
  match call_cost model usage batch with Ok cost => (Ok cost, paid model batch usage cost s) | Err e => (Err e, s) end.
Proof. unfold spend, record. run. destruct (call_cost model usage batch); run; [done|by destruct s]. Qed.
Lemma spend_check x s : spend (budget_check x) s =
  (if f_lt (cap_usd (rs_guard s)) (f_add (spent_usd (rs_guard s)) x) then Err BudgetExceeded else Ok (), s).
Proof. unfold spend, budget_check. destruct (f_lt _ _), s; done. Qed.

(** ** scripts/run_sweep.py *)
Definition custom_id (index : nat) : string := "case-" +:+ pad 5 (str_of_Z (Z.of_nat index)).

Definition build_request (schema : pyval) (c : Case) (model : string) (effort : option string) (index : nat)
    : result (string * list (string * pyval)) :=
  params ← request_params model (evidence c) effort;
  own ← of_option TypeError (PyVal.as_dict (default (PDict []) (dict_get "output_config" params)));
  config ← output_config schema; config ← of_option TypeError (PyVal.as_dict config);
  mret (custom_id index, dict_set "output_config" (PDict (foldl (λ d kv, dict_set kv.1 kv.2 d) own config)) params).

(** The lookup built beside the requests. *)
Definition by_tag (cases : list Case) : list (string * Case) :=
  foldl (λ d ic, dict_set (custom_id ic.1) ic.2 d) [] (imap pair cases).

(** A result of the batch. *)
Record BatchUsage := MkBatchUsage {
  bu_input_tokens : Z; bu_output_tokens : Z;
  bu_cache_read_input_tokens : option Z; bu_cache_creation_input_tokens : option Z }.
Record Message := MkMessage {
  usage : BatchUsage; stop_reason : string; content : list (string * string) (* type, text *) }.
Record BatchResult := MkBatchResult {
  r_custom_id : string; r_message : option Message (* [None] unless the request succeeded *) }.

Definition usage_dict (u : BatchUsage) : list (string * Z) :=
  [("input_tokens", bu_input_tokens u); ("output_tokens", bu_output_tokens u);
   ("cache_read_input_tokens", default 0 (bu_cache_read_input_tokens u));
   ("cache_creation_input_tokens", default 0 (bu_cache_creation_input_tokens u))].

Section sweep.
Context (validate : pyval → result Verdict).

(** The score of one message at its cost, with the parse error. *)
Definition score_message (c : Case) (m : Message) (cost : float) : result (Scored * option string) :=
  if bool_decide (stop_reason m = "refusal") then Ok (score c None (f_of_Z 0) cost true, None)
  else
    r ← parse_verdict validate (join "" (filter (λ b, b.1 = "text") (content m)).*2);
    mret match r with
         | inl v => (score c (Some v) (f_of_Z 0) cost false, None)
         | inr error => (score c None (f_of_Z 0) cost false, Some error)
         end.

Definition sweep_line (model effort : string) (c : Case) (usage : list (string * Z)) (cost : float) (s : Scored)
    (parse_error : option string) : line :=
  [("model", FText model); ("effort", FText effort); ("case_id", FText (case_id c)); ("stratum", FText (stratum c));
   ("label_fault", FText (label_fault c)); ("predicted", text_figure (predicted s)); ("ranked", FList (FText <$> ranked s));
   ("correct@1", FFlag (correct_at_1 s)); ("correct@3", FFlag (correct_at_3 s)); ("confidence", FNum (s_confidence s));
   ("cost_usd", FNum (round_to 6 cost)); ("repair_correct", flag_figure (repair_correct s));
   ("false_repair", flag_figure (false_repair s));
   ("claimed_to_fix_the_unfixable", flag_figure (claimed_to_fix_the_unfixable s)); ("refused", FFlag (refused s));
   ("parse_error", text_figure parse_error); ("usage", counts_figure usage)].

Fixpoint collect (tags : list (string * Case)) (model effort : string) (results : list BatchResult) : stx run_state (list Scored) :=
  match results with
  | [] => mret []
  | r :: results =>
      match dict_get (r_custom_id r) tags, r_message r with
      | Some c, Some m =>
          cost ← spend (record model (usage_dict (usage m)) true);
          scored ← lift (score_message c m cost);
          _ ← write_line (sweep_line model effort c (usage_dict (usage m)) cost scored.1 scored.2);
          rest ← collect tags model effort results;
          mret (scored.1 :: rest)
      | _, _ => collect tags model effort results
      end
  end.
End sweep.

(** *** Submitting

    What a run does to the world and to the guard.  [batches_retrieve] gives the
    processing status. *)
Section submit.
Context {W : Type} `{OS W} (validate : pyval → result Verdict) (schema : pyval).
Context (batches_create : list (string * list (string * pyval)) → stx W string).
Context (batches_retrieve : string → stx W string) (batches_results : string → stx W (list BatchResult)).

Definition POLL_SECONDS : Z := 20.
Definition MAX_WAIT_S : Z := 3 * 3600.
Definition EFFORT_LEVELS : list string := ["low"; "medium"; "high"].

Fixpoint await_batch (fuel : nat) (id : string) (deadline : Z) : stx W string :=
  match fuel with
  | O => raise (IllTyped "fuel")
  | S fuel =>
      status ← batches_retrieve id;
      if bool_decide (status = "ended") then mret id else
      now ← gets monotonic;
      if deadline <? now then raise (SystemExit ("batch " +:+ id +:+ " still " +:+ status))
      else _ ← modify (sleep (seconds POLL_SECONDS)); await_batch fuel id deadline
  end.
Definition submit_and_wait (requests : list (string * list (string * pyval))) : stx W string :=
  id ← batches_create requests;
  now ← gets monotonic;
  await_batch (rounds (seconds MAX_WAIT_S) (seconds POLL_SECONDS)) id (now + seconds MAX_WAIT_S).

(** The state of [main]: the world, and what is spent and written. *)
Definition on_world {A} (m : stx W A) : stx (W * run_state) A := λ s, let '(r, w) := m s.1 in (r, (w, s.2)).
Definition on_run {A} (m : stx run_state A) : stx (W * run_state) A := λ s, let '(r, g) := m s.2 in (r, (s.1, g)).

Fixpoint build_requests (model : string) (effort : option string) (index : nat) (cases : list Case)
    : result (list (string * list (string * pyval))) :=
  match cases with
  | [] => Ok []
  | c :: cases =>
      req ← build_request schema c model effort index; reqs ← build_requests model effort (S index) cases; mret (req :: reqs)
  end.

(** One (model, effort) pair: priced, submitted, collected. *)
Definition sweep_run (cases : list Case) (run : string * option string) : stx (W * run_state) (list Scored) :=
  requests ← lift (build_requests run.1 run.2 0 cases);
  _ ← on_run (spend (budget_check (f_mul (ratio 2 100) (f_of_Z (Z.of_nat (length requests))))));
  id ← on_world (submit_and_wait requests);
  results ← on_world (batches_results id);
  on_run (collect validate (by_tag cases) run.1 (default "default" run.2) results).

Definition sweep_plan : list (string * option string) :=
  ((λ m, (m, None)) <$> FRONTIER_MODELS) ++ ((λ level, (SONNET, Some level)) <$> EFFORT_LEVELS).
Fixpoint sweep_runs (cases : list Case) (runs : list (string * option string)) (results : list (string * list Scored))
    : stx (W * run_state) (list (string * list Scored)) :=
  match runs with
  | [] => mret results
  | run :: runs =>
      scored ← sweep_run cases run;
      let tag := run.1 +:+ "@" +:+ default "default" run.2 in
      let results := match scored with
        | [] => results
        | _ => dict_set tag (default [] (dict_get tag results) ++ scored) results
        end in
      _ ← lift (aggregate (default [] (dict_get tag results)));
      sweep_runs cases runs results
  end.

Context `{!OSLaws W} (batches_quiet : ∀ id w, quiet w (batches_retrieve id w).2).

Lemma await_batch_ends fuel : ∀ id deadline w, (1 <= fuel)%nat →
  deadline - monotonic w < Z.of_nat (pred fuel) * seconds POLL_SECONDS →
  match await_batch fuel id deadline w with
  | (Ok id', _) => id' = id
  | (Err e, w') => deadline < monotonic w' ∨ ∃ w1, batches_retrieve id w1 = (Err e, w')
  end.
Proof.
  induction fuel as [|fuel IH]; intros id deadline w Hf Hd; [lia|]. cbn [await_batch]. run.
  assert (Hq := batches_quiet id w). destruct (batches_retrieve id w) as [[status|e] w1] eqn:Hr; [|by right; exists w].
  case_bool_decide; [done|]. run. destruct (deadline <? monotonic w1) eqn:Hn; [left; by apply Z.ltb_lt in Hn|].
  apply Z.ltb_ge in Hn. run. apply IH.
  - destruct Hq as [Ht _]. cbn [snd] in Ht. destruct fuel; cbn [pred] in *; lia.
  - destruct Hq as [Ht _]. cbn [snd] in Ht. assert (Hs := sleep_long (seconds POLL_SECONDS) w1).
    assert (Hm : Z.of_nat fuel * seconds POLL_SECONDS = Z.of_nat (pred fuel) * seconds POLL_SECONDS + seconds POLL_SECONDS ∨ fuel = 0%nat)
      by (destruct fuel; [by right|left; cbn [pred]; lia]).
    cbn [pred] in Hd. destruct Hm as [Hm|Hm]; [lia|]. subst fuel. cbn in Hd |- *. lia.
Qed.

(** The wait for a batch never hangs: it gives the batch, or the time is over, or
    the API raised. *)
Theorem submit_and_wait_ends requests w :
  match submit_and_wait requests w with
  | (Ok id, _) => ∃ w1, batches_create requests w = (Ok id, w1)
  | (Err e, w') => (∃ w1, batches_create requests w = (Err e, w1)) ∨
      (∃ id w1, batches_create requests w = (Ok id, w1) ∧ monotonic w1 + seconds MAX_WAIT_S < monotonic w') ∨
      ∃ id w1, batches_retrieve id w1 = (Err e, w')
  end.
Proof.
  unfold submit_and_wait. run. destruct (batches_create requests w) as [[id|e] w1]; [|by left; exists w1]. run.
  assert (He := await_batch_ends (rounds (seconds MAX_WAIT_S) (seconds POLL_SECONDS)) id
    (monotonic w1 + seconds MAX_WAIT_S) w1 ltac:(unfold rounds; lia)).
  destruct (await_batch _ _ _ _) as [[id'|e] w']; [|right].
  - rewrite He; [by exists w1|]. change (monotonic w1 + 10800000000000 - monotonic w1 < 541 * 20000000000). lia.
  - destruct He as [He|[w2 He]]; [|left; eauto|right; eauto].
    change (monotonic w1 + 10800000000000 - monotonic w1 < 541 * 20000000000). lia.
Qed.

(** The cap is a hard stop: a run whose projection passes it submits nothing. *)
Theorem over_cap_submits_nothing cases model effort requests w g :
  build_requests model effort 0 cases = Ok requests →
  f_lt (cap_usd (rs_guard g)) (f_add (spent_usd (rs_guard g)) (f_mul (ratio 2 100) (f_of_Z (Z.of_nat (length requests))))) = true →
  sweep_run cases (model, effort) (w, g) = (Err BudgetExceeded, (w, g)).
Proof. intros Hb Hc. unfold sweep_run. run. cbn [fst snd]. rewrite Hb. unfold on_run. run. cbn [snd]. by rewrite spend_check, Hc. Qed.
End submit.

(** ** scripts/run_pilot.py *)

(** [selected += ...]: half of the repair cases fixable, the rest not. *)
Definition repair_selection (shuffle : list Case → list Case) (repair_cases : list Case) (n : nat) : list Case :=
  match n with
  | O => []
  | _ =>
      let half := Nat.max 1 (n / 2) in
      take half (shuffle (filter (λ c, repairable c = true) repair_cases)) ++
      take (n - half) (shuffle (filter (λ c, repairable c = false) repair_cases))
  end.

Definition has_error (r : TriageResult) : bool :=
  match tr_error r with Some e => bool_decide (e ≠ "") | None => false end.

Definition pilot_answer (model : string) (c : Case) (usage : list (string * Z)) (cost : float) (s : Scored) : line :=
  [("model", FText model); ("case_id", FText (case_id c)); ("label_fault", FText (label_fault c)); ("stratum", FText (stratum c));
   ("predicted", text_figure (predicted s)); ("ranked", FList (FText <$> ranked s)); ("correct@1", FFlag (correct_at_1 s));
   ("correct@3", FFlag (correct_at_3 s)); ("confidence", FNum (s_confidence s)); ("latency_s", FNum (round_to 3 (latency_s s)));
   ("cost_usd", FNum (round_to 6 cost)); ("cache_read", FInt (default 0 (dict_get "cache_read_input_tokens" usage)));
   ("repair_correct", flag_figure (repair_correct s)); ("false_repair", flag_figure (false_repair s));
   ("claimed_to_fix_the_unfixable", flag_figure (claimed_to_fix_the_unfixable s)); ("usage", counts_figure usage)].

(** One model over the selected cases; [call] is [triage] on the API. *)
Fixpoint pilot_calls (call : Case → result TriageResult) (model : string) (selected : list Case)
    : stx run_state (list Scored) :=
  match selected with
  | [] => mret []
  | c :: selected =>
      _ ← spend (budget_check (ratio 5 100));
      r ← lift (call c);
      if has_error r then pilot_calls call model selected
      else
        cost ← spend (record model (tr_usage r) false);
        let s := score c (tr_verdict r) (tr_latency_s r) cost (tr_refused r) in
        _ ← write_line (pilot_answer model c (tr_usage r) cost s);
        rest ← pilot_calls call model selected;
        mret (s :: rest)
  end.

(** The figures the progress line prints. *)
Definition lookup_metric (m : list (string * metric)) (k : string) : result metric :=
  of_option (KeyError k) (dict_get k m).
Definition pilot_line (scored : list Scored) : result (list metric) :=
  agg ← aggregate scored;
  a1 ← lookup_metric agg "accuracy@1"; a3 ← lookup_metric agg "accuracy@3";
  p50 ← lookup_metric agg "latency_p50_s"; cost ← lookup_metric agg "cost_usd_per_scenario";
  mret [a1; a3; p50; cost].
Definition pilot_model (call : Case → result TriageResult) (model : string) (selected : list Case)
    : stx run_state (list Scored) :=
  scored ← pilot_calls call model selected; _ ← lift (pilot_line scored); mret scored.

(** ** Counting *)
Lemma tally_nonneg {A} (p : A → bool) l : 0 <= tally p l.
Proof. apply Zsum_nonneg. intros x _. destruct (p x); cbn; lia. Qed.
Lemma tally_mono {A} (p q : A → bool) l : (∀ x, x ∈ l → p x = true → q x = true) → tally p l <= tally q l.
Proof.
  intros H. induction l as [|x l IH]; [cbn; lia|]. unfold tally in *. rewrite !Zsum_cons.
  specialize (H x ltac:(by left)) as Hx. specialize (IH ltac:(intros y ?; apply H; by right)).
  destruct (p x); [rewrite Hx by done|destruct (q x)]; cbn; lia.
Qed.
Lemma tally_length {A} (p : A → bool) l : Z.of_nat (length (filter (λ x, p x = true) l)) = tally p l.
Proof.
  induction l as [|x l IH]; [done|]. unfold tally in *. rewrite Zsum_cons, filter_cons.
  case_decide as Hp; [rewrite Hp; cbn [length Z.b2z]; lia|]. apply not_true_is_false in Hp. by rewrite Hp.
Qed.

(** ** The confusion matrix *)
Definition cell (m : list (string * list (string * Z))) (f p : string) : Z :=
  default 0 (dict_get p (default [] (dict_get f m))).
Definition predicts (f p : string) (s : Scored) : bool :=
  (bool_decide (predicted s = Some p) && of_fault f s)%bool.

Lemma dict_get_perm {V} (d d' : list (string * V)) k : NoDup d.*1 → d ≡ₚ d' → dict_get k d = dict_get k d'.
Proof.
  intros Hnd Hp. assert (Hget : ∀ d : list (string * V), dict_get k d = (list_to_map d : gmap string V) !! k).
  { clear. induction d as [|[k' v] d IH]; [done|]. cbn. destruct (decide (k' = k)) as [->|Hne].
    - by rewrite lookup_insert_eq.
    - by rewrite lookup_insert_ne. }
  rewrite !Hget. by rewrite (list_to_map_proper d d').
Qed.
Lemma dict_get_sort {V} (d : list (string * V)) k : NoDup d.*1 → dict_get k (sort_items d) = dict_get k d.
Proof. intros H. symmetry. apply dict_get_perm; [done|]. symmetry. apply merge_sort_Permutation. Qed.
Lemma dict_get_fmap {V W} (g : V → W) (d : list (string * V)) k :
  dict_get k ((λ kv, (kv.1, g kv.2)) <$> d) = g <$> dict_get k d.
Proof. induction d as [|[k' v] d IH]; [done|]. cbn. by case_decide. Qed.

Definition well_keyed (m : list (string * list (string * Z))) : Prop :=
  NoDup m.*1 ∧ Forall (λ kv, NoDup kv.2.*1) m.

(** One more scored case. *)
Definition count_pair (m : list (string * list (string * Z))) (f p : string) : list (string * list (string * Z)) :=
  let row := default [] (dict_get f m) in dict_set f (dict_set p (default 0 (dict_get p row) + 1) row) m.
Lemma count_pair_ok m f p : well_keyed m → well_keyed (count_pair m f p) ∧
  ∀ f' p', cell (count_pair m f p) f' p' = cell m f' p' + Z.b2z (bool_decide (f = f' ∧ p = p')).
Proof.
  intros [Hm Hr]. unfold count_pair. set (row := default [] (dict_get f m)).
  assert (Hrow : NoDup row.*1).
  { unfold row. destruct (dict_get f m) as [r|] eqn:Hg; [|constructor].
    apply dict_get_elem in Hg. rewrite Forall_forall in Hr. exact (Hr _ Hg). }
  split.
  - split; [by apply dict_set_NoDup|]. apply dict_set_Forall; [|done]. by apply dict_set_NoDup.
  - intros f' p'. unfold cell. destruct (decide (f = f')) as [<-|Hf].
    2:{ rewrite dict_get_set_ne by done. rewrite bool_decide_false by naive_solver. cbn [Z.b2z]. lia. }
    rewrite dict_get_set_eq. cbn [from_option id]. fold row. destruct (decide (p = p')) as [<-|Hp].
    + by rewrite dict_get_set_eq, bool_decide_true.
    + rewrite dict_get_set_ne, bool_decide_false by naive_solver. cbn [Z.b2z]. lia.
Qed.

(** Each cell of the matrix counts its pairs. *)
Lemma confusion_cells l f p : cell (_confusion l) f p = tally (predicts f p) l.
Proof.
  assert (Hfold : ∀ m, well_keyed m →
    let m' := foldl (λ m s, match predicted s with None => m | Some p => count_pair m (s_label_fault s) p end) m l in
    well_keyed m' ∧ cell m' f p = cell m f p + tally (predicts f p) l).
  { induction l as [|s l IH]; intros m Hm; [cbn [foldl]; split; [done|unfold tally; rewrite Zsum_nil; lia]|]. cbn [foldl].
    unfold tally in *. rewrite Zsum_cons. unfold predicts at 1, of_fault. destruct (predicted s) as [p0|].
    - destruct (count_pair_ok m (s_label_fault s) p0 Hm) as [Hok Hcell].
      destruct (IH _ Hok) as [H1 ->]. split; [done|]. rewrite Hcell.
      destruct (decide (p0 = p)) as [->|Hne].
      + rewrite (bool_decide_true (Some p = Some p)) by done. cbn [andb].
        rewrite (bool_decide_ext (s_label_fault s = f ∧ p = p) (s_label_fault s = f)) by naive_solver. lia.
      + rewrite !(bool_decide_false (Some p0 = Some p)), (bool_decide_false (_ ∧ p0 = p)) by naive_solver. cbn [andb Z.b2z]. lia.
    - destruct (IH m Hm) as [H1 ->]. split; [done|]. rewrite bool_decide_false by done. cbn [andb Z.b2z]. lia. }
  destruct (Hfold [] ltac:(split; constructor)) as [[Hk Hr] Hc]. cbv zeta in *.
  set (m' := foldl _ [] l) in *. change (_confusion l) with ((λ kv, (kv.1, sort_items kv.2)) <$> sort_items m').
  unfold cell in *. rewrite dict_get_fmap, dict_get_sort by done. etransitivity; [|exact Hc].
  destruct (dict_get f m') as [row|] eqn:Hrow; [|done]. cbn. rewrite dict_get_sort; [done|].
  apply dict_get_elem in Hrow. rewrite Forall_forall in Hr. exact (Hr _ Hrow).
Qed.

(** ** The report *)
Lemma tally_by_fault (q : Scored → bool) l :
  tally q l = Zsum (λ f, tally (λ s, (q s && of_fault f s)%bool) l) (fault_names l).
Proof.
  unfold fault_names, sort_strings. rewrite (merge_sort_Permutation string_le). unfold tally.
  rewrite (Zsum_group s_label_fault). apply Zsum_ext. intros f _. rewrite Zsum_filter. apply Zsum_ext.
  intros s _. unfold of_fault. case_decide as Hf; [rewrite bool_decide_true by done|rewrite bool_decide_false by done];
    by destruct (q s).
Qed.

(** What the 95th percentile's index computes to, for a report of up to 1024 cases. *)
Lemma p95_index n : 1 <= n <= 1024 → ∃ k, f_trunc (f_mul (ratio 95 100) (f_of_Z n)) = Ok k ∧ 0 <= k.
Proof.
  intros Hn. assert (Hall : Forall (λ n, match f_trunc (f_mul (ratio 95 100) (f_of_Z n)) with
      Ok k => 0 <=? k | Err _ => false end = true) (seqZ 1 1024)).
  { apply (bool_decide_unpack _). vm_compute. exact I. }
  rewrite Forall_forall in Hall. specialize (Hall n ltac:(apply elem_of_seqZ; lia)).
  destruct (f_trunc _) as [k|]; [|done]. exists k. split; [done|lia].
Qed.

Lemma at_index_ok (l : list float) i : 0 <= i < Z.of_nat (length l) → ∃ x, at_index l i = Ok x.
Proof.
  intros Hi. unfold at_index. rewrite (proj2 (Z.ltb_ge i 0)) by lia.
  destruct (lookup_lt_is_Some_2 l (Z.to_nat i)) as [x Hx]; [lia|]. exists x. by rewrite Hx.
Qed.
Lemma median_ok l : l ≠ [] → ∃ x, median l = Ok x.
Proof.
  intros Hl. assert (Hn : 0 < Z.of_nat (length l)) by (destruct l; [done|cbn [length]; lia]).
  unfold median. assert (Hdiv := Z.div_mod (Z.of_nat (length l)) 2 ltac:(lia)).
  assert (Hmod := Z.mod_pos_bound (Z.of_nat (length l)) 2 ltac:(lia)).
  destruct (Z.odd _) eqn:Ho.
  - apply at_index_ok. lia.
  - rewrite Zmod_odd, Ho in Hdiv.
    destruct (at_index_ok l (Z.of_nat (length l) / 2 - 1)) as [x ->]; [lia|].
    destruct (at_index_ok l (Z.of_nat (length l) / 2)) as [y ->]; [lia|]. by eexists.
Qed.

Lemma dict_get_app {V} k (d d' : list (string * V)) :
  dict_get k (d ++ d') = match dict_get k d with Some v => Some v | None => dict_get k d' end.
Proof. induction d as [|[k' v] d IH]; [done|]. cbn. by case_decide. Qed.
Lemma repair_metrics_keys l k : k ∈ ["confusion"; "latency_p50_s"] → dict_get k (_repair_metrics l) = None.
Proof.
  intros Hk. unfold _repair_metrics. destruct (filter _ l) as [|s r].
  - revert k Hk. apply Forall_forall. by repeat constructor.
  - rewrite !dict_get_app. case_bool_decide; case_bool_decide; revert k Hk; apply Forall_forall; by repeat constructor.
Qed.

(** The scores of a run: one [score] per answer. *)
Definition answer : Type := Case * option Verdict * float * float * bool.
Definition score_all (l : list answer) : list Scored :=
  (λ '(c, v, latency, cost, refused), score c v latency cost refused) <$> l.

Lemma score_right c v latency cost r :
  let s := score c v latency cost r in
  (correct_at_1 s = predicts (s_label_fault s) (s_label_fault s) s) ∧
  (correct_at_1 s = true → correct_at_3 s = true) ∧ (correct_at_3 s = true → answered s = true).
Proof.
  destruct v as [v|]; cbn [score]; [|by split_and!].
  destruct (if money_was_missing c then _ else _) as [[a b] d]. cbn. unfold predicts, answered, of_fault. cbn.
  split_and!; [|intros H|intros _; done].
  - rewrite (bool_decide_true (label_fault c = label_fault c)) by done. by rewrite andb_true_r.
  - apply bool_decide_eq_true in H. injection H as <-. apply bool_decide_eq_true. by left.
Qed.

(** The report counts what it says.  For the scores of up to 1024 answers,
    [aggregate] succeeds; every cell of its confusion matrix is the number of
    answers with that label and that prediction; accuracy@1 is the trace of the matrix over
    the number of answers, accuracy@3 the share with the label among the first three, each rounded to four
    places; and right at once, right in three, answered and all are ever more. *)
Theorem aggregate_counts (l : list answer) : (1 <= length l <= 1024)%nat →
  let scored := score_all l in
  let n := Z.of_nat (length l) in
  ∃ m x, aggregate scored = Ok m ∧ dict_get "n" m = Some (MInt n) ∧
  dict_get "answered" m = Some (MInt (tally answered scored)) ∧
  dict_get "confusion" m = Some (MConfusion x) ∧ (∀ f p, cell x f p = tally (predicts f p) scored) ∧
  dict_get "accuracy@1" m = Some (MNum (round_to 4 (ratio (Zsum (λ f, cell x f f) (fault_names scored)) n))) ∧
  dict_get "accuracy@3" m = Some (MNum (round_to 4 (ratio (tally correct_at_3 scored) n))) ∧
  Zsum (λ f, cell x f f) (fault_names scored) <= tally correct_at_3 scored ∧
  tally correct_at_3 scored <= tally answered scored ∧ tally answered scored <= n.
Proof.
  intros Hl scored n.
  assert (Hlen : length scored = length l) by apply length_fmap.
  assert (Hright : ∀ s, s ∈ scored → correct_at_1 s = predicts (s_label_fault s) (s_label_fault s) s ∧
    (correct_at_1 s = true → correct_at_3 s = true) ∧ (correct_at_3 s = true → answered s = true)).
  { intros s ([[[[c v] la] co] r] & -> & _)%list_elem_of_fmap. apply score_right. }
  assert (Htrace : tally correct_at_1 scored = Zsum (λ f, cell (_confusion scored) f f) (fault_names scored)).
  { rewrite tally_by_fault. apply Zsum_ext. intros f _. rewrite confusion_cells. apply Zsum_ext. intros s Hs.
    rewrite (proj1 (Hright s Hs)). unfold predicts, of_fault. f_equal.
    destruct (decide (s_label_fault s = f)) as [->|Hne]; [by rewrite (bool_decide_true (f = f)), andb_true_r, ?andb_true_r|].
    by rewrite (bool_decide_false (s_label_fault s = f)), !andb_false_r. }
  destruct (p95_index n) as (k & Hk & Hk0); [lia|].
  destruct (median_ok (merge_sort float_le (latency_s <$> scored))) as [p50 H50].
  { intros H%(f_equal length). rewrite (merge_sort_Permutation float_le), length_fmap in H. cbn in H. lia. }
  destruct (at_index_ok (merge_sort float_le (latency_s <$> scored)) (Z.min (n - 1) k)) as [p95 H95].
  { rewrite (merge_sort_Permutation float_le), length_fmap. lia. }
  unfold aggregate. destruct scored as [|s0 rest] eqn:Hsc; [cbn in Hlen; lia|]. rewrite <- Hsc in *.
  rewrite Hlen. fold n. rewrite H50. cbn [mbind result_bind]. rewrite Hk. cbn [mbind result_bind]. rewrite H95.
  eexists _, (_confusion scored). rewrite <- Htrace, <- (tally_length answered).
  split; [reflexivity|]. split; [done|]. split; [done|].
  split; [rewrite !dict_get_app; cbn [dict_get decide]; by rewrite repair_metrics_keys by left|].
  split; [intros f p; apply confusion_cells|].
  split; [done|]. split; [done|].
  rewrite tally_length. split_and!.
  - apply tally_mono. intros s Hs. apply Hright, Hs.
  - apply tally_mono. intros s Hs. apply Hright, Hs.
  - unfold n. rewrite <- Hlen, <- (tally_length answered). apply inj_le, length_filter.
Qed.

(** ** Attribution of batch answers *)
Lemma custom_id_inj i j : custom_id i = custom_id j → i = j.
Proof.
  unfold custom_id, pad. intros E. apply (f_equal (λ s, int_digits (drop 5 (chars s)) 0 true)) in E.
  rewrite !chars_app, !chars_of_chars in E.
  assert (Hd : ∀ l, drop 5 (chars "case-" ++ l) = l) by done. rewrite !Hd in E. rewrite !int_digits_zeros, !int_digits_str in E by lia. injection E. lia.
Qed.

Lemma by_tag_spec cases k c : dict_get k (by_tag cases) = Some c ↔ ∃ i, k = custom_id i ∧ cases !! i = Some c.
Proof.
  revert k c. induction cases as [|x cases IH] using rev_ind; intros k c; [by split; [|intros (i & _ & ?)]|].
  assert (Hs : by_tag (cases ++ [x]) = dict_set (custom_id (length cases)) x (by_tag cases)).
  { unfold by_tag. rewrite imap_app, foldl_app. cbn. by rewrite Nat.add_0_r. }
  rewrite Hs. destruct (decide (custom_id (length cases) = k)) as [<-|Hne].
  - rewrite dict_get_set_eq. split.
    + intros [= <-]. exists (length cases). by rewrite lookup_app_r, Nat.sub_diag.
    + intros (i & Hi%custom_id_inj & Hc). subst i. rewrite lookup_app_r, Nat.sub_diag in Hc by done. exact Hc.
  - rewrite dict_get_set_ne by done. rewrite IH. split; intros (i & -> & Hc); exists i; (split; [done|]).
    + by apply lookup_app_l_Some.
    + apply lookup_app_Some in Hc as [|[Hi Hc]]; [done|]. destruct Hne. f_equal.
      apply list_lookup_singleton_Some in Hc as [Hc _]. lia.
Qed.

Section attribution.
Context (validate : pyval → result Verdict) (model effort : string).

(** What one result contributes, if it names a case and succeeded. *)
Definition scored_as (tags : list (string * Case)) (r : BatchResult) : option (result Scored) :=
  c ← dict_get (r_custom_id r) tags; m ← r_message r;
  Some (cost ← call_cost model (usage_dict (usage m)) true; scored ← score_message validate c m cost; mret scored.1).

Lemma collect_run tags results : ∀ g out, (∃ g', collect validate tags model effort results g = (Ok out, g')) ↔
  omap (scored_as tags) results = Ok <$> out.
Proof.
  induction results as [|r results IH]; intros g out; cbn [collect].
  { run. split; [intros [g' [= <- <-]]; done|]. intros H. symmetry in H. apply fmap_nil_inv in H as ->. by exists g. }
  cbn [omap list_omap]. unfold scored_as at 1.
  destruct (dict_get (r_custom_id r) tags) as [c|]; [|apply IH].
  destruct (r_message r) as [m|]; [|apply IH]. cbn [mbind option_bind].
  run. rewrite spend_record. destruct (call_cost model (usage_dict (usage m)) true) as [cost|e].
  2:{ cbn. split; [by intros [? [=]]|]. destruct out; [done|by intros [=]]. }
  run. cbn [mbind result_bind]. destruct (score_message validate c m cost) as [s|e].
  2:{ split; [by intros [? [=]]|]. destruct out; [done|by intros [=]]. }
  run. unfold write_line. run. set (g1 := MkRunState _ _). split.
  - intros [g' H]. run in H. destruct (collect validate tags model effort results g1) as [[rest|e] g2] eqn:Hc; [|done].
    injection H as <- <-. cbn. f_equal. apply (IH g1). eauto.
  - destruct out as [|s' rest]; [done|]. intros [= <- H]. destruct (proj2 (IH g1 rest) H) as [g2 Hc].
    exists g2. run. by rewrite Hc.
Qed.

(** Batch answers go to the cases they answer, in whatever order they
    come.  The ids of the requests are distinct for all indices; an answer is
    scored exactly when it succeeded and carries the id of a case, and then against that very
    case, at the cost of its own usage; and the same answers in another order give the same scores in
    another order, whatever was spent before. *)
Theorem collect_attributes cases results g out g' :
  collect validate (by_tag cases) model effort results g = (Ok out, g') →
  (∀ s, s ∈ out ↔ ∃ i c m cost error, MkBatchResult (custom_id i) (Some m) ∈ results ∧ cases !! i = Some c ∧
     call_cost model (usage_dict (usage m)) true = Ok cost ∧ score_message validate c m cost = Ok (s, error)) ∧
  (∀ i j, custom_id i = custom_id j → i = j) ∧
  ∀ results' g1, results ≡ₚ results' → ∃ out' g1', out ≡ₚ out' ∧
    collect validate (by_tag cases) model effort results' g1 = (Ok out', g1').
Proof.
  intros Hc. assert (Ho : omap (scored_as (by_tag cases)) results = Ok <$> out) by (apply (collect_run _ _ g); eauto).
  split; [|split; [exact custom_id_inj|]].
  - intros s. transitivity (Ok s ∈ omap (scored_as (by_tag cases)) results).
    { rewrite Ho, list_elem_of_fmap. naive_solver. }
    rewrite list_elem_of_omap. unfold scored_as. split.
    + intros ([k [m|]] & Hr & Hs); cbn in Hs; destruct (dict_get k (by_tag cases)) as [c|] eqn:Hk; try done.
      apply by_tag_spec in Hk as (i & -> & Hi). injection Hs as Hs. apply bind_Ok in Hs as (cost & ? & ([s' error] & ? & [= <-])%bind_Ok). eauto 10.
    + intros (i & c & m & cost & error & Hr & Hi & Hcost & Hs). eexists. split; [exact Hr|]. cbn.
      rewrite (proj2 (by_tag_spec cases (custom_id i) c)) by eauto. cbn. rewrite Hcost. cbn. by rewrite Hs.
  - intros results' g1 Hp.
    assert (Hp' : omap (scored_as (by_tag cases)) results' ≡ₚ Ok <$> out) by by rewrite <- Ho, Hp.
    apply Permutation_map_inv in Hp' as (out' & Ho' & Hperm). destruct (proj2 (collect_run _ results' g1 out') Ho') as [g1' Hc'].
    eauto.
Qed.
End attribution.

(** *** The file and the bill

    A line bills a call when it carries the model, the usage and the rounded cost of it. *)
Definition bills (l : line) (call : string * bool * list (string * Z) * float) : Prop :=
  let '(model, _, usage, cost) := call in
  dict_get "model" l = Some (FText model) ∧ dict_get "usage" l = Some (counts_figure usage) ∧
  dict_get "cost_usd" l = Some (FNum (round_to 6 cost)).

(** From [s] to [s'] the calls [log] were paid for and the lines [written] written. *)
Record spent_on (s s' : run_state) (log : list (string * bool * list (string * Z) * float)) (written : list line) : Prop := {
  so_log : calls_log (rs_guard s') = calls_log (rs_guard s) ++ log;
  so_calls : calls (rs_guard s') = calls (rs_guard s) + Z.of_nat (length log);
  so_cap : cap_usd (rs_guard s') = cap_usd (rs_guard s);
  so_lines : rs_lines s' = rs_lines s ++ written;
  so_spent : spent_usd (rs_guard s') = foldl f_add (spent_usd (rs_guard s)) (log.*2) }.

Lemma spent_nothing s : spent_on s s [] [].
Proof. split; rewrite ?app_nil_r; cbn; lia || done. Qed.
Lemma spent_trans s s1 s2 log log' written written' :
  spent_on s s1 log written → spent_on s1 s2 log' written' → spent_on s s2 (log ++ log') (written ++ written').
Proof.
  intros [A B C D E] [A' B' C' D' E'].
  split; rewrite ?A', ?B', ?C', ?D', ?E', ?A, ?B, ?C, ?D, ?E, ?fmap_app, ?foldl_app, ?app_assoc, ?length_app; done || lia.
Qed.
Lemma spent_paid model batch usage cost s : spent_on s (paid model batch usage cost s) [(model, batch, usage, cost)] [].
Proof. split; cbn; rewrite ?app_nil_r; done || lia. Qed.
Lemma spent_line l s : spent_on s (MkRunState (rs_guard s) (rs_lines s ++ [l])) [] [l].
Proof. split; cbn; rewrite ?app_nil_r; done || lia. Qed.
Lemma spent_answer model batch usage cost l s :
  spent_on s (MkRunState (rs_guard (paid model batch usage cost s)) (rs_lines (paid model batch usage cost s) ++ [l]))
    [(model, batch, usage, cost)] [l].
Proof. exact (spent_trans _ _ _ _ [] [] _ (spent_paid model batch usage cost s) (spent_line l _)). Qed.

(** What a model answers: the selected cases whose call gave an answer, in order; and
    what becomes of an answer, its bill, its score and its line. *)
Definition pilot_answered (call : Case → result TriageResult) (selected : list Case) : list (Case * TriageResult) :=
  omap (λ c, match call c with Ok r => if has_error r then None else Some (c, r) | Err _ => None end) selected.
Definition answer_cost (model : string) (a : Case * TriageResult) : float :=
  match call_cost model (tr_usage a.2) false with Ok cost => cost | Err _ => f_of_Z 0 end.
Definition answer_bill (model : string) (a : Case * TriageResult) : string * bool * list (string * Z) * float :=
  (model, false, tr_usage a.2, answer_cost model a).
Definition answer_score (model : string) (a : Case * TriageResult) : Scored :=
  score a.1 (tr_verdict a.2) (tr_latency_s a.2) (answer_cost model a) (tr_refused a.2).
Definition answer_line (model : string) (a : Case * TriageResult) : line :=
  pilot_answer model a.1 (tr_usage a.2) (answer_cost model a) (answer_score model a).

Lemma answer_line_bills model a : bills (answer_line model a) (answer_bill model a).
Proof. done. Qed.

(** However a pilot's loop ends, it has paid for and written a first part of the answers,
    all of them when it returns their scores. *)
Lemma pilot_calls_answered call model selected s : ∃ paid,
  paid `prefix_of` pilot_answered call selected ∧
  spent_on s (pilot_calls call model selected s).2 (answer_bill model <$> paid) (answer_line model <$> paid) ∧
  ∀ scored, (pilot_calls call model selected s).1 = Ok scored → paid = pilot_answered call selected ∧ scored = answer_score model <$> paid.
Proof.
  revert s. induction selected as [|c l IH]; intros s; cbn [pilot_calls]; run.
  { exists []. split_and!; [done|apply spent_nothing|by intros ? [= <-]]. }
  assert (∀ e, ∃ paid, paid `prefix_of` pilot_answered call (c :: l) ∧ spent_on s s (answer_bill model <$> paid) (answer_line model <$> paid) ∧
    ∀ scored : list Scored, Err e = Ok scored → paid = pilot_answered call (c :: l) ∧ scored = answer_score model <$> paid) as Hstop.
  { intros e. exists []. split_and!; [apply prefix_nil|apply spent_nothing|done]. }
  rewrite spend_check. destruct (f_lt _ _); [apply Hstop|]. run. destruct (call c) as [r|e] eqn:Ec; run; [|apply Hstop].
  destruct (has_error r) eqn:Er.
  { assert (pilot_answered call (c :: l) = pilot_answered call l) as -> by (unfold pilot_answered; cbn; by rewrite Ec, Er). apply IH. }
  run. rewrite spend_record. destruct (call_cost model (tr_usage r) false) as [cost|e] eqn:Ecost; run; [|apply Hstop].
  assert (pilot_answered call (c :: l) = (c, r) :: pilot_answered call l) as -> by (unfold pilot_answered; cbn; by rewrite Ec, Er).
  assert (answer_cost model (c, r) = cost) as Hcost by (unfold answer_cost; cbn; by rewrite Ecost). rewrite <- Hcost.
  unfold write_line. run. set (s1 := MkRunState _ _). destruct (IH s1) as (paid & H1 & H2 & H3). exists ((c, r) :: paid).
  destruct (pilot_calls call model l s1) as [[rest|e] s2]; run; cbn [fst snd] in *.
  all: split_and!; [by apply prefix_cons|exact (spent_trans _ _ _ _ _ _ _ (spent_answer _ _ _ _ _ s) H2)|]. 2: done.
  intros scored [= <-]. destruct (H3 rest eq_refl) as [-> ->]. done.
Qed.

(** However the collection of a batch ends, the file has one line for each call
    paid for, the last excepted when its answer could not be read. *)
Lemma collect_billed validate tags model effort results s : ∃ log written unread,
  spent_on s (collect validate tags model effort results s).2 (log ++ unread) written ∧ Forall2 bills written log ∧
  match (collect validate tags model effort results s).1 with
  | Ok scored => unread = [] ∧ length scored = length log
  | Err _ => (length unread <= 1)%nat
  end.
Proof.
  revert s. induction results as [|r l IH]; intros s; cbn [collect]; run.
  { exists [], [], []. split_and!; [apply spent_nothing|done..]. }
  destruct (dict_get (r_custom_id r) tags) as [c|]; [|apply IH]. destruct (r_message r) as [m|]; [|apply IH].
  run. rewrite spend_record. set (u := usage_dict (usage m)). destruct (call_cost model u true) as [cost|e]; run.
  2:{ exists [], [], []. split_and!; [apply spent_nothing|done|cbn; lia]. }
  destruct (score_message validate c m cost) as [sc|e]; run.
  2:{ exists [], [], [(model, true, u, cost)]. split_and!; [apply spent_paid|done|cbn; lia]. }
  unfold write_line. run. set (s1 := MkRunState _ _). destruct (IH s1) as (log & written & unread & H1 & H2 & H3).
  exists ((model, true, u, cost) :: log), (sweep_line model effort c u cost sc.1 sc.2 :: written), unread.
  destruct (collect validate tags model effort l s1) as [[rest|e] s2]; run; cbn [fst snd] in *.
  all: split; [exact (spent_trans _ _ _ _ _ _ _ (spent_answer _ _ _ _ _ s) H1)|split; [by constructor|]].
  - destruct H3 as [-> H3]. split; [done|]. cbn. by f_equal.
  - exact H3.
Qed.

(** A model none of whose calls succeeds has no accuracy to print. *)
Theorem pilot_line_needs_an_answer : pilot_line [] = Err (KeyError "accuracy@1").
Proof. reflexivity. Qed.
Theorem pilot_stops_at_a_silent_model call model selected (g : run_state) :
  f_lt (cap_usd (rs_guard g)) (f_add (spent_usd (rs_guard g)) (ratio 5 100)) = false →
  Forall (λ c, ∃ r, call c = Ok r ∧ has_error r = true) selected →
  pilot_model call model selected g = (Err (KeyError "accuracy@1"), g).
Proof.
  intros Hb Hs. unfold pilot_model. run.
  assert (Hrun : pilot_calls call model selected g = (Ok [], g)).
  { induction Hs as [|c l (r & Hc & Hr) _ IH]; [done|]. cbn [pilot_calls]. run. rewrite spend_check, Hb.
    run. rewrite Hc. run. by rewrite Hr. }
  by rewrite Hrun.
Qed.

(** ** Examples *)
Definition sample_cases : list Case :=
  [MkCase "a" PNone "DUPLICATE" "charge_succeeded" false ∅ ∅ true "classification";
   MkCase "b" PNone "DROP" "payout_paid" false ∅ ∅ true "classification"].
Definition says (f : Fault.FaultClass) : Verdict := MkVerdict f [] (ratio 1 2) "cause" [] false [] "".
Definition sample_answers : list answer :=
  (λ c, (c, Some (says Fault.DUPLICATE), ratio 3 2, ratio 1 100, false)) <$> sample_cases.

Lemma aggregate_counts_witness : ∃ m x, aggregate (score_all sample_answers) = Ok m ∧
  dict_get "accuracy@1" m = Some (MNum (ratio 5000 10000)) ∧ dict_get "confusion" m = Some (MConfusion x) ∧
  cell x "DROP" "DUPLICATE" = 1 ∧ cell x "DROP" "DROP" = 0.
Proof.
  destruct (aggregate_counts sample_answers) as (m & x & Hm & _ & _ & Hx & Hcell & Hacc & _); [vm_compute; lia|].
  exists m, x. split_and!; [done| |done|rewrite Hcell; vm_compute; reflexivity..].
  rewrite Hacc. do 2 f_equal. rewrite (Zsum_ext _ (λ f, tally (predicts f f) (score_all sample_answers))) by (intros; apply Hcell).
  vm_compute. reflexivity.
Defined.

Definition sample_usage : BatchUsage := MkBatchUsage 1000 200 None (Some 4096).
Definition sample_results : list BatchResult :=
  [MkBatchResult "case-00001" (Some (MkMessage sample_usage "refusal" []));
   MkBatchResult "case-00007" (Some (MkMessage sample_usage "refusal" []));
   MkBatchResult "case-00000" (Some (MkMessage sample_usage "end_turn" [("text", "no json")]))].
Definition sample_run : run_state := MkRunState (MkBudgetGuard (f_of_Z 20) (f_of_Z 0) 0 []) [].

Lemma collect_attributes_witness : ∃ out g' out' g1,
  collect (λ _, Err TypeError) (by_tag sample_cases) OPUS "default" sample_results sample_run = (Ok out, g') ∧
  (s_case_id <$> out) = ["b"; "a"] ∧
  collect (λ _, Err TypeError) (by_tag sample_cases) OPUS "default" (reverse sample_results) g' = (Ok out', g1) ∧ out ≡ₚ out'.
Proof.
  destruct (collect (λ _, Err TypeError) (by_tag sample_cases) OPUS "default" sample_results sample_run) as [[out|e] g'] eqn:Hc.
  2:{ apply (f_equal (λ r, is_ok r.1)) in Hc. by vm_compute in Hc. }
  destruct (collect_attributes (λ _, Err TypeError) OPUS "default" sample_cases sample_results sample_run out g' Hc) as (_ & _ & Hperm).
  destruct (Hperm (reverse sample_results) g') as (out' & g1 & Hp & Hc'); [by rewrite reverse_Permutation|].
  exists out, g', out', g1. split_and!; [done| |done|done].
  apply (f_equal (λ r, match r.1 with Ok l => s_case_id <$> l | Err _ => [] end)) in Hc.
  cbn [fst] in Hc. rewrite <- Hc. vm_compute. reflexivity.
Defined.

(** The sums and roundings of the interpreter. *)
Example numbers_examples :
  float_sum (replicate 10 (ratio 1 10)) = ratio 1 1 ∧
  float_sum [ratio 1 10; f_of_Z 10000000000000000; f_of_Z (-10000000000000000); ratio 3 10] = ratio 4 10 ∧
  round_to 4 (ratio 12345 100000) = ratio 1235 10000 ∧ round_to 4 (ratio 2 3) = ratio 6667 10000 ∧
  round_to 4 (ratio 5 100000) = ratio 1 10000 ∧ round_to 1 (ratio 1 4) = ratio 2 10 ∧
  median [ratio 1 2; ratio 3 2] = Ok (f_of_Z 1).
Proof. vm_compute. auto 10. Qed.

(** Two refusals at half a second each: two lines, in the order of the cases. *)
Example pilot_calls_example :
  let refusal := MkTriageResult None OPUS None (ratio 1 2) (usage_dict sample_usage) (Some "refusal") true None "" in
  let '(res, s) := pilot_calls (λ _, Ok refusal) OPUS sample_cases sample_run in
  is_ok res = true ∧ calls (rs_guard s) = 2 ∧
  (dict_get "case_id" <$> rs_lines s) = [Some (FText "a"); Some (FText "b")] ∧
  (dict_get "predicted" <$> rs_lines s) = [Some FNone; Some FNone] ∧
  (dict_get "cost_usd" <$> rs_lines s) = replicate 2 (Some (FNum (ratio 356 10000))).
Proof. vm_compute. auto 10. Qed.
