(* ===== verification/Loadtest.v ===== *)
(** scripts/loadtest_shedder.py: the real shedder under a synthetic ramp of pressure.
    [throughput], which times the interpreter, is left out. *)
From Stdlib Require Import SpecFloat QArith.
From S2P Require Import Prelude PyVal Gcra Shed.
#[local] Open Scope Z_scope.

Definition RAMP_STEPS : Z := 200.
Definition REQUESTS_PER_STEP : Z := 50.
Definition TIER_MIX : list (Tier * Z) := [(TEST_MODE, 10); (GET, 20); (POST, 15); (CRITICAL, 5)].

(** What a ramp records: the pressure, rounded to ten-thousandths, at which a tier
    first sheds, and the requests served and dropped by tier. *)
Record tallies := MkTallies { engaged_at : list (string * Z); served : gmap string Z; dropped : gmap string Z }.
Definition no_tallies : tallies :=
  let zeros := list_to_map ((λ t, (tier_name t, 0)) <$> tiers) in MkTallies [] zeros zeros.

Definition setdefault (k : string) (v : Z) (d : list (string * Z)) : list (string * Z) :=
  if dict_mem k d then d else d ++ [(k, v)].

(** One offered request. *)
Definition offer (p : Q) (t : Tier) (a : tallies * LoadShedder) : tallies * LoadShedder :=
  let '(r, s) := a in
  let '(decision, s) := should_shed t s in
  (if shed decision
   then MkTallies (setdefault (tier_name t) (round4 p) (engaged_at r)) (served r) (count (tier_name t) (dropped r))
   else MkTallies (engaged_at r) (count (tier_name t) (served r)) (dropped r), s).
Definition offer_tier (p : Q) (a : tallies * LoadShedder) (tw : Tier * Z) : tallies * LoadShedder :=
  Nat.iter (Z.to_nat (tw.2 * REQUESTS_PER_STEP / 50)) (offer p tw.1) a.
Definition ramp_step (mix : list (Tier * Z)) (a : tallies * LoadShedder) (p : Q) : tallies * LoadShedder :=
  foldl (offer_tier p) (a.1, (observe p a.2).2) mix.

(** The doubles of the two ramps, exactly. *)
Definition exactly (x : spec_float) : Q := match sf_to_Q x with Ok q => Qred q | Err _ => 0%Q end.
Definition rising : list Q := (λ step, exactly (f_div (f_of_Z step) (f_of_Z RAMP_STEPS))) <$> seqZ 0 (RAMP_STEPS + 1).
Definition falling : list Q :=
  (λ step, exactly (f_sub (f_of_Z 1) (f_div (f_of_Z step) (f_of_Z RAMP_STEPS)))) <$> seqZ 0 (RAMP_STEPS + 1).

Definition ramp_over (mix : list (Tier * Z)) (ps : list Q) (s : LoadShedder) : tallies * LoadShedder :=
  foldl (ramp_step mix) (no_tallies, s) ps.
Definition ramp (s : LoadShedder) : tallies * LoadShedder := ramp_over TIER_MIX rising s.

Definition release_tier (p : Q) (a : list (string * Z) * LoadShedder) (t : Tier) : list (string * Z) * LoadShedder :=
  let '(decision, s) := should_shed t a.2 in
  (if shed decision then a.1 else setdefault (tier_name t) (round4 p) a.1, s).
Definition recovery (s : LoadShedder) : list (string * Z) * LoadShedder :=
  foldl (λ a p, foldl (release_tier p) (a.1, (observe p a.2).2) tiers) ([], s) falling.

(** ** The script *)

(** [k.split(":", 1)[1]: v] for the counters of the sheds that would have been. *)
Definition would_have (s : LoadShedder) : list (string * Z) :=
  omap (λ kv : string * snapshot_value, match kv.2 with
    | SInt v => if startswith "would_shed:" kv.1 then Some ((partition ":"%char kv.1).2, v) else None
    | _ => None
    end) (snapshot s).

(** The artifact; what [throughput] timed is an argument of [main]. *)
Record artifact := MkArtifact {
  configured_thresholds : list (string * Q); r_escalate_after : Z; r_recover_after : Z; ramp_steps : Z;
  tier_mix_per_step : list (string * Z); engaged_at_pressure : list (string * Z); released_at_pressure : list (string * Z);
  r_served : gmap string Z; r_dropped : gmap string Z;
  actually_dropped : Z; would_have_dropped : list (string * Z); decisions_per_second : Z }.

Definition main (throughput : Z) : artifact :=
  let live := fresh_shedder DEFAULT_THRESHOLDS true ESCALATE_AFTER RECOVER_AFTER in
  let ramped := ramp live in
  let released := recovery ramped.2 in
  let dark := ramp (fresh_shedder DEFAULT_THRESHOLDS false ESCALATE_AFTER RECOVER_AFTER) in
  MkArtifact ((λ t, (tier_name t, DEFAULT_THRESHOLDS t)) <$> tiers) (escalate_after released.2) (recover_after released.2) RAMP_STEPS
    ((λ tw : Tier * Z, (tier_name tw.1, tw.2)) <$> TIER_MIX) (engaged_at ramped.1) released.1 (served ramped.1) (dropped ramped.1)
    (Zsum snd (map_to_list (dropped dark.1))) (would_have dark.2) throughput.

(** ** The dark launch mirrors the live one *)
Definition got (m : gmap string Z) (t : Tier) : Z := default 0 (m !! tier_name t).
Definition would (m : gmap string Z) (t : Tier) : Z := default 0 (m !! ("would_shed:" +:+ tier_name t)).

Lemma tier_name_inj t t' : tier_name t = tier_name t' → t = t'.
Proof. by destruct t, t'. Qed.
Lemma count_got t t' m : got (count (tier_name t) m) t' = got m t' + (if decide (t = t') then 1 else 0).
Proof.
  unfold got, count. destruct (decide (t = t')) as [->|Hne]; [by rewrite lookup_insert_eq|].
  rewrite lookup_insert_ne by (by intros H%tier_name_inj). lia.
Qed.

(** The same controller; the dark one has dropped nothing, has served what the live one
    served and dropped, and counts what the live one dropped. *)
Record mirrors (live dark : tallies * LoadShedder) : Prop := {
  m_thresholds : thresholds dark.2 = thresholds live.2;
  m_enforce : enforce live.2 = true ∧ enforce dark.2 = false;
  m_patience : escalate_after dark.2 = escalate_after live.2 ∧ recover_after dark.2 = recover_after live.2;
  m_state : level dark.2 = level live.2 ∧ enabled dark.2 = enabled live.2 ∧ _hot dark.2 = _hot live.2 ∧ _calm dark.2 = _calm live.2;
  m_dropped t : got (dropped dark.1) t = 0;
  m_served t : got (served dark.1) t = got (served live.1) t + got (dropped live.1) t;
  m_would t : would (counts dark.2) t = got (dropped live.1) t }.

Lemma mirrors_observe live dark p : mirrors live dark → mirrors (live.1, (observe p live.2).2) (dark.1, (observe p dark.2).2).
Proof.
  intros [Ht [Hl Hd] [He Hr] (Hlv & Hen & Hh & Hc) ? ? ?]. unfold observe, _target_level. cbn [level enabled thresholds with_levels _hot _calm escalate_after recover_after].
  rewrite Ht, He, Hr, Hlv, Hen, Hh, Hc. repeat case_match; by split.
Qed.

Lemma would_count t t' m : would (count ("would_shed:" +:+ tier_name t) m) t' = would m t' + (if decide (t = t') then 1 else 0).
Proof.
  unfold would, count. destruct (decide (t = t')) as [->|Hne]; [by rewrite lookup_insert_eq|].
  rewrite lookup_insert_ne by (destruct t, t'; done). lia.
Qed.
Lemma would_other pre t t' m : String.get 0 (pre +:+ tier_name t) ≠ Some "w"%char →
  would (count (pre +:+ tier_name t) m) t' = would m t'.
Proof.
  intros Hp. unfold would, count. rewrite lookup_insert_ne; [done|]. intros H. apply Hp. by rewrite H.
Qed.

Lemma mirrors_offer p t live dark : mirrors live dark → mirrors (offer p t live) (offer p t dark).
Proof.
  destruct live as [rl sl], dark as [rd sd]. intros [Ht [Hl Hd] [He Hr] (Hlv & Hen & Hh & Hc) H1 H2 H3]. cbn in *.
  unfold offer, should_shed. rewrite Hen, Hlv, Hl, Hd.
  destruct (enabled sl) eqn:Hes; cbn; [|split; cbn; try done; try (by split_and!; congruence); intros t'; rewrite ?count_got, ?H2; lia].
  destruct (_ <? _); cbn; (split; cbn; try done; try (by split_and!; congruence)); intros t';
    rewrite ?would_other by done; rewrite ?would_count, ?count_got, ?H1, ?H2, ?H3; lia.
Qed.

Lemma mirrors_fold {X} (f : X → tallies * LoadShedder → tallies * LoadShedder) l :
  (∀ x a b, mirrors a b → mirrors (f x a) (f x b)) →
  ∀ a b, mirrors a b → mirrors (foldl (λ a x, f x a) a l) (foldl (λ a x, f x a) b l).
Proof. intros Hf. induction l as [|x l IH]; intros a b Hab; [done|]. cbn. by apply IH, Hf. Qed.
Lemma mirrors_fresh th esc rec :
  mirrors (no_tallies, fresh_shedder th true esc rec) (no_tallies, fresh_shedder th false esc rec).
Proof. split; try done; by intros []. Qed.

(** A dark launch is the live one, without the shedding.  Over any sequence of
    pressures and any mix of requests, with the same thresholds and patience, the dark shedder drops
    no request, serves all those the live one serves or drops, and counts as would-be
    sheds of each tier exactly those the live one dropped. *)
Theorem dark_launch_mirrors mix ps th esc rec t :
  let live := ramp_over mix ps (fresh_shedder th true esc rec) in
  let dark := ramp_over mix ps (fresh_shedder th false esc rec) in
  got (dropped dark.1) t = 0 ∧
  got (served dark.1) t = got (served live.1) t + got (dropped live.1) t ∧
  would (counts dark.2) t = got (dropped live.1) t.
Proof.
  assert (H : mirrors (ramp_over mix ps (fresh_shedder th true esc rec)) (ramp_over mix ps (fresh_shedder th false esc rec))).
  { apply (mirrors_fold (λ p a, ramp_step mix a p)); [|apply mirrors_fresh]. intros p a b Hab. unfold ramp_step.
    apply (mirrors_fold (λ tw a, offer_tier p a tw)); [|by apply mirrors_observe].
    intros tw a' b' Hab'. unfold offer_tier. induction (Z.to_nat _) as [|n IH]; [done|]. cbn. by apply mirrors_offer. }
  cbv zeta. split_and!; apply H.
Qed.

(** ** The committed figures

    With the default thresholds and patience the script writes what
    artifacts/shed_loadtest.json records: each tier is shed from the second sample at
    or above its threshold, and released five samples after the pressure fell below it;
    the dark launch drops nothing and would have dropped what the live one did. *)
Example loadtest_artifact throughput :
  let a := main throughput in
  (r_escalate_after a, r_recover_after a, ramp_steps a) = (2, 5, 200) ∧
  engaged_at_pressure a = [("TEST_MODE", 6050); ("GET", 7550); ("POST", 9050); ("CRITICAL", 9850)] ∧
  released_at_pressure a = [("CRITICAL", 9550); ("POST", 8750); ("GET", 7250); ("TEST_MODE", 5750)] ∧
  (got (r_served a) <$> tiers) = [1210; 3020; 2715; 985] ∧
  (got (r_dropped a) <$> tiers) = [800; 1000; 300; 20] ∧
  actually_dropped a = 0 ∧
  would_have_dropped a = [("CRITICAL", 20); ("GET", 1000); ("POST", 300); ("TEST_MODE", 800)] ∧
  decisions_per_second a = throughput.
Proof. vm_compute. auto 10. Qed.
