(* ===== verification/Site.v ===== *)
(** The harness and the service together: harness/stack.py's running stack as the
    runner sees it, with the modelled service in it.  Requests go through the
    proxy's [_send] into ingest/app.py, messages through the queue to
    worker/tasks.py, and what the runner reads is the database both write.  The
    worker runs between requests at moments the world chooses, and may be killed in
    the middle of a task. *)
From Stdlib Require Import QArith.
From S2P Require Import Processes Prelude PyVal Json Hash Ledger Post Balances Mapping Signature Dedupe.
From S2P Require Import Shed Gcra Handlers Ingest System Recon Triage Events Faults Runner Proxy.
#[local] Open Scope Z_scope.

(** ** The site *)

(** What the world does around the [n]-th request: the fates of the request, the
    tasks the worker runs before the next one, the clocks, and what the worker
    was doing if it is killed then: the fates of the task it dies in, and whether
    the broker keeps the message. *)
Record turn (F : Type) := Turn {
  tn_world : world F; tn_tasks : nat; tn_clock : Z; tn_ms : Z; tn_started : string;
  ct_posts : list fate; ct_mark : fate; ct_lost : bool }.
Arguments tn_world {F}. Arguments tn_tasks {F}. Arguments tn_clock {F}. Arguments tn_ms {F}. Arguments tn_started {F}.
Arguments ct_posts {F}. Arguments ct_mark {F}. Arguments ct_lost {F}.

(** [st_other] answers outside the routes, [st_render] is the text of a response,
    [st_schedule] what threads and the kill timer do to a plan, and [st_probes] how
    often the health probe asks; the rest is what the runner reads of clocks and
    logs. *)
Record site (F : Type) := MkSite {
  st_secret : string; st_other : http_req → http_res; st_render : http_res → string;
  st_turn : nat → turn F; st_schedule : FaultPlan → nat → list (option nat); st_probes : nat;
  st_log : nat → option string; st_isoformat : nat → string; st_elapsed : nat → nat → Z;
  st_arrived : nat → DeliveryResult → Z; st_float : string → option string;
  st_age : nat → DeliveryResult → string → string }.
Arguments st_secret {F}. Arguments st_other {F}. Arguments st_render {F}. Arguments st_turn {F}.
Arguments st_schedule {F}. Arguments st_probes {F}. Arguments st_log {F}. Arguments st_isoformat {F}.
Arguments st_elapsed {F}. Arguments st_arrived {F}. Arguments st_float {F}. Arguments st_age {F}.

(** The services, and how many requests were served. *)
Record host (R : Type) := Host { h_app : app_state R; h_served : nat }.
Arguments Host {R}. Arguments h_app {R}. Arguments h_served {R}.

Section site.
Context {F R : Type} `{HA : Arith F} `{HR : RedisClient F R} (st : site F).
Implicit Types (a : app_state R) (w : host R).

(** ingest/server.py runs the endpoint without limiter and shedder. *)
Definition site_config : app_config F := AppConfig (st_secret st) None.

Definition host_db w : database := a_db (h_app w).

Definition with_log (d : database) (q : list pyval) a : app_state R := AppState d q (a_shedder a) (a_limits a).

(** The worker takes the oldest message; a task to be retried goes back to the
    queue. *)
Definition handle_next a : app_state R :=
  match a_queue a with
  | [] => a
  | m :: q =>
      let '(res, d) := process_event None [] Undisturbed Undisturbed 0 0%Q m (a_db a) in
      with_log d (match res with Ok (Retried _ _) => q ++ [m] | _ => q end) a
  end.
Definition drain (n : nat) a : app_state R := Nat.iter n handle_next a.

(** The request [_send] makes. *)
Definition post_request (d : Delivery) : http_req :=
  HttpReq "POST" "/webhook"
    [("stripe-signature", d_sig_header d); ("content-type", "application/json");
     ("user-agent", "LedgerProof-ChaosProxy/1")] (Some "127.0.0.1") (d_body d).

(** The wire: an exception in the application is the server's own 500. *)
Definition serve (d : Delivery) w : wire_answer * host R :=
  let t := st_turn st (h_served w) in
  let '(res, a) := backpressure site_config (st_other st) (tn_world t) (post_request d) (h_app w) in
  (MkWireAnswer
     (inl match res with Ok r => (rs_status r, st_render st r) | Err _ => (500, "Internal Server Error") end)
     (tn_ms t) (tn_started t),
   Host (drain (tn_tasks t) a) (S (h_served w))).

(** [kill_worker]: the task in flight, if any, stops where its fates stop it. *)
Definition kill_worker : stx (host R) () := λ w,
  let t := st_turn st (h_served w) in
  let a := h_app w in
  match a_queue a with
  | [] => (Ok (), w)
  | m :: q =>
      let d := (process_event None (ct_posts t) (ct_mark t) Undisturbed 0 0%Q m (a_db a)).2 in
      (Ok (), Host (with_log d (if ct_lost t then q else m :: q) a) (h_served w))
  end.

(** [ingest_healthy]: GET /healthz answers 200. *)
Definition healthz : http_req := HttpReq "GET" "/healthz" [] (Some "127.0.0.1") "".
Definition site_healthy w : bool :=
  match (backpressure site_config (st_other st) (tn_world (st_turn st (h_served w))) healthz (h_app w)).1 with
  | Ok r => rs_status r =? 200
  | Err _ => false
  end.

Definition site_execute (probing kills : bool) (p : FaultPlan) : stx (host R) Execution :=
  started ← gets h_served;
  rs ← chaos_execute serve p (if kills then kill_worker else mret ()) (st_schedule st p started);
  healthy ← gets site_healthy;
  mret (MkExecution rs [] (if probing then replicate (st_probes st) healthy else [])).

(** The worker gets the time to finish; [idle] as in harness/stack.py. *)
Definition site_quiescent (ids : list string) : stx (host R) bool := λ w,
  let a := drain (length (a_queue (h_app w))) (h_app w) in
  (Ok (bool_decide (a_queue a = []) && forallb (λ row, negb (pending (Some ids) row)) (stripe_events (a_db a)))%bool,
   Host a (h_served w)).

Definition site_reset : stx (host R) () := λ w, (Ok (), Host (with_log empty_db [] (h_app w)) (h_served w)).

Definition site_stack : Runner.Stack (host R) :=
  MkStack (host R) (st_secret st) host_db (λ w, st_log st (h_served w)) (λ w, tn_clock (st_turn st (h_served w)))
    (λ w, st_isoformat st (h_served w)) (λ w w', st_elapsed st (h_served w) (h_served w'))
    (λ w, st_arrived st (h_served w)) (st_float st) (λ w, st_age st (h_served w))
    site_execute (Proxy._send serve) (mret ()) site_quiescent site_reset.
End site.
