(* ===== verification/Parcels.v ===== *)
(** The invariant of a scenario on the running stack of Site.v: the ledger is the
    starting one with some of the scenario's transactions posted, and every new
    row of the event log is queued with its message, or done.  Deliveries, tasks,
    redeliveries and a worker killed in the middle of a task keep it. *)
From Stdlib Require Import QArith.
From S2P Require Import Processes Prelude PyVal Json Hash Ledger Post Balances Mapping Signature Dedupe.
From S2P Require Import Shed Gcra Handlers Ingest System Recon Triage Events Faults Runner Proxy Site.
#[local] Open Scope Z_scope.

(** ** Posting what is already posted *)
Lemma resolve_acceptable d l : Forall (entry_acceptable d) l → ∃ ids, resolve_accounts l [] d = (Ok ids, d).
Proof.
  intros Hl. pose proof (resolve_accounts_spec d l [] ltac:(by intros ??)) as H.
  destruct (resolve_accounts l [] d) as [[ids|x] d']; [destruct H as [-> _]; by exists ids|].
  destruct H as (_ & _ & e & He & Hn). rewrite Forall_forall in Hl. destruct (Hl e He) as (_ & a & Ha & _). congruence.
Qed.

Lemma post_taken t d : Forall (entry_acceptable d) (lt_entries t) → ¬ fresh_txn d t →
  post_event [] t d = (Ok DUPLICATE, d).
Proof.
  intros Hacc Hf. destruct (resolve_acceptable d _ Hacc) as [ids Hids].
  destruct (insert_transaction_clash t d Hf) as (c & Hc & _).
  assert (transactional (attempt_body t) d = (Err (UniqueViolation c), d)) as Ht.
  { unfold transactional, attempt_body. run. rewrite Hids. run. by rewrite Hc. }
  unfold post_event, post, post_transaction. run. cbn [post_loop Z.to_nat default_max_attempts Pos.to_nat].
  change (Z.to_nat (default_max_attempts - 1)) with 4%nat. cbn [post_loop head default _attempt]. run. rewrite Ht. run.
  case_bool_decide as Hd; run; cbn [fst snd]; [done|]. cbn [pkey_is_duplicate].
  rewrite bool_decide_false; [done|]. intros Hne. apply Hd.
  clear -Hc Hne. unfold insert_transaction in Hc. repeat (case_match; simplify_eq); try done; cbn; set_solver.
Qed.

(** The rows of the event log named by [id] get a status. *)
Lemma mark_found event s id d : py_index event "id" = Ok (PStr id) → id ∈ ev_id <$> stripe_events d →
  _mark_status event s d = (Ok (), (set_status (Some id) s d).2).
Proof.
  intros Hid (row & -> & Hin)%list_elem_of_fmap. unfold _mark_status. run. rewrite Hid. run. cbn [text_param]. run.
  rewrite (proj2 (existsb_exists_stdpp _ _)); [done|]. exists row. split; [done|]. by apply bool_decide_eq_true.
Qed.

(** ** Parcels: the events of a scenario, as the service sees them *)
Record parcel := Parcel { pc_event : pyval; pc_row : event_row; pc_txn : option ledger_transaction }.
Definition pc_id (p : parcel) : string := ev_id (pc_row p).

Record parcel_ok (p : parcel) : Prop := {
  pk_row : event_row_of (pc_event p) Received = Ok (pc_row p);
  pk_strip : strip_trace_context (pc_event p) = Ok (pc_event p);
  pk_id : py_index (pc_event p) "id" = Ok (PStr (pc_id p));
  pk_type : ∃ ty, py_index (pc_event p) "type" = Ok (PStr ty) ∧ ty ∈ HANDLED_EVENT_TYPES;
  pk_built : build_transaction (pc_event p) None = Ok (pc_txn p);
  pk_entries : ∀ t, pc_txn p = Some t → lt_entries t ≠ [] ∧
    Forall (λ e, 0 < amount_minor e <= bigint_max ∧ char3 (currency e) = Ok "USD") (lt_entries t) }.

(** A committed row leaves room for [t]. *)
Definition apart (r : txn_row) (t : ledger_transaction) : Prop :=
  t_id r ≠ lt_id t ∧ clashes (t_event r) (stripe_event_id t) = false ∧
  (clashes (t_type r) (event_type t) && clashes (t_object r) (stripe_object_id t))%bool = false.

Lemma parcel_acceptable p t d : parcel_ok p → pc_txn p = Some t → accounts d = seed_accounts →
  (acceptable d t ↔ fresh_txn d t) ∧ Forall (entry_acceptable d) (lt_entries t).
Proof.
  intros Hp Ht Ha. destruct (pk_entries p Hp t Ht) as [H1 H2]. pose proof (pk_built p Hp) as Hb. rewrite Ht in Hb.
  pose proof (built_acceptable d t _ (build_transaction_built _ _ _ Hb) Ha) as Hiff.
  split; [rewrite Hiff; split; [by intros (? & _)|by intros ?]|].
  assert (acceptable (set_transactions [] d) t) as (_ & Hf & _).
  { apply (built_acceptable (set_transactions [] d) t _ (build_transaction_built _ _ _ Hb) Ha).
    split_and!; [by intros r ?%elem_of_nil|done..]. }
  done.
Qed.

Lemma parcel_event_id p t : parcel_ok p → pc_txn p = Some t → stripe_event_id t = Some (pc_id p).
Proof.
  intros Hp Ht. pose proof (pk_built p Hp) as Hb. rewrite Ht in Hb.
  destruct (built_id _ _ (build_transaction_built _ _ _ Hb)) as (i & Hi & -> & _). rewrite (pk_id p Hp) in Hi. by injection Hi as <-.
Qed.

Lemma get_indexed v k x dflt : py_index v k = Ok x → py_get_default v k dflt = Ok x.
Proof. unfold py_index, py_get_default. destruct v as [| | | | | |m]; try done. by destruct (dict_get k m); intros; simplify_eq/=. Qed.

(** *** One task *)

(** What a healthy task leaves of a parcel whose row is in the log. *)
Definition task_result (p : parcel) (d : database) : database :=
  match pc_txn p with
  | None => (set_status (Some (pc_id p)) NoMoneyMoved d).2
  | Some t => (set_status (Some (pc_id p)) Processed (if decide (fresh_txn d t) then posted_db d t else d)).2
  end.

Lemma handle_parcel p d : parcel_ok p → ledger_ok d → accounts d = seed_accounts → pc_id p ∈ ev_id <$> stripe_events d →
  ∃ h, handle_event (pc_event p) None [] Undisturbed d = (Ok h, task_result p d).
Proof.
  intros Hp Hok Ha Hin. destruct (pk_type p Hp) as (ty & Hty & Hhan). unfold handle_event, task_result. run.
  rewrite (get_indexed _ _ _ (PStr "") Hty). cbn [hashable guard_or]. run. rewrite bool_decide_true by by apply list_elem_of_fmap_2. cbn [negb]. run.
  unfold map_event. rewrite (pk_built p Hp). run. destruct (pc_txn p) as [t|] eqn:Et; run.
  2:{ cbn [disturbed]. rewrite (mark_found _ _ (pc_id p)) by first [apply Hp|done]. run. by eexists. }
  fold (post_event [] t). destruct (parcel_acceptable p t d Hp Et Ha) as [Hiff Hent].
  case_decide as Hf.
  - assert (post_event [] t d = (Ok POSTED, posted_db d t)) as Hpost.
    { unfold post_event, post, post_transaction. run. rewrite post_loop_acceptable by (try apply Hiff; done). by run. }
    unfold post_event in Hpost. run in Hpost. rewrite Hpost. cbn [fst snd]. run. cbn [disturbed].
    rewrite (mark_found _ _ (pc_id p)) by first [apply Hp|done]. run. by eexists.
  - pose proof (post_taken t d Hent Hf) as Hpost. unfold post_event in Hpost. run in Hpost. rewrite Hpost. cbn [fst snd]. run.
    cbn [disturbed]. rewrite (mark_found _ _ (pc_id p)) by first [apply Hp|done]. run. by eexists.
Qed.

(** A message that carries the parcel. *)
Definition carries (m : pyval) (p : parcel) : Prop :=
  strip_trace_context m = Ok (pc_event p) ∧ ∃ c, extract_trace_context m = Ok c.

Lemma carries_inject p c m : parcel_ok p → inject_trace_context c (pc_event p) = Ok m → carries m p.
Proof.
  intros Hp Hm. split; [by rewrite (strip_inject c (pc_event p) m) by done; apply Hp|].
  pose proof (pk_strip p Hp) as Hs. unfold inject_trace_context in Hm. destruct c as [|kv c].
  - injection Hm as <-. unfold strip_trace_context in Hs. destruct (pc_event p); try done. by eexists.
  - destruct (pc_event p); try done. injection Hm as <-. by eexists.
Qed.

Lemma task_parcel p m d : parcel_ok p → carries m p → ledger_ok d → accounts d = seed_accounts →
  pc_id p ∈ ev_id <$> stripe_events d →
  ∃ h, process_event None [] Undisturbed Undisturbed 0 0%Q m d = (Ok (Acked h), task_result p d).
Proof.
  intros Hp [Hs [c Hc]] Hok Ha Hin. destruct (handle_parcel p d Hp Hok Ha Hin) as [h Hh].
  unfold process_event. run. rewrite Hc, Hs. run. rewrite Hh. run. by exists h.
Qed.

(** ** The invariant of a run *)

(** The parcels of a scenario are new to the database they meet and to each
    other. *)
Record stocked (d0 : database) (P : list parcel) : Prop := {
  sk_parcels : ∀ p, p ∈ P → parcel_ok p;
  sk_ids : ∀ p q, p ∈ P → q ∈ P → pc_id p = pc_id q → p = q;
  sk_objects : ∀ p q, p ∈ P → q ∈ P → same_object (pc_row p) (pc_row q) = true → p = q;
  sk_log : ∀ p row, p ∈ P → row ∈ stripe_events d0 →
    same_id (pc_row p) row = false ∧ same_object (pc_row p) row = false;
  sk_fresh : ∀ p t, p ∈ P → pc_txn p = Some t → fresh_txn d0 t;
  sk_apart : ∀ p q t u, p ∈ P → q ∈ P → p ≠ q → pc_txn p = Some t → pc_txn q = Some u → apart (txn_row_of t) u;
  sk_accounts : accounts d0 = seed_accounts }.

Lemma stocked_weaken d P Q : stocked d P → (∀ p, p ∈ Q → p ∈ P) → stocked d Q.
Proof. intros [K1 K2 K3 K4 K5 K6 K7] Hs. split; eauto. Qed.

Definition posted_all (d : database) (l : list ledger_transaction) : database := foldl posted_db d l.

Lemma posted_all_accounts l : ∀ d, accounts (posted_all d l) = accounts d.
Proof. induction l as [|t l IH]; intros d; [done|]. cbn. change (accounts (posted_all (posted_db d t) l) = accounts d). by rewrite IH. Qed.
Lemma posted_all_transactions l : ∀ d, Ledger.transactions (posted_all d l) = Ledger.transactions d ++ (txn_row_of <$> l).
Proof.
  induction l as [|t l IH]; intros d; [by rewrite app_nil_r|].
  change (Ledger.transactions (posted_all (posted_db d t) l) = Ledger.transactions d ++ (txn_row_of <$> t :: l)). rewrite IH. cbn. by rewrite <- app_assoc.
Qed.
Lemma posted_all_snoc d l t : posted_all d (l ++ [t]) = posted_db (posted_all d l) t.
Proof. unfold posted_all. by rewrite foldl_app. Qed.

Lemma posted_same_ledger d d' t : same_ledger d d' → same_ledger (posted_db d t) (posted_db d' t).
Proof.
  intros (E1 & E2 & E3). split_and!; cbn; [done|by rewrite E2|]. rewrite E3. f_equal. apply list_fmap_ext. intros _ e _.
  by apply entry_row_of_accounts.
Qed.

Lemma fresh_posted_all d l t : fresh_txn (posted_all d l) t ↔ fresh_txn d t ∧ ∀ u, u ∈ l → apart (txn_row_of u) t.
Proof.
  unfold fresh_txn. rewrite posted_all_transactions. setoid_rewrite elem_of_app. split.
  - intros H. split; [intros r Hr; apply H; by left|]. intros u Hu. apply H. right. by apply list_elem_of_fmap_2.
  - intros [H1 H2] r [Hr|(u & -> & Hu)%list_elem_of_fmap]; [by apply H1|by apply H2].
Qed.

(** The parcel's row, whatever its status. *)
Definition row_of (p : parcel) (row : event_row) : Prop :=
  ev_id row = pc_id p ∧ ev_type row = ev_type (pc_row p) ∧ ev_object row = ev_object (pc_row p) ∧ ev_payload row = pc_event p.

Definition logged (p : parcel) (rows : list event_row) : Prop := ∃ row, row ∈ rows ∧ row_of p row.

(** The same parcels are logged. *)
Definition alike (rows rows' : list event_row) : Prop := ∀ x, logged x rows ↔ logged x rows'.
#[export] Instance alike_equivalence : Equivalence alike.
Proof. split; [by intros rows x|by intros r1 r2 H x|intros r1 r2 r3 H1 H2 x]. by rewrite (H1 x). Qed.

Section invariant.
Context {R : Type} (d0 : database) (P : list parcel).
Implicit Types (a : app_state R) (whole : bool).

(** What the status of a row promises; [whole] says that the broker lost
    nothing. *)
Definition status_kept whole (queue : list pyval) (done : list ledger_transaction) (p : parcel) (st : event_status) : Prop :=
  match st with
  | Queued => whole = true → ∃ m, m ∈ queue ∧ carries m p
  | Processed => ∃ t, pc_txn p = Some t ∧ t ∈ done
  | NoMoneyMoved => pc_txn p = None
  | _ => False
  end.

(** The ledger is the starting one with the transactions [done] posted, the event
    log the starting one with [rows]. *)
Record holds whole a (done : list ledger_transaction) (rows : list event_row) : Prop := {
  hd_ok : ledger_ok (a_db a);
  hd_ledger : same_ledger (posted_all d0 done) (a_db a);
  hd_once : NoDup done;
  hd_done : ∀ t, t ∈ done → ∃ p, p ∈ P ∧ pc_txn p = Some t ∧ logged p rows;
  hd_log : stripe_events (a_db a) = stripe_events d0 ++ rows;
  hd_unique : NoDup (ev_id <$> rows);
  hd_rows : ∀ row, row ∈ rows → ∃ p, p ∈ P ∧ row_of p row ∧ status_kept whole (a_queue a) done p (ev_status row);
  hd_queue : ∀ m, m ∈ a_queue a → ∃ p, p ∈ P ∧ carries m p ∧ logged p rows;
  hd_shed : a_shedder a = None }.

Definition kept whole a : Prop := ∃ done rows, holds whole a done rows.

Context (Hstock : stocked d0 P).

Lemma row_parcel p q row : p ∈ P → q ∈ P → row_of p row → ev_id row = pc_id q → p = q.
Proof. intros Hp Hq (E & _) E'. apply (sk_ids d0 P); [done..|]. congruence. Qed.

Lemma holds_accounts whole a done rows : holds whole a done rows → accounts (a_db a) = seed_accounts.
Proof. intros H. destruct (hd_ledger _ _ _ _ H) as (-> & _). rewrite posted_all_accounts. apply Hstock. Qed.

Lemma logged_in_db whole a done rows p : holds whole a done rows → logged p rows → pc_id p ∈ ev_id <$> stripe_events (a_db a).
Proof.
  intros H (row & Hin & E & _). apply list_elem_of_fmap. exists row. split; [done|]. rewrite (hd_log _ _ _ _ H). set_solver.
Qed.

(** Setting the status of a parcel's row leaves the rows of before alone. *)
Lemma set_status_log p s rows d : p ∈ P → stripe_events d = stripe_events d0 ++ rows →
  stripe_events (set_status (Some (pc_id p)) s d).2 =
  stripe_events d0 ++ (update_status (λ row, bool_decide (Some (ev_id row) = Some (pc_id p))) s <$> rows).
Proof.
  intros Hp E. cbn. rewrite E, fmap_app. f_equal. rewrite <- (list_fmap_id (stripe_events d0)) at 2.
  apply list_fmap_ext. intros i row Hi%list_elem_of_lookup_2. unfold update_status. rewrite bool_decide_false; [done|].
  intros [= E']. destruct (sk_log d0 P Hstock p row Hp Hi) as [Hn _]. unfold same_id in Hn. by bool_to_prop.
Qed.

Lemma update_row_of p q s row : row_of p (update_status q s row) ↔ row_of p row.
Proof. unfold row_of, update_status. by destruct (q row). Qed.

Lemma update_status_ids q s (rows : list event_row) : ev_id <$> (update_status q s <$> rows) = ev_id <$> rows.
Proof. rewrite <- list_fmap_compose. apply list_fmap_ext. intros. apply update_status_id. Qed.

Lemma logged_update p q s rows : logged p (update_status q s <$> rows) ↔ logged p rows.
Proof.
  unfold logged. split.
  - intros (row & (row' & -> & Hin)%list_elem_of_fmap & Hr%update_row_of). eauto.
  - intros (row & Hin & Hr). exists (update_status q s row). split; [by apply list_elem_of_fmap_2|]. by apply update_row_of.
Qed.

(** *** The worker *)

(** Posting and marking, either of which a task that is cut short may not reach. *)
Inductive posting (p : parcel) (d : database) : database → Prop :=
  | posting_none : posting p d d
  | posting_one t : pc_txn p = Some t → fresh_txn d t → posting p d (posted_db d t).
Inductive marking (p : parcel) (d : database) : bool → database → Prop :=
  | marking_none : marking p d false d
  | marking_idle : pc_txn p = None → marking p d true (set_status (Some (pc_id p)) NoMoneyMoved d).2
  | marking_done t : pc_txn p = Some t → ¬ fresh_txn d t → marking p d true (set_status (Some (pc_id p)) Processed d).2.

Lemma posted_ok d t p : p ∈ P → pc_txn p = Some t → accounts d = seed_accounts → ledger_ok d → fresh_txn d t →
  ledger_ok (posted_db d t).
Proof.
  intros Hp Ht Ha Hok Hf. pose proof (post_keeps [] t d Hok) as [H _]. unfold post, post_transaction in H.
  rewrite post_loop_acceptable in H; [done|done|].
  by apply (parcel_acceptable p t d (sk_parcels d0 P Hstock p Hp) Ht Ha).
Qed.

Lemma same_ledger_fresh d d' t : same_ledger d d' → fresh_txn d t ↔ fresh_txn d' t.
Proof. intros (_ & E & _). unfold fresh_txn. by rewrite E. Qed.

(** A parcel's transaction is posted unless the ledger has room for it. *)
Lemma not_fresh_done whole a done rows p t : holds whole a done rows → p ∈ P → pc_txn p = Some t →
  ¬ fresh_txn (a_db a) t → t ∈ done.
Proof.
  intros H Hp Ht Hn. destruct (decide (t ∈ done)) as [|Hnin]; [done|]. destruct Hn.
  rewrite <- (same_ledger_fresh _ _ t (hd_ledger _ _ _ _ H)), fresh_posted_all. split; [by eapply sk_fresh|].
  intros u Hu. destruct (hd_done _ _ _ _ H u Hu) as (q & Hq & Hqu & _).
  destruct (decide (pc_id q = pc_id p)) as [E|Hne].
  - apply (sk_ids d0 P Hstock q p Hq Hp) in E as ->. congruence.
  - eapply (sk_apart d0 P Hstock q p u t); try done. by intros ->.
Qed.

Lemma posting_holds whole a done rows p d' : holds whole a done rows → p ∈ P → logged p rows → posting p (a_db a) d' →
  ∃ done', done ⊆ done' ∧ holds whole (with_log d' (a_queue a) a) done' rows.
Proof.
  intros H Hp Hlog [|t Ht Hf]; [exists done; split; [done|by destruct H]|]. exists (done ++ [t]). split; [set_solver|].
  pose proof (holds_accounts _ _ _ _ H) as Ha. destruct H as [H1 H2 H3 H4 H5 HU H6 H7 H8]. split; cbn [a_db with_log a_queue a_shedder]; [..|done].
  - by apply (posted_ok _ _ p).
  - rewrite posted_all_snoc. by apply posted_same_ledger.
  - apply NoDup_snoc; [done|]. intros Hin. rewrite <- (same_ledger_fresh _ _ t H2), fresh_posted_all in Hf.
    by destruct Hf as [_ Hf]; destruct (Hf t Hin) as [[] _].
  - intros u [Hu| ->%list_elem_of_singleton]%elem_of_app; [by apply H4|]. by exists p.
  - done.
  - done.
  - intros row Hin. destruct (H6 row Hin) as (q & Hq & Hr & Hs). exists q. split_and!; [done..|].
    unfold status_kept in *. destruct (ev_status row); try done. destruct Hs as (u & Hu & Hin'). exists u. set_solver.
  - done.
Qed.

Lemma marking_holds whole whole' a done rows p marked d' q : holds whole a done rows → p ∈ P →
  marking p (a_db a) marked d' → q ⊆ a_queue a →
  (whole' = true → whole = true ∧ ∀ m, m ∈ a_queue a → m ∈ q ∨ (carries m p ∧ marked = true)) →
  ∃ rows', holds whole' (with_log d' q a) done rows' ∧ alike rows rows'.
Proof.
  intros H Hp Hm Hq Hw.
  assert (∀ x m, x ∈ P → carries m x → carries m p → x = p) as Hone.
  { intros x m Hx [E1 _] [E2 _]. apply (sk_ids d0 P Hstock); [done..|]. rewrite E1 in E2. injection E2 as E.
    pose proof (pk_id x (sk_parcels d0 P Hstock x Hx)) as F1. pose proof (pk_id p (sk_parcels d0 P Hstock p Hp)) as F2. rewrite E in F1.
    rewrite F1 in F2. by injection F2. }
  assert (∃ s rows', stripe_events d' = stripe_events d0 ++ rows' ∧ same_ledger (a_db a) d' ∧
    (rows' = if marked then update_status (λ row, bool_decide (Some (ev_id row) = Some (pc_id p))) s <$> rows else rows) ∧
    (marked = true → s = NoMoneyMoved ∧ pc_txn p = None ∨ s = Processed ∧ ∃ t, pc_txn p = Some t ∧ t ∈ done))
    as (s & rows' & Hlog & Hled & Hrows' & Hs).
  { pose proof (hd_log _ _ _ _ H) as Hl. destruct Hm as [|Hn|t Ht Hf].
    - by exists Received, rows.
    - exists NoMoneyMoved. eexists. split_and!; [by apply set_status_log|done|done|auto].
    - exists Processed. eexists. split_and!; [by apply set_status_log|done|done|]. intros _. right. split; [done|].
      exists t. split; [done|]. by eapply not_fresh_done. }
  assert (alike rows rows') as Hlogged.
  { subst rows'. destruct marked; [|done]. intros x. by rewrite logged_update. }
  exists rows'. split; [|done]. destruct H as [H1 H2 H3 H4 H5 HU H6 H7 H8]. split; cbn [a_db with_log a_queue a_shedder]; try done.
  - by eapply same_ledger_ok.
  - by etrans.
  - intros t Ht. destruct (H4 t Ht) as (x & ? & ? & ?). exists x. split_and!; [done..|by apply Hlogged].
  - subst rows'. destruct marked; [|done]. by rewrite update_status_ids.
  - assert (∀ row, row ∈ rows → (marked = true → ev_id row ≠ pc_id p) →
      ∃ x, x ∈ P ∧ row_of x row ∧ status_kept whole' q done x (ev_status row)) as Hold.
    { intros row Hin Hne. destruct (H6 row Hin) as (x & Hx & Hr & Hk). exists x. split_and!; [done..|].
      unfold status_kept in *. destruct (ev_status row); try done. intros Hw'. destruct (Hw Hw') as [Hwh Hkeep].
      destruct (Hk Hwh) as (m & Hm' & Hc). exists m. split; [|done]. destruct (Hkeep m Hm') as [|[Hcp Hmk]]; [done|].
      exfalso. apply (Hne Hmk). rewrite <- (Hone x m Hx Hc Hcp). apply Hr. }
    intros row Hin. subst rows'. destruct marked; [|by apply Hold].
    apply list_elem_of_fmap in Hin as (row0 & -> & Hin). destruct (decide (ev_id row0 = pc_id p)) as [E|E].
    + exists p. split; [done|]. destruct (H6 row0 Hin) as (x & Hx & Hr & _).
      assert (x = p) as -> by (apply (sk_ids d0 P Hstock); [done..|]; destruct Hr as (Er & _); congruence).
      split; [by apply update_row_of|]. unfold update_status. rewrite bool_decide_true by congruence. cbn [ev_status].
      destruct (Hs eq_refl) as [[-> ?]|[-> ?]]; done.
    + unfold update_status. rewrite bool_decide_false by congruence. by apply Hold.
  - intros m Hin. destruct (H7 m (Hq m Hin)) as (x & ? & ? & ?). exists x. split_and!; [done..|by apply Hlogged].
Qed.

Lemma posted_not_fresh d t : ¬ fresh_txn (posted_db d t) t.
Proof. intros Hf. destruct (Hf (txn_row_of t)) as [[] _]; [|done]. cbn. set_solver. Qed.

Lemma disturbed_marking p s f d : p ∈ P → pc_id p ∈ ev_id <$> stripe_events d →
  marking p d true (set_status (Some (pc_id p)) s d).2 →
  ∃ b, marking p d b (disturbed f (_mark_status (pc_event p) s) d).2.
Proof.
  intros Hp Hin Hm. pose proof (mark_found (pc_event p) s (pc_id p) d (pk_id p (sk_parcels d0 P Hstock p Hp)) Hin) as E.
  destruct f as [| |[]]; cbn [disturbed snd raise]; rewrite ?E; cbn [snd]; first [by exists true|exists false; constructor].
Qed.

(** A task that is cut short anywhere. *)
Lemma handle_cut p posts mark d : p ∈ P → ledger_ok d → pc_id p ∈ ev_id <$> stripe_events d →
  ∃ d1 b, posting p d d1 ∧ marking p d1 b (handle_event (pc_event p) None posts mark d).2.
Proof.
  intros HpP Hok Hin. pose proof (sk_parcels d0 P Hstock p HpP) as Hp. destruct (pk_type p Hp) as (ty & Hty & Hhan).
  unfold handle_event. run. rewrite (get_indexed _ _ _ (PStr "") Hty). cbn [hashable guard_or]. run.
  rewrite bool_decide_true by by apply list_elem_of_fmap_2. cbn [negb]. run.
  unfold map_event. rewrite (pk_built p Hp). destruct (pc_txn p) as [t|] eqn:Et; run.
  2:{ exists d. destruct (disturbed_marking p NoMoneyMoved mark d HpP Hin (marking_idle p d Et)) as [b Hb].
      exists b. split; [constructor|]. by destruct (disturbed _ _ d) as [[[]|] d2]; run. }
  pose proof (post_event_spec posts t d Hok) as (_ & He & Hs). unfold post_event in He, Hs. run in He. run in Hs.
  destruct (match post posts t d with (Err e, s') => pkey_is_duplicate e s' | (Ok a, s') => (Ok a, s') end)
    as [[[]|e] d1]; cbn [snd] in *; run.
  - destruct Hs as [[Hf _] ->]. exists (posted_db d t).
    destruct (disturbed_marking p Processed mark (posted_db d t) HpP Hin
      (marking_done p (posted_db d t) t Et (posted_not_fresh d t))) as [b Hb].
    exists b. split; [by econstructor|]. by destruct (disturbed _ _ (posted_db d t)) as [[[]|] d2]; run.
  - destruct Hs as [-> Hf]. exists d.
    destruct (disturbed_marking p Processed mark d HpP Hin (marking_done p d t Et Hf)) as [b Hb].
    exists b. split; [constructor|]. by destruct (disturbed _ _ d) as [[[]|] d2]; run.
  - destruct Hs as [-> |[[Hf _] ->]]; [exists d, false; split; constructor|].
    exists (posted_db d t), false. split; [by econstructor|constructor].
Qed.

Lemma task_cut p m posts mark d : p ∈ P → carries m p → ledger_ok d → pc_id p ∈ ev_id <$> stripe_events d →
  ∃ d1 b, posting p d d1 ∧ marking p d1 b (process_event None posts mark Undisturbed 0 0%Q m d).2.
Proof.
  intros Hp [Hs [c Hc]] Hok Hin. destruct (handle_cut p posts mark d Hp Hok Hin) as (d1 & b & H1 & H2).
  exists d1, b. split; [done|]. unfold process_event. run. rewrite Hc, Hs. run.
  by destruct (handle_event (pc_event p) None posts mark d) as [[h|e] d2]; run.
Qed.

(** One healthy task posts and marks. *)
Lemma task_whole p d : p ∈ P → ∃ d1, posting p d d1 ∧ marking p d1 true (task_result p d).
Proof.
  intros Hp. unfold task_result. destruct (pc_txn p) as [t|] eqn:Et.
  - case_decide as Hf; [|exists d; split; [constructor|by econstructor]].
    exists (posted_db d t). split; [by econstructor|]. apply (marking_done p _ t Et). apply posted_not_fresh.
  - exists d. split; [constructor|]. by apply marking_idle.
Qed.

Lemma posting_log p d d1 : posting p d d1 → stripe_events d1 = stripe_events d.
Proof. by destruct 1. Qed.

Lemma handle_next_holds whole a done rows : holds whole a done rows →
  ∃ done' rows', holds whole (handle_next a) done' rows' ∧ alike rows rows' ∧
    a_queue (handle_next a) = drop 1 (a_queue a).
Proof.
  intros H. unfold handle_next. destruct (a_queue a) as [|m q] eqn:Eq; [exists done, rows; by split_and!|].
  destruct (hd_queue _ _ _ _ H m) as (p & Hp & Hc & Hlog); [rewrite Eq; left|].
  pose proof (holds_accounts _ _ _ _ H) as Ha. pose proof (logged_in_db _ _ _ _ p H Hlog) as Hin.
  destruct (task_parcel p m (a_db a) (sk_parcels d0 P Hstock p Hp) Hc (hd_ok _ _ _ _ H) Ha Hin) as [h ->].
  destruct (task_whole p (a_db a) Hp) as (d1 & H1 & H2).
  destruct (posting_holds _ _ _ _ _ _ H Hp Hlog H1) as (done' & _ & H').
  destruct (marking_holds whole whole _ done' rows p true (task_result p (a_db a)) q H' Hp H2) as (rows' & H'' & Hm).
  - cbn [a_queue with_log]. rewrite Eq. set_solver.
  - intros ->. split; [done|]. cbn [a_queue with_log]. rewrite Eq. intros x [->|Hx]%elem_of_cons; [by right|by left].
  - exists done', rows'. by split_and!.
Qed.

Lemma drain_holds whole n : ∀ a done rows, holds whole a done rows →
  ∃ done' rows', holds whole (drain n a) done' rows' ∧ alike rows rows' ∧ a_queue (drain n a) = drop n (a_queue a).
Proof.
  unfold drain. induction n as [|n IH]; intros a done rows H; [by exists done, rows; rewrite drop_0|].
  destruct (IH a done rows H) as (done' & rows' & H' & Hm & Hq).
  change (Nat.iter (S n) handle_next a) with (handle_next (Nat.iter n handle_next a)).
  destruct (handle_next_holds _ _ _ _ H') as (done'' & rows'' & H'' & Hm' & Hq'). exists done'', rows''.
  split_and!; [done|by etrans|]. rewrite Hq', Hq, drop_drop. f_equal. lia.
Qed.

Lemma holds_weaken whole a done rows : holds whole a done rows → holds false a done rows.
Proof.
  intros [H1 H2 H3 H4 H5 HU H6 H7 H8]. split; try done. intros row Hin. destruct (H6 row Hin) as (x & Hx & Hr & Hs).
  exists x. split_and!; [done..|]. by destruct (ev_status row).
Qed.

Lemma kill_holds {F} `{Arith F} `{RedisClient F R} (st : site F) whole w done rows : holds whole (h_app w) done rows →
  ∃ w' done' rows', kill_worker st w = (Ok (), w') ∧ h_served w' = h_served w ∧ holds false (h_app w') done' rows' ∧ alike rows rows'.
Proof.
  intros Hh. unfold kill_worker.
  apply holds_weaken in Hh as Hf.
  destruct (a_queue (h_app w)) as [|m q] eqn:Eq; [by exists w, done, rows|].
  destruct (hd_queue _ _ _ _ Hf m) as (p & Hp & Hc & Hlog); [rewrite Eq; left|].
  destruct (task_cut p m (ct_posts (st_turn st (h_served w))) (ct_mark (st_turn st (h_served w))) (a_db (h_app w)) Hp Hc
    (hd_ok _ _ _ _ Hf) (logged_in_db _ _ _ _ p Hf Hlog)) as (d1 & b & H1 & H2).
  destruct (posting_holds _ _ _ _ _ _ Hf Hp Hlog H1) as (done' & _ & H').
  destruct (marking_holds false false _ done' rows p b _ (if ct_lost (st_turn st (h_served w)) then q else m :: q) H' Hp H2)
    as (rows' & H'' & Hm); [|done|].
  { cbn [a_queue with_log]. rewrite Eq. case_match; set_solver. }
  eexists _, done', rows'. split_and!; [reflexivity|done|exact H''|done].
Qed.

(** *** Deliveries *)

Lemma mark_queued_log id d : (∀ row, row ∈ stripe_events d → ev_id row = id → ev_status row ≠ Received) →
  (mark_queued id d).2 = d.
Proof.
  intros Hn. cbn. destruct d as [accs txns es evs]. unfold set_stripe_events. cbn in *. f_equal.
  rewrite <- (list_fmap_id evs) at 2. apply list_fmap_ext. intros i row Hi%list_elem_of_lookup_2.
  unfold update_status. case_match; [|done]. bool_to_prop. by destruct (Hn row Hi).
Qed.

Context {F : Type} `{HA : Arith F} `{HR : RedisClient F R} (cfg : app_config F).

(** Nothing disturbs the request. *)
Definition undisturbed (e : world F) : Prop := w_check e = Undisturbed ∧ w_enqueue e = None ∧ w_mark e = Undisturbed.

Definition queued_ok : http_res := JSONResponse [("status", PStr "queued")] 200.
Definition duplicate_ok : http_res := JSONResponse [("status", PStr "duplicate")] 200.

Lemma enqueue_parcel e p a : undisturbed e → parcel_ok p → ∃ m, carries m p ∧
  enqueue_and_mark e (pc_event p) (pc_id p) a =
  (Ok queued_ok, with_log (mark_queued (pc_id p) (a_db a)).2 (a_queue a ++ [m]) a).
Proof.
  intros (_ & He & Hm) Hp. assert (∃ m, inject_trace_context (w_carrier e) (pc_event p) = Ok m) as [m Hi].
  { pose proof (pk_strip p Hp) as Hs. unfold inject_trace_context. destruct (w_carrier e); [by eexists|].
    unfold strip_trace_context in Hs. destruct (pc_event p); try done. by eexists. }
  exists m. split; [by eapply carries_inject|]. unfold enqueue_and_mark, enqueue. run. rewrite Hi. run. rewrite He. run.
  unfold mark_queued_of. rewrite on_db_run, Hm. cbn [disturbed]. by run.
Qed.

(** A delivery whose event is already logged leaves the rows alone; if its row is
    not finished, the message is queued again. *)
Lemma webhook_logged e r a whole done rows event id row0 : holds whole a done rows → undisturbed e →
  accepted_event cfg e r = inr (event, id) → event_row_of event Received = Ok row0 →
  (∀ row, row ∈ stripe_events d0 → same_id row0 row = false ∧ same_object row0 row = false) →
  (∃ row, row ∈ rows ∧ (same_id row0 row || same_object row0 row)%bool = true) →
  ∃ res a', webhook cfg e r a = (Ok res, a') ∧ rs_status res = 200 ∧ holds whole a' done rows ∧
    ((∀ p q, p ∈ P → q ∈ P → p = q) → holds true a' done rows).
Proof.
  intros Hh He Hacc Hrow Hnew Hblocked. pose proof Hh as [H1 H2 H3 H4 H5 HU H6 H7 H8].
  unfold webhook. rewrite Hacc. run. unfold check_and_record_of. rewrite on_db_run. destruct He as (Hec & He). rewrite Hec. cbn [disturbed].
  pose proof (check_and_record_spec event (a_db a)) as Hs.
  destruct (check_and_record event (a_db a)) as [[result|x] d1]; cbn [fst snd]; [|destruct Hs; congruence].
  destruct Hs as (row0' & Hrow' & Hs). rewrite Hrow in Hrow'. injection Hrow' as <-.
  destruct (new result); cbn [negb].
  { exfalso. destruct Hblocked as (row & Hin & Hb). destruct Hs as (_ & _ & Hs). destruct (Hs row) as [E1 E2]; [rewrite H5; set_solver|].
    by rewrite E1, E2 in Hb. }
  destruct Hs as (-> & row & Hin & -> & Hb & _). cbn [found existing_status existing_id existing_payload].
  assert (with_db a (a_db a) = a) as -> by by destruct a.
  assert (row ∈ rows) as Hr.
  { rewrite H5 in Hin. apply elem_of_app in Hin as [Hin|]; [|done]. destruct (Hnew row Hin) as [E1 E2]. by rewrite E1, E2 in Hb. }
  destruct (H6 row Hr) as (p & Hp & Hrp & Hst). destruct Hrp as (Ei & Et & Eo & Ep).
  assert (∀ row', row' ∈ rows → ev_status row' ≠ Received) as Hnr.
  { intros row' Hin'. destruct (H6 row' Hin') as (q & _ & _ & Hq). unfold status_kept in Hq. by destruct (ev_status row'). }
  assert (∀ row', row' ∈ rows → (∀ p q, p ∈ P → q ∈ P → p = q) → row' = row) as Hsingle.
  { intros row' Hin' Hone. destruct (H6 row' Hin') as (q & Hq & (Eq & _) & _). rewrite (Hone q p Hq Hp) in Eq.
    apply list_elem_of_lookup in Hr as [i Hi], Hin' as [j Hj].
    assert (i = j) as ->; [|congruence]. eapply (NoDup_lookup _ _ _ (pc_id p) HU); rewrite list_lookup_fmap, ?Hi, ?Hj; cbn; congruence. }
  case_bool_decide as Hterm.
  - rewrite Ep, Ei. destruct (enqueue_parcel e p a) as (m & Hm & ->); [by split|by apply Hstock|].
    rewrite mark_queued_log.
    2:{ intros row' Hin' E'. rewrite H5 in Hin'. apply elem_of_app in Hin' as [Hin'|Hin']; [|by apply Hnr].
        destruct (sk_log d0 P Hstock p row' Hp Hin') as [Hx _]. unfold same_id in Hx. bool_to_prop. by destruct Hx. }
    assert (∀ w, (w = true → (whole = true ∨ ∀ p q, p ∈ P → q ∈ P → p = q)) → holds w (with_log (a_db a) (a_queue a ++ [m]) a) done rows) as Hgen.
    { intros w Hw. split; cbn [a_db with_log a_queue a_shedder]; try done.
      - intros row' Hin'. destruct (H6 row' Hin') as (q & Hq & Hrq & Hk). exists q. split_and!; [done..|].
        unfold status_kept in *. destruct (ev_status row') eqn:Es; try done. intros Hwt. destruct (Hw Hwt) as [Hwh|Hone].
        + destruct (Hk Hwh) as (m' & ? & ?). exists m'. set_solver.
        + exists m. split; [set_solver|]. by rewrite (Hone q p).
      - intros x [Hx| ->%list_elem_of_singleton]%elem_of_app; [by apply H7|]. exists p. split_and!; [done..|]. by exists row. }
    eexists _, _. split_and!; [reflexivity|done|apply Hgen; by left|intros Hone; apply Hgen; by right].
  - eexists _, _. split_and!; [reflexivity|done|done|]. intros Hone. split; try done.
    intros row' Hin'. rewrite (Hsingle row' Hin' Hone). exists p. split_and!; [done..|].
    unfold status_kept in *. unfold NON_TERMINAL_STATUSES in Hterm. destruct (ev_status row); try done. exfalso. apply Hterm. set_solver.
Qed.

Definition blocks (r row : event_row) : bool := (same_id r row || same_object r row)%bool.

(** A row that blocks a parcel is the parcel's. *)
Lemma blocks_own p q row : p ∈ P → q ∈ P → row_of q row → blocks (pc_row p) row = true → q = p.
Proof.
  intros Hp Hq (Ei & Et & Eo & _) [Hb|Hb]%orb_true_iff.
  - unfold same_id in Hb. bool_to_prop. apply (sk_ids d0 P Hstock); [done..|]. by rewrite <- Ei, Hb.
  - symmetry. apply (sk_objects d0 P Hstock); [done..|]. unfold same_object in *. by rewrite <- Et, <- Eo.
Qed.

Definition row_queued (r : event_row) : event_row :=
  EventRow (ev_id r) (ev_type r) (ev_object r) (ev_payload r) Queued.

Lemma row_queued_of p : p ∈ P → row_of p (row_queued (pc_row p)).
Proof.
  intros Hp. split_and!; [done..|]. cbn. apply (event_row_payload _ _ _ (pk_row p (sk_parcels d0 P Hstock p Hp))).
Qed.

(** A fresh row, marked as soon as its message is queued. *)
Lemma mark_fresh p rows : p ∈ P → ev_id (pc_row p) ∉ ev_id <$> rows → ∀ d,
  stripe_events d = (stripe_events d0 ++ rows) ++ [pc_row p] →
  stripe_events (mark_queued (pc_id p) d).2 = stripe_events d0 ++ rows ++ [row_queued (pc_row p)].
Proof.
  intros Hp Hn d E. cbn. rewrite E, fmap_app, (app_assoc (stripe_events d0)). cbn [fmap list_fmap].
  pose proof (proj2 (event_row_payload _ _ _ (pk_row p (sk_parcels d0 P Hstock p Hp)))) as Hst.
  f_equal; [|f_equal].
  - rewrite <- (list_fmap_id (stripe_events d0 ++ rows)) at 2. apply list_fmap_ext. intros i row Hi%list_elem_of_lookup_2.
    unfold update_status. rewrite bool_decide_false; [done|]. intros E'. apply elem_of_app in Hi as [Hi|Hi].
    + destruct (sk_log d0 P Hstock p row Hp Hi) as [Hx _]. unfold same_id in Hx. by bool_to_prop.
    + apply Hn. apply list_elem_of_fmap. by exists row.
  - unfold update_status, row_queued. unfold pc_id. rewrite !bool_decide_true by done. done.
Qed.

Lemma webhook_unlogged e r a whole done rows p : holds whole a done rows → undisturbed e → p ∈ P →
  accepted_event cfg e r = inr (pc_event p, pc_id p) → (∀ row, row ∈ rows → blocks (pc_row p) row = false) →
  ∃ a', webhook cfg e r a = (Ok queued_ok, a') ∧
    holds whole a' done (rows ++ [row_queued (pc_row p)]) ∧
    ((∀ p q, p ∈ P → q ∈ P → p = q) → holds true a' done (rows ++ [row_queued (pc_row p)])).
Proof.
  intros Hh He Hp Hacc Hno. pose proof Hh as [H1 H2 H3 H4 H5 HU H6 H7 H8]. pose proof (sk_parcels d0 P Hstock p Hp) as Hok.
  unfold webhook. rewrite Hacc. run. unfold check_and_record_of. rewrite on_db_run. rewrite (proj1 He). cbn [disturbed].
  unfold check_and_record. run. rewrite (pk_row p Hok). run. unfold insert_event.
  assert (∀ row, row ∈ stripe_events (a_db a) → same_id (pc_row p) row = false ∧ same_object (pc_row p) row = false) as Hall.
  { rewrite H5. intros row [Hin|Hin]%elem_of_app; [by apply (sk_log d0 P Hstock p)|]. by apply orb_false_iff, Hno. }
  rewrite (proj2 (existsb_false _ _)) by (intros; by apply Hall).
  rewrite (proj2 (existsb_false _ _)) by (intros; by apply Hall). run. cbn [fst snd new negb].
  set (d1 := set_stripe_events (stripe_events (a_db a) ++ [pc_row p]) (a_db a)).
  destruct (enqueue_parcel e p (with_db a d1) He Hok) as (m & Hm & ->). cbn [with_db a_db a_queue].
  assert (ev_id (pc_row p) ∉ ev_id <$> rows) as Hfresh.
  { intros (row & E & Hin)%list_elem_of_fmap. apply Hno, orb_false_iff in Hin as [Hx _]. unfold same_id in Hx. by bool_to_prop. }
  assert (∀ w, (w = true → whole = true ∨ ∀ p q, p ∈ P → q ∈ P → p = q) →
    holds w (with_log (mark_queued (pc_id p) d1).2 (a_queue a ++ [m]) (with_db a d1)) done (rows ++ [row_queued (pc_row p)])) as Hgen.
  { intros w Hw. split; cbn [a_db with_log a_queue a_shedder with_db]; try done.
    - by eapply same_ledger_ok; [|exact H1].
    - intros t Ht. destruct (H4 t Ht) as (q & ? & ? & row & ? & ?). exists q. split_and!; [done..|]. exists row. set_solver.
    - apply mark_fresh; [done..|]. by rewrite <- H5.
    - rewrite fmap_app. by apply NoDup_snoc.
    - intros row [Hin| ->%list_elem_of_singleton]%elem_of_app.
      + destruct (H6 row Hin) as (q & Hq & Hrq & Hk). exists q. split_and!; [done..|]. unfold status_kept in *.
        destruct (ev_status row); try done. intros Hwt. destruct (Hw Hwt) as [Hwh|Hone].
        * destruct (Hk Hwh) as (m' & ? & ?). exists m'. set_solver.
        * exists m. split; [set_solver|]. by rewrite (Hone q p).
      + exists p. split_and!; [done|by apply row_queued_of|]. intros _. exists m. set_solver.
    - intros x [Hx| ->%list_elem_of_singleton]%elem_of_app.
      + destruct (H7 x Hx) as (q & ? & ? & row & ? & ?). exists q. split_and!; [done..|]. exists row. set_solver.
      + exists p. split_and!; [done..|]. exists (row_queued (pc_row p)). split; [set_solver|by apply row_queued_of]. }
  eexists. split_and!; [reflexivity|apply Hgen; by left|intros Hone; apply Hgen; by right].
Qed.

(** A delivery of one of the parcels. *)
Lemma webhook_parcel e r a whole done rows p : holds whole a done rows → undisturbed e → p ∈ P →
  accepted_event cfg e r = inr (pc_event p, pc_id p) →
  ∃ res a' rows', webhook cfg e r a = (Ok res, a') ∧ rs_status res = 200 ∧ holds whole a' done rows' ∧
    (∀ x, x ∈ P → logged x rows' ↔ logged x rows ∨ x = p) ∧ ((∀ p q, p ∈ P → q ∈ P → p = q) → holds true a' done rows').
Proof.
  intros Hh He Hp Hacc. destruct (existsb (blocks (pc_row p)) rows) eqn:Eb.
  - apply existsb_exists_stdpp in Eb as (row & Hin & Hb).
    destruct (webhook_logged e r a whole done rows _ _ (pc_row p) Hh He Hacc (pk_row p (sk_parcels d0 P Hstock p Hp))) as (res & a' & ? & ? & ? & ?);
      [intros; by eapply sk_log|by exists row|].
    destruct (hd_rows _ _ _ _ Hh row Hin) as (q & Hq & Hrq & _). rewrite (blocks_own p q row Hp Hq Hrq Hb) in Hrq.
    exists res, a', rows. split_and!; [done..| |done]. intros x _. split; [by left|]. intros [| ->]; [done|]. by exists row.
  - rewrite existsb_false in Eb.
    destruct (webhook_unlogged e r a whole done rows p Hh He Hp Hacc Eb) as (a' & ? & ? & ?).
    eexists _, a', _. split_and!; [done|done|done| |done]. intros x Hx. split.
    + intros (row & [Hin| ->%list_elem_of_singleton]%elem_of_app & Hrow); [left; by exists row|right].
      apply (sk_ids d0 P Hstock); [done..|]. by destruct Hrow as [<- _].
    + intros [(row & ? & ?)| ->]; [exists row; set_solver|]. exists (row_queued (pc_row p)).
      split; [set_solver|by apply row_queued_of].
Qed.
End invariant.
