(* ===== verification/Observe.v ===== *)
(** What the runner of Runner.v observes when a scenario has settled, against
    what harness/faults.py told it to expect: the balances that moved, the rows
    that were posted, and the sums of the planned deltas. *)
From S2P Require Import Processes Prelude PyVal Json Hash Ledger Post Balances Mapping Signature Dedupe.
From S2P Require Import Handlers Recon Prompts Triage Events Faults Runner Site Parcels.
#[local] Open Scope Z_scope.

(** ** Maps up to zeros *)
Lemma nonzero_lookup m a : nonzero m !! a = (if decide (default 0 (m !! a) = 0) then None else Some (default 0 (m !! a))).
Proof.
  unfold nonzero. destruct (m !! a) as [v|] eqn:E; cbn [default from_option id].
  - case_decide as Hv.
    + apply map_lookup_filter_None_2. right. intros v' E'. rewrite E in E'. injection E' as <-. cbn. by intros [].
    + by apply map_lookup_filter_Some_2.
  - rewrite decide_True by done. apply map_lookup_filter_None_2. by left.
Qed.

Lemma nonzero_ext m1 m2 : (∀ a, default 0 (m1 !! a) = default 0 (m2 !! a)) → nonzero m1 = nonzero m2.
Proof. intros H. apply map_eq. intros a. by rewrite !nonzero_lookup, H. Qed.

(** ** Balances *)
Lemma all_balances_seeded d : accounts d = seed_accounts →
  all_balances d = (λ a, (acc_name a, balance_minor a (entries d))) <$> seed_accounts.
Proof. intros E. unfold all_balances, account_balances. rewrite E. reflexivity. Qed.

Definition seeded_account (name : string) : option account := head (filter (λ a, acc_name a = name) seed_accounts).

Lemma dict_get_seeded (f : account → Z) name :
  dict_get name ((λ a, (acc_name a, f a)) <$> seed_accounts) = f <$> seeded_account name.
Proof.
  unfold seeded_account. induction seed_accounts as [|a l IH]; [done|]. rewrite fmap_cons, filter_cons. cbn [dict_get].
  by case_decide.
Qed.

Lemma diff_get before after name :
  default 0 (_diff before after !! name) = default 0 (dict_get name after) - default 0 (dict_get name before).
Proof.
  unfold _diff. rewrite nonzero_get. set (names := list_to_set _ : gset string).
  set (value := λ name, default 0 (dict_get name after) - default 0 (dict_get name before)).
  destruct (decide (name ∈ names)) as [Hin|Hin].
  - rewrite (elem_of_list_to_map_1 _ name (value name)); [done| |].
    + rewrite <- list_fmap_compose. rewrite (list_fmap_ext _ id) by done. rewrite list_fmap_id. apply NoDup_elements.
    + apply list_elem_of_fmap. exists name. split; [done|]. by apply elem_of_elements.
  - rewrite not_elem_of_list_to_map_1.
    + cbn. assert (∀ l : list (string * Z), name ∉ l.*1 → dict_get name l = None) as Hno by (intros l; by apply dict_get_None).
      rewrite !Hno; [done|subst names; set_solver..].
    + rewrite <- list_fmap_compose. rewrite (list_fmap_ext _ id) by done. rewrite list_fmap_id. intros H. apply Hin. by apply elem_of_elements.
Qed.

Lemma NoDup_key {A K} (key : A → K) (l : list A) x y : NoDup (key <$> l) → x ∈ l → y ∈ l → key x = key y → x = y.
Proof.
  intros Hnd [i Hi]%list_elem_of_lookup [j Hj]%list_elem_of_lookup E.
  assert (i = j) as ->; [|congruence]. eapply (NoDup_lookup _ _ _ (key x) Hnd); rewrite list_lookup_fmap, ?Hi, ?Hj; cbn; congruence.
Qed.

(** What one transaction does to an account. *)
Definition txn_effect (a : account) (t : ledger_transaction) : Z := Zsum (entry_effect a) (lt_entries t).

Lemma posted_effect d id l a : accounts d = seed_accounts → a ∈ seed_accounts → Forall (entry_acceptable d) l →
  balance_minor a (entry_row_of d id <$> l) = Zsum (entry_effect a) l.
Proof.
  intros Hs Ha Hl. unfold balance_minor. rewrite Zsum_fmap. apply Zsum_ext. intros e He. rewrite Forall_forall in Hl.
  destruct (Hl e He) as (_ & b & Hb & _). destruct (find_account_Some _ _ _ Hb) as [Hbin Hbn]. rewrite Hs in Hbin.
  unfold entry_row_of, entry_effect. rewrite Hb. cbn [e_account e_dir e_amount].
  destruct (decide (acc_id b = acc_id a)) as [E|E].
  - apply (NoDup_key _ _ _ _ seed_ids_NoDup Hbin Ha) in E as ->. by rewrite (bool_decide_true (acc_id a = _)), (bool_decide_true (account_name e = _)) by done.
  - rewrite bool_decide_false by done. rewrite bool_decide_false; [done|]. rewrite <- Hbn. intros En.
    apply E. by rewrite (NoDup_key _ _ _ _ seed_names_NoDup Hbin Ha En).
Qed.

Lemma balance_app a l k : balance_minor a (l ++ k) = balance_minor a l + balance_minor a k.
Proof. apply Zsum_app. Qed.

Lemma posted_all_balance a l : ∀ d, accounts d = seed_accounts → a ∈ seed_accounts →
  (∀ t, t ∈ l → Forall (entry_acceptable d) (lt_entries t)) →
  balance_minor a (entries (posted_all d l)) = balance_minor a (entries d) + Zsum (txn_effect a) l.
Proof.
  induction l as [|t l IH]; intros d Hs Ha Hl; [cbn; lia|].
  change (posted_all d (t :: l)) with (posted_all (posted_db d t) l). rewrite Zsum_cons, IH; [|done|done|].
  - cbn [posted_db entries]. rewrite balance_app, posted_effect; [unfold txn_effect; lia|done..|apply Hl; left].
  - intros u Hu. eapply Forall_impl; [apply Hl; by right|]. intros e. by apply entry_acceptable_accounts.
Qed.

(** ** Planned deltas *)
Lemma add_delta_get d : ∀ totals name,
  default 0 (add_delta totals d !! name) = default 0 (totals !! name) + default 0 (d !! name).
Proof.
  intros totals. unfold add_delta. apply (map_fold_weak_ind (λ r m, ∀ name, default 0 (r !! name) = default 0 (totals !! name) + default 0 (m !! name))).
  - intros name. rewrite lookup_empty. cbn. lia.
  - intros k v m r Hk IH name. destruct (decide (k = name)) as [->|Hne].
    + rewrite !lookup_insert_eq. cbn. rewrite IH, Hk. cbn. lia.
    + by rewrite !lookup_insert_ne.
Qed.

Lemma sum_loop_get fixtures posted : ∀ totals ids, map_result fixture_id fixtures = Ok ids →
  ∃ totals', sum_loop fixtures posted totals = Ok totals' ∧ ∀ name,
    default 0 (totals' !! name) = default 0 (totals !! name) +
      Zsum (λ x : EventFixture * string, if bool_decide (x.2 ∈ posted) then default 0 (fx_delta x.1 !! name) else 0) (zip fixtures ids).
Proof.
  induction fixtures as [|fx l IH]; intros totals ids; cbn [map_result].
  - intros [= <-]. exists totals. split; [done|]. intros name. cbn. lia.
  - intros (id & Hid & (ids' & Hids & [= <-])%bind_Ok)%bind_Ok. cbn [sum_loop zip zip_with]. rewrite Hid, bind_ok_run.
    destruct (IH (if bool_decide (id ∈ posted) then add_delta totals (fx_delta fx) else totals) ids' Hids) as (totals' & -> & Ht).
    exists totals'. split; [done|]. intros name. rewrite Ht, Zsum_cons. cbn [fst snd].
    case_bool_decide; [rewrite add_delta_get|]; lia.
Qed.

(** ** Fixtures as parcels *)

(** The ground truth of a fixture is what its parcel does. *)
Record fits (fx : EventFixture) (p : parcel) : Prop := {
  ft_parcel : parcel_ok p;
  ft_event : pc_event p = fx_event fx;
  ft_money : has_money fx = true ↔ is_Some (pc_txn p);
  ft_delta : ∀ a, a ∈ seed_accounts →
    default 0 (fx_delta fx !! acc_name a) = match pc_txn p with Some t => txn_effect a t | None => 0 end;
  ft_names : ∀ name, seeded_account name = None → default 0 (fx_delta fx !! name) = 0;
  ft_moves : has_money fx = true → ∃ name, default 0 (fx_delta fx !! name) ≠ 0;
  ft_object : is_Some (ev_object (pc_row p));
  ft_safe : safe (fx_event fx) }.

Lemma fits_id fx p : fits fx p → fixture_id fx = Ok (pc_id p).
Proof. intros H. unfold fixture_id. rewrite <- (ft_event _ _ H), (pk_id p (ft_parcel _ _ H)). done. Qed.

Lemma fits_ids fixtures P : Forall2 fits fixtures P → map_result fixture_id fixtures = Ok (pc_id <$> P).
Proof. induction 1 as [|fx p l P H _ IH]; [done|]. cbn [map_result fmap list_fmap]. by rewrite (fits_id _ _ H), bind_ok_run, IH. Qed.

Lemma seeded_account_Some name a : seeded_account name = Some a → a ∈ seed_accounts ∧ acc_name a = name.
Proof. intros H%head_Some_elem_of. apply list_elem_of_filter in H as [? ?]. done. Qed.

Definition parcel_effect (a : account) (p : parcel) : Z := match pc_txn p with Some t => txn_effect a t | None => 0 end.

Lemma effect_omap a (l : list parcel) : Zsum (txn_effect a) (omap pc_txn l) = Zsum (parcel_effect a) l.
Proof.
  induction l as [|p l IH]; [done|]. rewrite Zsum_cons. cbn [omap list_omap]. unfold parcel_effect at 1.
  destruct (pc_txn p); [rewrite Zsum_cons|]; rewrite IH; lia.
Qed.

Lemma planned_effect a fixtures P (posted : gset string) : a ∈ seed_accounts → Forall2 fits fixtures P →
  Zsum (λ x : EventFixture * string, if bool_decide (x.2 ∈ posted) then default 0 (fx_delta x.1 !! acc_name a) else 0)
    (zip fixtures (pc_id <$> P)) =
  Zsum (λ p, if bool_decide (pc_id p ∈ posted) then parcel_effect a p else 0) P.
Proof.
  intros Ha. induction 1 as [|fx p l P Hf _ IH]; [done|]. rewrite fmap_cons. cbn [zip zip_with]. rewrite !Zsum_cons. cbn [fst snd].
  rewrite IH, (ft_delta _ _ Hf a Ha). done.
Qed.

Section observed.
Context (d0 : database) (fixtures : list EventFixture) (P : list parcel).
Context (Hseed : accounts d0 = seed_accounts) (Hfits : Forall2 fits fixtures P) (Hids : NoDup (pc_id <$> P)).

(** The parcels that were delivered, and the ids expected to post. *)
Context (D : list parcel) (Hsub : ∀ p, p ∈ D → p ∈ P) (HD : NoDup D) (posted : gset string).
Context (Hposted : ∀ p, p ∈ P → pc_id p ∈ posted ↔ p ∈ D ∧ is_Some (pc_txn p)).

Lemma fits_in p : p ∈ P → ∃ fx, fx ∈ fixtures ∧ fits fx p.
Proof. intros [i Hi]%list_elem_of_lookup. destruct (Forall2_lookup_r _ _ _ _ _ Hfits Hi) as (fx & ? & ?). exists fx. split; [by eapply list_elem_of_lookup_2|done]. Qed.

Lemma planned_parcels a : Zsum (λ p, if bool_decide (pc_id p ∈ posted) then parcel_effect a p else 0) P = Zsum (parcel_effect a) D.
Proof.
  rewrite (Zsum_ext _ (λ p, if decide (pc_id p ∈ posted) then parcel_effect a p else 0)) by (intros; by repeat case_decide || case_bool_decide).
  rewrite <- Zsum_filter.
  assert (filter (λ p, pc_id p ∈ posted) P ≡ₚ filter (λ p, is_Some (pc_txn p)) D) as ->.
  { apply NoDup_Permutation; [apply NoDup_filter; by eapply NoDup_fmap_1|by apply NoDup_filter|].
    intros p. rewrite !list_elem_of_filter. split.
    - intros [Hp Hin]. apply Hposted in Hp; [|done]. naive_solver.
    - intros [Hm Hin]. split; [|by apply Hsub]. apply Hposted; [by apply Hsub|done]. }
  rewrite Zsum_filter. apply Zsum_ext. intros p _. unfold parcel_effect.
  case_decide as Hs; [done|]. destruct (pc_txn p); [|done]. by destruct Hs.
Qed.

(** The balances move as planned. *)
Lemma observed_diff done d delta : done ≡ₚ omap pc_txn D → same_ledger (posted_all d0 done) d →
  _sum_delta fixtures posted = Ok delta → _diff (all_balances d0) (all_balances d) = delta.
Proof.
  intros Hdone (Ea & _ & Ee) Hsum. unfold _sum_delta in Hsum.
  destruct (sum_loop_get fixtures posted ∅ _ (fits_ids _ _ Hfits)) as (totals & Et & Hget). rewrite Et, bind_ok_run in Hsum.
  injection Hsum as <-. rewrite posted_all_accounts in Ea.
  assert (_diff (all_balances d0) (all_balances d) = nonzero (_diff (all_balances d0) (all_balances d))) as ->.
  { unfold _diff. set (m := list_to_map _). apply nonzero_ext. intros a. by rewrite nonzero_get. }
  apply nonzero_ext. intros name. rewrite diff_get, Hget, lookup_empty. cbn [default from_option].
  rewrite !all_balances_seeded by congruence. rewrite !dict_get_seeded.
  destruct (seeded_account name) as [a|] eqn:Ename; cbn [fmap option_fmap option_map default from_option id].
  - apply seeded_account_Some in Ename as [Ha <-]. rewrite planned_effect by done. rewrite planned_parcels, <- effect_omap, <- Hdone, Ee.
    rewrite posted_all_balance; [lia|done|done|]. intros t Ht. rewrite Hdone in Ht. apply list_elem_of_omap in Ht as (p & Hp & Et').
    destruct (fits_in p (Hsub p Hp)) as (fx & _ & Hf). by apply (parcel_acceptable p t d0 (ft_parcel _ _ Hf) Et').
  - rewrite Zsum_zero; [lia|]. intros [fx id] Hx. cbn [fst snd]. case_bool_decide; [|done].
    apply elem_of_zip_l in Hx. apply list_elem_of_lookup in Hx as [i Hi].
    destruct (Forall2_lookup_l _ _ _ _ _ Hfits Hi) as (p & _ & Hf). by apply (ft_names _ _ Hf).
Qed.

Definition money_ids : list string := pc_id <$> filter (λ p, is_Some (pc_txn p)) D.

Lemma event_of_parcel p t : p ∈ P → pc_txn p = Some t → t_event (txn_row_of t) = Some (pc_id p).
Proof. intros Hp Et. destruct (fits_in p Hp) as (fx & _ & Hf). by apply (parcel_event_id p t (ft_parcel _ _ Hf)). Qed.

(** The rows that were posted are those of the parcels with money. *)
Lemma observed_rows done d candidates : done ≡ₚ omap pc_txn D → same_ledger (posted_all d0 done) d →
  (∀ p, p ∈ D → pc_id p ∈ candidates) →
  (∀ r id, r ∈ Ledger.transactions d0 → t_event r = Some id → id ∉ candidates) →
  _posted_rows d candidates ≡ₚ money_ids.
Proof.
  intros Hdone (_ & Et & _) Hc Hnew. unfold _posted_rows. rewrite Et, posted_all_transactions, omap_app.
  set (f := λ t : txn_row, id ← t_event t; if bool_decide (id ∈ candidates) then Some id else None).
  assert (omap f (Ledger.transactions d0) = []) as ->.
  { apply elem_of_nil_inv. intros id (r & Hr & Hf)%list_elem_of_omap. unfold f in Hf.
    destruct (t_event r) as [i|] eqn:Ei; [|done]. cbn in Hf. case_bool_decide; [|done]. by apply (Hnew r i). }
  cbn [app]. rewrite Hdone. unfold money_ids. clear -Hc Hsub Hfits. induction D as [|p l IH]; [done|].
  rewrite filter_cons. cbn [omap list_omap]. destruct (pc_txn p) as [t|] eqn:Et.
  - rewrite decide_True by done. rewrite !fmap_cons. cbn [omap list_omap]. unfold f at 1.
    assert (p ∈ P) as Hp by (apply Hsub; left). destruct (fits_in p Hp) as (fx & _ & Hf).
    pose proof (parcel_event_id p t (ft_parcel _ _ Hf) Et) as E. change (t_event (txn_row_of t)) with (stripe_event_id t). rewrite E. cbn.
    rewrite bool_decide_true by (apply Hc; left). f_equiv. apply IH; intros q Hq; [apply Hsub|apply Hc]; by right.
  - rewrite decide_False by (by intros [? ?]). apply IH; intros q Hq; [apply Hsub|apply Hc]; by right.
Qed.

Lemma money_ids_NoDup : NoDup money_ids.
Proof.
  unfold money_ids. apply NoDup_fmap_2_strong; [|by apply NoDup_filter].
  intros p q [_ Hp]%list_elem_of_filter [_ Hq]%list_elem_of_filter E. by apply (NoDup_key pc_id P); auto.
Qed.

(** What was observed meets the plan's expectation. *)
Lemma observed_meets done d candidates exp reported responsive :
  done ≡ₚ omap pc_txn D → ledger_ok d → same_ledger (posted_all d0 done) d → (∀ p, p ∈ D → pc_id p ∈ candidates) →
  (∀ r id, r ∈ Ledger.transactions d0 → t_event r = Some id → id ∉ candidates) →
  posted_event_ids exp = posted → posted ⊆ list_to_set (pc_id <$> P) → rejected_event_ids exp ## posted →
  _sum_delta fixtures posted = Ok (balances_delta exp) →
  (reconciler_should_report_break exp = true → reported = true) → responsive ≠ Some false →
  meets exp (MkObservation (_diff (all_balances d0) (all_balances d)) (invariant_ok (Balances.check d))
    (sort_strings (remove_dups (_posted_rows d candidates))) (Z.of_nat (length (_posted_rows d candidates))) true [] []
    reported responsive).
Proof.
  intros Hdone Hok Hled Hc Hnew Hexp Hdom Hrej Hdelta Hrep Hresp.
  pose proof (observed_rows done d candidates Hdone Hled Hc Hnew) as Hrows.
  assert (∀ id, id ∈ money_ids ↔ id ∈ posted) as Hids'.
  { intros id. unfold money_ids. rewrite list_elem_of_fmap. split.
    - intros (p & -> & [Hm Hp]%list_elem_of_filter). apply Hposted; auto.
    - intros Hid. apply Hdom in Hid as Hid2. apply elem_of_list_to_set, list_elem_of_fmap in Hid2 as (p & -> & Hp).
      apply Hposted in Hid as [? ?]; [|done]. exists p. split; [done|]. by apply list_elem_of_filter. }
  assert (∀ id, id ∈ sort_strings (remove_dups (_posted_rows d candidates)) ↔ id ∈ posted) as Hsorted.
  { intros id. by rewrite sort_strings_elem, elem_of_remove_dups, Hrows. }
  split; cbn; try done.
  - by apply check_ok.
  - by apply (observed_diff done d).
  - intros id Hid. rewrite elem_of_list_to_set, Hsorted. by apply Hrej.
  - intros id Hid. rewrite elem_of_list_to_set, Hsorted. by rewrite <- Hexp.
  - rewrite Hexp, Hrows. assert (posted = list_to_set money_ids) as -> by (apply set_eq; intros id; by rewrite elem_of_list_to_set).
    rewrite size_list_to_set by apply money_ids_NoDup. done.
Qed.

(** ** A hole in the ledger *)
Definition expected_events : list ExpectedEvent := zip_with (λ fx p, MkExpectedEvent (pc_id p) (fx_delta fx)) fixtures P.

Lemma expected_of_fits : expected_of fixtures = Ok expected_events.
Proof.
  unfold expected_events. revert Hfits. clear. induction 1 as [|fx p l k Hf _ IH]; [done|]. unfold expected_of in *. cbn [map_result zip_with].
  rewrite (fits_id _ _ Hf), bind_ok_run. change (mret ?x ≫= ?f) with (f x). cbv beta. rewrite IH. done.
Qed.

Lemma expects_fits fx p : (fx, p) ∈ zip fixtures P → expects expected_events (pc_id p) (fx_delta fx).
Proof.
  unfold expected_events, expects. intros Hin. revert Hids Hin. clear -Hfits. revert P Hfits.
  induction fixtures as [|fx' l IH]; intros P HP Hids Hin; [by apply elem_of_nil in Hin|].
  destruct P as [|p' P']; [by apply elem_of_nil in Hin|]. rewrite fmap_cons in Hids. apply NoDup_cons in Hids as [Hn Hids].
  apply Forall2_cons in HP as [_ HP]. cbn [zip_with]. rewrite filter_cons. cbn [x_event_id].
  cbn [zip zip_with] in Hin. apply elem_of_cons in Hin as [[= -> ->]|Hin].
  - rewrite decide_True by done. cbn [head]. by eexists.
  - rewrite decide_False; [by apply IH|]. intros E. apply Hn. apply list_elem_of_fmap. exists p.
    split; [done|]. by eapply elem_of_zip_r.
Qed.

(** A delivered event with money that was never posted is found missing. *)
Lemma hole_reported d fx p candidates : ledger_ok d → (fx, p) ∈ zip fixtures P → has_money fx = true → pc_id p ∈ candidates →
  (∀ r, r ∈ Ledger.transactions d → t_event r ≠ Some (pc_id p)) →
  missing_breaks candidates (reconcile_expected expected_events "USD" d) ≠ [].
Proof.
  intros Hok Hin Hm Hc Hno. assert (fits fx p) as Hf.
  { apply elem_of_lookup_zip_with in Hin as (i & x & y & [= <- <-] & Hi & Hj). by destruct (Forall2_lookup_lr _ _ _ _ _ _ Hfits Hi Hj). }
  destruct (dropped_event_reported expected_events "USD" d (pc_id p) (fx_delta fx) Hok (expects_fits fx p Hin))
    as (_ & b & Hb & Hk & He & _); [destruct (ft_moves _ _ Hf Hm) as [a Ha]; by exists a|by intros t [Ht _]; apply Hno|].
  intros E. assert (b ∈ missing_breaks candidates (reconcile_expected expected_events "USD" d)) as Hbm; [|rewrite E in Hbm; by apply elem_of_nil in Hbm].
  unfold missing_breaks. apply list_elem_of_filter. split; [split; [done|]|done]. rewrite He. by apply list_elem_of_fmap_2.
Qed.
End observed.
