(* ===== verification/Made.v ===== *)
(** The fixtures of harness/events.py as parcels: the event of every maker, for
    amounts that make sense, is one the service can post, and its ground truth is
    what posting it does. *)
From S2P Require Import Processes Prelude PyVal Json Hash Ledger Post Balances Mapping Signature Dedupe.
From S2P Require Import Handlers Recon Prompts Triage Events Faults Site Parcels Observe.
#[local] Open Scope Z_scope.

(** ** Payloads of plain text and small numbers *)
Definition numeral (z : Z) : Prop := Z.abs z < 10 ^ int_max_str_digits.

Lemma small_numeral z : Z.abs z < 2 ^ 64 → numeral z.
Proof.
  intros H. unfold numeral. apply (Z.lt_le_trans _ (10 ^ 20)); [|by apply Z.pow_le_mono_r].
  assert (2 ^ 64 < 10 ^ 20) by by vm_compute. lia.
Qed.

Lemma ascii_app s t : ascii_text s → ascii_text t → ascii_text (s +:+ t).
Proof. unfold ascii_text. rewrite chars_app. intros. by apply Forall_app. Qed.

Lemma ascii_digits z : ascii_text (str_of_Z z).
Proof.
  eapply Forall_impl; [apply str_of_Z_chars|]. intros c [Hc| ->]; [|by vm_compute]. unfold is_digit in Hc. bool_to_prop. lia.
Qed.

Lemma ascii_pad n s : ascii_text s → ascii_text (pad n s).
Proof.
  intros H. unfold pad. apply ascii_app; [|done]. unfold ascii_text. rewrite chars_of_chars.
  apply Forall_forall. intros c [-> _]%elem_of_replicate. by vm_compute.
Qed.

Lemma ascii_tag seq : ascii_text (seq_tag seq).
Proof.
  unfold seq_tag, format_06d. apply ascii_app; [by repeat constructor|].
  destruct (seq <? 0); [apply ascii_app; [by repeat constructor|]|]; apply ascii_pad, ascii_digits.
Qed.

Lemma partition_rest (Q : ascii → Prop) c l : Forall Q l → Forall Q (partition_chars c l).2.
Proof.
  induction 1 as [|x l Hx Hl IH]; [constructor|]. cbn [partition_chars]. case_decide; [done|].
  by destruct (partition_chars c l) as [[h sep] t].
Qed.

Lemma ascii_sibling base prefix : ascii_text base → ascii_text prefix → ascii_text (_sibling_id base prefix).
Proof.
  intros Hb Hp. unfold _sibling_id, partition. pose proof (partition_rest _ "_"%char _ Hb) as H.
  destruct (partition_chars "_" (chars base)) as [[h sep] t]. cbn [snd] in H.
  apply ascii_app; [done|]. apply ascii_app; [by repeat constructor|]. destruct sep; [|done].
  unfold ascii_text. by rewrite chars_of_chars.
Qed.

Lemma safe_dict_of l : NoDup l.*1 → Forall (λ kv : string * pyval, ascii_text kv.1) l → Forall (λ kv, safe kv.2) l → safe (PDict l).
Proof. intros H1 H2 H3. constructor; [done|]. rewrite Forall_forall in H2, H3 |- *. auto. Qed.

(** A literal of ASCII text; a payload, field by field. *)
Ltac ascii := lazymatch goal with
  | H : ascii_text ?s |- ascii_text ?s => exact H
  | |- ascii_text (seq_tag _) => apply ascii_tag
  | |- ascii_text (_sibling_id _ _) => apply ascii_sibling; ascii
  | |- ascii_text (_ +:+ _) => apply ascii_app; ascii
  | |- ascii_text _ => apply (bool_decide_unpack _); vm_compute; exact I
  end.
(** Amounts a scenario may have. *)
Definition bounded (z : Z) : Prop := 0 <= z < 2 ^ 62.
Ltac small := unfold bounded, min_timestamp, max_timestamp, bigint_max in *; lia.
(** Extended below by the payloads that have a lemma. *)
Ltac payload_part := fail.
Ltac safely := match goal with
  | H : safe ?v |- safe ?v => exact H
  | |- safe (PDict _) => apply safe_dict_of;
      [apply (bool_decide_unpack _); vm_compute; exact I
      |cbn [fmap list_fmap fst]; repeat (apply Forall_cons; split; [ascii|]); apply Forall_nil; exact I
      |repeat (apply Forall_cons; split; [cbn [snd]; safely|]); apply Forall_nil; exact I]
  | |- safe (PList _) => apply safe_list; repeat (apply Forall_cons; split; [safely|]); apply Forall_nil; exact I
  | |- safe (PStr _) => apply safe_str; ascii
  | |- safe (PInt _) => apply safe_int, small_numeral; small
  | |- safe (PBool _) => apply safe_bool
  | |- safe PNone => apply safe_none
  | _ => payload_part
  end.

Lemma envelope_safe event_id etype obj created : ascii_text event_id → ascii_text etype → safe obj →
  Z.abs created < 2 ^ 60 → safe (_envelope event_id etype obj created).
Proof. intros. unfold _envelope. safely. Qed.

Lemma balance_transaction_safe bt_id source amount fee created category ty : ascii_text bt_id → ascii_text source → ascii_text category →
  ascii_text ty → Z.abs amount < 2 ^ 63 → Z.abs fee < 2 ^ 63 → Z.abs (amount - fee) < 2 ^ 64 → Z.abs created < 2 ^ 60 →
  safe (_balance_transaction bt_id source amount fee created "usd" category ty).
Proof. intros. unfold _balance_transaction. destruct (negb (fee =? 0)); safely. Qed.

Lemma refund_list_safe charge_id data total : ascii_text charge_id → Forall safe data → Z.abs total < 2 ^ 64 →
  safe (refund_list charge_id data total).
Proof. intros. assert (safe (PList data)) by (by constructor). unfold refund_list. safely. Qed.

Ltac payload_part ::= first
  [ apply balance_transaction_safe; lazymatch goal with |- ascii_text _ => ascii | _ => small end
  | apply refund_list_safe; [ascii|repeat (apply Forall_cons; split; [safely|]); apply Forall_nil; exact I|small] ].

(** ** A fixture as a parcel *)
Record made_as (fx : EventFixture) (id ty o : string) (p : parcel) : Prop := {
  ma_fits : fits fx p;
  ma_id : pc_id p = id;
  ma_type : ev_type (pc_row p) = ty;
  ma_object : ev_object (pc_row p) = Some o;
  ma_txn : ∀ t, pc_txn p = Some t → lt_id t = uuid5 ("ledgerproof:" +:+ id) ∧ stripe_event_id t = Some id ∧
    event_type t = Some ty ∧ stripe_object_id t = Some o;
  ma_money : ty ≠ "invoice.payment_failed" → is_Some (pc_txn p) }.

Definition payable (e : entry) : Prop := 0 < amount_minor e <= bigint_max ∧ char3 (currency e) = Ok "USD".

Lemma add_payable account d amount : 0 <= amount <= bigint_max → Forall payable (add "USD" account d amount).
Proof.
  intros H. unfold add. destruct (amount =? 0) eqn:E; cbn [negb]; [constructor|]. apply Forall_singleton.
  split; [cbn; bool_to_prop; lia|by vm_compute].
Qed.

Lemma truth_unknown name (truth : list (string * string * Z)) : seeded_account name = None →
  Forall (λ e, e.1.1 ∈ ACCOUNT_NORMALS.*1) truth → Zsum (truth_effect name) truth = 0.
Proof.
  intros Hn. induction 1 as [|[[account dir_] amount] l Hin _ IH]; [done|]. rewrite Zsum_cons, IH, Z.add_0_r. cbn [fst] in Hin.
  unfold truth_effect. destruct (dict_get account ACCOUNT_NORMALS); [|done]. rewrite bool_decide_false; [done|]. intros ->.
  assert (Forall (λ k, seeded_account k ≠ None) ACCOUNT_NORMALS.*1) as Hk by (apply (bool_decide_unpack _); vm_compute; exact I).
  rewrite Forall_forall in Hk. by apply (Hk name).
Qed.

(** An effect as a sign and an amount. *)
Definition truth_sign (name account dir_ : string) : Z :=
  match dict_get account ACCOUNT_NORMALS with
  | Some normal => if bool_decide (account = name) then (if bool_decide (dir_ = normal) then 1 else -1) else 0
  | None => 0
  end.
Lemma truth_signed name account dir_ amount : truth_effect name (account, dir_, amount) = truth_sign name account dir_ * amount.
Proof. unfold truth_effect, truth_sign. destruct (dict_get _ _); [|done]. repeat case_bool_decide; lia. Qed.

Lemma moving_money fx name : default 0 (fx_delta fx !! name) ≠ 0 → has_money fx = true.
Proof. intros H. apply bool_decide_eq_true. intros E. apply H. by rewrite E, lookup_empty. Qed.

(** An event of money, from the entries the mapping reads off its object. *)
Lemma envelope_made event_id etype obj created kind delta es o truth mover :
  etype ∈ handled → etype ∈ HANDLED_EVENT_TYPES → etype ≠ "invoice.payment_failed" → py_index obj "currency" = Ok (PStr "usd") →
  entries_for etype "USD" obj = Ok es → min_timestamp <= created <= max_timestamp →
  money_movement_object_id (_envelope event_id etype obj created) = Ok (Some o) →
  Forall (λ e : string * string * Z, e.1.1 ∈ ACCOUNT_NORMALS.*1) truth → _delta truth = Ok delta →
  (∀ a, a ∈ seed_accounts → Zsum (entry_effect a) es = Zsum (truth_effect (acc_name a)) truth) →
  Forall payable es → Zsum (truth_effect mover) truth ≠ 0 → ascii_text event_id → ascii_text etype → safe obj →
  ∃ p, made_as (MkEventFixture (_envelope event_id etype obj created) kind delta) event_id etype o p.
Proof.
  intros Hh Hh' Hne Hc He Ht Ho Hk Hd Hsum Hpay Hmov Hid Hty Hobj.
  assert (es ≠ []) as Hes.
  { destruct (seeded_account mover) as [a|] eqn:Em; [|by rewrite truth_unknown in Hmov].
    apply seeded_account_Some in Em as [Ha <-]. rewrite <- (Hsum a Ha) in Hmov. by intros ->. }
  destruct (delta_loop_spec truth ∅ Hk) as (m & E & Hm). unfold _delta in Hd. rewrite Hd in E. injection E as <-.
  assert (∀ name, default 0 (delta !! name) = Zsum (truth_effect name) truth) as Hdelta by (intros name; rewrite Hm, lookup_empty; done).
  clear Hm. set (event := _envelope event_id etype obj created) in *.
  set (t := LedgerTransaction (uuid5 ("ledgerproof:" +:+ event_id)) created es (Some event_id) (Some o) (Some etype) None).
  assert (build_transaction event None = Ok (Some t)) as Hb by (by apply (build_envelope event_id etype obj created "usd")).
  exists (Parcel event (EventRow event_id etype (Some o) event Received) (Some t)). split; [|done|done|done|by intros ? [= <-]|by eexists]. split; cbn [pc_event pc_row pc_txn fx_event fx_delta ev_object].
  - split; cbn [pc_event pc_row pc_txn].
    + unfold event_row_of. by rewrite Ho.
    + done.
    + done.
    + by exists etype.
    + done.
    + by intros ? [= <-].
  - done.
  - split; [done|]. intros _. apply (moving_money _ mover). cbn. by rewrite Hdelta.
  - intros a Ha. rewrite Hdelta. by rewrite <- Hsum.
  - intros name Hn. rewrite Hdelta. by apply truth_unknown.
  - intros _. exists mover. by rewrite Hdelta.
  - done.
  - apply envelope_safe; [done..|]. unfold min_timestamp, max_timestamp in Ht. lia.
Qed.

(** An event that moves no money. *)
Lemma envelope_unmoved event_id obj created kind o :
  build_transaction (_envelope event_id "invoice.payment_failed" obj created) None = Ok None →
  min_timestamp <= created <= max_timestamp →
  money_movement_object_id (_envelope event_id "invoice.payment_failed" obj created) = Ok (Some o) →
  ascii_text event_id → safe obj →
  ∃ p, made_as (MkEventFixture (_envelope event_id "invoice.payment_failed" obj created) kind ∅) event_id "invoice.payment_failed" o p.
Proof.
  intros Hb Ht Ho Hid Hobj. set (event := _envelope event_id _ obj created) in *.
  exists (Parcel event (EventRow event_id "invoice.payment_failed" (Some o) event Received) None). split; [|done..].
  split; cbn [pc_event pc_row pc_txn fx_event fx_delta ev_object].
  - split; cbn [pc_event pc_row pc_txn].
    + unfold event_row_of. by rewrite Ho.
    + done.
    + done.
    + exists "invoice.payment_failed". split; [done|]. apply (bool_decide_unpack _). vm_compute. exact I.
    + done.
    + done.
  - done.
  - split; [|by intros []]. by intros H%bool_decide_eq_true.
  - done.
  - done.
  - done.
  - done.
  - apply envelope_safe; [done|ascii|done|]. unfold min_timestamp, max_timestamp in Ht. lia.
Qed.

(** ** The makers *)
Ltac payables := repeat (apply Forall_app; split); apply add_payable; small.
Ltac moves :=
  rewrite ?Zsum_cons, Zsum_nil, !truth_signed;
  repeat match goal with |- context [truth_sign ?a ?b ?c] =>
    let v := eval vm_compute in (truth_sign a b c) in change (truth_sign a b c) with v end;
  unfold bounded in *; lia.
(** The fixture of a maker, posting to [mover]. *)
Ltac maker mover :=
  cbv zeta; deltas; eexists; split; [reflexivity|];
  lazymatch goal with Em : _delta ?l = Ok ?m |- _ => eapply (envelope_made _ _ _ _ _ m _ _ l mover);
    [known_accounts | known_accounts | done | reflexivity | reflexivity | done | reflexivity | known_accounts
    | exact Em | same_effects | payables | moves | ascii | ascii |] end.

Section makers.
Context (created : option Z) (clock : Z) (Ht : min_timestamp <= _now created clock <= max_timestamp).

Lemma charge_made event_id charge_id amount fee : ascii_text event_id → ascii_text charge_id → bounded amount → 0 <= fee < amount →
  ∃ fx, make_charge_succeeded event_id charge_id amount fee created "usd" clock = Ok fx ∧
        ∃ p, made_as fx event_id "charge.succeeded" charge_id p.
Proof using Ht.
  intros Hid Hch Hamt Hfee. unfold make_charge_succeeded. maker "revenue".
  safely.
Qed.

Lemma refund_made event_id charge_id refund_id amount refunded : ascii_text event_id → ascii_text charge_id → ascii_text refund_id →
  bounded amount → bounded refunded → 0 < refunded →
  ∃ fx, make_charge_refunded event_id charge_id refund_id amount refunded created "usd" clock = Ok fx ∧
        ∃ p, made_as fx event_id "charge.refunded" refund_id p.
Proof using Ht.
  intros Hid Hch Hre Hamt Href Hpos. unfold make_charge_refunded. maker "refunds_contra". safely.
Qed.

Lemma dispute_made event_id dispute_id charge_id amount fee : ascii_text event_id → ascii_text dispute_id → ascii_text charge_id →
  bounded amount → bounded fee → 0 < amount →
  ∃ fx, make_dispute_created event_id dispute_id charge_id amount fee created "usd" clock = Ok fx ∧
        ∃ p, made_as fx event_id "charge.dispute.created" dispute_id p.
Proof using Ht.
  intros Hid Hch Hre Hamt Href Hpos. unfold make_dispute_created. maker "dispute_losses". safely.
Qed.

Lemma payout_made event_id payout_id amount : ascii_text event_id → ascii_text payout_id → bounded amount → 0 < amount →
  ∃ fx, make_payout_paid event_id payout_id amount created "usd" clock = Ok fx ∧
        ∃ p, made_as fx event_id "payout.paid" payout_id p.
Proof using Ht.
  intros Hid Hch Hamt Hpos. unfold make_payout_paid. maker "bank". safely.
Qed.

Lemma invoice_made event_id invoice_id amount : ascii_text event_id → ascii_text invoice_id → bounded amount →
  ∃ fx, make_invoice_payment_failed event_id invoice_id amount created "usd" clock = Ok fx ∧
        ∃ p, made_as fx event_id "invoice.payment_failed" invoice_id p.
Proof using Ht.
  intros Hid Hch Hamt. unfold make_invoice_payment_failed. cbv zeta. eexists. split; [reflexivity|].
  apply envelope_unmoved; [reflexivity|done|reflexivity|ascii|safely].
Qed.
End makers.

(** ** Fixtures by sequence number *)
(** The movement object of an event: one id per kind and number. *)
Definition object_prefix (ty : string) : string :=
  default "" (dict_get ty [("charge.succeeded", "ch_"); ("charge.refunded", "re_"); ("charge.dispute.created", "dp_");
                           ("payout.paid", "po_"); ("invoice.payment_failed", "in_")]).
Definition object_at (ty : string) (seq : Z) : string := object_prefix ty +:+ seq_tag seq.

Definition made_at (seq : Z) (fx : EventFixture) (p : parcel) : Prop :=
  ∃ ty, made_as fx (event_id_at seq) ty (object_at ty seq) p.

(** The amounts [make] ends up with are ones an event of the kind can have. *)
Definition sensible (kind : string) (o : overrides) : Prop :=
  if bool_decide (kind = "charge_succeeded")
  then bounded (default 1000 (ov_amount o)) ∧ 0 <= default 59 (ov_fee o) < default 1000 (ov_amount o)
  else if bool_decide (kind = "charge_refunded")
  then bounded (default 1000 (ov_amount o)) ∧ 0 < default 400 (ov_refunded o) < 2 ^ 62
  else if bool_decide (kind = "dispute_created")
  then 0 < default 2000 (ov_amount o) < 2 ^ 62 ∧ bounded (default 1500 (ov_fee o))
  else if bool_decide (kind = "payout_paid") then 0 < default 5000 (ov_amount o) < 2 ^ 62
  else bounded (default 1000 (ov_amount o)).

Lemma made_of {fx : EventFixture} {m id ty o} : m = Ok fx → (∃ fx', m = Ok fx' ∧ ∃ p, made_as fx' id ty o p) → ∃ p, made_as fx id ty o p.
Proof. intros -> (x & [= <-] & H). exact H. Qed.

Lemma ascii_at prefix seq : ascii_text prefix → ascii_text (prefix +:+ seq_tag seq).
Proof. intros H. apply ascii_app; [done|apply ascii_tag]. Qed.

Lemma make_made kind seq created o clock fx : sensible kind o → min_timestamp <= _now created clock <= max_timestamp →
  make kind seq created o clock = Ok fx →
  (∃ p, made_at seq fx p) ∧ (kind ≠ "invoice_payment_failed" → has_money fx = true).
Proof.
  intros Hs Ht. unfold make, sensible in *. cbv zeta. intros H.
  assert (∀ ty, ty ≠ "invoice.payment_failed" ∨ kind = "invoice_payment_failed" →
    (∃ p, made_as fx (event_id_at seq) ty (object_at ty seq) p) →
    (∃ p, made_at seq fx p) ∧ (kind ≠ "invoice_payment_failed" → has_money fx = true)) as Hby.
  { intros ty Hty [p Hp]. split; [exists p; by exists ty|]. intros Hk. destruct Hty as [Hty|]; [|done].
    apply (ft_money _ _ (ma_fits _ _ _ _ _ Hp)), (ma_money _ _ _ _ _ Hp), Hty. }
  destruct (decide (kind = "invoice_payment_failed")) as [->|Hk].
  { rewrite !(bool_decide_false (_ = _)), bool_decide_true in H by done. rewrite !(bool_decide_false (_ = _)) in Hs by done.
    apply bind_Ok in H as ([] & _ & H). apply bind_Ok in H as ([] & _ & H).
    apply (Hby "invoice.payment_failed"); [by right|]. apply (made_of H), invoice_made; first [by apply ascii_at; ascii | done | small]. }
  rewrite (bool_decide_false (kind = "invoice_payment_failed")) in H by done.
  repeat match type of H with (if ?b then _ else _) = _ => destruct b end; [..|done]; apply bind_Ok in H as ([] & _ & H).
  - apply (Hby "charge.succeeded"); [by left|]. apply (made_of H), charge_made; first [by apply ascii_at; ascii | done | small].
  - apply (Hby "charge.refunded"); [by left|]. apply (made_of H), refund_made; first [by apply ascii_at; ascii | done | small].
  - apply (Hby "charge.dispute.created"); [by left|]. apply (made_of H), dispute_made; first [by apply ascii_at; ascii | done | small].
  - apply bind_Ok in H as ([] & _ & H).
    apply (Hby "payout.paid"); [by left|]. apply (made_of H), payout_made; first [by apply ascii_at; ascii | done | small].
Qed.

Lemma append_inj s t u : s +:+ t = s +:+ u → t = u.
Proof. induction s as [|c s IH]; cbn; [done|]. intros [= H]. by apply IH. Qed.

Lemma seq_tag_inj s t : 0 <= s → 0 <= t → seq_tag s = seq_tag t → s = t.
Proof. intros Hs Ht [= E]. by apply format_06d_inj. Qed.

Lemma made_ids seqs P : Forall2 (λ s p, ∃ fx, made_at s fx p) seqs P → pc_id <$> P = event_id_at <$> seqs.
Proof.
  induction 1 as [|s p l k (fx & ty & H) _ IH]; [done|]. rewrite !fmap_cons, IH. by rewrite (ma_id _ _ _ _ _ H).
Qed.

(** Parcels made at distinct numbers, on an empty ledger. *)
Section stock.
Context (seqs : list Z) (P : list parcel) (Hmade : Forall2 (λ s p, ∃ fx, made_at s fx p) seqs P).
Context (Hdistinct : NoDup seqs) (Hpos : Forall (λ s, 0 <= s) seqs).
(** No two of the transactions' ids collide. *)
Context (Huuid : ∀ s t, s ∈ seqs → t ∈ seqs →
  uuid5 ("ledgerproof:" +:+ event_id_at s) = uuid5 ("ledgerproof:" +:+ event_id_at t) → s = t).

Lemma parcel_number p : p ∈ P → ∃ i s fx, seqs !! i = Some s ∧ P !! i = Some p ∧ made_at s fx p ∧ 0 <= s.
Proof using Hmade Hpos.
  intros [i Hi]%list_elem_of_lookup. destruct (Forall2_lookup_r _ _ _ _ _ Hmade Hi) as (s & Hs & fx & Hm).
  exists i, s, fx. split_and!; [done..|]. rewrite Forall_lookup in Hpos. by eapply Hpos.
Qed.

Lemma same_number p q i j s : P !! i = Some p → P !! j = Some q → seqs !! i = Some s → seqs !! j = Some s → p = q.
Proof using Hdistinct. intros Hp Hq Hi Hj. rewrite (NoDup_lookup _ _ _ _ Hdistinct Hi Hj) in Hp. congruence. Qed.

Lemma made_stocked d : accounts d = seed_accounts → stripe_events d = [] → Ledger.transactions d = [] → stocked d P.
Proof using All.
  intros Ha He Ht. split.
  - intros p (_ & s & fx & _ & _ & (ty & H) & _)%parcel_number. exact (ft_parcel _ _ (ma_fits _ _ _ _ _ H)).
  - intros p q (i & s & fx & Hi & Hpi & (ty & H) & Hs)%parcel_number (j & t & fy & Hj & Hqj & (ty' & H') & Ht')%parcel_number.
    rewrite (ma_id _ _ _ _ _ H), (ma_id _ _ _ _ _ H'). intros ->%event_id_at_inj; [|done..]. by eapply same_number.
  - intros p q (i & s & fx & Hi & Hpi & (ty & H) & Hs)%parcel_number (j & t & fy & Hj & Hqj & (ty' & H') & Ht')%parcel_number.
    unfold same_object. rewrite (ma_object _ _ _ _ _ H), (ma_object _ _ _ _ _ H'), (ma_type _ _ _ _ _ H), (ma_type _ _ _ _ _ H').
    intros [E (o & [= <-] & [= Eo])%clashes_true]%andb_true_iff. bool_to_prop. subst ty'.
    apply append_inj, seq_tag_inj in Eo as ->; [|done..]. by eapply same_number.
  - intros p row _ Hr. rewrite He in Hr. by apply elem_of_nil in Hr.
  - intros p t _ _ r Hr. rewrite Ht in Hr. by apply elem_of_nil in Hr.
  - intros p q t u (i & s & fx & Hi & Hpi & (ty & H) & Hs)%parcel_number (j & t' & fy & Hj & Hqj & (ty' & H') & Ht')%parcel_number Hne Et Eu.
    destruct (ma_txn _ _ _ _ _ H t Et) as (I1 & I2 & I3 & I4). destruct (ma_txn _ _ _ _ _ H' u Eu) as (J1 & J2 & J3 & J4).
    assert (s ≠ t') as Hst by (intros ->; apply Hne; by eapply same_number).
    split_and!; cbn [txn_row_of t_id t_event t_type t_object].
    + rewrite I1, J1. intros E. apply Hst, Huuid; [by eapply list_elem_of_lookup_2..|done].
    + rewrite I2, J2. unfold clashes. apply bool_decide_eq_false. intros E. by apply Hst, event_id_at_inj.
    + rewrite I3, J3, I4, J4. unfold clashes. destruct (bool_decide (ty = ty')) eqn:Ety; [|done]. bool_to_prop. subst ty'.
      cbn [andb]. apply bool_decide_eq_false. intros E%append_inj. by apply Hst, seq_tag_inj.
  - done.
Qed.

Lemma made_distinct : NoDup (pc_id <$> P).
Proof using Hmade Hdistinct Hpos.
  rewrite (made_ids _ _ Hmade). apply NoDup_fmap_2_strong; [|done]. rewrite Forall_forall in Hpos.
  intros s t Hs Ht. apply event_id_at_inj; auto.
Qed.
End stock.

(** The id of a twin is no other event's id. *)
Lemma twin_id_apart s t : 0 <= s → 0 <= t → event_id_at s +:+ "_dup" ≠ event_id_at t.
Proof.
  intros Hs Ht E. unfold event_id_at, seq_tag in E. cbn in E. injection E as E.
  assert ("p"%char ∈ chars (format_06d t)) as Hp
    by (change (format_06d t) with ("" +:+ format_06d t); rewrite <- E, chars_app; apply elem_of_app; right; set_solver).
  unfold format_06d, pad in Hp. rewrite (proj2 (Z.ltb_ge t 0)), chars_app, chars_of_chars in Hp by lia.
  apply elem_of_app in Hp as [[Hp _]%elem_of_replicate|Hp]; [done|].
  pose proof (str_of_Z_chars t) as H. rewrite Forall_forall in H. destruct (H _ Hp) as [?|?]; done.
Qed.
