(* ===== verification/Green.v ===== *)
(** No false alarms: the runner of Runner.v on the running stack of Site.v.  A
    healthy service on which a scenario is run leaves a record without breaks,
    whatever the fault, whenever the worker runs, and wherever it is killed. *)
From Stdlib Require Import QArith.
From S2P Require Import Processes Prelude PyVal Json Hash Ledger Post Balances Mapping Signature Dedupe.
From S2P Require Import Shed Gcra Handlers Ingest System Recon Prompts Triage Events Faults Scenarios Runner Proxy Site Parcels Observe.
Import Fault.
#[local] Open Scope Z_scope.

(** ** Jobs that share a state *)
Section schedule_state.
Context {W A B : Type} (job : A → stx W B) (between : stx W ()).

(** [I k w]: the state when [k] jobs are left; [C a w]: the job [a] was served. *)
Context (jobs : list A) (I : nat → W → Prop) (C : A → W → Prop) (Q : A → B → Prop).
Context (Hjob : ∀ a k w, a ∈ jobs → I (S k) w →
  ∃ b w', job a w = (Ok b, w') ∧ Q a b ∧ I k w' ∧ C a w' ∧ ∀ a', a' ∈ jobs → C a' w → C a' w').
Context (Hbetween : ∀ k w, I k w → ∃ w', between w = (Ok (), w') ∧ I k w' ∧ ∀ a', a' ∈ jobs → C a' w → C a' w').

Definition served (results : gmap nat B) w : Prop := ∀ i b, results !! i = Some b → ∃ a, jobs !! i = Some a ∧ Q a b ∧ C a w.

Lemma run_schedule_state schedule : ∀ results w,
  (∀ i, i ∈ omap id schedule → (i < length jobs)%nat) → I (length (omap id schedule)) w → served results w →
  ∃ results' w', run_schedule job between jobs schedule results w = (Ok results', w') ∧ I 0 w' ∧ served results' w' ∧
    (∀ i, i ∈ omap id schedule → is_Some (results' !! i)) ∧ (∀ i, is_Some (results !! i) → is_Some (results' !! i)).
Proof.
  induction schedule as [|[i|] schedule IH]; intros results w Hi HI Hs; cbn [run_schedule]; run.
  - exists results, w. split_and!; [done..| |done]. by intros i ?%elem_of_nil.
  - destruct (lookup_lt_is_Some_2 jobs i) as [a Ha]; [apply Hi; left|]. rewrite Ha. run.
    destruct (Hjob a _ w (list_elem_of_lookup_2 _ _ _ Ha) HI) as (b & w1 & -> & HQ & HI' & HC & Hkeep).
    destruct (IH (<[i := b]> results) w1) as (results' & w' & -> & H1 & H2 & H3 & H4); [| done | |].
    + intros j Hj. apply Hi. by right.
    + intros j c. destruct (decide (i = j)) as [->|Hne].
      * rewrite lookup_insert_eq. intros [= <-]. by exists a.
      * rewrite lookup_insert_ne by done. intros Hj. destruct (Hs j c Hj) as (a' & Ha' & ? & ?). exists a'.
        split_and!; [done..|]. apply Hkeep; [|done]. by eapply list_elem_of_lookup_2.
    + exists results', w'. split_and!; [done..| |].
      * intros j [->|Hj]%elem_of_cons; [|by apply H3]. apply H4. by rewrite lookup_insert_eq.
      * intros j Hj. apply H4. destruct (decide (i = j)) as [->|]; [by rewrite lookup_insert_eq|by rewrite lookup_insert_ne].
  - destruct (Hbetween _ w HI) as (w1 & -> & HI' & Hkeep).
    destruct (IH results w1) as (results' & w' & -> & H1 & H2 & H3 & H4); [done|done| |].
    + intros j c Hj. destruct (Hs j c Hj) as (a' & Ha' & ? & ?). exists a'. split_and!; [done..|]. apply Hkeep; [|done].
      by eapply list_elem_of_lookup_2.
    + by exists results', w'.
Qed.

(** Every job is served once, in whatever order, and the results come back in the
    order of the jobs. *)
Lemma scheduled_state schedule w : omap id schedule ≡ₚ seq 0 (length jobs) → I (length jobs) w →
  ∃ bs w', scheduled job between jobs schedule w = (Ok bs, w') ∧ Forall2 Q jobs bs ∧ I 0 w' ∧ ∀ a, a ∈ jobs → C a w'.
Proof.
  intros Hp HI. unfold scheduled. run.
  destruct (run_schedule_state schedule ∅ w) as (results & w' & -> & H1 & H2 & H3 & _).
  - intros i. rewrite Hp, elem_of_seq. lia.
  - by rewrite Hp, length_seq.
  - intros i b. by rewrite lookup_empty.
  - assert (∀ i a, jobs !! i = Some a → ∃ b, results !! i = Some b ∧ Q a b ∧ C a w') as Hall.
    { intros i a Ha. destruct (H3 i) as [b Hb]; [rewrite Hp; apply elem_of_seq; apply lookup_lt_Some in Ha; lia|].
      destruct (H2 i b Hb) as (a' & Ha' & ? & ?). exists b. replace a with a' by congruence. by split_and!. }
    eexists _, w'. split_and!; [run; reflexivity| |done|].
    + assert (∀ k l, (∀ i, l !! i = jobs !! (k + i)%nat) → Forall2 Q l (omap (λ i, results !! i) (seq k (length l)))) as Hg;
        [|by apply (Hg 0%nat jobs)].
      intros k l. revert k. induction l as [|a l IH]; intros k Hl; cbn [seq length omap list_omap]; [constructor|].
      specialize (Hl 0%nat) as Hl0. rewrite Nat.add_0_r in Hl0. symmetry in Hl0.
      destruct (Hall k a Hl0) as (b & -> & Hab & _). constructor; [done|]. apply IH. intros i. etrans; [exact (Hl (S i))|]. f_equal. lia.
    + intros a [i Ha]%list_elem_of_lookup. by destruct (Hall i a Ha) as (_ & _ & _ & ?).
Qed.
End schedule_state.

(** ** One scenario *)
Section scenario.
Context {F R : Type} `{HA : Arith F} `{HR : RedisClient F R} (st : site F).
Context (d0 : database) (P : list parcel) (Hstock : stocked d0 P) (first last : nat).
Implicit Types (a : app_state R) (w : host R) (p : parcel) (d : Delivery).

(** The requests of the scenario are those from number [first] up to [last]. *)
Context (Hcalm : ∀ n, (first <= n < last)%nat → undisturbed (tn_world (st_turn st n))).

Definition new_rows w : list event_row := drop (length (stripe_events d0)) (stripe_events (host_db w)).
Definition arrived p w : Prop := logged p (new_rows w).

(** [k] requests are left. *)
Record running (whole : bool) (k : nat) w : Prop := {
  rn_from : (first <= h_served w)%nat;
  rn_to : (h_served w + k <= last)%nat;
  rn_holds : kept d0 P whole (h_app w) }.

Lemma holds_new_rows whole w done rows : holds d0 P whole (h_app w) done rows → new_rows w = rows.
Proof. intros H. unfold new_rows, host_db. rewrite (hd_log _ _ _ _ _ _ H). apply drop_app_length. Qed.

Lemma arrived_rows whole w done rows p : holds d0 P whole (h_app w) done rows → arrived p w ↔ logged p rows.
Proof. intros H. unfold arrived. by rewrite (holds_new_rows _ _ _ _ H). Qed.

(** What ingest makes of a delivery at request [n]. *)
Definition accepts (n : nat) d (event : pyval) (id : string) : Prop :=
  accepted_event (site_config st) (tn_world (st_turn st n)) (post_request d) = inr (event, id).
Definition bad_signature : http_res := JSONResponse [("error", PStr "invalid signature")] 400.
Definition refuses (n : nat) d : Prop :=
  accepted_event (site_config st) (tn_world (st_turn st n)) (post_request d) = inl bad_signature.

Definition checked_at (n : nat) d : result () :=
  verify (RawBytes (d_body d)) (d_sig_header d) (st_secret st) DEFAULT_TOLERANCE_SECONDS None (w_clock (tn_world (st_turn st n))).

Lemma post_header d : default "" (dict_get "stripe-signature" (rq_headers (post_request d))) = d_sig_header d.
Proof. reflexivity. Qed.

Lemma accepts_intro n d event id : str_len (d_body d) <= MAX_BODY_BYTES → checked_at n d = Ok () →
  json_loads (d_body d) = Some event → envelope_id event = Some id → accepts n d event id.
Proof.
  intros Hs Hv Hj He. unfold accepts, accepted_event. rewrite post_header. cbn [rq_body post_request].
  rewrite (proj2 (Z.ltb_ge _ _)) by lia. unfold checked_at in Hv. cbn [site_config Ingest.webhook_secret].
  by rewrite Hv, Hj, He.
Qed.

Lemma refuses_intro n d : str_len (d_body d) <= MAX_BODY_BYTES → checked_at n d ≠ Ok () → refuses n d.
Proof.
  intros Hs Hv. unfold refuses, accepted_event. rewrite post_header. cbn [rq_body post_request].
  rewrite (proj2 (Z.ltb_ge _ _)) by lia. unfold checked_at in Hv. cbn [site_config Ingest.webhook_secret].
  by destruct (verify _ _ _ _ _ _) as [[]|].
Qed.

(** Without limiter and shedder a POST to /webhook reaches the handler. *)
Lemma reaches_webhook e d a : a_shedder a = None →
  backpressure (site_config st) (st_other st) e (post_request d) a = webhook (site_config st) e (post_request d) a.
Proof.
  intros Hs. unfold backpressure. run. unfold shedding. rewrite Hs. run. unfold limiting. cbn [limiter site_config]. run.
  unfold call_next. by rewrite bool_decide_true.
Qed.

(** What the proxy reports of an answer. *)
Definition answer_of d n (res : http_res) : DeliveryResult :=
  MkDeliveryResult (d_event_id d) (Some (rs_status res)) (st_render st res) None (tn_ms (st_turn st n)) (tn_started (st_turn st n)).

Lemma send_run d w res a : a_shedder (h_app w) = None →
  webhook (site_config st) (tn_world (st_turn st (h_served w))) (post_request d) (h_app w) = (Ok res, a) →
  Proxy._send (serve st) d w =
  (Ok (answer_of d (h_served w) res), Host (drain (tn_tasks (st_turn st (h_served w))) a) (S (h_served w))).
Proof. intros Hs Hw. unfold Proxy._send, serve. rewrite reaches_webhook, Hw by done. done. Qed.

(** The parcels are one and the same. *)
Definition single : Prop := ∀ p q, p ∈ P → q ∈ P → p = q.

(** The worker runs on for a while. *)
Lemma drained whole a done rows n served : holds d0 P whole a done rows →
  ∃ done' rows', holds d0 P whole (h_app (Host (drain n a) served)) done' rows' ∧
    ∀ p, arrived p (Host (drain n a) served) ↔ logged p rows.
Proof.
  intros H. destruct (drain_holds d0 P Hstock whole n a done rows H) as (done' & rows' & H' & Hal & _).
  exists done', rows'. split; [done|]. intros p. rewrite (arrived_rows whole (Host _ _) done' rows') by done.
  symmetry. apply Hal.
Qed.

(** A delivery of a parcel is answered 200 and logged. *)
Lemma send_parcel d p whole k w : running whole (S k) w → p ∈ P → accepts (h_served w) d (pc_event p) (pc_id p) →
  ∃ r w', Proxy._send (serve st) d w = (Ok r, w') ∧ status_code r = Some 200 ∧
    running whole k w' ∧ arrived p w' ∧ (∀ q, q ∈ P → arrived q w → arrived q w') ∧ (single → running true k w').
Proof.
  intros [Hf Ht (done & rows & Hh)] Hp Hacc.
  destruct (webhook_parcel d0 P Hstock (site_config st) (tn_world (st_turn st (h_served w))) (post_request d) (h_app w) whole done rows p
    Hh ltac:(apply Hcalm; lia) Hp Hacc) as (res & a' & rows' & Hw & H200 & Hh' & Hlog & Hsingle).
  rewrite (send_run d w res a' (hd_shed _ _ _ _ _ _ Hh) Hw). set (n := tn_tasks _).
  destruct (drained whole a' done rows' n (S (h_served w)) Hh') as (done2 & rows2 & Hh2 & Harr).
  assert (∀ q, q ∈ P → arrived q (Host (drain n a') (S (h_served w))) ↔ arrived q w ∨ q = p) as Hiff.
  { intros q Hq. by rewrite Harr, (Hlog q Hq), (arrived_rows _ _ _ _ q Hh). }
  eexists _, _. split; [reflexivity|]. cbn [answer_of status_code]. split_and!; [by rewrite H200| | | |].
  - split; cbn [h_served h_app]; [lia..|by exists done2, rows2].
  - apply Hiff; auto.
  - intros q Hq Ha. apply Hiff; auto.
  - intros Hs. destruct (drained true a' done rows' n (S (h_served w)) (Hsingle Hs)) as (done3 & rows3 & Hh3 & _).
    split; cbn [h_served h_app]; [lia..|by exists done3, rows3].
Qed.

(** A delivery that the signature check refuses changes nothing. *)
Lemma send_refused d whole k w : running whole (S k) w → refuses (h_served w) d →
  ∃ r w', Proxy._send (serve st) d w = (Ok r, w') ∧ status_code r = Some 400 ∧ r_body r = st_render st bad_signature ∧
    running whole k w' ∧ (∀ q, arrived q w → arrived q w').
Proof.
  intros [Hf Ht (done & rows & Hh)] Hr.
  rewrite (send_run d w bad_signature (h_app w) (hd_shed _ _ _ _ _ _ Hh)) by (unfold webhook; by rewrite Hr).
  destruct (drained whole (h_app w) done rows (tn_tasks (st_turn st (h_served w))) (S (h_served w)) Hh) as (done2 & rows2 & Hh2 & Harr).
  eexists _, _. split_and!; [reflexivity|done|done|split; cbn [h_served h_app]; [lia..|by exists done2, rows2]|].
  intros q Ha. apply Harr. by rewrite <- (arrived_rows _ _ _ _ q Hh).
Qed.

(** A second event for a logged movement of money is answered 200 and adds
    nothing. *)
Lemma send_twin d event id row p whole k w : running whole (S k) w → accepts (h_served w) d event id →
  event_row_of event Received = Ok row →
  (∀ r, r ∈ stripe_events d0 → same_id row r = false ∧ same_object row r = false) →
  p ∈ P → arrived p w → same_object row (pc_row p) = true →
  ∃ r w', Proxy._send (serve st) d w = (Ok r, w') ∧ status_code r = Some 200 ∧ running whole k w' ∧
    (∀ q, q ∈ P → arrived q w → arrived q w').
Proof.
  intros [Hf Ht (done & rows & Hh)] Hacc Hrow Hnew Hp Harrived Hsame.
  rewrite (arrived_rows _ _ _ _ p Hh) in Harrived. destruct Harrived as (row0 & Hin0 & (_ & Et & Eo & _)).
  destruct (webhook_logged d0 P Hstock (site_config st) (tn_world (st_turn st (h_served w))) (post_request d) (h_app w) whole done rows
    event id row Hh ltac:(apply Hcalm; lia) Hacc Hrow Hnew) as (res & a' & Hw & H200 & Hh' & _).
  { exists row0. split; [done|]. apply orb_true_iff. right. unfold same_object in *. by rewrite Et, Eo. }
  rewrite (send_run d w res a' (hd_shed _ _ _ _ _ _ Hh) Hw).
  destruct (drained whole a' done rows (tn_tasks (st_turn st (h_served w))) (S (h_served w)) Hh') as (done2 & rows2 & Hh2 & Harr).
  eexists _, _. split; [reflexivity|]. cbn [answer_of status_code]. split_and!; [by rewrite H200| |].
  - split; cbn [h_served h_app]; [lia..|by exists done2, rows2].
  - intros q Hq Ha. apply Harr. by rewrite <- (arrived_rows _ _ _ _ q Hh).
Qed.

(** The worker dies. *)
Lemma kill_run whole k w : running whole k w →
  ∃ w', kill_worker st w = (Ok (), w') ∧ running false k w' ∧ (∀ q, arrived q w ↔ arrived q w').
Proof.
  intros [Hf Ht (done & rows & Hh)].
  destruct (kill_holds d0 P Hstock st whole w done rows Hh) as (w' & done' & rows' & -> & Hn & Hh' & Hal).
  assert (∀ q, arrived q w ↔ arrived q w') as Hiff.
  { intros q. rewrite (arrived_rows _ _ _ _ q Hh), (arrived_rows _ _ _ _ q Hh'). apply Hal. }
  exists w'. split_and!; [done| |done]. split; [lia..|by exists done', rows'].
Qed.

(** The health probe finds the endpoint up. *)
Lemma healthy_run whole k w : running whole k w → site_healthy st w = true.
Proof.
  intros [_ _ (done & rows & Hh)]. unfold site_healthy, backpressure. run. unfold shedding.
  rewrite (hd_shed _ _ _ _ _ _ Hh). run. unfold limiting. cbn [limiter site_config]. run. unfold call_next.
  rewrite bool_decide_false by (by intros [? _]). by rewrite bool_decide_true.
Qed.

Lemma running_weaken whole k k' w : running whole k w → (k' <= k)%nat → running whole k' w.
Proof. intros [H1 H2 H3] Hk. split; [done|lia|done]. Qed.

(** *** The end of a scenario *)

(** The ledger has exactly the transactions of the parcels. *)
Record settled (d : database) : Prop := {
  se_ok : ledger_ok d;
  se_ledger : ∃ done, same_ledger (posted_all d0 done) d ∧ done ≡ₚ omap pc_txn P;
  se_log : ∃ rows, stripe_events d = stripe_events d0 ++ rows ∧ ∀ row, row ∈ rows → (ev_status row = Processed ∨ ev_status row = NoMoneyMoved) ∧ ∃ p, p ∈ P ∧ row_of p row }.

Lemma parcel_txns_NoDup (l : list parcel) : (∀ p, p ∈ l → p ∈ P) → NoDup l → NoDup (omap pc_txn l).
Proof.
  induction l as [|p l IH]; intros Hin Hl; [constructor|]. apply NoDup_cons in Hl as [Hn Hl]. cbn [omap list_omap].
  assert (∀ q, q ∈ l → q ∈ P) as Hin' by (intros q Hq; apply Hin; by right).
  destruct (pc_txn p) as [t|] eqn:Et; [|by apply IH]. apply NoDup_cons. split; [|by apply IH].
  intros (q & Hq & Eq)%list_elem_of_omap. assert (p ≠ q) as Hne by (intros ->; done).
  destruct (sk_apart d0 P Hstock p q t t) as [Ha _]; [apply Hin; left|by apply Hin'|done..].
Qed.

Context (Hnodup : NoDup P).

Lemma quiescent_run ids k w : running true k w → (∀ p, p ∈ P → arrived p w) →
  (∀ row, row ∈ stripe_events d0 → ev_id row ∉ ids) →
  ∃ w', site_quiescent ids w = (Ok true, w') ∧ h_served w' = h_served w ∧ a_queue (h_app w') = [] ∧
    a_shedder (h_app w') = None ∧ settled (host_db w').
Proof.
  intros [_ _ (done & rows & Hh)] Harr Hids. unfold site_quiescent.
  destruct (drain_holds d0 P Hstock true (length (a_queue (h_app w))) (h_app w) done rows Hh) as (done' & rows' & Hh' & Hal & Hq).
  rewrite drop_ge in Hq by done. set (a := drain _ _) in *.
  assert (∀ row, row ∈ rows' → (ev_status row = Processed ∨ ev_status row = NoMoneyMoved) ∧ ∃ p, p ∈ P ∧ row_of p row ∧ status_kept true [] done' p (ev_status row)) as Hrows.
  { intros row Hin. destruct (hd_rows _ _ _ _ _ _ Hh' row Hin) as (p & Hp & Hr & Hk). rewrite Hq in Hk.
    split; [|by exists p]. unfold status_kept in Hk. destruct (ev_status row); try done; [|by left|by right].
    destruct (Hk eq_refl) as (m & Hm & _). by apply elem_of_nil in Hm. }
  rewrite (bool_decide_true (a_queue a = [])) by done.
  assert (forallb (λ row, negb (pending (Some ids) row)) (stripe_events (a_db a)) = true) as ->.
  { apply forallb_forall_stdpp. intros row Hin. rewrite (hd_log _ _ _ _ _ _ Hh') in Hin. unfold pending.
    apply elem_of_app in Hin as [Hin|Hin].
    - rewrite (bool_decide_false (ev_id row ∈ ids)) by auto. by rewrite andb_false_r.
    - destruct (Hrows row Hin) as [Hst _]. rewrite bool_decide_false; [done|]. by intros [E|E]; destruct Hst; congruence. }
  eexists. split_and!; [reflexivity|done|done|apply Hh'|]. split; [apply Hh'| |].
  - exists done'. split; [apply Hh'|]. apply NoDup_Permutation; [apply Hh'|by apply parcel_txns_NoDup|].
    intros t. rewrite list_elem_of_omap. split.
    + intros Ht. destruct (hd_done _ _ _ _ _ _ Hh' t Ht) as (p & ? & ? & _). eauto.
    + intros (p & Hp & Et). specialize (Harr p Hp). rewrite (arrived_rows _ _ _ _ p Hh) in Harr. apply Hal in Harr.
      destruct Harr as (row & Hin & Hrp). destruct (Hrows row Hin) as (_ & q & Hq' & Hrq & Hk).
      assert (q = p) as -> by (apply (sk_ids d0 P Hstock); [done..|]; destruct Hrp as [<- _], Hrq as [<- _]; done).
      unfold status_kept in Hk. destruct (ev_status row); try done.
      * destruct (Hk eq_refl) as (m & Hm & _). by apply elem_of_nil in Hm.
      * destruct Hk as (t' & Et' & Hin'). congruence.
      * congruence.
  - exists rows'. split; [apply Hh'|]. intros row Hin. destruct (Hrows row Hin) as (? & p & ? & ? & _). eauto.
Qed.

(** *** Carrying out a plan *)

(** A delivery of a parcel, and one to be refused, at every request of the
    scenario. *)
Record carries_parcel d p : Prop := {
  cp_parcel : p ∈ P;
  cp_kept : expect_rejected d = false;
  cp_reason : expect_rejection_reason d = None;
  cp_accepts : ∀ n, (first <= n < last)%nat → accepts n d (pc_event p) (pc_id p) }.
Record bad_delivery d : Prop := {
  bd_rejected : expect_rejected d = true;
  bd_reason : ∀ reason, expect_rejection_reason d = Some reason → contains reason (st_render st bad_signature) = true;
  bd_refuses : ∀ n, (first <= n < last)%nat → refuses n d }.
Definition planned d : Prop := (∃ p, carries_parcel d p) ∨ bad_delivery d.

(** What the runner makes of an answer. *)
Definition as_expected d (r : DeliveryResult) : Prop :=
  (expect_rejected d = true → status_within 200 300 r = false) ∧ wrong_reason (d, r) = None.

Lemma accepted_as_expected d r : expect_rejected d = false → expect_rejection_reason d = None → as_expected d r.
Proof. intros H1 H2. split; [by rewrite H1|]. unfold wrong_reason. cbn [fst]. by rewrite H2. Qed.

Lemma refused_as_expected d r : bad_delivery d → status_code r = Some 400 → r_body r = st_render st bad_signature → as_expected d r.
Proof.
  intros [H1 H2 _] Hs Hb. split; [intros _; unfold status_within; by rewrite Hs|]. unfold wrong_reason. cbn [fst snd].
  destruct (expect_rejection_reason d) as [reason|]; [|done]. cbn. rewrite Hs. cbn. rewrite Hb, (H2 reason) by done. by rewrite andb_false_r.
Qed.

Lemma as_expected_nil (l : list Delivery) rs extra (fp : FaultPlan) : Forall2 as_expected l rs → p_deliveries fp = l →
  accepted_of fp (rs ++ extra) = [] ∧ wrong_of fp (rs ++ extra) = [].
Proof.
  intros H E. assert (answered fp (rs ++ extra) = zip l rs) as Ha.
  { unfold answered. rewrite E. by rewrite take_app_length' by (by rewrite (Forall2_length _ _ _ H)). }
  unfold accepted_of, wrong_of. rewrite Ha. clear Ha E. induction H as [|d r l rs [H1 H2] _ [IH1 IH2]]; [done|].
  cbn [zip zip_with omap list_omap]. rewrite H2, filter_cons. cbn [fst snd].
  rewrite decide_False; [by split|]. destruct (expect_rejected d); [rewrite H1 by done|]; by intros [].
Qed.

Definition job_state (kills : bool) (extra k : nat) w : Prop := running (negb kills) (k + extra) w.
Definition job_served d w : Prop := ∀ p, carries_parcel d p → arrived p w.

Lemma planned_job kills extra d k w : planned d → job_state kills extra (S k) w →
  ∃ r w', Proxy._send (serve st) d w = (Ok r, w') ∧ as_expected d r ∧ job_state kills extra k w' ∧ job_served d w' ∧
    ∀ d', job_served d' w → job_served d' w'.
Proof.
  intros [[p Hp]|Hb] Hrun; pose proof Hrun as [Hf Ht _].
  - destruct (send_parcel d p _ _ w Hrun (cp_parcel _ _ Hp)) as (r & w' & -> & _ & Hrun' & Harr & Hkeep & _).
    { apply Hp. lia. }
    exists r, w'. split_and!; [done|by apply accepted_as_expected; apply Hp|done| |].
    + intros q Hq. assert (q = p) as ->; [|done]. pose proof (cp_accepts _ _ Hq first) as H1.
      pose proof (cp_accepts _ _ Hp first) as H2. unfold accepts in *. specialize (H1 ltac:(lia)). specialize (H2 ltac:(lia)).
      rewrite H1 in H2. injection H2 as _ E. by apply (sk_ids d0 P Hstock); [apply Hq|apply Hp|].
    + intros d' Hd q Hq. apply Hkeep; [apply Hq|by apply Hd].
  - destruct (send_refused d _ _ w Hrun) as (r & w' & -> & Hs & Hbody & Hrun' & Hkeep); [apply Hb; lia|].
    exists r, w'. split_and!; [done|by apply refused_as_expected|done| |].
    + intros q Hq. destruct Hb as [Hb _ _], Hq as [_ Hq _ _]. congruence.
    + intros d' Hd q Hq. by apply Hkeep, Hd.
Qed.

(** Deliveries, tasks and a kill in any order: all results are as expected, and
    all parcels arrive. *)
Lemma execute_run probing kills extra (fp : FaultPlan) w : Forall planned (p_deliveries fp) →
  valid_schedule fp kills (st_schedule st fp (h_served w)) → (kills = true → kill_worker_after_s fp ≠ None) →
  running true (length (p_deliveries fp) + extra) w →
  ∃ rs w', site_execute st probing kills fp w =
      (Ok (MkExecution rs [] (if probing then replicate (st_probes st) true else [])), w') ∧
    Forall2 as_expected (p_deliveries fp) rs ∧ job_state kills extra 0 w' ∧
    ∀ d q, d ∈ p_deliveries fp → carries_parcel d q → arrived q w'.
Proof.
  intros Hplan [Hsched _] _ Hrun. unfold site_execute. run.
  assert (∃ rs w', chaos_execute (serve st) fp (if kills then kill_worker st else mret ()) (st_schedule st fp (h_served w)) w = (Ok rs, w') ∧
    Forall2 as_expected (p_deliveries fp) rs ∧ job_state kills extra 0 w' ∧ ∀ d, d ∈ p_deliveries fp → job_served d w')
    as (rs & w' & -> & H1 & H2 & H3).
  2:{ run. rewrite (healthy_run _ _ w' H2). cbn [fst snd]. eexists rs, w'. split_and!; [by destruct probing|done|done|].
      intros d q Hd Hq. by apply (H3 d). }
  assert (job_state kills extra (length (p_deliveries fp)) w) as Hjob.
  { destruct Hrun as [Hf Ht (done & rows & Hh)]. split; [done..|]. exists done, rows. destruct kills; [|done].
    by eapply holds_weaken. }
  unfold chaos_execute. destruct (p_deliveries fp) as [|d0' l] eqn:Ed; [exists [], w; split_and!; [done|constructor|done|by intros ? ?%elem_of_nil]|].
  rewrite <- Ed in *. apply (scheduled_state _ _ (p_deliveries fp) (job_state kills extra) job_served as_expected).
  - intros d k w1 Hd Hw1. rewrite Forall_forall in Hplan.
    destruct (planned_job kills extra d k w1 (Hplan d Hd) Hw1) as (r & w2 & -> & ? & ? & ? & ?). exists r, w2. split_and!; auto.
  - intros k w1 Hw1. destruct kills; [|by exists w1].
    destruct (kill_run _ _ w1 Hw1) as (w2 & -> & Hrun2 & Hiff). exists w2. split_and!; [done|done|].
    intros d _ Hd q Hq. by apply Hiff, Hd.
  - destruct (_ && _)%bool; [done|by rewrite Hsched].
  - done.
Qed.

(** What the runner has in hand when everything was sent: the answers are as
    expected, nothing is lost, and all parcels have arrived. *)
Definition injected (probing kills : bool) (fp : FaultPlan) w : Prop :=
  ∃ rs smp w1 red w2, site_execute st probing kills fp w = (Ok (MkExecution rs [] smp), w1) ∧
    redeliver (site_stack st) kills fp w1 = (Ok red, w2) ∧ Forall2 as_expected (p_deliveries fp) rs ∧
    forallb id smp = true ∧ running true 0 w2 ∧ ∀ q, q ∈ P → arrived q w2.

Lemma probes_true n (b : bool) : forallb id (if b then replicate n true else []) = true.
Proof. destruct b; [|done]. by induction n. Qed.

Lemma inject_plain probing fp w : Forall planned (p_deliveries fp) →
  (∀ q, q ∈ P → ∃ d, d ∈ p_deliveries fp ∧ carries_parcel d q) → valid_schedule fp false (st_schedule st fp (h_served w)) →
  running true (length (p_deliveries fp)) w → injected probing false fp w.
Proof.
  intros Hp Hall Hs Hrun. destruct (execute_run probing false 0 fp w Hp Hs) as (rs & w1 & E1 & H1 & H2 & H3); [done|by rewrite Nat.add_0_r|].
  exists rs, (if probing then replicate (st_probes st) true else []), w1, [], w1. split_and!; [exact E1| |done|apply probes_true|done|].
  - unfold redeliver. by destruct (p_deliveries fp).
  - intros q Hq. destruct (Hall q Hq) as (d & Hd & Hc). by apply (H3 d q).
Qed.

Lemma inject_kill probing fp w d q : p_deliveries fp = [d] → redeliver_after_kill fp = true →
  carries_parcel d q → single → valid_schedule fp true (st_schedule st fp (h_served w)) →
  kill_worker_after_s fp ≠ None → running true 2 w → injected probing true fp w.
Proof.
  intros Ed Hre Hc Hsingle Hs Hk Hrun.
  destruct (execute_run probing true 1 fp w) as (rs & w1 & E1 & H1 & H2 & H3); [|done|done|by rewrite Ed|].
  { rewrite Ed. apply Forall_singleton. left. by exists q. }
  pose proof H2 as [Hf Ht _]. destruct (send_parcel d q false 0 w1 H2 (cp_parcel _ _ Hc)) as (r & w2 & E2 & _ & _ & Ha & Hkeep & Hrun2);
    [apply Hc; lia|].
  exists rs, (if probing then replicate (st_probes st) true else []), w1, [r], w2. split_and!; [exact E1| |done|apply probes_true|by apply Hrun2|].
  - unfold redeliver. rewrite Ed, Hre. cbn [andb]. run. cbn [site_stack send]. by rewrite E2.
  - intros x Hx. by rewrite (Hsingle x q Hx (cp_parcel _ _ Hc)).
Qed.

Lemma serial_schedule (l : list (option nat)) : length (filter (λ e, e = None) l) = 0%nat → l = Some <$> omap id l.
Proof.
  induction l as [|[i|] l IH]; [done| |].
  - rewrite filter_cons_False by done. intros Hl. cbn. by rewrite <- IH.
  - by rewrite filter_cons_True.
Qed.

Lemma inject_twin probing fp w d d' p event id row : p_deliveries fp = [d; d'] → kill_worker_after_s fp = None →
  concurrent fp = false → carries_parcel d p → single →
  expect_rejected d' = false → expect_rejection_reason d' = None →
  (∀ n, (first <= n < last)%nat → accepts n d' event id) → event_row_of event Received = Ok row →
  (∀ r, r ∈ stripe_events d0 → same_id row r = false ∧ same_object row r = false) → same_object row (pc_row p) = true →
  valid_schedule fp false (st_schedule st fp (h_served w)) → running true 2 w → injected probing false fp w.
Proof.
  intros Ed Hk Hcc Hc Hsingle Hx1 Hx2 Hacc Hrow Hnew Hsame [Hs Hn] Hrun. pose proof (cp_parcel _ _ Hc) as Hp.
  rewrite Hcc in Hs. cbn [andb] in Hs. unfold kill_armed in Hn. rewrite andb_false_r in Hn.
  rewrite Ed in Hs. pose proof (serial_schedule _ Hn) as Hsched. rewrite Hs in Hsched.
  pose proof Hrun as [Hf Ht _].
  destruct (send_parcel d p true 1 w Hrun Hp) as (r1 & w1 & E1 & _ & Hrun1 & Ha1 & _); [apply Hc; lia|].
  pose proof Hrun1 as [Hf1 Ht1 _].
  destruct (send_twin d' event id row p true 0 w1 Hrun1) as (r2 & w2 & E2 & _ & Hrun2 & Hkeep2); [apply Hacc; lia|done..|].
  exists [r1; r2], (if probing then replicate (st_probes st) true else []), w2, [], w2. split_and!.
  - unfold site_execute. run. unfold chaos_execute. rewrite Ed, Hsched. unfold scheduled. run.
    change (Some <$> seq 0 (length [d; d'])) with [Some 0%nat; Some 1%nat]. cbn [run_schedule lookup list_lookup]. run.
    rewrite E1. cbn [fst snd]. run. rewrite E2. cbn [fst snd]. run. rewrite (healthy_run _ _ w2 Hrun2). by destruct probing.
  - unfold redeliver. by rewrite Ed.
  - rewrite Ed. constructor; [apply accepted_as_expected; apply Hc|]. constructor; [by apply accepted_as_expected|constructor].
  - apply probes_true.
  - done.
  - intros q Hq. rewrite (Hsingle q p Hq Hp). by apply Hkeep2.
Qed.
End scenario.

(** ** The record of a scenario *)
Definition probing_of (fp : FaultPlan) : bool := existsb (λ d, positive_text (slow_loris_s d)) (p_deliveries fp).
Definition kills_of (fp : FaultPlan) : bool := bool_decide (kill_worker_after_s fp ≠ None).
Definition candidates_in (fp : FaultPlan) (ids : list string) : list string := fromkeys (ids ++ (d_event_id <$> p_deliveries fp)).

Lemma fromkeys_elem x l : x ∈ fromkeys l ↔ x ∈ l.
Proof. unfold fromkeys. by rewrite elem_of_reverse, elem_of_remove_dups, elem_of_reverse. Qed.

(** What a plan promises when exactly the parcels of [D] are to be posted. *)
Record promises (fixtures : list EventFixture) (P D : list parcel) (exp : Expectation) : Prop := {
  pm_posted : ∀ p, p ∈ P → pc_id p ∈ posted_event_ids exp ↔ p ∈ D ∧ is_Some (pc_txn p);
  pm_only : posted_event_ids exp ⊆ list_to_set (pc_id <$> P);
  pm_rejected : rejected_event_ids exp ## posted_event_ids exp;
  pm_delta : _sum_delta fixtures (posted_event_ids exp) = Ok (balances_delta exp);
  pm_recon : reconciler_should_report_break exp = true →
    D = [] ∧ ∃ fx p, (fx, p) ∈ zip fixtures P ∧ has_money fx = true }.

(** Ids the database has never seen. *)
Record unseen (d : database) (ids : list string) : Prop := {
  un_rows : ∀ row, row ∈ stripe_events d → ev_id row ∉ ids;
  un_txns : ∀ r id, r ∈ Ledger.transactions d → t_event r = Some id → id ∉ ids }.

(** A record without a break, of a scenario that ran to its end. *)
Definition green (record : pyval) : Prop :=
  py_index record "breaks" = Ok (PList []) ∧ py_index record "quiescent" = Ok (PBool true) ∧ py_get record "error" = Ok PNone.

Section record.
Context {F R : Type} `{HA : Arith F} `{HR : RedisClient F R} (st : site F).
Context (scenario : Scenario) (w : host R) (P D : list parcel) (first last : nat).

Lemma run_green fp :
  plan (sc_fault scenario) (fixtures scenario) (st_secret st) (sc_params scenario) None (tn_clock (st_turn st (h_served w))) = Ok fp →
  Forall2 fits (fixtures scenario) P → NoDup (pc_id <$> P) → (∀ p, p ∈ D → p ∈ P) → NoDup D → stocked (host_db w) D →
  promises (fixtures scenario) P D (p_expectation fp) → unseen (host_db w) (candidates_in fp (pc_id <$> P)) →
  injected st (host_db w) D first last (probing_of fp) (kills_of fp) fp w →
  ∃ record w', run_scenario (site_stack st) scenario w = (Ok record, w') ∧ green record ∧
    (h_served w' <= last)%nat ∧ a_queue (h_app w') = [] ∧ a_shedder (h_app w') = None ∧ settled (host_db w) D (host_db w').
Proof.
  intros Hplan Hfits Hids Hsub HD Hstock [Hp1 Hp2 Hp3 Hp4 Hp5] [Hu1 Hu2] (rs & smp & w1 & red & w2 & E1 & E2 & Has & Hsmp & Hrun & Harr).
  assert (∀ p, p ∈ P → pc_id p ∈ candidates_in fp (pc_id <$> P)) as Hcand.
  { intros p Hp. apply fromkeys_elem, elem_of_app. left. by apply list_elem_of_fmap_2. }
  destruct (quiescent_run (host_db w) D Hstock first last HD (pc_id <$> P) 0 w2 Hrun Harr) as (w3 & E3 & Hn3 & Hq3 & Hs3 & Hset).
  { intros row Hrow Hin. apply (Hu1 row Hrow). apply fromkeys_elem, elem_of_app. by left. }
  destruct (as_expected_nil (p_deliveries fp) rs red fp Has eq_refl) as [Eacc Ewrong].
  destruct Hset as [Hok (done & Hled & Hdone) Hlog] eqn:Eset. clear Eset.
  unfold run_scenario. run. cbn [site_stack Runner.webhook_secret wall_clock db]. unfold id at 1.
  rewrite Hplan. run. cbv zeta. fold (probing_of fp) (kills_of fp).
  change (execute (site_stack st)) with (site_execute (R := R) st). rewrite E1. run. cbn [fst snd].
  assert (only_if (kills_of fp) (restart_worker (site_stack st)) w1 = (Ok (), w1)) as Er by (by destruct (kills_of fp)).
  rewrite Er. run. cbn [fst snd]. rewrite E2. run. cbn [fst snd]. rewrite (fits_ids _ _ Hfits). run.
  change (wait_quiescent (site_stack st)) with (site_quiescent (R := R)). rewrite E3. run. cbn [fst snd]. rewrite (expected_of_fits _ P Hfits). run.
  cbn [Runner.results samples] in *. rewrite Eacc, Ewrong. unfold id.
  fold (candidates_in fp (pc_id <$> P)). set (candidates := candidates_in fp (pc_id <$> P)) in *.
  match goal with |- context [MkObservation ?a ?b ?c ?e ?f ?g ?h ?i ?j] => set (obs := MkObservation a b c e f g h i j) end.
  assert (meets (p_expectation fp) obs) as Hmeets.
  { apply (observed_meets (host_db w) (fixtures scenario) P (sk_accounts _ _ Hstock) Hfits Hids D Hsub HD _ Hp1 done); try done.
    - by intros p Hp; apply Hcand, Hsub.
    - intros Hrep. rewrite Hrep. cbn [andb]. rewrite bool_decide_false; [done|].
      destruct (Hp5 Hrep) as (-> & fx & p & Hin & Hm).
      eapply (hole_reported (fixtures scenario) P Hfits Hids _ fx p); try done.
      + apply Hcand. by eapply elem_of_zip_r.
      + destruct Hled as (_ & Et & _). change (db (site_stack st) w3) with (host_db w3). rewrite Et, posted_all_transactions.
        apply Permutation_nil_r in Hdone as ->. rewrite app_nil_r. intros r Hr E. apply (Hu2 r _ Hr E). apply Hcand. by eapply elem_of_zip_r.
    - cbn. case_match; [|done]. unfold responsive. destruct smp; [done|]. intros [= E]. change (forallb id (b :: smp) = false) in E. by rewrite Hsmp in E. }
  pose proof (proj2 (detect_breaks_nil fp obs) Hmeets) as Hnil.
  assert (invariant_ok (Balances.check (host_db w3)) = true) as Hinv by (by apply check_ok).
  rewrite Hinv. cbn [negb only_if]. run. eexists _, w3. split; [reflexivity|]. split_and!; try done.
  - split; [|split; [done|by destruct (kills_of fp)]].
    change (Ok (PList (detect_breaks fp obs)) = Ok (PList [])). by rewrite Hnil.
  - destruct Hrun as [_ Hto _]. rewrite Hn3. lia.
Qed.
End record.

(** ** Every plan *)
Section plans.
Context {F R : Type} `{HA : Arith F} `{HR : RedisClient F R} (st : site F).
Context (scenario : Scenario) (w : host R) (P : list parcel) (fp : FaultPlan).
Implicit Types (d : Delivery) (p : parcel).
Notation d0 := (host_db w).
Notation ts := (tn_clock (st_turn st (h_served w))).

(** The requests the plan makes, the redelivery after a kill included. *)
Definition requests : nat := length (p_deliveries fp) + (if kills_of fp then 1 else 0).
Notation first := (h_served w).
Notation last := (h_served w + requests)%nat.

(** Nothing disturbs the requests of the plan, which arrive in time. *)
Record calm : Prop := {
  ca_undisturbed : ∀ n, (first <= n < last)%nat → undisturbed (tn_world (st_turn st n));
  ca_in_time : ∀ n, (first <= n < last)%nat → ts <= w_clock (tn_world (st_turn st n)) <= ts + DEFAULT_TOLERANCE_SECONDS;
  ca_schedule : valid_schedule fp (kills_of fp) (st_schedule st fp first);
  ca_render : contains INVALID_SIGNATURE (st_render st bad_signature) = true }.

(** The service is idle and the scenario new to it. *)
Record ready : Prop := {
  re_ledger : ledger_ok d0;
  re_queue : a_queue (h_app w) = [];
  re_shed : a_shedder (h_app w) = None;
  re_fits : Forall2 fits (fixtures scenario) P;
  re_stocked : stocked d0 P;
  re_distinct : NoDup (pc_id <$> P);
  re_unseen : unseen d0 (candidates_in fp (pc_id <$> P)) }.

(** The planned bytes are small enough, and no altered body has the digest of an
    original. *)
Record deliverable : Prop := {
  de_small : ∀ d, d ∈ p_deliveries fp → str_len (d_body d) <= MAX_BODY_BYTES;
  de_distinct : ∀ d, d ∈ p_deliveries fp → ¬ collides (st_secret st) (fixtures scenario) ts d;
  de_verdicts : ∀ n, (first <= n < last)%nat →
    Forall (verdict_as_planned (st_secret st) (fixtures scenario) ts (w_clock (tn_world (st_turn st n)))) (p_deliveries fp) }.

Context (Hcalm : calm) (Hready : ready) (Hdel : deliverable).

Lemma stocked_sub D : (∀ p, p ∈ D → p ∈ P) → stocked d0 D.
Proof. apply stocked_weaken, Hready. Qed.

Lemma start_running D whole k : (k <= requests)%nat → running d0 D first last whole k w.
Proof.
  intros Hk. split; [lia|lia|]. exists [], []. destruct Hready as [H1 H2 H3 _ _ _ _]. split; try done.
  - constructor.
  - by intros t ?%elem_of_nil.
  - by rewrite app_nil_r.
  - constructor.
  - by intros row ?%elem_of_nil.
  - rewrite H2. by intros m ?%elem_of_nil.
Qed.

(** A planned body that is a parcel's own event, unaltered. *)
Record clean d p : Prop := {
  cl_kept : expect_rejected d = false;
  cl_reason : expect_rejection_reason d = None;
  cl_body : d_body d = serialize (pc_event p) }.
Definition rejected d : Prop := expect_rejected d = true ∧
  (expect_rejection_reason d = None ∨ expect_rejection_reason d = Some INVALID_SIGNATURE).

Lemma parcel_safe p : p ∈ P → safe (pc_event p) ∧ envelope_id (pc_event p) = Some (pc_id p).
Proof.
  intros [i Hi]%list_elem_of_lookup. destruct (Forall2_lookup_r _ _ _ _ _ (re_fits Hready) Hi) as (fx & _ & Hf).
  split; [rewrite (ft_event _ _ Hf); by apply Hf|]. pose proof (pk_id p (ft_parcel _ _ Hf)) as H1.
  destruct (pk_type p (ft_parcel _ _ Hf)) as (ty & H2 & _). unfold py_index in *. destruct (pc_event p) as [| | | | | |m]; try done.
  unfold envelope_id. destruct (dict_get "id" m); simplify_eq/=. by destruct (dict_get "type" m); simplify_eq/=.
Qed.

Lemma kept_checked n d : (first <= n < last)%nat → d ∈ p_deliveries fp → expect_rejected d = false → checked_at st n d = Ok ().
Proof.
  intros Hn Hd Hk. pose proof (de_verdicts Hdel n Hn) as Hv. rewrite Forall_forall in Hv. specialize (Hv d Hd).
  unfold verdict_as_planned in Hv. by rewrite Hk in Hv.
Qed.

Lemma clean_carries D d p : d ∈ p_deliveries fp → clean d p → p ∈ D → p ∈ P → carries_parcel st D first last d p.
Proof.
  intros Hd [H1 H2 H3] HD Hp. destruct (parcel_safe p Hp) as [Hs He]. split; [done..|]. intros n Hn.
  apply accepts_intro; [by apply Hdel|by apply kept_checked| |done]. rewrite H3. by apply dumped_loads.
Qed.

Lemma rejected_bad d : d ∈ p_deliveries fp → rejected d → bad_delivery st first last d.
Proof.
  intros Hd [H1 H2]. split; [done| |].
  - intros reason E. destruct H2 as [H2|H2]; rewrite H2 in E; [done|]. injection E as <-. apply Hcalm.
  - intros n Hn. apply refuses_intro; [by apply Hdel|]. pose proof (de_verdicts Hdel n Hn) as Hv. rewrite Forall_forall in Hv.
    specialize (Hv d Hd). unfold verdict_as_planned in Hv. rewrite H1 in Hv. destruct Hv as [Hv|Hv]; [done|].
    by destruct (de_distinct Hdel d Hd).
Qed.

(** What is needed of a plan to run green. *)
Definition good : Prop := ∃ D, (∀ p, p ∈ D → p ∈ P) ∧ NoDup D ∧ promises (fixtures scenario) P D (p_expectation fp) ∧
  injected st d0 D first last (probing_of fp) (kills_of fp) fp w.

Lemma good_ordinary D : (∀ p, p ∈ D → p ∈ P) → NoDup D → kill_worker_after_s fp = None →
  promises (fixtures scenario) P D (p_expectation fp) →
  Forall (λ d, (∃ p, p ∈ D ∧ clean d p) ∨ rejected d) (p_deliveries fp) →
  (∀ p, p ∈ D → ∃ d, d ∈ p_deliveries fp ∧ clean d p) → good.
Proof.
  intros Hsub HD Hk Hp Hall Harr. exists D. split_and!; [done..|]. assert (kills_of fp = false) as Ek.
  { unfold kills_of. rewrite Hk. by rewrite bool_decide_false by (by intros []). }
  pose proof (ca_schedule Hcalm) as Hs. rewrite Ek in *.
  apply (inject_plain st d0 D (stocked_sub D Hsub)); [apply Hcalm| | |done|apply start_running; unfold requests; lia].
  - rewrite Forall_forall in Hall |- *. intros d Hd. destruct (Hall d Hd) as [(p & HpD & Hc)|Hr].
    + left. exists p. by apply clean_carries; [..|apply Hsub].
    + right. by apply rejected_bad.
  - intros q Hq. destruct (Harr q Hq) as (d & Hd & Hc). exists d. split; [done|]. by apply clean_carries; [..|apply Hsub].
Qed.

Lemma single_single p : single [p].
Proof. intros x y ->%list_elem_of_singleton ->%list_elem_of_singleton. done. Qed.

Lemma good_kill d p : p ∈ P → kill_worker_after_s fp ≠ None → redeliver_after_kill fp = true → p_deliveries fp = [d] → clean d p →
  promises (fixtures scenario) P [p] (p_expectation fp) → good.
Proof.
  intros Hp Hk Hr Ed Hc Hprom. exists [p].
  assert (∀ q, q ∈ [p] → q ∈ P) as Hsub by (by intros q ->%list_elem_of_singleton).
  split_and!; [done|apply NoDup_singleton|done|].
  assert (kills_of fp = true) as Ek by (unfold kills_of; by apply bool_decide_eq_true).
  pose proof (ca_schedule Hcalm) as Hs. rewrite Ek in *.
  apply (inject_kill st d0 [p] (stocked_sub _ Hsub) first last (ca_undisturbed Hcalm) _ fp w d p); try done.
  - apply clean_carries; [rewrite Ed; left|done|left|done].
  - apply single_single.
  - apply start_running. unfold requests. rewrite Ed, Ek. cbn. lia.
Qed.

Lemma good_twin d d' p event id row : p ∈ P → kill_worker_after_s fp = None → concurrent fp = false → p_deliveries fp = [d; d'] →
  clean d p → expect_rejected d' = false → expect_rejection_reason d' = None → d_body d' = serialize event → safe event →
  envelope_id event = Some id → event_row_of event Received = Ok row →
  (∀ r, r ∈ stripe_events d0 → same_id row r = false) → same_object row (pc_row p) = true →
  promises (fixtures scenario) P [p] (p_expectation fp) → good.
Proof.
  intros Hp Hk Hcc Ed Hc H1 H2 H3 Hsafe Henv Hrow Hnew Hsame Hprom. exists [p].
  assert (∀ q, q ∈ [p] → q ∈ P) as Hsub by (by intros q ->%list_elem_of_singleton).
  split_and!; [done|apply NoDup_singleton|done|]. assert (kills_of fp = false) as Ek.
  { unfold kills_of. rewrite Hk. by rewrite bool_decide_false by (by intros []). }
  pose proof (ca_schedule Hcalm) as Hs. rewrite Ek in *.
  apply (inject_twin st d0 [p] (stocked_sub _ Hsub) first last (ca_undisturbed Hcalm) _ fp w d d' p event id row); try done.
  - apply clean_carries; [rewrite Ed; left|done|left|done].
  - apply single_single.
  - intros n Hn. apply accepts_intro; [apply Hdel; rewrite Ed; right; left|apply kept_checked; [done|rewrite Ed; right; left|done]|rewrite H3; by apply dumped_loads|done].
  - intros r Hr. split; [by apply Hnew|]. pose proof (sk_log _ _ (re_stocked Hready) p r Hp Hr) as [_ Ho].
    unfold same_object in *. apply andb_true_iff in Hsame as [E1 E2]. bool_to_prop.
    apply clashes_true in E2 as (o & Eo1 & Eo2). rewrite Eo1, E1 in Ho. by rewrite Eo2.
  - apply start_running. unfold requests. rewrite Ed, Ek. cbn. lia.
Qed.
End plans.
