(* ===== verification/Alarms.v ===== *)
(** No false alarms: with the service of Site.v behind it, every plan of
    harness/faults.py runs green.  For each fault, what [plan_for] promises is what
    the scenario of Green.v then observes. *)
From Stdlib Require Import QArith.
From S2P Require Import Processes Prelude PyVal Json Hash Ledger Post Balances Mapping Signature Dedupe.
From S2P Require Import Gcra Shed Handlers Ingest System Recon PromptText Prompts Triage Events Faults Runner Scenarios Proxy Site Parcels Observe Made Green.
Import Fault.
#[local] Open Scope Z_scope.

(** ** Fixtures and their parcels *)
Section promised.
Context (fixtures : list EventFixture) (P : list parcel) (Hfits : Forall2 fits fixtures P) (Hids : NoDup (pc_id <$> P)).
Implicit Types (p : parcel) (D : list parcel) (posted : gset string).

Lemma fixture_parcel fx : fx ∈ fixtures → ∃ p, p ∈ P ∧ fits fx p.
Proof.
  intros [i Hi]%list_elem_of_lookup. destruct (Forall2_lookup_l _ _ _ _ _ Hfits Hi) as (p & ? & ?).
  exists p. split; [by eapply list_elem_of_lookup_2|done].
Qed.

Lemma parcel_with_id p q : p ∈ P → q ∈ P → pc_id p = pc_id q → p = q.
Proof. apply (NoDup_key pc_id P). done. Qed.

Lemma map_fixture_ids l ids : map_result fixture_id l = Ok ids → ∀ id, id ∈ ids ↔ ∃ fx, fx ∈ l ∧ fixture_id fx = Ok id.
Proof.
  revert ids. induction l as [|fx l IH]; intros ids; cbn [map_result].
  - intros [= <-] id. split; [by intros ?%elem_of_nil|by intros (fx & ?%elem_of_nil & _)].
  - intros (i & Hi & (rest & Hrest & [= <-])%bind_Ok)%bind_Ok id. rewrite elem_of_cons, (IH _ Hrest). split.
    + intros [->|(fx' & ? & ?)]; [exists fx|exists fx']; (split; [|done]); by constructor.
    + intros (fx' & [->|?]%elem_of_cons & E); [left; congruence|right; eauto].
Qed.

(** The posted ids that most plans promise. *)
Lemma money_posted posted : ids_of (_money fixtures) = Ok posted →
  (∀ p, p ∈ P → pc_id p ∈ posted ↔ p ∈ P ∧ is_Some (pc_txn p)) ∧ posted ⊆ list_to_set (pc_id <$> P).
Proof.
  unfold ids_of. intros (ids & E & [= <-])%bind_Ok. pose proof (map_fixture_ids _ _ E) as Hin.
  assert (∀ id, id ∈ ids → ∃ p, p ∈ P ∧ pc_id p = id ∧ is_Some (pc_txn p)) as Hof.
  { intros id (fx & [Hm Hfx]%list_elem_of_filter & Efx)%Hin. destruct (fixture_parcel fx Hfx) as (p & Hp & Hf).
    apply Is_true_true in Hm. rewrite (fits_id _ _ Hf) in Efx. injection Efx as <-. exists p. split_and!; [done..|]. by apply (ft_money _ _ Hf). }
  split.
  - intros p Hp. rewrite elem_of_list_to_set. split.
    + intros (q & Hq & Eq & Hm)%Hof. by rewrite (parcel_with_id p q Hp Hq).
    + intros [_ Hm]. apply Hin. destruct (fits_in fixtures P Hfits p Hp) as (fx & Hfx & Hf).
      exists fx. split; [|by apply fits_id]. apply list_elem_of_filter. split; [by apply Is_true_true, (ft_money _ _ Hf)|done].
  - intros id. rewrite !elem_of_list_to_set. intros (q & Hq & <- & _)%Hof. by apply list_elem_of_fmap_2.
Qed.

Lemma target_posted target p : p ∈ P → fits target p →
  let posted : gset string := if has_money target then {[pc_id p]} else ∅ in
  (∀ q, q ∈ P → pc_id q ∈ posted ↔ q ∈ [p] ∧ is_Some (pc_txn q)) ∧ posted ⊆ list_to_set (pc_id <$> P).
Proof.
  intros Hp Hf. cbv zeta. pose proof (ft_money _ _ Hf) as Hm. destruct (has_money target); split.
  - intros q Hq. rewrite elem_of_singleton, list_elem_of_singleton. split.
    + intros E. rewrite (parcel_with_id q p Hq Hp E). split; [done|]. by apply Hm.
    + by intros [-> _].
  - intros id ->%elem_of_singleton. apply elem_of_list_to_set. by apply list_elem_of_fmap_2.
  - intros q Hq. rewrite list_elem_of_singleton. split; [by intros ?%elem_of_empty|]. by intros [-> ?%Hm].
  - by intros id ?%elem_of_empty.
Qed.

(** ** What the plans expect *)
Lemma expecting_promises posted D text e : expecting fixtures posted text = Ok e →
  (∀ p, p ∈ P → pc_id p ∈ posted ↔ p ∈ D ∧ is_Some (pc_txn p)) ∧ posted ⊆ list_to_set (pc_id <$> P) →
  promises fixtures P D e.
Proof.
  unfold expecting. intros (delta & Ed & [= <-])%bind_Ok [H1 H2]. split; [done..| | |done]; cbn; [|done].
  apply disjoint_empty_l.
Qed.

Lemma nothing_promises e : posted_event_ids e = ∅ → _sum_delta fixtures ∅ = Ok (balances_delta e) →
  (reconciler_should_report_break e = true → ∃ fx, fx ∈ fixtures ∧ has_money fx = true) → promises fixtures P [] e.
Proof.
  intros E Hsum Hrep. split; rewrite ?E; [|done|apply disjoint_empty_r|done|].
  - intros p _. split; [by intros ?%elem_of_empty|by intros [?%elem_of_nil _]].
  - intros (fx & [i Hi]%list_elem_of_lookup & Hm)%Hrep. split; [done|].
    destruct (Forall2_lookup_l _ _ _ _ _ Hfits Hi) as (p & Hpi & _). exists fx, p. split; [|done].
    apply list_elem_of_lookup. exists i. apply lookup_zip_with_Some. by exists fx, p.
Qed.

Lemma sum_nothing : _sum_delta fixtures ∅ = Ok ∅.
Proof.
  unfold _sum_delta. assert (sum_loop fixtures ∅ ∅ = Ok ∅) as ->; [|rewrite bind_ok_run; cbn; f_equal; by apply nonzero_empty].
  clear Hids. revert P Hfits. induction fixtures as [|fx l IH]; intros Q HQ; [done|].
  apply Forall2_cons_inv_l in HQ as (p & Q' & Hf & HQ & ->). cbn [sum_loop]. rewrite (fits_id _ _ Hf), bind_ok_run.
  rewrite bool_decide_false by apply not_elem_of_empty. by eapply IH.
Qed.
End promised.

(** ** The bodies of a plan *)
Lemma safe_id m k (s : string) : safe (PDict m) → ascii_text s → ascii_text k → safe (PDict (dict_set k (PStr s) m)).
Proof.
  inversion 1 as [| | | | | |? Hnd Hall]; subst. intros Hs Hk. constructor; [by apply dict_set_NoDup|].
  apply dict_set_Forall; [split; [done|by constructor]|done].
Qed.

Lemma safe_str_of m k (s : string) : safe (PDict m) → dict_get k m = Some (PStr s) → ascii_text s.
Proof.
  inversion 1 as [| | | | | |? _ Hall]; subst. intros Hk%dict_get_elem. rewrite Forall_forall in Hall.
  destruct (Hall _ Hk) as [_ Hs]. by inversion Hs.
Qed.

Lemma object_of_twin m v : money_movement_object_id (PDict (dict_set "id" v m)) = money_movement_object_id (PDict m).
Proof. unfold money_movement_object_id, py_get, py_get_default. by rewrite !dict_get_set_ne by done. Qed.

(** The row of an event that is an old one under a new id. *)
Lemma row_of_twin m id row : event_row_of (PDict m) Received = Ok row →
  ∃ row', event_row_of (PDict (dict_set "id" (PStr id) m)) Received = Ok row' ∧ ev_id row' = id ∧
    ev_type row' = ev_type row ∧ ev_object row' = ev_object row.
Proof.
  unfold event_row_of. rewrite object_of_twin. intros (o & -> & (i & Hi & (ty & Hty & H)%bind_Ok)%bind_Ok)%bind_Ok.
  unfold py_index in *. rewrite dict_get_set_eq, dict_get_set_ne, Hty by done. run.
  inv_ok H. simplify_eq/=. destruct ty; simplify_eq/=. by eexists.
Qed.

Lemma clean_with_fields delay hold rej fx secret ts d : clean_with delay hold rej fx secret ts = Ok d →
  d_body d = serialize (fx_event fx) ∧ expect_rejected d = rej ∧ expect_rejection_reason d = None ∧ fixture_id fx = Ok (d_event_id d).
Proof. unfold clean_with. by intros (id & Hid & [= <-])%bind_Ok. Qed.

Lemma clean_parcel delay hold fx secret ts d p : fits fx p → clean_with delay hold false fx secret ts = Ok d → clean d p.
Proof. intros Hf (Hb & Hr & Hn & _)%clean_with_fields. split; [done..|]. by rewrite Hb, (ft_event _ _ Hf). Qed.

Lemma clean_parcels l Q secret ts : Forall2 fits l Q → ∀ ds, map_result (λ fx, _clean fx secret ts) l = Ok ds → Forall2 clean ds Q.
Proof.
  induction 1 as [|fx p l Q Hf _ IH]; intros ds; cbn [map_result]; [by intros [= <-]|].
  intros (d & Hd & (rest & Hrest & [= <-])%bind_Ok)%bind_Ok. constructor; [by eapply clean_parcel|by apply IH].
Qed.

(** The next bind of a plan. *)
Tactic Notation "next" hyp(H) simple_intropattern(x) simple_intropattern(Ex) := apply bind_Ok in H as (x & Ex & H).

(** ** Every plan *)
Section every_plan.
Context {F R : Type} `{HA : Arith F} `{HR : RedisClient F R} (st : site F).
Context (scenario : Scenario) (w : host R) (P : list parcel) (fp : FaultPlan).
Context (Hcalm : calm st w fp) (Hready : ready scenario w P fp) (Hdel : deliverable st scenario w fp).
Notation fxs := (fixtures scenario).
Notation good := (good st scenario w P fp).

Lemma good_all ds Q : kill_worker_after_s fp = None → p_deliveries fp = ds → Forall2 clean ds Q → Q ≡ₚ P →
  promises fxs P P (p_expectation fp) → good.
Proof.
  intros Hk Ed Hc Hperm Hp. apply (good_ordinary st scenario w P fp Hcalm Hready Hdel P); [done| |done|done| |].
  - eapply NoDup_fmap_1, (re_distinct _ _ _ _ Hready).
  - rewrite Ed. apply Forall_forall. intros d [i Hi]%list_elem_of_lookup.
    destruct (Forall2_lookup_l _ _ _ _ _ Hc Hi) as (p & ? & ?). left. exists p. split; [|done].
    rewrite <- Hperm. by eapply list_elem_of_lookup_2.
  - rewrite Ed. intros p Hp'. rewrite <- Hperm in Hp'. apply list_elem_of_lookup in Hp' as [i Hi].
    destruct (Forall2_lookup_r _ _ _ _ _ Hc Hi) as (d & ? & ?). exists d. split; [by eapply list_elem_of_lookup_2|done].
Qed.

Lemma good_copies n d p : p ∈ P → kill_worker_after_s fp = None → p_deliveries fp = replicate (S n) d → clean d p →
  promises fxs P [p] (p_expectation fp) → good.
Proof.
  intros Hp Hk Ed Hc Hprom. apply (good_ordinary st scenario w P fp Hcalm Hready Hdel [p]); [|apply NoDup_singleton|done|done| |].
  - by intros q ->%list_elem_of_singleton.
  - rewrite Ed. apply replicate_Forall. left. exists p. by split; [left|].
  - intros q ->%list_elem_of_singleton. exists d. split; [|done]. rewrite Ed. left.
Qed.

Lemma good_refused ds : kill_worker_after_s fp = None → p_deliveries fp = ds → Forall rejected ds →
  promises fxs P [] (p_expectation fp) → good.
Proof.
  intros Hk Ed Hc Hprom. apply (good_ordinary st scenario w P fp Hcalm Hready Hdel []); [by intros q ?%elem_of_nil|constructor|done|done| |].
  - rewrite Ed. eapply Forall_impl; [done|]. by right.
  - by intros q ?%elem_of_nil.
Qed.

(** The fields of a plan that was built. *)
Ltac plan_fields Ep :=
  injection Ep as Ep;
  pose proof (f_equal p_deliveries Ep) as Ed; pose proof (f_equal kill_worker_after_s Ep) as Ek;
  pose proof (f_equal p_expectation Ep) as Ee; pose proof (f_equal concurrent Ep) as Ec;
  pose proof (f_equal redeliver_after_kill Ep) as Er; clear Ep;
  cbn [p_deliveries kill_worker_after_s p_expectation concurrent redeliver_after_kill plain_plan] in *;
  symmetry in Ed, Ek, Ec, Er.

Lemma good_rejected_plan f fx params body hdr text : _rejected_plan f fx params body hdr text = Ok fp → good.
Proof.
  unfold _rejected_plan. intros (id & Hid & Ep)%bind_Ok. plan_fields Ep. eapply good_refused; [done|exact Ed| |].
  - apply Forall_singleton. split; [done|by right].
  - rewrite <- Ee. apply nothing_promises; [apply Hready|done|by apply (sum_nothing _ _ (re_fits _ _ _ _ Hready))|done].
Qed.

Lemma good_target target p n delay hold d ts text : p ∈ P → fits target p → kill_worker_after_s fp = None →
  p_deliveries fp = replicate (S n) d → clean_with delay hold false target (st_secret st) ts = Ok d →
  expecting fxs (if has_money target then {[pc_id p]} else ∅) text = Ok (p_expectation fp) → good.
Proof.
  intros Hp Hf Hk Ed Hd He. apply (good_copies n d p); [done..|by eapply clean_parcel|].
  eapply expecting_promises; [exact He|]. by apply target_posted; [apply Hready|..].
Qed.

Lemma good_everything l ds posted ts text : kill_worker_after_s fp = None → p_deliveries fp = ds →
  map_result (λ fx, _clean fx (st_secret st) ts) l = Ok ds → (∃ Q, Forall2 fits l Q ∧ Q ≡ₚ P) →
  ids_of (_money fxs) = Ok posted → expecting fxs posted text = Ok (p_expectation fp) → good.
Proof.
  intros Hk Ed Hds (Q & HQ & Hperm) Hids He. pose proof (clean_parcels _ _ _ _ HQ _ Hds) as Hc.
  eapply good_all; [done|exact Ed|done|exact Hperm|].
  eapply expecting_promises; [exact He|by eapply money_posted; [apply Hready..|]].
Qed.

Lemma good_late target p d delay past : p ∈ P → fits target p → kill_worker_after_s fp = None → p_deliveries fp = [d] →
  clean_with delay "0.0" true target (st_secret st) past = Ok d →
  posted_event_ids (p_expectation fp) = ∅ → reconciler_should_report_break (p_expectation fp) = false →
  _sum_delta fxs ∅ = Ok (balances_delta (p_expectation fp)) → good.
Proof.
  intros Hp Hf Hk Ed (_ & Hr & Hn & _)%clean_with_fields He Hrep Hsum. eapply good_refused; [done|exact Ed| |].
  - apply Forall_singleton. split; [done|by left].
  - apply nothing_promises; [apply Hready|done..|by rewrite Hrep].
Qed.

(** The twin is stopped by its object, and the database has not seen its id. *)
Lemma good_object_twin target p m d d' ts text : p ∈ P → fits target p → fx_event target = PDict m →
  kill_worker_after_s fp = None → concurrent fp = false → p_deliveries fp = [d; d'] →
  _clean target (st_secret st) ts = Ok d →
  _clean (MkEventFixture (PDict (dict_set "id" (PStr (pc_id p +:+ "_dup")) m)) (fx_kind target) (fx_delta target)) (st_secret st) ts = Ok d' →
  expecting fxs (if has_money target then {[pc_id p]} else ∅) text = Ok (p_expectation fp) → good.
Proof.
  intros Hp Hf Em Hk Hc Ed Hd (Hb & Hx1 & Hx2 & Hid)%clean_with_fields He. cbn [fx_event] in *.
  pose proof (ft_parcel _ _ Hf) as Hok. pose proof (pk_row p Hok) as Hrow. rewrite (ft_event _ _ Hf), Em in Hrow.
  destruct (row_of_twin m (pc_id p +:+ "_dup") _ Hrow) as (row & Hrow' & Ei & Ety & Eo).
  unfold fixture_id, py_index in Hid. cbn [fx_event] in Hid. rewrite dict_get_set_eq in Hid. run in Hid. cbn in Hid. injection Hid as Hid.
  pose proof (ft_safe _ _ Hf) as Hsafe. rewrite Em in Hsafe.
  eapply (good_twin st scenario w P fp Hcalm Hready Hdel d d' p _ (pc_id p +:+ "_dup") row); try done.
  - by eapply clean_parcel.
  - apply safe_id; [done| |by repeat constructor]. unfold ascii_text. rewrite chars_app. apply Forall_app. split; [|by repeat constructor].
    pose proof (pk_id p Hok) as Hi. rewrite (ft_event _ _ Hf), Em in Hi. unfold py_index in Hi.
    destruct (dict_get "id" m) as [v|] eqn:Ev; simplify_eq/=. by apply (safe_str_of m "id").
  - unfold envelope_id. rewrite dict_get_set_eq, dict_get_set_ne by done. destruct (pk_type p Hok) as (ty & Hty & _).
    rewrite (ft_event _ _ Hf), Em in Hty. unfold py_index in Hty. by destruct (dict_get "type" m); simplify_eq/=.
  - intros r Hr. unfold same_id. apply bool_decide_eq_false. rewrite Ei, Hid. intros E.
    apply (un_rows _ _ (re_unseen _ _ _ _ Hready) r Hr). rewrite E. apply fromkeys_elem, elem_of_app. right. rewrite Ed. right. left.
  - unfold same_object. rewrite Ety, Eo. apply andb_true_iff. rewrite bool_decide_eq_true. split; [done|].
    apply clashes_true. destruct (ft_object _ _ Hf) as [o ->]. by exists o.
  - eapply expecting_promises; [exact He|]. by apply target_posted; [apply Hready|..].
Qed.

(** Whatever the fault, the plan asks of the service what the service does. *)
Lemma plan_good f target l effective ts : fxs = target :: l →
  (f = DROP → ∃ fx, fx ∈ fxs ∧ has_money fx = true) →
  plan_for f target fxs (st_secret st) effective ts = Ok fp → good.
Proof.
  intros Efx Hdrop H. pose proof (re_fits _ _ _ _ Hready) as Hfits. pose proof (re_distinct _ _ _ _ Hready) as Hids.
  pose proof Hfits as Hf. rewrite Efx in Hf. apply Forall2_cons_inv_l in Hf as (p & Q & Hf & HQ & EP).
  assert (p ∈ P) as Hp by (rewrite EP; left).
  unfold plan_for, plan_tampered, plan_truncated, plan_stale, plan_downgraded, plan_partial_write, plan_slow_loris in H. rewrite (fits_id _ _ Hf), bind_ok_run in H.
  pose proof (target_posted P Hids target p Hp Hf) as Ht. cbv zeta in Ht, H.
  destruct f.
  - next H ids Eids. next H ds Eds. next H e Ee'. plan_fields H. subst e. eapply good_everything; [done..|by exists P|done|done].
  - next H v _. next H n _. next H u Hn. next H d Hd. next H e Ee'. plan_fields H. apply guard_or_Ok in Hn. bool_to_prop. subst e.
    eapply (good_target target p (Z.to_nat n - 1)); [done..|rewrite Ed; f_equal; lia|done|done].
  - next H tw Etw. next H twid _. next H d Hd. next H d' Hd'. next H e Ee'. plan_fields H. subst e.
    destruct (fx_event target) as [| | | | | |m] eqn:Em; try done. injection Etw as <-. by eapply (good_object_twin target p m d d').
  - next H v _. next H n _. next H u Hn. next H d Hd. next H e Ee'. plan_fields H. apply guard_or_Ok in Hn. bool_to_prop. subst e.
    eapply (good_target target p (Z.to_nat n - 1)); [done..|rewrite Ed; f_equal; lia|done|done].
  - next H u _. next H v _. next H u' _. next H ids Eids. next H ds Eds. next H e Ee'. plan_fields H. subst e.
    eapply good_everything; [done..| |done|done]. exists (reverse P). split; [by apply Forall2_reverse|by rewrite reverse_Permutation].
  - next H v _. next H sec _. next H v' _. set (past := truthy v') in *. next H d Hd. next H delta Edelta. plan_fields H.
    destruct past.
    + eapply (good_late target p d); [done..|by rewrite <- Ee|by rewrite <- Ee|by rewrite <- Ee].
    + eapply (good_target target p 0); [done..|]. rewrite <- Ee. unfold expecting. by rewrite Edelta.
  - next H ids _. plan_fields H. eapply good_refused; [done|exact Ed|constructor|]. rewrite <- Ee.
    apply nothing_promises; [done..|by apply (sum_nothing _ _ Hfits)|by intros _; apply Hdrop].
  - next H d Hd. next H e Ee'. plan_fields H. subst e. eapply (good_target target p 1); [done..|exact Ed|done|done].
  - next H fl _. by eapply good_rejected_plan.
  - by eapply good_rejected_plan.
  - next H v _. next H age _. next H u _. by eapply good_rejected_plan.
  - by eapply good_rejected_plan.
  - next H d Hd. next H v _. next H kill _. next H e Ee'. plan_fields H. subst e.
    eapply (good_kill st scenario w P fp Hcalm Hready Hdel d p); [done|by rewrite Ek|done..|by eapply clean_parcel|].
    eapply expecting_promises; [exact Ee'|]. by apply target_posted.
  - next H v _. next H hold _. next H d Hd. next H e Ee'. plan_fields H. subst e. eapply (good_target target p 0); [done..|exact Ed|done|done].
Qed.
End every_plan.

(** The ids a plan's deliveries carry: those of its fixtures, and the twin's. *)
Definition twin_of (id : string) : string := id +:+ "_dup".

Lemma cleans_in secret ts l d : ∀ ds, map_result (λ fx, _clean fx secret ts) l = Ok ds → d ∈ ds →
  ∃ fx, fx ∈ l ∧ fixture_id fx = Ok (d_event_id d).
Proof.
  induction l as [|fx l IH]; intros ds; cbn [map_result]; [by intros [= <-] ?%elem_of_nil|].
  intros (d' & (_ & _ & _ & Hd)%clean_with_fields & (rest & Hrest & [= <-])%bind_Ok)%bind_Ok [->|Hin]%elem_of_cons.
  - exists fx. by split; [left|].
  - destruct (IH _ Hrest Hin) as (fx' & ? & ?). exists fx'. by split; [right|].
Qed.

Lemma rejected_plan_ids f fx params body hdr text fp : _rejected_plan f fx params body hdr text = Ok fp →
  ∀ d, d ∈ p_deliveries fp → fixture_id fx = Ok (d_event_id d).
Proof. unfold _rejected_plan. by intros (id & Hid & [= <-])%bind_Ok d ->%list_elem_of_singleton. Qed.

Lemma plan_for_ids f target l secret effective ts fp ids :
  plan_for f target (target :: l) secret effective ts = Ok fp → map_result fixture_id (target :: l) = Ok ids →
  ∀ d, d ∈ p_deliveries fp → d_event_id d ∈ ids ∨ d_event_id d ∈ twin_of <$> ids.
Proof.
  intros H Hids. pose proof (map_fixture_ids _ _ Hids) as Hin.
  assert (∀ fx d, fx ∈ target :: l → fixture_id fx = Ok (d_event_id d) → d_event_id d ∈ ids ∨ d_event_id d ∈ twin_of <$> ids) as Hone
    by (intros fx d Hfx Hd; left; apply Hin; by exists fx).
  assert (∀ delay hold rej ts d, clean_with delay hold rej target secret ts = Ok d → d_event_id d ∈ ids ∨ d_event_id d ∈ twin_of <$> ids) as Hclean
    by (intros delay hold rej ts' d (_ & _ & _ & Hd)%clean_with_fields; by apply (Hone target); [left|]).
  assert (∀ fx ps body hdr text, _rejected_plan f fx ps body hdr text = Ok fp → fx = target →
    ∀ d, d ∈ p_deliveries fp → d_event_id d ∈ ids ∨ d_event_id d ∈ twin_of <$> ids) as Hrej
    by (intros fx ps body hdr text Hp -> d Hd; apply (Hone target); [left|by eapply rejected_plan_ids]).
  unfold plan_for, plan_tampered, plan_truncated, plan_stale, plan_downgraded, plan_partial_write, plan_slow_loris in H. apply bind_Ok in H as (id & Eid & H). cbv zeta in H. destruct f.
  - inv_ok H. simplify_eq/=. intros d Hd. by edestruct cleans_in as (fx & ? & ?); [..|by eapply Hone].
  - inv_ok H. simplify_eq/=. intros d' [-> _]%elem_of_replicate. by eapply Hclean.
  - next H tw Etw. next H twid Etwid. next H d Hd. next H d' Hd'. next H e _. injection H as <-.
    intros d0 [-> | ->%list_elem_of_singleton]%elem_of_cons; [by eapply Hclean|]. right.
    apply clean_with_fields in Hd' as (_ & _ & _ & Hi). destruct (fx_event target) as [| | | | | |m]; try done. injection Etw as <-.
    unfold fixture_id, py_index in Hi. cbn [fx_event] in Hi. rewrite dict_get_set_eq in Hi. cbn in Hi. injection Hi as <-.
    apply list_elem_of_fmap. exists id. split; [done|]. apply Hin. exists target. by split; [left|].
  - inv_ok H. simplify_eq/=. intros d' [-> _]%elem_of_replicate. by eapply Hclean.
  - inv_ok H. simplify_eq/=. intros d Hd. edestruct cleans_in as (fx & Hfx & ?); [done..|]. eapply Hone; [|done]. by rewrite elem_of_reverse in Hfx.
  - inv_ok H. simplify_eq/=. intros d' ->%list_elem_of_singleton. by eapply Hclean.
  - inv_ok H. simplify_eq/=. by intros d' ?%elem_of_nil.
  - inv_ok H. simplify_eq/=. intros d' [-> | ->%list_elem_of_singleton]%elem_of_cons; by eapply Hclean.
  - next H fl _. by eapply Hrej.
  - by eapply Hrej.
  - next H v _. next H age _. next H u _. by eapply Hrej.
  - by eapply Hrej.
  - inv_ok H. simplify_eq/=. intros d' ->%list_elem_of_singleton. by eapply Hclean.
  - inv_ok H. simplify_eq/=. intros d' ->%list_elem_of_singleton. by eapply Hclean.
Qed.

(** ** One scenario after another *)
Section settled_next.
Context (d0 d : database) (P Q D : list parcel).
Context (Hstock : stocked d0 (P ++ Q)) (Hids : NoDup (pc_id <$> P ++ Q)) (Hsub : ∀ p, p ∈ D → p ∈ P) (Hset : settled d0 D d).

Lemma in_left p : p ∈ D → p ∈ P ++ Q.
Proof using Hsub. intros Hp. apply elem_of_app. left. by apply Hsub. Qed.
Lemma in_right q : q ∈ Q → q ∈ P ++ Q.
Proof. intros Hq. apply elem_of_app. by right. Qed.
Lemma left_right p q : p ∈ D → q ∈ Q → p ≠ q.
Proof using Hids Hsub.
  intros Hp%Hsub Hq ->. rewrite fmap_app in Hids. apply NoDup_app in Hids as (_ & Hd & _).
  apply (Hd (pc_id q)); by apply list_elem_of_fmap_2.
Qed.

Lemma settled_accounts : accounts d = seed_accounts.
Proof using All. destruct Hset as [_ (done & (Ha & _) & _) _]. rewrite Ha, posted_all_accounts. apply Hstock. Qed.

Lemma settled_transactions r : r ∈ Ledger.transactions d →
  r ∈ Ledger.transactions d0 ∨ ∃ p t, p ∈ D ∧ pc_txn p = Some t ∧ r = txn_row_of t.
Proof using Hset.
  destruct Hset as [_ (done & (_ & Et & _) & Hdone) _]. rewrite Et, posted_all_transactions.
  intros [Hr|(t & -> & Ht)%list_elem_of_fmap]%elem_of_app; [by left|right]. rewrite Hdone in Ht.
  apply list_elem_of_omap in Ht as (p & Hp & Ep). by exists p, t.
Qed.

Lemma settled_rows row : row ∈ stripe_events d → row ∈ stripe_events d0 ∨ ∃ p, p ∈ D ∧ row_of p row.
Proof using Hset.
  destruct Hset as [_ _ (rows & -> & Hrows)]. intros [?|Hr]%elem_of_app; [by left|right]. by apply Hrows.
Qed.

(** What is left to deliver is as new to the ledger as it was. *)
Lemma settled_stocked : stocked d Q.
Proof using All.
  pose proof in_right as Hr. destruct Hstock as [K1 K2 K3 K4 K5 K6 K7]. split; [by eauto..| | | |].
  - intros q row Hq [Hrow|(p & Hp & E1 & E2 & E3 & _)]%settled_rows; [by apply K4; [apply Hr|]|].
    unfold same_id, same_object. rewrite E1, E2, E3. split.
    + apply bool_decide_eq_false. intros E. by apply (left_right p q), (K2 p q); [..|apply in_left|apply Hr|].
    + destruct (same_object (pc_row q) (pc_row p)) eqn:E; [|done].
      exfalso. apply (left_right p q); [done..|]. symmetry. by apply (K3 q p); [apply Hr|apply in_left|].
  - intros q t Hq Et r [Hd0|(p & u & Hp & Eu & ->)]%settled_transactions; [by apply (K5 q t (Hr q Hq) Et)|].
    by apply (K6 p q u t (in_left p Hp) (Hr q Hq) (left_right p q Hp Hq)).
  - eauto.
  - apply settled_accounts.
Qed.

Lemma settled_unseen ids : unseen d0 ids → (∀ p, p ∈ D → pc_id p ∉ ids) → unseen d ids.
Proof using All.
  intros [Hu1 Hu2] Hno. split.
  - intros row [Hrow|(p & Hp & E & _)]%settled_rows; [by apply Hu1|]. rewrite E. by apply Hno.
  - intros r id [Hr|(p & t & Hp & Et & ->)]%settled_transactions; [by eapply Hu2|].
    change (t_event (txn_row_of t)) with (stripe_event_id t).
    rewrite (parcel_event_id p t (sk_parcels _ _ Hstock p (in_left p Hp)) Et). intros [= <-]. by apply Hno.
Qed.
End settled_next.

(** ** The campaign *)

(** All the ids a scenario of these parcels may show. *)
Definition shown (P : list parcel) : list string := (pc_id <$> P) ++ (twin_of <$> (pc_id <$> P)).

Lemma unseen_sub d ids ids' : unseen d ids → ids' ⊆ ids → unseen d ids'.
Proof. intros [H1 H2] Hs. split; [intros row Hr Hi; by apply (H1 row Hr), Hs|intros r id Hr E Hi; by apply (H2 r id Hr E), Hs]. Qed.

Section campaign.
Context {F R : Type} `{HA : Arith F} `{HR : RedisClient F R} (st : site F) (bound : nat).

(** A service that is left alone, up to [bound] requests in a row arriving within
    the signature's tolerance: the worker runs when it likes, and may be killed
    where it likes. *)
Record steady : Prop := {
  sy_undisturbed : ∀ n, undisturbed (tn_world (st_turn st n));
  sy_clock : ∀ n m, (n <= m < n + bound)%nat →
    tn_clock (st_turn st n) <= w_clock (tn_world (st_turn st m)) <= tn_clock (st_turn st n) + DEFAULT_TOLERANCE_SECONDS;
  sy_range : ∀ n, 0 <= tn_clock (st_turn st n) < 10 ^ 19;
  sy_schedule : ∀ fp n, valid_schedule fp (kills_of fp) (st_schedule st fp n);
  sy_render : contains INVALID_SIGNATURE (st_render st bad_signature) = true }.

(** A scenario whose plan can be made, and delivered in one go: no body too
    large, and none that was altered with the digest of an original. *)
Record playable (s : Scenario) : Prop := {
  pl_drop : sc_fault s = DROP → ∃ fx, fx ∈ fixtures s ∧ has_money fx = true;
  pl_age : ∀ age, age_of (merge (_DEFAULT_PARAMS (sc_fault s)) (sc_params s)) = Ok age → age < 10 ^ 19;
  pl_plan : ∀ n, ∃ fp, plan (sc_fault s) (fixtures s) (st_secret st) (sc_params s) None (tn_clock (st_turn st n)) = Ok fp ∧
    (requests fp <= bound)%nat ∧ ∀ d, d ∈ p_deliveries fp →
      str_len (d_body d) <= MAX_BODY_BYTES ∧ ¬ collides (st_secret st) (fixtures s) (tn_clock (st_turn st n)) d }.

Definition idle (w : host R) : Prop := ledger_ok (host_db w) ∧ a_queue (h_app w) = [] ∧ a_shedder (h_app w) = None.

Context (Hsteady : steady).

Lemma play s P w : playable s → Forall2 fits (fixtures s) P → NoDup (pc_id <$> P) → idle w → stocked (host_db w) P →
  unseen (host_db w) (shown P) →
  ∃ record w' D, run_scenario (site_stack st) s w = (Ok record, w') ∧ green record ∧ idle w' ∧
    (∀ p, p ∈ D → p ∈ P) ∧ settled (host_db w) D (host_db w').
Proof using Hsteady.
  intros [Hdrop Hage Hplan] Hfits Hids (Hok & Hq & Hs) Hstock Hnew. destruct (Hplan (h_served w)) as (fp & Efp & Hbound & Hd).
  destruct Hsteady as [S1 S2 S3 S4 S5]. pose proof Efp as Hp. unfold plan in Hp.
  destruct (fixtures s) as [|target l] eqn:Efx; [done|]. cbn [default from_option id] in Hp.
  assert (calm st w fp) as Hcalm by (split; [auto|intros n Hn; apply S2; lia|apply S4|exact S5]).
  assert (candidates_in fp (pc_id <$> P) ⊆ shown P) as Hcand.
  { intros x. unfold candidates_in, shown. rewrite fromkeys_elem, !elem_of_app. intros [?|(d & -> & Hdp)%list_elem_of_fmap]; [by left|].
    apply (plan_for_ids _ _ _ _ _ _ _ _ Hp (fits_ids _ _ Hfits) d Hdp). }
  assert (ready s w P fp) as Hready by (split; [done|done|done|by rewrite Efx|done|done|by eapply unseen_sub]).
  assert (deliverable st s w fp) as Hdel.
  { split; [by apply Hd|rewrite Efx; by apply Hd|]. intros n Hn. rewrite Efx.
    eapply (plan_for_verdicts (sc_fault s) target (target :: l)); [apply S3|exact Hage|apply S2; lia|left|exact Hp]. }
  destruct (plan_good st s w P fp Hcalm Hready Hdel (sc_fault s) target l (merge (_DEFAULT_PARAMS (sc_fault s)) (sc_params s)) (tn_clock (st_turn st (h_served w))) Efx) as (D & Hsub & HD & Hprom & Hinj);
    [by rewrite Efx|rewrite Efx; exact Hp|].
  assert (stocked (host_db w) D) as HstockD by (by apply (stocked_sub s w P fp Hready)).
  destruct (run_green st s w P D (h_served w) (h_served w + requests fp)%nat fp) as (record & w' & E & Hg & _ & Hq' & Hs' & Hset);
    [by rewrite Efx|by rewrite Efx|done..|by eapply unseen_sub|done|].
  exists record, w', D. split_and!; [done|done|by split_and!; [apply Hset|..]|done|done].
Qed.

Context (describe : exn → string).

(** The ledger is ready for the scenarios of these parcels, one after the other:
    their ids are distinct, none is another's twin, and all are new to it. *)
Definition clear_of_twins (P : list parcel) : Prop := ∀ p q, p ∈ P → q ∈ P → pc_id p ≠ twin_of (pc_id q).
Record primed (Ps : list (list parcel)) (w : host R) : Prop := {
  pr_ids : NoDup (pc_id <$> concat Ps);
  pr_twins : clear_of_twins (concat Ps);
  pr_idle : idle w;
  pr_stocked : stocked (host_db w) (concat Ps);
  pr_unseen : unseen (host_db w) (shown (concat Ps)) }.

Lemma stocked_empty d P : stocked d P → stocked empty_db P.
Proof.
  intros [K1 K2 K3 K4 K5 K6 K7]. split; [done..| | |done|done].
  - by intros p row _ ?%elem_of_nil.
  - by intros p t _ _ r ?%elem_of_nil.
Qed.
Lemma unseen_empty ids : unseen empty_db ids.
Proof. split; [by intros row ?%elem_of_nil|by intros r id ?%elem_of_nil]. Qed.

Lemma primed_reset Ps w : primed Ps w → primed Ps (Host (with_log empty_db [] (h_app w)) (h_served w)).
Proof.
  intros [H1 H2 (_ & _ & Hs) H4 H5]. split; [done|done|split; [exact empty_db_ok|done]|by eapply stocked_empty|apply unseen_empty].
Qed.

(** Emptying the ledger first, or not. *)
Lemma primed_only_if reset Ps w : primed Ps w →
  ∃ w0, only_if reset (reset_ledger (site_stack st)) w = (Ok (), w0) ∧ primed Ps w0.
Proof. intros Hp. destruct reset; [|by exists w]. eexists. split; [reflexivity|by apply primed_reset]. Qed.

Lemma shown_sub P Q : P ⊆ Q → shown P ⊆ shown Q.
Proof.
  intros H x. unfold shown. rewrite !elem_of_app, !list_elem_of_fmap. setoid_rewrite list_elem_of_fmap.
  intros [(p & -> & Hp)|(id & -> & p & -> & Hp)]; [left|right]; eauto 10.
Qed.

(** One scenario is green and leaves the ledger ready for the next ones. *)
Lemma play_step s P Ps w : playable s → Forall2 fits (fixtures s) P → primed (P :: Ps) w →
  ∃ record w', run_scenario (site_stack st) s w = (Ok record, w') ∧ green record ∧ primed Ps w'.
Proof using Hsteady.
  intros Hplay Hfits [Hids Htwins Hidle Hstock Hnew]. cbn [concat] in *.
  assert (P ⊆ P ++ concat Ps) as HP by (intros p Hp; apply elem_of_app; by left).
  assert (concat Ps ⊆ P ++ concat Ps) as HQ by (intros p Hp; apply elem_of_app; by right).
  pose proof Hids as Hids'. rewrite fmap_app in Hids'. apply NoDup_app in Hids' as (Hids1 & Hdisj & Hids2).
  destruct (play s P w Hplay Hfits Hids1 Hidle) as (record & w1 & D & E1 & Hg & Hidle1 & Hsub & Hset);
    [by eapply stocked_weaken|by eapply unseen_sub, shown_sub|].
  exists record, w1. split; [done|]. split; [done|]. split; [done| |done| |].
  - intros p q Hp Hq. by apply Htwins; apply HQ.
  - by eapply (settled_stocked (host_db w) (host_db w1) P (concat Ps) D).
  - eapply (settled_unseen (host_db w) (host_db w1) P (concat Ps) D); [done..|by eapply unseen_sub, shown_sub|].
    intros p Hp. unfold shown. rewrite elem_of_app. intros [Hin|(id & E & (q & -> & Hq)%list_elem_of_fmap)%list_elem_of_fmap].
    + apply (Hdisj (pc_id p)); [|done]. by apply list_elem_of_fmap_2, Hsub.
    + by apply (Htwins p q); [apply HP, Hsub|apply HQ|].
Qed.

(** The whole run: every scenario of it green, the ledger kept or emptied before
    each one. *)
Lemma play_all reset scenarios Ps : Forall2 (λ s P, playable s ∧ Forall2 fits (fixtures s) P) scenarios Ps → ∀ w,
  primed Ps w →
  ∃ records w', run_all (site_stack st) describe reset scenarios w = (Ok records, w') ∧
    length records = length scenarios ∧ Forall green records ∧ idle w'.
Proof using Hsteady.
  induction 1 as [|s P scenarios Ps [Hplay Hfits] _ IH]; intros w Hw.
  { exists [], w. split; [done|]. split; [done|]. by split; [constructor|apply Hw]. }
  destruct (primed_only_if reset _ w Hw) as (w0 & E0 & Hw0).
  destruct (play_step s P Ps w0 Hplay Hfits Hw0) as (record & w1 & E1 & Hg & Hw1).
  destruct (IH w1 Hw1) as (records & w' & E2 & Hlen & Hgs & Hidle').
  exists (record :: records), w'. split; [|split; [cbn; by rewrite Hlen|by split; [constructor|]]].
  cbn [run_all]. run. rewrite E0. run. rewrite E1. run. by rewrite E2.
Qed.
End campaign.

(** ** Scenarios of made fixtures *)

(** The fixtures are the makers', for amounts that make sense, at these sequence
    numbers. *)
Definition made_with (fx : EventFixture) (seq : Z) : Prop := ∃ kind created o clock,
  sensible kind o ∧ min_timestamp <= _now created clock <= max_timestamp ∧ make kind seq created o clock = Ok fx.

Lemma made_parcels fxs seqs : Forall2 made_with fxs seqs →
  ∃ P, Forall2 fits fxs P ∧ Forall2 (λ s p, ∃ fx, made_at s fx p) seqs P.
Proof.
  induction 1 as [|fx s l k (kind & created & o & clock & Hs & Ht & Hm) _ (P & H1 & H2)]; [by exists []; split; constructor|].
  destruct (make_made kind s created o clock fx Hs Ht Hm) as [[p Hp] _]. exists (p :: P). split; constructor; [|done|by exists fx|done].
  destruct Hp as [ty Hp]. exact (ma_fits _ _ _ _ _ Hp).
Qed.

Lemma made_campaign (Q : Scenario → Prop) scenarios numbers :
  Forall2 (λ s seqs, Q s ∧ Forall2 made_with (fixtures s) seqs) scenarios numbers →
  ∃ Ps, Forall2 (λ s P, Q s ∧ Forall2 fits (fixtures s) P) scenarios Ps ∧
        Forall2 (λ s p, ∃ fx, made_at s fx p) (concat numbers) (concat Ps).
Proof.
  induction 1 as [|s seqs l k [Hq Hm] _ (Ps & H1 & H2)]; [by exists []; split; constructor|].
  destruct (made_parcels _ _ Hm) as (P & H3 & H4). exists (P :: Ps). split; [by constructor|]. by apply Forall2_app.
Qed.

(** A service that was just set up is ready for them, whatever they are. *)
Lemma made_primed {R} numbers Ps (w : host R) : Forall2 (λ s p, ∃ fx, made_at s fx p) (concat numbers) (concat Ps) →
  NoDup (concat numbers) → Forall (λ n, 0 <= n) (concat numbers) →
  (∀ n m, n ∈ concat numbers → m ∈ concat numbers →
     uuid5 ("ledgerproof:" +:+ event_id_at n) = uuid5 ("ledgerproof:" +:+ event_id_at m) → n = m) →
  host_db w = empty_db → a_queue (h_app w) = [] → a_shedder (h_app w) = None → primed Ps w.
Proof.
  intros Hmade Hnd Hpos Huuid Hdb Hq Hs. split.
  - by eapply made_distinct.
  - intros p q (i & n & fx & _ & _ & (ty & Hp) & Hn)%(parcel_number _ _ Hmade Hpos)
      (j & m & fy & _ & _ & (ty' & Hq') & Hm)%(parcel_number _ _ Hmade Hpos).
    rewrite (ma_id _ _ _ _ _ Hp), (ma_id _ _ _ _ _ Hq'). unfold twin_of. intros E. by apply (twin_id_apart m n).
  - split; [|done]. rewrite Hdb. exact empty_db_ok.
  - rewrite Hdb. by apply (made_stocked (concat numbers)).
  - rewrite Hdb. apply unseen_empty.
Qed.

(** ** Property *)

(** No false alarms: every scenario of a campaign, whatever its fault, is green. *)
Theorem campaign_green {F R} `{HA : Arith F} `{HR : RedisClient F R} (st : site F) bound describe reset scenarios numbers (w : host R) :
  steady st bound → Forall2 (λ s seqs, playable st bound s ∧ Forall2 made_with (fixtures s) seqs) scenarios numbers →
  NoDup (concat numbers) → Forall (λ n, 0 <= n) (concat numbers) →
  (∀ n m, n ∈ concat numbers → m ∈ concat numbers →
     uuid5 ("ledgerproof:" +:+ event_id_at n) = uuid5 ("ledgerproof:" +:+ event_id_at m) → n = m) →
  host_db w = empty_db → a_queue (h_app w) = [] → a_shedder (h_app w) = None →
  ∃ records w', run_all (site_stack st) describe reset scenarios w = (Ok records, w') ∧
    length records = length scenarios ∧ Forall green records ∧ ledger_ok (host_db w').
Proof.
  intros Hst Hsc Hnd Hpos Huuid Hdb Hq Hs. destruct (made_campaign _ _ _ Hsc) as (Ps & Hplay & Hmade).
  destruct (play_all st bound Hst describe reset scenarios Ps Hplay w) as (records & w' & E & Hl & Hg & Hok & _ & _);
    [by eapply made_primed|]. by exists records, w'.
Qed.

(** A worker killed before its commit, with the broker losing the message: the
    redelivery brings the event back. *)
Definition sample_turn : turn Q := Turn Q sample_world 1 1700000000 5 "start" [ConnectionLost false] Undisturbed true.
Definition serial (fp : FaultPlan) (n : nat) : list (option nat) :=
  (Some <$> seq 0 (length (p_deliveries fp))) ++ (if kill_armed fp (kills_of fp) then [None] else []).
Definition sample_site : site Q :=
  MkSite Q "whsec" no_route (λ r, json_dumps (rs_json r)) (λ _, sample_turn) serial 1 (λ _, None) (λ _, "") (λ _ _, 0) (λ _ _, 0)
    (λ _, None) (λ _ _ _, "").
Definition sample_partial_write : Scenario :=
  MkScenario "partial_write-charge_succeeded-0000" PARTIAL_WRITE [] [sample_fixture] PNone.
Definition sample_host : host sim_redis := Host sample_state 0.

Lemma serial_valid fp n : valid_schedule fp (kills_of fp) (serial fp n).
Proof.
  unfold valid_schedule, serial. assert (∀ l : list nat, omap id (Some <$> l) = l) as Ho by (by induction l as [|x l IH]; cbn; [|rewrite IH]).
  assert (∀ (l : list nat) k, length (filter (λ e, e = None) ((Some <$> l) ++ k)) = length (filter (λ e, e = None) k)) as Hf.
  { induction l as [|x l IH]; intros k; [done|]. rewrite fmap_cons. cbn [app]. rewrite filter_cons_False by done. apply IH. }
  cbv zeta. split; [|etransitivity; [apply Hf|by destruct (kill_armed _ _)]].
  assert (omap id ((Some <$> seq 0 (length (p_deliveries fp))) ++ (if kill_armed fp (kills_of fp) then [None] else [])) =
          seq 0 (length (p_deliveries fp))) as ->; [|by destruct (_ && _)%bool].
  rewrite omap_app, Ho. destruct (kill_armed _ _); by rewrite ?app_nil_r.
Qed.

Lemma sample_steady : steady sample_site 2.
Proof.
  split.
  - by intros n.
  - intros n m _. unfold DEFAULT_TOLERANCE_SECONDS. cbn. lia.
  - intros n. cbn. lia.
  - apply serial_valid.
  - vm_compute. reflexivity.
Qed.

Lemma sample_made : make "charge_succeeded" 1 (Some 1700000000) (Overrides None None None) 0 = Ok sample_fixture.
Proof. vm_compute. reflexivity. Qed.

Lemma sample_playable : playable sample_site 2 sample_partial_write.
Proof.
  split; [done|done|]. intros n.
  assert (∃ fp, plan PARTIAL_WRITE [sample_fixture] "whsec" [] None 1700000000 = Ok fp ∧ requests fp = 2%nat ∧
    Forall (λ d, str_len (d_body d) <= MAX_BODY_BYTES ∧ d_body d = serialize (fx_event sample_fixture)) (p_deliveries fp)) as (fp & E & Hr & Hd).
  { eexists. split; [vm_compute; reflexivity|]. split; [reflexivity|]. apply Forall_singleton. split; [|vm_compute; reflexivity].
    apply Z.leb_le. vm_compute. reflexivity. }
  exists fp. split; [exact E|]. split; [lia|]. intros d Hin. rewrite Forall_forall in Hd. destruct (Hd d Hin) as [Hs Hb].
  split; [done|]. intros (fx & ->%list_elem_of_singleton & Hne & _). by rewrite Hb in Hne.
Qed.

Lemma campaign_green_witness :
  ∃ records w', run_all (site_stack sample_site) (λ _, "") false [sample_partial_write] sample_host = (Ok records, w') ∧
    length records = 1%nat ∧ Forall green records ∧ ledger_ok (host_db w').
Proof.
  refine (campaign_green sample_site 2 (λ _, "") false [sample_partial_write] [[1]] sample_host sample_steady _ _ _ _ _ _ _).
  - constructor; [split; [exact sample_playable|]|constructor]. constructor; [|constructor].
    exists "charge_succeeded", (Some 1700000000), (Overrides None None None), 0.
    split; [change (bounded 1000 ∧ 0 <= 59 < 1000); unfold bounded; lia|]. split; [unfold min_timestamp, max_timestamp; cbn; lia|exact sample_made].
  - apply (bool_decide_unpack _). reflexivity.
  - apply (bool_decide_unpack _). reflexivity.
  - intros n m ->%list_elem_of_singleton ->%list_elem_of_singleton _. reflexivity.
  - reflexivity.
  - reflexivity.
  - reflexivity.
Defined.
