(* ===== verification/Chaos.v ===== *)
(** harness/runner.py from the command line: [main] generates scenarios, runs
    the chosen ones against one stack or a fresh stack each, writes a line per record as
    it goes, and a summary.  The last theorem follows such a run through every
    component: against a healthy service it reports nothing. *)
From Stdlib Require Import QArith.
From S2P Require Import Processes Prelude PyVal Json Hash Ledger Post Balances Mapping Signature Dedupe Stratum.
From S2P Require Import Gcra Shed Handlers Ingest System Recon PromptText Prompts Triage Events Faults Scenarios Runner Proxy Site Parcels Observe Made Green Alarms.
Import Fault.
#[local] Open Scope Z_scope.

(** ** The artifact *)

(** [json.dumps(value, indent=2)] at a depth. *)
Definition newline (depth : nat) : list ascii := chr 10 :: replicate (2 * depth) " "%char.
Fixpoint separated (sep : list ascii) (l : list (list ascii)) : list ascii :=
  match l with [] => [] | [x] => x | x :: l => x ++ sep ++ separated sep l end.
Fixpoint dump_indented (depth : nat) (v : pyval) : list ascii :=
  match v with
  | PList [] => chars "[]"
  | PDict [] => chars "{}"
  | PList l =>
      "["%char :: newline (S depth) ++ separated (","%char :: newline (S depth)) (List.map (dump_indented (S depth)) l) ++
      newline depth ++ ["]"%char]
  | PDict d =>
      "{"%char :: newline (S depth) ++ separated (","%char :: newline (S depth))
        (List.map (λ kv, dump_string kv.1 ++ chars ": " ++ dump_indented (S depth) kv.2) d) ++ newline depth ++ ["}"%char]
  | v => dump v
  end.

(** One record of the JSONL file; a line ends with a newline. *)
Definition json_line (record : pyval) : string := of_chars (dump_spaced record).

(** ** The command line *)
Record args := Args {
  seed : Z; per_combo : Z; faults : option string; kinds : option string; limit : option Z;
  keep_stack : bool; reset_each : bool }.

(** [l[:n]] *)
Definition prefix_slice {A} (n : Z) (l : list A) : list A :=
  take (Z.to_nat (if 0 <=? n then n else Z.of_nat (length l) + n)) l.
Definition selection {A} (limit : option Z) (l : list A) : list A :=
  match limit with
  | Some n => if n =? 0 then l else prefix_slice n l
  | None => l
  end.

(** What a run changes: the deployment, and its two files. *)
Record disk (W : Type) := Disk { k_world : W; k_lines : list string; k_summary : option string }.
Arguments Disk {W}. Arguments k_world {W}. Arguments k_lines {W}. Arguments k_summary {W}.

Section main.
Context {W G : Type} (stack : Runner.Stack W).
(** [create_database] and the context manager of harness/stack.py. *)
Context (create_database start stop : stx W ()).
Context (seeded : Z → G) (randrange : Z → Z → G → Z * G) (clock : Z) (describe : exn → string).

Definition in_world {A} (m : stx W A) : stx (disk W) A := λ k,
  let '(r, w) := m (k_world k) in (r, Disk w (k_lines k) (k_summary k)).

(** [with stack:] *)
Definition with_stack {A} (body : stx (disk W) A) : stx (disk W) A := _ ← in_world start; try_finally body (in_world stop).

(** The file is emptied when it is opened; each line is flushed. *)
Definition _jsonl {A} (body : stx (disk W) A) : stx (disk W) A := _ ← modify (λ k, Disk (k_world k) [] (k_summary k)); body.
Definition emit (record : pyval) : stx (disk W) () := modify (λ k, Disk (k_world k) (k_lines k ++ [json_line record]) (k_summary k)).

(** The loop of [run_all]. *)
Fixpoint run_each (reset_each : bool) (scenarios : list Scenario) : stx (disk W) (list pyval) :=
  match scenarios with
  | [] => mret []
  | scenario :: scenarios =>
      record ← in_world (
        _ ← only_if reset_each (reset_ledger stack);
        started ← gets id;
        try_except (run_scenario stack scenario) (λ exc,
          failed ← gets id;
          lift (_failure_record scenario (describe exc) (elapsed_ms stack started failed))));
      _ ← emit record;
      records ← run_each reset_each scenarios;
      mret (record :: records)
  end.

(** Without --keep-stack: a stack for each scenario, an exception ends the run. *)
Fixpoint run_fresh (reset_each : bool) (scenarios : list Scenario) : stx (disk W) (list pyval) :=
  match scenarios with
  | [] => mret []
  | scenario :: scenarios =>
      record ← with_stack (in_world (_ ← only_if reset_each (reset_ledger stack); run_scenario stack scenario));
      _ ← emit record;
      records ← run_fresh reset_each scenarios;
      mret (record :: records)
  end.

(** [argv], the clock's readings and the path are the caller's. *)
Definition main (a : args) (argv : list string) (wall_clock_s started finished artifact : string) : stx (disk W) pyval :=
  chosen ← lift (_fault_list (faults a));
  generated ← lift (generate randrange clock chosen (_kind_list (kinds a)) (per_combo a) 0 (seeded (seed a))).1;
  let selected := selection (limit a) generated.1 in
  _ ← in_world create_database;
  records ← (if keep_stack a then with_stack (_jsonl (run_each (reset_each a) selected))
             else _jsonl (run_fresh (reset_each a) selected));
  summary ← lift (summarize records argv generated.2 (Z.of_nat (length generated.1)) wall_clock_s started finished artifact);
  _ ← modify (λ k, Disk (k_world k) (k_lines k) (Some (of_chars (dump_indented 0 summary) +:+ of_chars [chr 10])));
  mret summary.
End main.

(** ** A crash keeps what ran *)
Section lines.
Context {W : Type} (stack : Runner.Stack W) (start stop : stx W ()) (describe : exn → string).
Implicit Types (k : disk W).

Lemma in_world_run {A} (m : stx W A) k :
  in_world m k = ((m (k_world k)).1, Disk (m (k_world k)).2 (k_lines k) (k_summary k)).
Proof. unfold in_world. by destruct (m (k_world k)). Qed.

(** The file holds the records of the scenarios that were finished: all of
    them, or those before the one that ended the run. *)
Definition lines_kept (n : nat) k (out : result (list pyval) * disk W) : Prop := ∃ done,
  k_lines out.2 = k_lines k ++ (json_line <$> done) ∧
  match out.1 with Ok records => done = records ∧ length done = n | Err _ => (length done < n)%nat end.

Lemma kept_loop (one : Scenario → stx (disk W) pyval) (loop : list Scenario → stx (disk W) (list pyval)) :
  (∀ s k, k_lines (one s k).2 = k_lines k) → loop [] = mret [] →
  (∀ s l, loop (s :: l) = (record ← one s; _ ← emit record; records ← loop l; mret (record :: records))) →
  ∀ l k, lines_kept (length l) k (loop l k).
Proof.
  intros Hone Hnil Hcons. induction l as [|s l IH]; intros k; [rewrite Hnil; exists []; by rewrite app_nil_r|].
  rewrite Hcons. run. specialize (Hone s k). destruct (one s k) as [[record|e] k1]; cbn [snd] in Hone.
  2:{ exists []. rewrite app_nil_r. split; [done|cbn; lia]. }
  unfold emit. run. set (k2 := Disk _ _ _). destruct (IH k2) as (rs & Hl & Hr). destruct (loop l k2) as [[records|e] k3]; cbn [fst snd] in *; run.
  - destruct Hr as [-> Hn]. exists (record :: records). cbn [fst snd]. rewrite Hl. cbn [k_lines k2]. rewrite Hone, <- app_assoc. split; [done|].
    split; [done|]. cbn. by rewrite Hn.
  - exists (record :: rs). cbn [fst snd]. rewrite Hl. cbn [k_lines k2]. rewrite Hone, <- app_assoc. split; [done|cbn; lia].
Qed.

Lemma run_each_kept reset scenarios k : lines_kept (length scenarios) k (run_each stack describe reset scenarios k).
Proof.
  apply (kept_loop (λ s, in_world (
        _ ← only_if reset (reset_ledger stack); started ← gets id;
        try_except (run_scenario stack s) (λ exc, failed ← gets id;
          lift (_failure_record s (describe exc) (elapsed_ms stack started failed)))))); [|done..].
  intros s k'. by rewrite in_world_run.
Qed.

Lemma run_fresh_kept reset scenarios k : lines_kept (length scenarios) k (run_fresh stack start stop reset scenarios k).
Proof.
  apply (kept_loop (λ s, with_stack start stop (in_world (_ ← only_if reset (reset_ledger stack); run_scenario stack s)))); [|done..].
  intros s k'. unfold with_stack. run. rewrite in_world_run. destruct (start (k_world k')) as [[[]|e] w1]; run; [|done].
  unfold try_finally. rewrite in_world_run. cbn [k_world k_lines]. rewrite in_world_run. by destruct (stop _) as [[[]|e'] w2].
Qed.

(** The loop on one stack is [run_all], with its lines. *)
Lemma run_each_run_all reset scenarios : ∀ k,
  (run_each stack describe reset scenarios k).1 = (run_all stack describe reset scenarios (k_world k)).1 ∧
  k_world (run_each stack describe reset scenarios k).2 = (run_all stack describe reset scenarios (k_world k)).2.
Proof.
  induction scenarios as [|s l IH]; intros k; [done|]. cbn [run_each run_all]. run. rewrite in_world_run. run.
  destruct (only_if reset (reset_ledger stack) (k_world k)) as [[[]|e] w1]; run; [|done].
  unfold id. destruct (match run_scenario stack s w1 with (Ok a, s') => _ | (Err e, s') => _ end) as [[record|e] w2]; run; [|done].
  cbn [fst snd]. unfold emit. rewrite bind_run, modify_run. cbn [k_world k_lines k_summary].
  destruct (IH (Disk w2 (k_lines k ++ [json_line record]) (k_summary k))) as [E1 E2]. cbn [k_world] in *. rewrite bind_run.
  destruct (run_each stack describe reset l _) as [[rs|e] k2], (run_all stack describe reset l w2) as [r w3];
    cbn [fst snd] in *; by subst.
Qed.
End lines.

(** ** Generated scenarios can be played *)
Section generated.
Context {G : Type} (randrange : Z → Z → G → Z * G) (clock : Z).
(** [randrange] keeps its bounds, and the clock is one datetime can show. *)
Context (Hfair : ∀ lo hi g, lo < hi → lo <= (randrange lo hi g).1 < hi).
Context (Hclock : min_timestamp <= clock <= max_timestamp).

Lemma fixture_made kind seq g fx g' : _fixture randrange clock kind seq g = (Ok fx, g') →
  made_with fx seq ∧ (kind ≠ "invoice_payment_failed" → has_money fx = true).
Proof.
  unfold _fixture, draw. run. pose proof (Hfair _MIN_AMOUNT _MAX_AMOUNT g ltac:(done)) as Ha. unfold _MIN_AMOUNT, _MAX_AMOUNT in *.
  destruct (randrange 100 100000 g) as [amount g1]. cbn [fst] in Ha. run.
  assert (∀ o, sensible kind o → make kind seq None o clock = Ok fx → made_with fx seq ∧ (kind ≠ "invoice_payment_failed" → has_money fx = true)) as Hby.
  { intros o Hs Hm. split; [by exists kind, None, o, clock|]. by apply (make_made kind seq None o clock fx Hs Hclock Hm). }
  assert (30 <= _fee amount < amount) as Hfee by (unfold _fee; pose proof (Z.div_mod (amount * 29) 1000); pose proof (Z.mod_pos_bound (amount * 29) 1000); lia).
  case_bool_decide as E1; [subst kind; run; intros [= Hm _]; eapply Hby; [|exact Hm]; split; cbn; small|].
  case_bool_decide as E2.
  { subst kind. run. pose proof (Hfair 1 (amount + 1) g1 ltac:(lia)) as Hr. destruct (randrange 1 (amount + 1) g1) as [refunded g2]. cbn [fst] in Hr. run.
    intros [= Hm _]. eapply Hby; [|exact Hm]. split; cbn; small. }
  case_bool_decide as E3; [subst kind; run; intros [= Hm _]; eapply Hby; [|exact Hm]; split; cbn; unfold _DISPUTE_FEE; small|].
  run. intros [= Hm _]. eapply Hby; [|exact Hm]. unfold sensible. rewrite !(bool_decide_false (kind = _)) by done.
  case_bool_decide; cbn; small.
Qed.

Lemma fixtures_made kind count : ∀ seq g l g', draw_fixtures randrange clock kind seq count g = (Ok l, g') →
  Forall2 made_with l (seqZ seq (Z.of_nat count)) ∧ (kind ≠ "invoice_payment_failed" → Forall (λ fx, has_money fx = true) l).
Proof.
  induction count as [|n IH]; intros seq g l g'; cbn [draw_fixtures]; run; [intros [= <- _]; split; [constructor|by constructor]|].
  destruct (_fixture randrange clock kind seq g) as [[fx|] g1] eqn:E1; run; [|done].
  destruct (draw_fixtures randrange clock kind (seq + 1) n g1) as [[fxs|] g2] eqn:E2; run; [|done]. intros [= <- _].
  apply fixture_made in E1 as [H1 H2]. apply IH in E2 as [H3 H4]. rewrite Nat2Z.inj_succ, <- Z.add_1_l, seqZ_cons by lia.
  replace (Z.pred (1 + Z.of_nat n)) with (Z.of_nat n) by lia. replace (Z.succ seq) with (seq + 1) by lia.
  split; [by constructor|]. intros Hk. constructor; auto.
Qed.
End generated.

(** ** Plans again *)
Lemma clean_again delay hold rej fx secret ts : is_Some (match fixture_id fx with Ok id => Some id | Err _ => None end) →
  ∃ d, clean_with delay hold rej fx secret ts = Ok d.
Proof. unfold clean_with. destruct (fixture_id fx) as [id|]; [|by intros []]. intros _. by eexists. Qed.

Lemma cleans_again secret ts secret' ts' l : ∀ ds, map_result (λ fx, _clean fx secret ts) l = Ok ds →
  ∃ ds', map_result (λ fx, _clean fx secret' ts') l = Ok ds' ∧ length ds' = length l.
Proof.
  induction l as [|fx l IH]; intros ds; cbn [map_result]; [by exists []|].
  intros (d & (_ & _ & _ & Hd)%clean_with_fields & (rest & Hrest & _)%bind_Ok)%bind_Ok.
  destruct (clean_again "0.0" "0.0" false fx secret' ts') as [d' Ed']; [by rewrite Hd|].
  destruct (IH _ Hrest) as (ds' & E' & Hl). exists (d' :: ds').
  change (_clean fx secret' ts' = Ok d') in Ed'. rewrite Ed', bind_ok_run, E'. split; [done|cbn; by rewrite Hl].
Qed.

Lemma expecting_again fixtures posted text e : expecting fixtures posted text = Ok e → ∀ text', ∃ e', expecting fixtures posted text' = Ok e'.
Proof. unfold expecting. intros (delta & -> & _)%bind_Ok text'. rewrite bind_ok_run. by eexists. Qed.

(** Reading a parameter of a plan whose parameters are known. *)
Ltac params := repeat match goal with
  | |- context [param ?a ?k] => let v := eval cbv -[Z.add Z.modulo Z.eqb Z.mul] in (param a k) in progress change (param a k) with v
  end; rewrite ?bind_ok_run; unfold py_int; cbn [as_num float_text]; rewrite ?bind_ok_run.
(** The plan at hand, and its number of requests. *)
Ltac counts := unfold requests, kills_of; cbn [plain_plan p_deliveries kill_worker_after_s]; rewrite ?length_replicate;
  repeat case_bool_decide; cbn [length]; try lia.

(** A plan that could be made can be made again, with its own parameters, at
    another time and under another secret; and it is at most nine requests. *)
Lemma replan f fixtures secret clock index built : plan f fixtures secret (_params f index) None clock = Ok built →
  length fixtures = _FIXTURE_COUNT f → ∀ secret' ts, ∃ fp,
  plan f fixtures secret' (p_params built) None ts = Ok fp ∧ (requests fp <= 9)%nat.
Proof.
  unfold plan. destruct fixtures as [|target l]; [done|]. intros H Hlen secret' ts. cbn [default from_option id] in *.
  unfold plan_for, plan_tampered, plan_truncated, plan_stale, plan_downgraded, plan_partial_write, plan_slow_loris in *. apply bind_Ok in H as (id & Eid & H). rewrite Eid, bind_ok_run. cbv zeta in *.
  assert (∀ delay hold rej ts', ∃ d, clean_with delay hold rej target secret' ts' = Ok d) as Hclean
    by (intros; apply clean_again; by rewrite Eid).
  pose proof (Z.mod_pos_bound index 3 ltac:(lia)) as H3.
  destruct f.
  - next H ids Eids. next H ds Eds. next H e Ee. injection H as <-. rewrite Eids, bind_ok_run.
    destruct (cleans_again _ _ secret' ts _ _ Eds) as (ds' & -> & Hl). rewrite bind_ok_run, Ee, bind_ok_run. eexists. split; [reflexivity|].
    unfold requests, kills_of. cbn [plain_plan p_deliveries kill_worker_after_s]. rewrite Hl, Hlen. cbn. lia.
  - next H v Ev. next H n En. next H u Hu. next H d Hd. next H e Ee. injection H as <-. cbn [p_params plain_plan]. params.
    rewrite (proj2 (Z.leb_le 2 _)) by lia. cbn [guard_or]. rewrite bind_ok_run. destruct (Hclean "0.0" "0.0" false ts) as [d' Hd'].
    unfold _clean. rewrite Hd', bind_ok_run. edestruct (expecting_again _ _ _ _ Ee) as [e' ->]. rewrite bind_ok_run. eexists. split; [reflexivity|counts].
  - next H tw Etw. next H twid Etwid. next H d Hd. next H d' Hd'. next H e Ee. injection H as <-. cbn [p_params plain_plan].
    rewrite Etw, bind_ok_run, Etwid, bind_ok_run. destruct (Hclean "0.0" "0.0" false ts) as [d1 Hd1]. unfold _clean. rewrite Hd1, bind_ok_run.
    edestruct (clean_again "0.0" "0.0" false (MkEventFixture tw (fx_kind target) (fx_delta target)) secret' ts) as [d2 ->]; [by rewrite Etwid|].
    rewrite bind_ok_run, Ee, bind_ok_run. eexists. split; [reflexivity|counts].
  - next H v Ev. next H n En. next H u Hu. next H d Hd. next H e Ee. injection H as <-. cbn [p_params plain_plan]. params.
    assert (4 <= (if index mod 2 =? 0 then 8 else 4) <= 8) as Hn by (destruct (index mod 2 =? 0); lia).
    rewrite (proj2 (Z.leb_le 2 _)) by lia. cbn [guard_or]. rewrite bind_ok_run. destruct (Hclean "0.0" "0.0" false ts) as [d' Hd'].
    unfold _clean. rewrite Hd', bind_ok_run. edestruct (expecting_again _ _ _ _ Ee) as [e' ->]. rewrite bind_ok_run. eexists. split; [reflexivity|counts].
  - next H u Hu. next H v Ev. next H u' Hu'. next H ids Eids. next H ds Eds. next H e Ee. injection H as <-. cbn [p_params plain_plan]. params.
    rewrite Hu, bind_ok_run. cbn [guard_or]. rewrite bool_decide_true by done. cbn [guard_or]. rewrite bind_ok_run, Eids, bind_ok_run.
    destruct (cleans_again _ _ secret' ts _ _ Eds) as (ds' & -> & Hl). rewrite bind_ok_run, Ee, bind_ok_run. eexists. split; [reflexivity|].
    unfold requests, kills_of. cbn [plain_plan p_deliveries kill_worker_after_s]. rewrite Hl, length_reverse, Hlen. cbn. lia.
  - next H v Ev. next H sec Esec. next H v' Ev'. next H d Hd. next H delta Edelta. injection H as <-. cbn [p_params plain_plan].
    change (Ok (PBool (index mod 2 =? 1)) = Ok v') in Ev'. injection Ev' as <-.
    params. cbn [truthy] in *.
    edestruct Hclean as [d' Hd']; rewrite Hd', bind_ok_run, Edelta, bind_ok_run. eexists. split; [reflexivity|counts].
  - next H ids Eids. injection H as <-. cbn [p_params plain_plan]. rewrite Eids, bind_ok_run. eexists. split; [reflexivity|counts].
  - next H d Hd. next H e Ee. injection H as <-. cbn [p_params].
    destruct (Hclean "0.0" "0.0" false ts) as [d' Hd']. unfold _clean. rewrite Hd', bind_ok_run, Ee, bind_ok_run. eexists. split; [reflexivity|counts].
  - next H fl Efl. unfold _rejected_plan in *. rewrite Eid, bind_ok_run in H. injection H as <-. cbn [p_params].
    rewrite Efl, bind_ok_run, Eid, bind_ok_run. eexists. split; [reflexivity|counts].
  - unfold _rejected_plan in *. rewrite Eid, bind_ok_run. eexists. split; [reflexivity|counts].
  - next H v Ev. next H age Eage. next H u Hu. unfold _rejected_plan in *. rewrite Eid, bind_ok_run in H. injection H as <-. cbn [p_params].
    params. rewrite (proj2 (Z.ltb_lt DEFAULT_TOLERANCE_SECONDS _)) by (unfold DEFAULT_TOLERANCE_SECONDS; pose proof (Z.mod_pos_bound index 2); lia).
    cbn [guard_or]. rewrite bind_ok_run, Eid, bind_ok_run. eexists. split; [reflexivity|counts].
  - unfold _rejected_plan in *. rewrite Eid, bind_ok_run. eexists. split; [reflexivity|counts].
  - next H d Hd. next H v Ev. next H kill Ekill. next H e Ee. injection H as <-. cbn [p_params].
    destruct (Hclean "0.0" "0.0" false ts) as [d' Hd']. unfold _clean. rewrite Hd', bind_ok_run. params.
    rewrite Ee, bind_ok_run. eexists. split; [reflexivity|counts].
  - next H v Ev. next H hold Ehold. next H d Hd. next H e Ee. injection H as <-. cbn [p_params plain_plan]. params.
    edestruct Hclean as [d' Hd']. rewrite Hd', bind_ok_run. edestruct (expecting_again _ _ _ _ Ee) as [e' ->]. rewrite bind_ok_run. eexists. split; [reflexivity|counts].
Qed.

Lemma plan_params f fixtures secret clock index built : plan f fixtures secret (_params f index) None clock = Ok built →
  ∃ extra, p_params built = merge (merge (_DEFAULT_PARAMS f) (_params f index)) extra ∧
    (extra = [] ∨ ∃ k v, extra = [(k, v)] ∧ k ≠ "age_s").
Proof.
  assert (∀ e, ∃ extra, e = merge e extra ∧ (extra = [] ∨ ∃ k v, extra = [(k, v)] ∧ k ≠ "age_s")) as Hsame
    by (intros e; exists []; split; [done|by left]).
  assert (∀ k v e e', k ≠ "age_s" → e' = merge e [(k, v)] → ∃ extra, e' = merge e extra ∧ (extra = [] ∨ ∃ k v, extra = [(k, v)] ∧ k ≠ "age_s")) as Hone
    by (intros k v e e' Hk ->; exists [(k, v)]; split; [done|right; by exists k, v]).
  assert (∀ fl fx ps body hdr text, _rejected_plan fl fx ps body hdr text = Ok built → p_params built = ps) as Hrej
    by (unfold _rejected_plan; by intros fl fx ps body hdr text (i & _ & [= <-])%bind_Ok).
  unfold plan. destruct fixtures as [|target l]; [done|]. cbn [default from_option id]. unfold plan_for, plan_tampered, plan_truncated, plan_stale, plan_downgraded, plan_partial_write, plan_slow_loris.
  intros (id & Eid & H)%bind_Ok. cbv zeta in H. destruct f;
    try (inv_ok H; simplify_eq/=; by apply Hsame).
  - next H tw Etw. next H twid Etwid. next H d Hd. next H d' Hd'. next H e Ee. injection H as <-. cbn [p_params plain_plan]. by apply (Hone "twin_event_id" (PStr twid)).
  - next H ids Eids. injection H as <-. cbn [p_params plain_plan]. by eapply (Hone "dropped_event_ids").
  - next H fl Efl. rewrite (Hrej _ _ _ _ _ _ H). by eapply (Hone "byte_index").
  - rewrite (Hrej _ _ _ _ _ _ H). by eapply (Hone "kept_bytes").
Qed.

Lemma merge_get k d e : NoDup e.*1 →
  dict_get k (merge d e) = match dict_get k e with Some v => Some v | None => dict_get k d end.
Proof.
  unfold merge. revert d. induction e as [|[k' v] e IH]; intros d; [done|]. rewrite fmap_cons. intros [Hk' He]%NoDup_cons.
  cbn [foldl fst snd dict_get]. rewrite IH by done. case_decide as E; [subst k'|by rewrite dict_get_set_ne].
  by rewrite (proj2 (dict_get_None k e) Hk'), dict_get_set_eq.
Qed.

Lemma merge_NoDup e d : NoDup d.*1 → NoDup (merge d e).*1.
Proof. unfold merge. revert d. induction e as [|[k v] e IH]; intros d Hd; [done|]. cbn [foldl]. by apply IH, dict_set_NoDup. Qed.

Lemma age_bounded f fixtures secret clock index built age : plan f fixtures secret (_params f index) None clock = Ok built →
  age_of (merge (_DEFAULT_PARAMS f) (p_params built)) = Ok age → age < 10 ^ 19.
Proof.
  intros (extra & -> & Hx)%plan_params. set (e := merge (_DEFAULT_PARAMS f) (_params f index)).
  assert (NoDup e.*1) as He by (by apply merge_NoDup; destruct f; apply (bool_decide_unpack _)).
  assert (age_of (merge (_DEFAULT_PARAMS f) (merge e extra)) = age_of e) as ->.
  { unfold age_of, param. f_equal. f_equal. destruct Hx as [-> | (k & v & -> & Hk)]; [|change (merge e [(k, v)]) with (dict_set k v e)];
      rewrite merge_get by (try apply dict_set_NoDup; done); [|rewrite dict_get_set_ne by done]; by destruct f. }
  pose proof (Z.mod_pos_bound index 2 ltac:(lia)).
  destruct f; try done. change (Ok (600 + 300 * (index mod 2)) = Ok age → age < 10 ^ 19). intros [= <-]. lia.
Qed.

(** ** A generated set can be played *)
Section generated_set.
Context {F R G : Type} `{HA : Arith F} `{HR : RedisClient F R} (st : site F).
Context (randrange : Z → Z → G → Z * G) (clock : Z).
Context (Hfair : ∀ lo hi g, lo < hi → lo <= (randrange lo hi g).1 < hi).
Context (Hclock : min_timestamp <= clock <= max_timestamp).

(** No body of the scenario's plan is too large, and none that was altered has
    the digest of an original. *)
Definition ample (s : Scenario) : Prop := ∀ n fp,
  plan (sc_fault s) (fixtures s) (st_secret st) (sc_params s) None (tn_clock (st_turn st n)) = Ok fp → ∀ d, d ∈ p_deliveries fp →
  str_len (d_body d) <= MAX_BODY_BYTES ∧ ¬ collides (st_secret st) (fixtures s) (tn_clock (st_turn st n)) d.

Definition made_for (s : Scenario) (numbers : list Z) : Prop :=
  (ample s → playable st 9 s) ∧ Forall2 made_with (fixtures s) numbers.

Lemma one_made f kind seq index g s g' : one_scenario randrange clock f kind seq index g = (Ok s, g') → skip_reason f kind = None →
  made_for s (seqZ seq (Z.of_nat (_FIXTURE_COUNT f))).
Proof using Hfair Hclock.
  unfold one_scenario. run. destruct (draw_fixtures randrange clock kind seq (_FIXTURE_COUNT f) g) as [[fxs|] g1] eqn:E1; run; [|done].
  destruct (plan f fxs _LABEL_SECRET (_params f index) None clock) as [built|] eqn:E2; run; [|done].
  destruct (_label _ _ _ _) as [label|]; run; [|done]. intros [= <- _] Hskip.
  destruct (fixtures_made randrange clock Hfair Hclock _ _ _ _ _ _ E1) as [Hmade Hmoney]. split; [|done]. intros Hample.
  assert (length fxs = _FIXTURE_COUNT f) as Hlen by (rewrite (Forall2_length _ _ _ Hmade), length_seqZ; lia).
  split; cbn [sc_fault fixtures sc_params].
  - intros ->. destruct fxs as [|fx l]; [done|]. exists fx. split; [left|].
    assert (kind ≠ "invoice_payment_failed") as Hk by (intros ->; done). apply Hmoney in Hk. by inversion Hk.
  - intros age. by apply (age_bounded f fxs _LABEL_SECRET clock index).
  - intros n. destruct (replan _ _ _ _ _ _ E2 Hlen (st_secret st) (tn_clock (st_turn st n))) as (fp & Efp & Hreq).
    exists fp. split; [done|]. split; [done|]. exact (Hample n fp Efp).
Qed.

Lemma repeats_made f kind n : skip_reason f kind = None → ∀ seq index g l g', repeats randrange clock f kind seq index n g = (Ok l, g') →
  ∃ numbers, Forall2 made_for l numbers ∧ concat numbers = seqZ seq (Z.of_nat (n * _FIXTURE_COUNT f)).
Proof using Hfair Hclock.
  intros Hskip. induction n as [|n IH]; intros seq index g l g'; cbn [repeats]; run; [intros [= <- _]; by exists []|].
  destruct (one_scenario randrange clock f kind seq index g) as [[s|] g1] eqn:E1; run; [|done].
  destruct (repeats randrange clock f kind _ (index + 1) n g1) as [[rest|] g2] eqn:E2; run; [|done]. intros [= <- _].
  destruct (IH _ _ _ _ _ E2) as (numbers & Hf & Hc). exists (seqZ seq (Z.of_nat (_FIXTURE_COUNT f)) :: numbers). split.
  - constructor; [by eapply one_made|done].
  - cbn [concat]. by rewrite Hc, <- seqZ_app, <- Nat2Z.inj_add by lia.
Qed.

Lemma combos_made per_combo l : ∀ seq g scs skips g', combos randrange clock l per_combo seq g = (Ok (scs, skips), g') →
  ∃ numbers m, Forall2 made_for scs numbers ∧ concat numbers = seqZ seq (Z.of_nat m) ∧ (m <= 2 * length scs)%nat.
Proof using Hfair Hclock.
  induction l as [|[f kind] l IH]; intros seq g scs skips g'; cbn [combos]; run; [intros [= <- _ _]; by exists [], O|].
  destruct (skip_reason f kind) as [reason|] eqn:Hskip; run.
  - destruct (combos randrange clock l per_combo seq g) as [[[a b]|] g1] eqn:E; run; [|done]. intros [= <- _ _]. by eapply IH.
  - destruct (repeats randrange clock f kind seq 0 per_combo g) as [[rs|] g1] eqn:E1; run; [|done].
    destruct (combos randrange clock l per_combo _ g1) as [[[a b]|] g2] eqn:E2; run; [|done]. intros [= <- _ _].
    destruct (repeats_made _ _ _ Hskip _ _ _ _ _ E1) as (ns & H1 & Hc1). destruct (IH _ _ _ _ _ E2) as (ms & m & H2 & Hc2 & Hm).
    destruct (repeats_ids _ _ _ _ _ _ _ _ _ _ E1) as (_ & Hl & _).
    exists (ns ++ ms), (per_combo * _FIXTURE_COUNT f + m)%nat. cbn [fst]. split; [by apply Forall2_app|]. split.
    + by rewrite concat_app, Hc1, Hc2, <- seqZ_app, <- Nat2Z.inj_add by lia.
    + rewrite length_app, Hl. destruct f; cbn; lia.
Qed.

Lemma generate_made faults kinds per_combo g scs skips g' : generate randrange clock faults kinds per_combo 0 g = (Ok (scs, skips), g') →
  ∃ numbers m, Forall2 made_for scs numbers ∧ concat numbers = seqZ 0 (Z.of_nat m) ∧ (m <= 2 * length scs)%nat.
Proof using Hfair Hclock.
  unfold generate. run. destruct (1 <=? per_combo); cbn [guard_or]; run; [|done]. destruct (forallb _ _); cbn [guard_or]; run; [|done].
  apply combos_made.
Qed.
End generated_set.

Lemma selection_take {A} limit (l : list A) : ∃ n, selection limit l = take n l.
Proof. unfold selection, prefix_slice. destruct limit as [n|]; [destruct (n =? 0)|]; eauto; exists (length l); by rewrite firstn_all. Qed.

Lemma concat_take {A} n (l : list (list A)) : ∃ m, concat (take n l) = take m (concat l).
Proof.
  exists (length (concat (take n l))). rewrite <- (take_drop n l) at 3. rewrite concat_app. by rewrite take_app_length.
Qed.

(** ** The summary of a green run *)
Lemma bind_stx_Ok {S A B} (m : stx S A) (f : A → stx S B) s b s' : (m ≫= f) s = (Ok b, s') →
  ∃ a s1, m s = (Ok a, s1) ∧ f a s1 = (Ok b, s').
Proof. rewrite bind_run. destruct (m s) as [[a|] s1]; [by exists a, s1|done]. Qed.

Lemma scenario_fault {W} (stack : Runner.Stack W) s w record w' : run_scenario stack s w = (Ok record, w') →
  py_index record "fault" = Ok (PStr (Fault.value (sc_fault s))).
Proof.
  unfold run_scenario. intros H. repeat (apply bind_stx_Ok in H as (? & ? & _ & H)). by injection H as <- _.
Qed.

(** A record of the run, without a break and without an error. *)
Definition clean_record (record : pyval) : Prop := green record ∧ ∃ f, py_index record "fault" = Ok (PStr (Fault.value f)).

Lemma clean_tally records : Forall clean_record records → ∀ by_fault by_kind, ∃ counts, tally records by_fault by_kind = Ok (counts, by_kind).
Proof.
  induction 1 as [|r records [(Hb & _ & _) [f Hf]] _ IH]; intros by_fault by_kind; [by eexists|]. cbn [tally count_each].
  rewrite Hf. cbn [as_str of_option]. rewrite !bind_ok_run. cbn [as_str of_option]. rewrite !bind_ok_run, Hb, bind_ok_run. cbn [iterate count_each].
  rewrite !bind_ok_run. apply IH.
Qed.

Lemma count_falsy key records : Forall (λ r, ∃ v, py_get r key = Ok v ∧ truthy v = false) records → count_truthy key records = Ok 0.
Proof.
  unfold count_truthy. intros H. assert (map_result (λ r, v ← py_get r key; mret (truthy v)) records = Ok (replicate (length records) false)) as ->.
  { induction H as [|r l (v & E & Ht) _ IH]; [done|]. cbn [map_result length replicate]. by rewrite E, !bind_ok_run, Ht, IH. }
  rewrite bind_ok_run. do 2 f_equal. by induction (length records).
Qed.

Lemma get_on_dict r k v k' : py_index r k = Ok v → ∃ v', py_get r k' = Ok v'.
Proof. destruct r; try done. by eexists. Qed.

Lemma count_truthy_ok key records : Forall clean_record records → ∃ n, count_truthy key records = Ok n ∧ ∃ m, count_measured key records = Ok m.
Proof.
  unfold count_truthy, count_measured. intros H.
  assert (∀ g : pyval → bool, ∃ l, map_result (λ r, v ← py_get r key; mret (g v)) records = Ok l) as Hl.
  { intros g. induction H as [|r l [_ [f Hf]] _ [l' IH]]; [by eexists|]. cbn [map_result].
    destruct (get_on_dict _ _ _ key Hf) as [v ->]. rewrite !bind_ok_run, IH. by eexists. }
  destruct (Hl truthy) as [l1 ->], (Hl (λ v, negb (is_none v))) as [l2 ->]. rewrite !bind_ok_run. eauto.
Qed.

(** What the summary says of such a run. *)
Record reports_clean (summary : pyval) (ran generated : Z) : Prop := {
  rc_run : py_index summary "scenarios_run" = Ok (PInt ran);
  rc_generated : py_index summary "scenarios_generated" = Ok (PInt generated);
  rc_breaks : py_index summary "scenarios_with_breaks" = Ok (PInt 0);
  rc_errors : py_index summary "scenarios_errored" = Ok (PInt 0);
  rc_kinds : py_index summary "breaks_by_kind" = Ok (PDict []) }.

Lemma summarize_clean records argv skipped generated wall started finished artifact : Forall clean_record records → ∃ summary,
  summarize records argv skipped generated wall started finished artifact = Ok summary ∧
  reports_clean summary (Z.of_nat (length records)) generated.
Proof.
  intros H. unfold summarize. destruct (clean_tally _ H ∅ ∅) as [counts ->]. rewrite bind_ok_run.
  rewrite (count_falsy "breaks"), (count_falsy "error").
  2,3: eapply Forall_impl; [exact H|]; intros r [(Hb & _ & He) _].
  2: exists PNone; by split.
  2: { exists (PList []). split; [|done]. destruct r; try done. unfold py_index, py_get, py_get_default in *. by destruct (dict_get _ _); simplify_eq/=. }
  destruct (count_truthy_ok "killed_with_task_in_flight" _ H) as (n & -> & m & ->). rewrite !bind_ok_run. by eexists.
Qed.

(** ** The run *)
Section run.
Context {F R : Type} `{HA : Arith F} `{HR : RedisClient F R} (st : site F).
Context (describe : exn → string) (create_database start stop : stx (host R) ()).
Context (Hsteady : steady st 9).

(** The database is created empty; [start] purges the queue and brings up new
    processes, and neither it nor [stop] touches the database. *)
Record deployable : Prop := {
  dp_create : ∀ w, ∃ w', create_database w = (Ok (), w') ∧ host_db w' = empty_db;
  dp_start : ∀ w, ∃ w', start w = (Ok (), w') ∧ host_db w' = host_db w ∧ a_queue (h_app w') = [] ∧ a_shedder (h_app w') = None;
  dp_stop : ∀ w, ∃ w', stop w = (Ok (), w') ∧ host_db w' = host_db w }.
Context (Hdeploy : deployable).

(** Ready as soon as a stack is brought up on the database. *)
Definition ready_to_start (Ps : list (list parcel)) (w : host R) : Prop :=
  ∀ w' : host R, host_db w' = host_db w → a_queue (h_app w') = [] → a_shedder (h_app w') = None → primed Ps w'.

Lemma primed_ready Ps w : primed Ps w → ready_to_start Ps w.
Proof. intros [H1 H2 (H & _ & _) H3 H4] w' E Hq Hs. split; [done|done|unfold idle|..]; by rewrite ?E. Qed.

Lemma clean_scenario s w record w' : run_scenario (site_stack st) s w = (Ok record, w') → green record → clean_record record.
Proof. intros E Hg. split; [done|]. exists (sc_fault s). by eapply scenario_fault. Qed.

Lemma each_clean reset scenarios Ps : Forall2 (λ s P, playable st 9 s ∧ Forall2 fits (fixtures s) P) scenarios Ps → ∀ k,
  primed Ps (k_world k) →
  ∃ records k', run_each (site_stack st) describe reset scenarios k = (Ok records, k') ∧ length records = length scenarios ∧
    Forall clean_record records ∧ ledger_ok (host_db (k_world k')).
Proof using Hsteady.
  induction 1 as [|s P scenarios Ps [Hplay Hfits] _ IH]; intros k Hk.
  { exists [], k. split; [done|]. split; [done|]. by split; [constructor|apply Hk]. }
  destruct (primed_only_if st reset _ _ Hk) as (w0 & E0 & Hw0).
  destruct (play_step st 9 Hsteady s P Ps w0 Hplay Hfits Hw0) as (record & w1 & E1 & Hg & Hw1).
  destruct (IH (Disk w1 (k_lines k ++ [json_line record]) (k_summary k)) Hw1) as (records & k' & E2 & Hlen & Hgs & Hok).
  exists (record :: records), k'. split; [|split; [cbn; by rewrite Hlen|split; [constructor; [by eapply clean_scenario|done]|done]]].
  cbn [run_each]. run. rewrite in_world_run. run. rewrite E0. run. rewrite E1. run. cbn [fst snd]. unfold emit. run. cbn [k_lines k_world k_summary].
  by rewrite E2.
Qed.

Lemma fresh_clean reset scenarios Ps : Forall2 (λ s P, playable st 9 s ∧ Forall2 fits (fixtures s) P) scenarios Ps → ∀ k,
  ready_to_start Ps (k_world k) → ledger_ok (host_db (k_world k)) →
  ∃ records k', run_fresh (site_stack st) start stop reset scenarios k = (Ok records, k') ∧ length records = length scenarios ∧
    Forall clean_record records ∧ ledger_ok (host_db (k_world k')).
Proof using Hsteady Hdeploy.
  induction 1 as [|s P scenarios Ps [Hplay Hfits] _ IH]; intros k Hk Hok0.
  { exists [], k. split; [done|]. split; [done|]. by split; [constructor|]. }
  destruct (dp_start Hdeploy (k_world k)) as (ws & Es & Hdb & Hq & Hs).
  destruct (primed_only_if st reset _ _ (Hk ws Hdb Hq Hs)) as (w0 & E0 & Hw0).
  destruct (play_step st 9 Hsteady s P Ps w0 Hplay Hfits Hw0) as (record & w1 & E1 & Hg & Hw1).
  destruct (dp_stop Hdeploy w1) as (w2 & E3 & Hdb2).
  destruct (IH (Disk w2 (k_lines k ++ [json_line record]) (k_summary k))) as (records & k' & E2 & Hlen & Hgs & Hok).
  { intros w' E. apply (primed_ready _ _ Hw1). cbn [k_world] in E. by rewrite E. }
  { cbn [k_world]. rewrite Hdb2. apply Hw1. }
  exists (record :: records), k'. split; [|split; [cbn; by rewrite Hlen|split; [constructor; [by eapply clean_scenario|done]|done]]].
  cbn [run_fresh]. run. unfold with_stack. run. rewrite in_world_run, Es. cbn [fst snd]. unfold try_finally. rewrite in_world_run. cbn [k_world k_lines k_summary].
  run. rewrite E0, E1. cbn [fst snd]. rewrite in_world_run. cbn [k_world k_lines k_summary]. rewrite E3. cbn [fst snd]. unfold emit. run.
  cbn [k_lines k_world k_summary]. by rewrite E2.
Qed.

(** Either way, from the empty database: the records, clean, and their lines. *)
Definition clean_run (n : nat) (out : result (list pyval) * disk (host R)) : Prop := ∃ records k',
  out = (Ok records, k') ∧ length records = n ∧ Forall clean_record records ∧ k_lines k' = json_line <$> records ∧
  ledger_ok (host_db (k_world k')).

Lemma clean_lines n k out records k' : k_lines k = [] → lines_kept n k out → out = (Ok records, k') → length records = n →
  Forall clean_record records → ledger_ok (host_db (k_world k')) → clean_run n out.
Proof. intros Hk (done' & Hl & Hd) -> Hlen Hc Hok. cbn [fst snd] in *. destruct Hd as [-> _]. exists records, k'. by rewrite Hl, Hk. Qed.

Lemma records_clean keep reset sel Ps : Forall2 (λ s P, playable st 9 s ∧ Forall2 fits (fixtures s) P) sel Ps → ∀ k,
  ready_to_start Ps (k_world k) → host_db (k_world k) = empty_db →
  clean_run (length sel) ((if keep : bool then with_stack start stop (_jsonl (run_each (site_stack st) describe reset sel))
    else _jsonl (run_fresh (site_stack st) start stop reset sel)) k).
Proof using Hsteady Hdeploy.
  intros Hplay k Hready Hdb. destruct keep.
  - destruct (dp_start Hdeploy (k_world k)) as (ws & Es & Hdbs & Hq & Hs). set (k1 := Disk ws [] (k_summary k)).
    destruct (each_clean reset sel Ps Hplay k1) as (records & k2 & E & Hlen & Hclean & Hok); [by apply Hready|].
    destruct (clean_lines _ k1 _ _ _ eq_refl (run_each_kept (site_stack st) describe reset sel k1) E Hlen Hclean Hok)
      as (records' & k' & E' & H1 & H2 & H3 & H4). rewrite E in E'. injection E' as <- <-.
    destruct (dp_stop Hdeploy (k_world k2)) as (w3 & E3 & Hdb3).
    exists records, (Disk w3 (k_lines k2) (k_summary k2)). split; [|split_and!; [done..|cbn [k_world]; by rewrite Hdb3]].
    unfold with_stack, _jsonl. run. rewrite in_world_run. cbn [k_world k_lines k_summary]. rewrite Es. cbn [fst snd].
    unfold try_finally. run. cbn [k_world k_summary]. fold k1. by rewrite E, in_world_run, E3.
  - set (k1 := Disk (k_world k) [] (k_summary k)).
    destruct (fresh_clean reset sel Ps Hplay k1) as (records & k2 & E & Hlen & Hclean & Hok);
      [done|cbn [k1 k_world]; rewrite Hdb; exact empty_db_ok|].
    unfold _jsonl. run. fold k1. by eapply (clean_lines _ k1); [done|apply run_fresh_kept|..].
Qed.
End run.

(** Whatever is selected of a generated set, a stack that was just brought up on
    an empty database is ready for it. *)
Lemma selected_ready {F R G} `{HA : Arith F} `{HR : RedisClient F R} (st : site F) (randrange : Z → Z → G → Z * G) clock faults kinds per_combo
    limit g scs skips g' (w : host R) :
  (∀ lo hi x, lo < hi → lo <= (randrange lo hi x).1 < hi) → min_timestamp <= clock <= max_timestamp →
  generate randrange clock faults kinds per_combo 0 g = (Ok (scs, skips), g') → Forall (ample st) scs →
  (∀ n m, 0 <= n < 2 * Z.of_nat (length scs) → 0 <= m < 2 * Z.of_nat (length scs) →
     uuid5 ("ledgerproof:" +:+ event_id_at n) = uuid5 ("ledgerproof:" +:+ event_id_at m) → n = m) →
  host_db w = empty_db →
  ∃ Ps, Forall2 (λ s P, playable st 9 s ∧ Forall2 fits (fixtures s) P) (selection limit scs) Ps ∧ ready_to_start Ps w.
Proof.
  intros Hfair Hclock Hgen Hample Huuid Hdb. destruct (generate_made st randrange clock Hfair Hclock _ _ _ _ _ _ _ Hgen) as (numbers & m & Hall & Hc & Hm).
  destruct (selection_take limit scs) as [n ->]. destruct (concat_take n numbers) as [m' Ht]. rewrite Hc in Ht.
  assert (∀ x, x ∈ concat (take n numbers) → 0 <= x < Z.of_nat m) as Hin.
  { intros x Hx. rewrite Ht in Hx. apply elem_of_take in Hx as (i & Hx & _). apply list_elem_of_lookup_2, elem_of_seqZ in Hx. lia. }
  assert (Forall2 (λ s seqs, playable st 9 s ∧ Forall2 made_with (fixtures s) seqs) (take n scs) (take n numbers)) as Hsel.
  { apply Forall2_take. clear -Hall Hample. induction Hall as [|s seqs l k [Hp Hf] _ IH]; constructor; inversion Hample; auto. }
  destruct (made_campaign _ _ _ Hsel) as (Ps & Hplay & Hmade). exists Ps. split; [done|].
  intros w' E Hq Hs. eapply made_primed; [exact Hmade| | | |by rewrite E|done|done].
  - rewrite Ht. eapply sublist_NoDup; [apply NoDup_seqZ|apply sublist_take].
  - apply Forall_forall. intros x Hx. by apply Hin.
  - intros x y Hx%Hin Hy%Hin. apply Huuid; lia.
Qed.

(** C10: a chaos run against a healthy service reports nothing.  [main] generates
    scenarios for the faults and kinds asked for, on any seed whose draws keep
    their bounds, and runs those selected, on one stack or on a fresh one each,
    emptying the ledger in between or not.  The service is the one modelled, from
    the endpoint to the reconciler, and the world does nothing to it but the faults
    the harness injects.  Then the run ends, every scenario selected was run, the file
    has a line for each, and the summary counts no break of any kind and no error. *)
Theorem chaos_run_green {F R G} `{HA : Arith F} `{HR : RedisClient F R} (st : site F) (create_database start stop : stx (host R) ())
    (seeded : Z → G) (randrange : Z → Z → G → Z * G) clock describe (a : args) argv wall started finished artifact chosen scs skips g (k : disk (host R)) :
  steady st 9 → deployable create_database start stop →
  (∀ lo hi x, lo < hi → lo <= (randrange lo hi x).1 < hi) → min_timestamp <= clock <= max_timestamp →
  _fault_list (faults a) = Ok chosen →
  generate randrange clock chosen (_kind_list (kinds a)) (per_combo a) 0 (seeded (seed a)) = (Ok (scs, skips), g) →
  Forall (ample st) scs →
  (∀ n m, 0 <= n < 2 * Z.of_nat (length scs) → 0 <= m < 2 * Z.of_nat (length scs) →
     uuid5 ("ledgerproof:" +:+ event_id_at n) = uuid5 ("ledgerproof:" +:+ event_id_at m) → n = m) →
  ∃ summary records k', main (site_stack st) create_database start stop seeded randrange clock describe a argv wall started finished artifact k = (Ok summary, k') ∧
    length records = length (selection (limit a) scs) ∧ Forall clean_record records ∧ k_lines k' = json_line <$> records ∧
    reports_clean summary (Z.of_nat (length (selection (limit a) scs))) (Z.of_nat (length scs)) ∧
    k_summary k' = Some (of_chars (dump_indented 0 summary) +:+ of_chars [chr 10]) ∧ ledger_ok (host_db (k_world k')).
Proof.
  intros Hst Hdep Hfair Hclock Efl Hgen Hample Huuid. unfold main. run. rewrite Efl. run. rewrite Hgen. cbn [fst snd]. run.
  destruct (dp_create _ _ _ Hdep (k_world k)) as (w0 & Ec & Hdb). rewrite in_world_run, Ec. cbn [fst snd].
  destruct (selected_ready st randrange clock _ _ _ (limit a) _ _ _ _ w0 Hfair Hclock Hgen Hample Huuid Hdb) as (Ps & Hplay & Hready).
  set (sel := selection (limit a) scs) in *. set (k0 := Disk w0 _ _). rewrite bind_run.
  destruct (records_clean st describe create_database start stop Hst Hdep (keep_stack a) (reset_each a) sel Ps Hplay k0)
    as (records & k1 & -> & Hlen & Hclean & Hlines & Hok); [done|done|].
  cbn [fst snd]. destruct (summarize_clean records argv skips (Z.of_nat (length scs)) wall started finished artifact Hclean) as (summary & Esum & Hrep).
  rewrite Esum. run. rewrite Hlen in Hrep. exists summary, records. eexists. split; [reflexivity|]. by split_and!.
Qed.

Definition sample_create : stx (host sim_redis) () := λ w, (Ok (), Host (with_log empty_db [] (h_app w)) (h_served w)).
Definition sample_start : stx (host sim_redis) () := λ w,
  (Ok (), Host (AppState (host_db w) [] None (a_limits (h_app w))) (h_served w)).
Definition sample_args : args := Args 5 1 (Some "NONE") (Some "charge_succeeded") (Some 4) false false.

Lemma sample_generated : ∃ s g, generate sample_randrange 1700000000 (Some [NONE]) (Some ["charge_succeeded"]) 1 0 5 = (Ok ([s], []), g) ∧
  ample sample_site s.
Proof.
  assert (∃ s g, generate sample_randrange 1700000000 (Some [NONE]) (Some ["charge_succeeded"]) 1 0 5 = (Ok ([s], []), g) ∧
    ∃ fp, plan (sc_fault s) (fixtures s) "whsec" (sc_params s) None 1700000000 = Ok fp ∧
    Forall (λ d, str_len (d_body d) <= MAX_BODY_BYTES ∧ Forall (λ fx, serialize (fx_event fx) = d_body d) (fixtures s)) (p_deliveries fp))
    as (s & g & E & fp & Ep & Hd).
  { eexists _, _. split; [vm_compute; reflexivity|]. eexists. split; [vm_compute; reflexivity|]. apply Forall_singleton.
    split; [apply Z.leb_le; vm_compute; reflexivity|]. apply Forall_singleton. vm_compute. reflexivity. }
  exists s, g. split; [done|]. intros n fp' Ep' d Hin. change (plan (sc_fault s) (fixtures s) "whsec" (sc_params s) None 1700000000 = Ok fp') in Ep'.
  rewrite Ep in Ep'. injection Ep' as <-. rewrite Forall_forall in Hd. destruct (Hd d Hin) as [Hs Hb]. split; [done|].
  intros (fx & Hfx & Hne & _). rewrite Forall_forall in Hb. by apply Hne, Hb.
Qed.

Lemma sample_deployable : deployable sample_create sample_start (mret ()).
Proof. split; intros w; eexists; split; reflexivity || by split_and!. Qed.

Lemma sample_steady_run : steady sample_site 9.
Proof. destruct sample_steady as [H1 _ H3 H4 H5]. split; [done| |done..]. intros n m _. unfold DEFAULT_TOLERANCE_SECONDS. cbn. lia. Qed.

Lemma sample_fair lo hi x : lo < hi → lo <= (sample_randrange lo hi x).1 < hi.
Proof. intros H. cbn. pose proof (Z.mod_pos_bound x (hi - lo) ltac:(lia)). lia. Qed.

Lemma sample_uuids n m : 0 <= n < 2 → 0 <= m < 2 →
  uuid5 ("ledgerproof:" +:+ event_id_at n) = uuid5 ("ledgerproof:" +:+ event_id_at m) → n = m.
Proof.
  assert (uuid5 ("ledgerproof:" +:+ event_id_at 0) ≠ uuid5 ("ledgerproof:" +:+ event_id_at 1)) as Hne by (vm_compute; discriminate).
  intros Hn Hm E. assert (n = 0 ∨ n = 1) as [-> | ->] by lia; assert (m = 0 ∨ m = 1) as [-> | ->] by lia;
    [reflexivity|destruct (Hne E)|destruct (Hne (eq_sym E))|reflexivity].
Qed.

Lemma chaos_run_green_witness : ∃ scs skips g summary records k',
  generate sample_randrange 1700000000 (Some [NONE]) (Some ["charge_succeeded"]) 1 0 5 = (Ok (scs, skips), g) ∧
  main (site_stack sample_site) sample_create sample_start (mret ()) id sample_randrange 1700000000 (λ _, "") sample_args ["runner"] "1.0" "t0" "t1" "out"
    (Disk sample_host ["old"] None) = (Ok summary, k') ∧
  length records = 1%nat ∧ Forall clean_record records ∧ k_lines k' = json_line <$> records ∧ reports_clean summary 1 1 ∧
  k_summary k' = Some (of_chars (dump_indented 0 summary) +:+ of_chars [chr 10]) ∧ ledger_ok (host_db (k_world k')).
Proof.
  destruct sample_generated as (s & g & E & Ha). exists [s], [], g.
  destruct (chaos_run_green sample_site sample_create sample_start (mret ()) id sample_randrange 1700000000 (λ _, "") sample_args ["runner"]
    "1.0" "t0" "t1" "out" (Some [NONE]) [s] [] g (Disk sample_host ["old"] None) sample_steady_run sample_deployable sample_fair
    ltac:(unfold min_timestamp, max_timestamp; cbn; lia) eq_refl E ltac:(by apply Forall_singleton) sample_uuids)
    as (summary & records & k' & H).
  by exists summary, records, k'.
Defined.
