(* ===== verification/Artifact.v ===== *)
(** The files between the harness and the benchmark: the JSON lines of
    harness/runner.py and of the live proxy's delivery log (harness/proxy.py),
    read back by triage/bench.py.  What was recorded is what is loaded. *)
From Stdlib Require Import QArith.
From S2P Require Import Processes Prelude PyVal Json Ledger Post Balances Handlers Recon PromptText Prompts Triage Events Faults.
From S2P Require Import Scenarios Runner Proxy Stratum Bench Chaos.
#[local] Open Scope Z_scope.

(** ** Lines *)

(** A file to which each line was written with its newline. *)
Definition newline_char : ascii := chr 10.
Definition jsonl (lines : list string) : string := of_chars (lines ≫= (λ l, chars l ++ [newline_char])).

(** [_DeliveryLog.append]: nothing without a path; otherwise one line, in the
    compact form, after those that are there. *)
Definition append (path : option string) (record : pyval) (files : gmap string string) : gmap string string :=
  match path with
  | None => files
  | Some path => <[path := default "" (files !! path) +:+ json_dumps record +:+ of_chars [newline_char]]> files
  end.

Lemma spaced_with l : spaced l = commas_with [" "%char] l.
Proof. induction l as [|x [|y l] IH]; [done..|]. cbn [spaced commas_with] in *. by rewrite IH. Qed.
Lemma dump_spaced_with v : dump_spaced v = dump_with [" "%char] v.
Proof.
  induction v as [| | | | |l IH|d IH] using pyval_nested_ind; [done..| |]; cbn [dump_spaced dump_with]; rewrite spaced_with.
  - assert (List.map dump_spaced l = List.map (dump_with [" "%char]) l) as ->; [|done].
    apply map_ext_in. intros x Hx. rewrite Forall_forall in IH. by apply IH, list_elem_of_In.
  - rewrite (map_ext_in _ (λ kv, dump_string kv.1 ++ ":"%char :: [" "%char] ++ dump_with [" "%char] kv.2)); [done|].
    intros [k x] Hx. rewrite Forall_forall in IH. pose proof (IH (k, x) ltac:(by apply list_elem_of_In)) as E. cbn in *. by rewrite E.
Qed.

(** A line that can be read back: its text ends no line and is not blank. *)
Record reads_as (line : string) (v : pyval) : Prop := {
  ra_loads : json_loads line = Some v;
  ra_printable : Forall printable (chars line);
  ra_inked : strip line ≠ "" }.

Lemma drop_space_nil l : drop_space l = [] → Forall (λ c, is_space c = true) l.
Proof. induction l as [|c l IH]; cbn; [constructor|]. destruct (is_space c) eqn:E; [|done]. intros H. by constructor; [|apply IH]. Qed.
Lemma strip_inked c l : is_space c = false → strip (of_chars (c :: l)) ≠ "".
Proof.
  intros Hc E. apply (f_equal chars) in E. unfold strip, strip_chars in E. rewrite !chars_of_chars in E. cbn [drop_space] in E.
  rewrite Hc in E. change (chars "") with (@nil ascii) in E. rewrite <- (reverse_involutive []) in E. apply (inj reverse), drop_space_nil in E.
  rewrite Forall_reverse in E. apply Forall_cons in E as [E _]. congruence.
Qed.

Section written.
Context (sp : list ascii) (Hsp : ∀ l, skip_ws (sp ++ l) = skip_ws l) (Hspp : Forall printable sp).

Lemma dumped_reads_as v : safe v → reads_as (of_chars (dump_with sp v)) v.
Proof.
  intros Hv. pose proof (dump_printable sp Hspp v Hv) as Hp. split.
  - by apply dumped_with_loads.
  - by rewrite chars_of_chars.
  - destruct (starts_dump sp v [] Hv) as (c & l & E & Hw & _). rewrite app_nil_r in E, Hw. rewrite E in Hp, Hw |- *.
    apply strip_inked. apply Forall_cons in Hp as [[Hlo Hhi] _]. destruct (is_space c) eqn:Es; [|done]. exfalso.
    assert (c = " "%char) as ->.
    { unfold is_space in Es. rewrite <- (chr_code c). assert (code c = 32) as -> by (bool_to_prop; lia). done. }
    cbn [skip_ws] in Hw. rewrite bool_decide_true in Hw by (by left). apply (f_equal length) in Hw.
    assert (∀ k, (length (skip_ws k) <= length k)%nat) as Hlen.
    { induction k as [|x k IH]; [done|]. cbn [skip_ws]. case_bool_decide; cbn [length]; lia. }
    specialize (Hlen l). cbn [length] in Hw. lia.
Qed.
End written.

Lemma json_line_reads_as record : safe record → reads_as (json_line record) record.
Proof. unfold json_line. rewrite dump_spaced_with. apply dumped_reads_as; [done|by repeat constructor]. Qed.
Lemma json_dumps_reads_as record : safe record → reads_as (json_dumps record) record.
Proof. unfold json_dumps. rewrite <- dump_with_nil. apply dumped_reads_as; [done|constructor]. Qed.

(** ** Splitting *)
Lemma printable_not_end c : printable c → is_line_end c = false.
Proof. intros [H1 H2]. unfold is_line_end. bool_to_prop; lia. Qed.

Lemma split_line l : Forall printable l → ∀ rest cur,
  splitlines_chars (l ++ newline_char :: rest) cur = (rev cur ++ l) :: splitlines_chars rest [].
Proof.
  induction 1 as [|c l Hc Hl IH]; intros rest cur; cbn [app splitlines_chars].
  - change (is_line_end newline_char) with true. cbv iota. rewrite app_nil_r. f_equal. by destruct rest.
  - rewrite printable_not_end by done. rewrite IH. cbn [rev]. by rewrite <- app_assoc.
Qed.

Lemma splitlines_jsonl lines : Forall (λ l, Forall printable (chars l)) lines → splitlines (jsonl lines) = lines.
Proof.
  intros H. unfold splitlines, jsonl. rewrite chars_of_chars. induction H as [|l lines Hl _ IH]; [done|].
  rewrite bind_cons, <- app_assoc. cbn [app]. rewrite split_line by done. rewrite fmap_cons, IH. cbn [rev app]. by rewrite of_chars_chars.
Qed.

(** ** Loading *)

(** The loop of the loaders without its parsing: crashed scenarios are skipped. *)
Fixpoint load_records (load : pyval → result Case) (records : list pyval) : result (list Case) :=
  match records with
  | [] => Ok []
  | record :: records =>
      error ← py_get record "error";
      if truthy error then load_records load records
      else c ← load record; cs ← load_records load records; mret (c :: cs)
  end.

Lemma load_lines_records load lines records : Forall2 reads_as lines records →
  load_lines load lines = load_records load records.
Proof.
  induction 1 as [|line record lines records [Hl _ Hi] _ IH]; [done|]. cbn [load_lines load_records].
  rewrite bool_decide_false, Hl, IH by done. done.
Qed.

Lemma load_jsonl load lines records : Forall2 reads_as lines records →
  load_lines load (splitlines (jsonl lines)) = load_records load records.
Proof.
  intros H. rewrite splitlines_jsonl; [by apply load_lines_records|].
  induction H as [|line record lines records [_ Hp _] _ IH]; by constructor.
Qed.

(** ** The delivery log *)
Definition append_all (path : option string) (records : list pyval) (files : gmap string string) : gmap string string :=
  foldl (λ files record, append path record files) files records.

Lemma jsonl_snoc lines line : jsonl (lines ++ [line]) = jsonl lines +:+ line +:+ of_chars [newline_char].
Proof.
  unfold jsonl. rewrite bind_app, of_chars_app. cbn. rewrite app_nil_r, of_chars_app, of_chars_chars. done.
Qed.

Lemma append_all_file path records : ∀ files lines, default "" (files !! path) = jsonl lines →
  default "" (append_all (Some path) records files !! path) = jsonl (lines ++ (json_dumps <$> records)).
Proof.
  induction records as [|r records IH]; intros files lines Hf; [by rewrite app_nil_r|].
  cbn [append_all foldl]. change (foldl _ ?f records) with (append_all (Some path) records f).
  rewrite (IH _ (lines ++ [json_dumps r])); [by rewrite fmap_cons, <- app_assoc|].
  unfold append. rewrite lookup_insert_eq, Hf. cbn [default from_option id]. by rewrite jsonl_snoc.
Qed.

Lemma append_all_elsewhere path records path' : path ≠ Some path' → ∀ files,
  append_all path records files !! path' = files !! path'.
Proof.
  intros Hne. induction records as [|r records IH]; intros files; [done|]. cbn [append_all foldl].
  change (foldl _ ?f records) with (append_all path records f). rewrite IH. unfold append.
  destruct path as [path|]; [|done]. apply lookup_insert_ne. by intros ->.
Qed.

(** ** From records to cases *)

(** The label [generate] puts on a scenario. *)
Definition labelled (s : Scenario) (exp : Expectation) : Prop :=
  ∃ params, _label (sc_fault s) params (fixtures s) exp = Ok (sc_label s).

(** A case says of a run what its record and the plan of its scenario say. *)
Record case_of (s : Scenario) (exp : Expectation) (record : pyval) (c : Case) : Prop := {
  co_id : case_id c = scenario_id s;
  co_fault : label_fault c = Fault.value (sc_fault s);
  co_kind : Some (label_kind c) = fx_kind <$> head (fixtures s);
  co_evidence : build_case record = Ok (evidence c);
  co_expected : c_expected_delta c = balances_delta exp;
  co_missing : ∃ obs bs, observation_from_record record = Ok obs ∧ py_index record "breaks" = Ok (PList bs) ∧
    money_was_missing c = (negb (invariant_after obs) || bool_decide (bs ≠ []))%bool }.

Lemma int_map_delta m : int_map (or_empty (delta_value m)) = Ok m.
Proof.
  assert (∀ l, map_result (λ kv : string * pyval, z ← int_field kv.2; mret (kv.1, z)) ((λ kv : string * Z, (kv.1, PInt kv.2)) <$> l) = Ok l) as H.
  { induction l as [|[k z] l IH]; [done|]. rewrite fmap_cons. cbn [map_result int_field fst snd]. by rewrite !bind_ok_run, IH. }
  unfold or_empty, delta_value. destruct (map_to_list m) as [|kv l] eqn:E.
  - apply map_to_list_empty_iff in E as ->. reflexivity.
  - rewrite <- E. assert (truthy (PDict ((λ kv : string * Z, (kv.1, PInt kv.2)) <$> map_to_list m)) = true) as -> by (by rewrite E).
    unfold int_map. cbn [PyVal.as_dict of_option]. rewrite bind_ok_run, H, bind_ok_run. unfold mret, result_ret. f_equal. apply list_to_map_to_list.
Qed.

Lemma map_result_total {A B} (f : A → result B) l : (∀ x, x ∈ l → ∃ y, f x = Ok y) → ∃ ys, map_result f l = Ok ys.
Proof.
  induction l as [|x l IH]; intros H; [by eexists|]. destruct (H x) as [y Hy]; [by left|].
  destruct IH as [ys Hys]; [intros z Hz; apply H; by right|]. exists (y :: ys). cbn [map_result]. by rewrite Hy, bind_ok_run, Hys.
Qed.
Lemma build_delivery_dict d : ∃ v, build_delivery (PDict d) = Ok v.
Proof. by eexists. Qed.

Section record.
Context {W : Type} (stack : Runner.Stack W).

Lemma delivery_records_build p w l : ∃ ds, map_result build_delivery (_delivery_records stack p w l) = Ok ds.
Proof.
  apply map_result_total. intros x Hx. unfold _delivery_records in Hx. apply elem_of_lookup_imap in Hx as (i & y & -> & _).
  apply build_delivery_dict.
Qed.

Lemma record_case scenario exp w record w' : labelled scenario exp → run_scenario stack scenario w = (Ok record, w') →
  ∃ c, load_case record = Ok c ∧ case_of scenario exp record c.
Proof.
  intros [params Hlab] Hrun. destruct (run_scenario_shape stack scenario w record w' Hrun)
    as (p & candidates & obs & now & finish & ids & l & killed & recon_record & errors & -> & Hp & _ & _ & Ht & _).
  set (before := invariant_ok _). set (r := scenario_record _ _ _ _ _ _ _ _ _ _ _ _ _ _).
  pose proof (record_observation stack scenario p w finish before (db stack now) candidates ids l obs killed recon_record errors Ht) as Ho. fold r in Ho.
  assert (∃ ev, build_case r = Ok ev) as [ev Hev].
  { unfold build_case. change (py_get_default r "deliveries" (PList [])) with (Ok (PList (_delivery_records stack p w l))).
    change (py_get r "ledger_diff") with (Ok (diff_value (ledger_diff obs))).
    change (py_get_default r "invariant_after" (PBool true)) with (Ok (PBool (invariant_after obs))).
    change (py_get r "event_log") with (Ok (PList (_event_log_rows (db stack now) candidates))).
    change (py_get_default r "worker_restarted" (PBool false)) with (Ok (PBool (bool_decide (kill_worker_after_s p ≠ None)))).
    assert (∀ k, iterate (PList k) = Ok k) as Hit by done. destruct (delivery_records_build p w l) as [ds Hds].
    repeat first [rewrite bind_ok_run | rewrite Hit | rewrite Hds].
    unfold dict_or_empty, list_or_empty. destruct (truthy (diff_value _)); unfold diff_value; rewrite !bind_ok_run;
      destruct (truthy (PList _)); repeat first [rewrite bind_ok_run | rewrite Hit]; by eexists. }
  destruct (fixtures scenario) as [|fx fxs] eqn:Ef; [done|].
  unfold _label in Hlab. apply bind_Ok in Hlab as (fids & _ & Hlab). injection Hlab as Hlab.
  exists (MkCase (scenario_id scenario) ev (Fault.value (sc_fault scenario)) (fx_kind fx)
    (negb (invariant_after obs) || bool_decide (detect_breaks p obs ≠ [])) (balances_delta exp) ∅ true "classification").
  split; [|split; try done; [by rewrite Ef|exists obs, (detect_breaks p obs); by split_and!]].
  unfold load_case. rewrite Hev. change (py_get r "label") with (Ok (sc_label scenario)).
  change (py_index r "scenario_id") with (Ok (PStr (scenario_id scenario))).
  change (py_index r "fault") with (Ok (PStr (Fault.value (sc_fault scenario)))).
  change (py_get_default r "invariant_after" (PBool true)) with (Ok (PBool (invariant_after obs))).
  change (py_get r "breaks") with (Ok (PList (detect_breaks p obs))).
  assert (first_kind r = Ok (fx_kind fx)) as ->.
  { unfold first_kind. change (py_get r "kinds") with (Ok (PList ((λ fx, PStr (fx_kind fx)) <$> fixtures scenario))). by rewrite Ef. }
  clearbody r. assert (or_empty (sc_label scenario) = sc_label scenario) as Hor by (by rewrite <- Hlab).
  assert (py_get (sc_label scenario) "balances_delta" = Ok (delta_value (balances_delta exp))) as Hbd by (by rewrite <- Hlab).
  repeat first [rewrite bind_ok_run | progress cbn [str_field as_str of_option] | rewrite Hor | rewrite Hbd | rewrite int_map_delta].
  cbn [truthy]. by destruct (detect_breaks p obs).
Qed.
End record.

(** ** What can be read back, decided for integers of at most a hundred digits *)
Fixpoint safe_bool (v : pyval) : bool :=
  match v with
  | PNone | PBool _ => true
  | PInt z => Z.abs z <? 10 ^ 100
  | PFloat r => bool_decide (scan_number (chars r) = Some (PFloat r, []))
  | PStr s => forallb (λ c, code c <? 128) (chars s)
  | PList l => forallb safe_bool l
  | PDict d => bool_decide (NoDup d.*1) && forallb (λ kv, forallb (λ c, code c <? 128) (chars kv.1) && safe_bool kv.2)%bool d
  end.

Lemma safe_bool_safe v : safe_bool v = true → safe v.
Proof.
  assert (∀ s, forallb (λ c, code c <? 128) (chars s) = true → ascii_text s) as Hs.
  { intros s Hall. apply Forall_forall. intros c Hc. rewrite forallb_forall_stdpp in Hall. specialize (Hall c Hc). bool_to_prop. lia. }
  induction v as [| |z|r|s|l IH|d IH] using pyval_nested_ind; cbn [safe_bool]; intros H; try by constructor.
  - constructor. apply (Z.lt_le_trans _ (10 ^ 100)); [by bool_to_prop|]. by apply Z.pow_le_mono_r.
  - constructor. by bool_to_prop.
  - constructor. by apply Hs.
  - constructor. rewrite forallb_forall_stdpp in H. rewrite Forall_forall in *. auto.
  - apply andb_true_iff in H as [H1 H2]. constructor; [by bool_to_prop|]. rewrite forallb_forall_stdpp in H2. rewrite Forall_forall in *.
    intros kv Hkv. specialize (H2 kv Hkv). apply andb_true_iff in H2 as [H3 H4]. split; [by apply Hs|by apply IH].
Qed.

(** ** Properties *)

(** The delivery log of the live proxy reads back as what was logged, in order,
    and no other file changes; without a path nothing is written. *)
Theorem delivery_log_reads_back path records (files : gmap string string) :
  Forall safe records → files !! path = None →
  json_loads <$> splitlines (default "" (append_all (Some path) records files !! path)) = Some <$> records ∧
  (∀ path', path' ≠ path → append_all (Some path) records files !! path' = files !! path') ∧
  append_all None records files = files.
Proof.
  intros Hs Hf. split_and!.
  - rewrite (append_all_file path records files []) by (by rewrite Hf). cbn [app].
    assert (Forall2 reads_as (json_dumps <$> records) records) as Hr.
    { induction Hs as [|r records Hr _ IH]; constructor; [by apply json_dumps_reads_as|done]. }
    rewrite splitlines_jsonl.
    + induction Hr as [|line r lines records [Hl _ _] _ IH]; [done|]. rewrite !fmap_cons. apply Forall_cons in Hs as [_ Hs].
      cbn in Hl |- *. by rewrite Hl, IH.
    + apply Forall_fmap. eapply Forall_impl; [exact Hs|]. intros r Hsafe. by apply json_dumps_reads_as.
  - intros path' Hne. apply append_all_elsewhere. by intros [= ->].
  - induction records as [|r records IH]; [done|]. apply Forall_cons in Hs as [_ Hs]. cbn. by apply IH.
Qed.

(** C23: the benchmark scores what the harness did.  The lines a run writes for
    its records, loaded as cases, give one case for each scenario that did not
    crash, in order: with the scenario's id, the fault that was injected, the kind
    of its first fixture, the balances its label promised, money counted missing
    exactly when the record says the invariant failed or something broke, and the
    evidence of that very record. *)
Theorem artifact_becomes_cases {W} (stack : Runner.Stack W) (scs : list (Scenario * Expectation)) records :
  Forall2 (λ s record, labelled s.1 s.2 ∧ ∃ w w', run_scenario stack s.1 w = (Ok record, w')) scs records →
  Forall safe records →
  ∃ cases, load_cases (jsonl (json_line <$> records)) = Ok cases ∧
    Forall2 (λ sr c, case_of sr.1.1 sr.1.2 sr.2 c)
      (filter (λ sr, (error ← py_get sr.2 "error"; mret (truthy error)) = Ok false) (zip scs records)) cases.
Proof.
  intros Hrun Hs. unfold load_cases. rewrite (load_jsonl load_case _ records).
  2:{ clear Hrun. induction Hs as [|r records Hr _ IH]; constructor; [by apply json_line_reads_as|done]. }
  clear Hs. induction Hrun as [|[s exp] record scs records [Hlab (w & w' & Hr)] _ (cases & Hc & Hall)]; [by exists []|].
  destruct (record_case stack s exp w record w' Hlab Hr) as (c & Hload & Hof). cbn [load_records zip zip_with].
  assert (∃ error, py_get record "error" = Ok error) as [error He].
  { destruct (run_scenario_shape stack s w record w' Hr) as (p & ca & obs & now & f & ids & l & k & rr & er & -> & _). by eexists. }
  rewrite filter_cons. cbn [snd]. rewrite He, !bind_ok_run. destruct (truthy error).
  - rewrite decide_False by done. by exists cases.
  - rewrite decide_True by done. exists (c :: cases). rewrite Hload, bind_ok_run, Hc. split; [done|by constructor].
Qed.

Definition sample_logged_delivery : pyval :=
  PDict [("received_at", PFloat "1700000000.25"); ("fault", PStr "drop"); ("forwarded", PBool false); ("attempt", PInt 1)].

Lemma delivery_log_reads_back_witness :
  json_loads <$> splitlines (default "" (append_all (Some "log.jsonl") [sample_logged_delivery; sample_logged_delivery] ∅ !! "log.jsonl")) =
  Some <$> [sample_logged_delivery; sample_logged_delivery].
Proof.
  assert (safe sample_logged_delivery) as Hs by (apply safe_bool_safe; vm_compute; reflexivity).
  refine (proj1 (delivery_log_reads_back "log.jsonl" [sample_logged_delivery; sample_logged_delivery] ∅ _ _)).
  - apply Forall_cons. split; [exact Hs|]. apply Forall_cons. split; [exact Hs|apply Forall_nil; exact I].
  - apply lookup_empty.
Defined.

(** The scenario of Runner.v, labelled as [generate] does, on its stack with a
    clock that shows fractions. *)
Definition sample_clocked : Runner.Stack database :=
  MkStack database (webhook_secret sample_stack) (db sample_stack) (worker_log_file sample_stack) (wall_clock sample_stack)
    (isoformat_now sample_stack) (elapsed_ms sample_stack) (arrived_ms sample_stack) (float_of sample_stack) (λ _ _ _, "0.5")
    (execute sample_stack) (send sample_stack) (restart_worker sample_stack) (wait_quiescent sample_stack) (reset_ledger sample_stack).
Definition sample_expectation : Expectation :=
  match plan Fault.DUPLICATE [sample_fixture] "whsec" [] None 1700000000 with
  | Ok p => p_expectation p | Err _ => MkExpectation ∅ ∅ ∅ true false "" end.
Definition sample_labelled : Scenario :=
  MkScenario (scenario_id sample_scenario) Fault.DUPLICATE [] [sample_fixture]
    (match _label Fault.DUPLICATE [] [sample_fixture] sample_expectation with Ok l => l | Err _ => PNone end).
Definition readable (r : pyval) : bool :=
  (safe_bool r && bool_decide ((error ← py_get r "error"; mret (truthy error)) = Ok false))%bool.

Lemma sample_readable :
  match (run_scenario sample_clocked sample_labelled empty_db).1 with Ok r => readable r | Err _ => false end = true.
Proof. vm_compute. reflexivity. Qed.

Lemma artifact_becomes_cases_witness :
  ∃ record c, load_cases (jsonl [json_line record]) = Ok [c] ∧ case_of sample_labelled sample_expectation record c.
Proof.
  assert (labelled sample_labelled sample_expectation) as Hl by (exists []; vm_compute; reflexivity).
  assert (∃ record w', run_scenario sample_clocked sample_labelled empty_db = (Ok record, w') ∧ readable record = true)
    as (record & w' & Hr & Hread).
  { pose proof sample_readable as H. destruct (run_scenario sample_clocked sample_labelled empty_db) as [[r|e] w']; [|discriminate H].
    exists r, w'. exact (conj eq_refl H). }
  apply andb_true_iff in Hread as [Hs%safe_bool_safe He%bool_decide_eq_true].
  destruct (artifact_becomes_cases sample_clocked [(sample_labelled, sample_expectation)] [record]) as (cases & Hc & Hall).
  - apply Forall2_cons. split; [|apply Forall2_nil; exact I]. split; [exact Hl|]. exists empty_db, w'. exact Hr.
  - apply Forall_cons. split; [exact Hs|apply Forall_nil; exact I].
  - cbn [zip zip_with] in Hall. rewrite filter_cons_True in Hall by exact He. rewrite filter_nil in Hall.
    apply Forall2_cons_inv_l in Hall as (c & rest & Hcase & Hrest & ->). apply Forall2_nil_inv_l in Hrest as ->.
    exists record, c. exact (conj Hc Hcase).
Defined.
