(* ===== verification/Metrics.v ===== *)
(** observability.py, and what ingest/app.py and worker/tasks.py report through
    it: the metrics of the /metrics endpoint and the spans around a request and
    around a task.  prometheus_client and OpenTelemetry are parameters with the laws
    the code relies on.  The program is its unmetered self, of Ingest.v and
    Handlers.v, beside a registry and a tracer. *)
From Stdlib Require Import QArith.
From S2P Require Import Prelude PyVal Json Hash Ledger Post Balances Mapping Signature Dedupe Handlers Shed Gcra Ingest System Recon.
#[local] Open Scope Z_scope.

(** ** prometheus_client *)

(** One series: a metric with the values of its labels. *)
Record series := Series { sr_metric : string; sr_labels : list (string * string) }.
#[export] Instance series_eq_dec : EqDecision series.
Proof. solve_decision. Defined.

Class Prometheus (F M : Type) := {
  inc : series → M → M;
  set_gauge : series → Z → M → M;
  observe_in : series → F → M → M;
  generate_latest : M → string;
  counter : series → M → Z;
  gauge : series → M → Z;
  observations : series → M → list F }.

(** A metric changes its own series only. *)
Class PrometheusLaws (F M : Type) `{Prometheus F M} := {
  counter_inc c c' m : counter c' (inc c m) = counter c' m + (if decide (c = c') then 1 else 0);
  counter_set c g v m : counter c (set_gauge g v m) = counter c m;
  counter_observe c h x m : counter c (observe_in h x m) = counter c m;
  gauge_set g g' v m : gauge g' (set_gauge g v m) = if decide (g = g') then v else gauge g' m;
  observations_observe h h' x m : observations h' (observe_in h x m) = observations h' m ++ (if decide (h = h') then [x] else []);
  observations_inc h c m : observations h (inc c m) = observations h m;
  gauge_inc g c m : gauge g (inc c m) = gauge g m;
  gauge_observe g h x m : gauge g (observe_in h x m) = gauge g m }.

Definition INVARIANT_OK (currency : string) : series := Series "ledgerproof_invariant_ok" [("currency", currency)].
Definition INVARIANT_DIFFERENCE (currency : string) : series :=
  Series "ledgerproof_invariant_difference_minor" [("currency", currency)].
Definition SHED (tier enforced : string) : series := Series "ledgerproof_shed_total" [("tier", tier); ("enforced", enforced)].
Definition INGEST_LATENCY (outcome : string) : series := Series "ledgerproof_ingest_seconds" [("outcome", outcome)].
Definition EVENTS (outcome : string) : series := Series "ledgerproof_events_total" [("outcome", outcome)].
Definition RATE_LIMITED (reason : string) : series := Series "ledgerproof_rate_limited_total" [("reason", reason)].

Definition _OUTCOMES : list (Z * string) :=
  [(200, "accepted"); (400, "rejected"); (429, "rate_limited"); (503, "shed"); (500, "error")].
(** [_OUTCOMES.get(status, str(status))] *)
Definition outcome_of (status : Z) : string :=
  match list_find (λ kv, kv.1 = status) _OUTCOMES with Some (_, kv) => kv.2 | None => str_of_Z status end.

(** [str(b).lower()] *)
Definition lower_bool (b : bool) : string := lower (if b then "True" else "False").

Section record.
Context {F M : Type} `{Prometheus F M}.

Definition record_check (m : M) (check : CurrencyCheck) : M :=
  set_gauge (INVARIANT_DIFFERENCE (cc_currency check)) (difference check)
    (set_gauge (INVARIANT_OK (cc_currency check)) (if cc_ok check then 1 else 0) m).
Definition record_invariant (result : InvariantResult) (m : M) : M := foldl record_check m result.

(** The content type is the library's. *)
Definition metrics_payload (m : M) : string := generate_latest m.
End record.

(** ** OpenTelemetry *)

(** A context [C] extracted from a carrier, and a tracer with its open spans, the
    current one first.  [exit_span] is the end of the library's own manager, which
    sees the exception that leaves it. *)
Class Tracer (S : Type) := {
  context : Type; token : Type;
  extract : list (string * pyval) → context;
  attach : context → S → token * S;
  detach : token → S → S;
  start_span : string → S → S;
  set_attribute : string → pyval → S → S;
  record_exception : exn → S → S;
  set_error : string → S → S;
  exit_span : option exn → S → S;
  open_spans : S → list string }.

Class TracerLaws (S : Type) `{Tracer S} := {
  start_opens n s : open_spans (start_span n s) = n :: open_spans s;
  exit_closes e s : open_spans (exit_span e s) = tail (open_spans s);
  attribute_keeps k v s : open_spans (set_attribute k v s) = open_spans s;
  exception_keeps e s : open_spans (record_exception e s) = open_spans s;
  error_keeps t s : open_spans (set_error t s) = open_spans s;
  (** What was current before an attached context is current after it. *)
  detach_restores c s s' : open_spans s' = open_spans (attach c s).2 → open_spans (detach (attach c s).1 s') = open_spans s }.

(** ** Programs beside their telemetry *)
Record metered (A M S : Type) := Metered { mt_app : A; mt_metrics : M; mt_trace : S }.
Arguments Metered {A M S}. Arguments mt_app {A M S}. Arguments mt_metrics {A M S}. Arguments mt_trace {A M S}.

Section metered.
Context {A M S : Type} `{HT : Tracer S} (describe : exn → string).

Definition on_app {B} (m : stx A B) : stx (metered A M S) B := λ s,
  let '(r, a) := m (mt_app s) in (r, Metered a (mt_metrics s) (mt_trace s)).
Definition on_metrics (f : M → M) : stx (metered A M S) () := λ s, (Ok (), Metered (mt_app s) (f (mt_metrics s)) (mt_trace s)).
Definition on_trace (f : S → S) : stx (metered A M S) () := λ s, (Ok (), Metered (mt_app s) (mt_metrics s) (f (mt_trace s))).

Definition attach_context {B} (ctx : option context) (body : stx (metered A M S) B) : stx (metered A M S) B :=
  match ctx with
  | None => body
  | Some c =>
      tok ← (λ s, let '(tok, t) := attach c (mt_trace s) in (Ok tok, Metered (mt_app s) (mt_metrics s) t));
      try_finally body (on_trace (detach tok))
  end.

(** [with tracer().start_as_current_span(name)], whose end sees an exception. *)
Definition as_current_span {B} (name : string) (body : stx (metered A M S) B) : stx (metered A M S) B :=
  _ ← on_trace (start_span name);
  r ← try_except body (λ e, _ ← on_trace (exit_span (Some e)); raise e);
  _ ← on_trace (exit_span None);
  mret r.

Definition span {B} (name : string) (attributes : list (string * pyval)) (body : stx (metered A M S) B) : stx (metered A M S) B :=
  as_current_span name (
    _ ← for_each (λ kv, if is_none kv.2 then mret () else on_trace (set_attribute kv.1 kv.2)) attributes;
    try_except body (λ e, _ ← on_trace (record_exception e); _ ← on_trace (set_error (describe e)); raise e)).
End metered.

Section metered_run.
Context {A M S : Type}.
Implicit Types (s : metered A M S).
Lemma on_app_run {B} (m : stx A B) s : on_app m s = ((m (mt_app s)).1, Metered (m (mt_app s)).2 (mt_metrics s) (mt_trace s)).
Proof. unfold on_app. by destruct (m (mt_app s)). Qed.
Lemma on_metrics_run f s : on_metrics f s = (Ok (), Metered (mt_app s) (f (mt_metrics s)) (mt_trace s)).
Proof. done. Qed.
Lemma on_trace_run f s : on_trace f s = (Ok (), Metered (mt_app s) (mt_metrics s) (f (mt_trace s))).
Proof. done. Qed.
End metered_run.
#[export] Hint Rewrite @on_app_run @on_metrics_run @on_trace_run : stx.

(** ** ingest/app.py *)
Section app.
Context {F R M S : Type} `{HA : Arith F} `{HR : RedisClient F R} `{HM : Prometheus F M} `{HT : Tracer S}.
Context (describe : exn → string) (cfg : app_config F) (other : http_req → http_res).
Notation app := (metered (app_state R) M S).

Definition metered_shedding (w : world F) (tier : Tier) : stx app (option http_res) :=
  shedder ← on_app (gets a_shedder);
  match shedder with
  | None => mret None
  | Some sh =>
      let sh := match w_pressure w with Some p => (observe p sh).2 | None => sh end in
      let '(decision, sh) := should_shed tier sh in
      _ ← on_app (modify (λ s, AppState (a_db s) (a_queue s) (Some sh) (a_limits s)));
      _ ← (if (shed decision || (negb (enforced decision) && bool_decide (reason decision = "shed_by_tier")))%bool
           then on_metrics (inc (SHED (tier_name tier) (lower_bool (enforced decision)))) else mret ());
      mret (if shed decision
            then Some (HttpRes 503 (PDict [("error", PStr "shedding load"); ("tier", PStr (tier_name tier))])
                         [("Retry-After", "5")])
            else None)
  end.

Definition metered_limiting (w : world F) (tier : Tier) (r : http_req) : stx app (option http_res) :=
  match limiter cfg with
  | None => mret None
  | Some L =>
      verdict ← on_app (λ s,
        let '(res, l) := Gcra.check L (w_token w) (w_start w) (w_readings w)
                           (tier_name tier +:+ ":" +:+ default "-" (rq_client r)) (a_limits s) in
        (res, AppState (a_db s) (a_queue s) (a_shedder s) l));
      _ ← (if bool_decide (d_reason verdict ≠ "") then on_metrics (inc (RATE_LIMITED (d_reason verdict))) else mret ());
      if allowed verdict then mret None
      else
        hs ← lift (headers verdict);
        mret (Some (HttpRes 429 (PDict [("error", PStr "rate limited"); ("reason", PStr (d_reason verdict))]) hs))
  end.

(** The routes, [/metrics] among them. *)
Definition is_metrics (r : http_req) : bool := bool_decide (rq_path r = "/metrics" ∧ rq_method r = "GET").
Definition metered_next (w : world F) (r : http_req) : stx app http_res :=
  if is_metrics r then λ s, (Ok (HttpRes 200 (PStr (metrics_payload (mt_metrics s))) []), s)
  else on_app (call_next cfg other w r).

(** The middleware; [elapsed] is the time between its two readings of the counter. *)
Definition metered_backpressure (w : world F) (elapsed : F) (r : http_req) : stx app http_res :=
  let tier := classify r in
  refused ← metered_shedding w tier;
  match refused with
  | Some res => mret res
  | None =>
      refused ← metered_limiting w tier r;
      match refused with
      | Some res => mret res
      | None =>
          if bool_decide (rq_path r ≠ "/webhook") then metered_next w r
          else
            response ← span describe "ingest.webhook" [("lp.tier", PStr (tier_name tier))] (
              response ← metered_next w r;
              _ ← on_trace (set_attribute "http.status_code" (PInt (rs_status response)));
              mret response);
            let outcome := outcome_of (rs_status response) in
            _ ← on_metrics (observe_in (INGEST_LATENCY outcome) elapsed);
            _ ← on_metrics (inc (EVENTS outcome));
            mret response
      end
  end.
End app.

(** ** worker/tasks.py *)
Section task.
Context {M S : Type} `{HT : Tracer S} (describe : exn → string).

Definition metered_process_event (client : option egress) (posts : list fate) (mark mark_failed : fate)
    (retries : Z) (draw : Q) (message : pyval) : stx (metered database M S) task_end :=
  parent ← lift (extract_trace_context message);
  event ← lift (strip_trace_context message);
  try_except
    (h ← attach_context (extract <$> parent) (
       ty ← lift (py_get event "type"); id ← lift (py_get event "id");
       span describe "worker.process_event" [("lp.event_type", ty); ("lp.event_id", id)] (
         h ← on_app (handle_event event client posts mark);
         _ ← on_trace (set_attribute "lp.outcome" (PStr (handling_name h)));
         mret h));
     mret (Acked h))
    (λ e,
      if retries <? max_retries then mret (Retried e (countdown retries draw))
      else
        _ ← try_except (on_app (disturbed mark_failed (_mark_status event Failed))) (λ _, mret ());
        mret (Exhausted e)).
End task.

(** ** Transparency *)
Section transparent.
Context {A M S : Type} `{HL : TracerLaws S}.
Implicit Types (s : metered A M S).

(** A metered computation is its unmetered self, and leaves the spans that were
    open as they were. *)
Definition transparent {B} (m : stx (metered A M S) B) (m' : stx A B) : Prop := ∀ s,
  (m s).1 = (m' (mt_app s)).1 ∧ mt_app (m s).2 = (m' (mt_app s)).2 ∧ open_spans (mt_trace (m s).2) = open_spans (mt_trace s).

Lemma transparent_ret {B} (b : B) : transparent (mret b) (mret b).
Proof. by intros s. Qed.
Lemma transparent_lift {B} (r : result B) : transparent (lift r) (lift r).
Proof. by intros s. Qed.
Lemma transparent_lift_bind {B C} (r : result B) (f : B → stx (metered A M S) C) f' :
  (∀ b, r = Ok b → transparent (f b) (f' b)) → transparent (lift r ≫= f) (lift r ≫= f').
Proof. intros Hf s. run. destruct r as [b|e]; [by apply Hf|done]. Qed.
Lemma transparent_raise {B} e : transparent (raise e : stx _ B) (raise e).
Proof. by intros s. Qed.
Lemma transparent_app {B} (m : stx A B) : transparent (on_app m) m.
Proof. intros s. by run. Qed.
Lemma transparent_metrics f : transparent (on_metrics f) (mret ()).
Proof. by intros s. Qed.
Lemma transparent_trace f : (∀ t, open_spans (f t) = open_spans t) → transparent (on_trace f) (mret ()).
Proof. intros Hf s. split_and!; [done..|]. apply Hf. Qed.

Lemma transparent_bind {B C} (m : stx (metered A M S) B) m' (f : B → stx (metered A M S) C) f' :
  transparent m m' → (∀ b, transparent (f b) (f' b)) → transparent (m ≫= f) (m' ≫= f').
Proof.
  intros Hm Hf s. destruct (Hm s) as (H1 & H2 & H3). rewrite !bind_run. destruct (m s) as [[b|e] s1], (m' (mt_app s)) as [r a]; simplify_eq/=; [|done].
  destruct (Hf b s1) as (K1 & K2 & K3). split_and!; [done..|]. by rewrite K3.
Qed.

(** Reporting before going on. *)
Lemma transparent_silent {B} (m : stx (metered A M S) ()) (f : () → stx (metered A M S) B) m' :
  transparent m (mret ()) → transparent (f ()) m' → transparent (m ≫= f) m'.
Proof.
  intros Hm Hf s. destruct (Hm s) as (H1 & H2 & H3). rewrite bind_run. destruct (m s) as [[[]|e] s1]; simplify_eq/=.
  destruct (Hf s1) as (K1 & K2 & K3). rewrite H2 in *. split_and!; [done..|]. by rewrite K3.
Qed.

(** Reporting a result. *)
Lemma transparent_after {B} (m : stx (metered A M S) B) f m' :
  transparent m m' → (∀ b, transparent (f b) (mret b)) → transparent (m ≫= f) m'.
Proof.
  intros Hm Hf s. destruct (Hm s) as (H1 & H2 & H3). rewrite bind_run. destruct (m s) as [[b|e] s1]; cbn [fst snd] in *; [|done].
  destruct (Hf b s1) as (K1 & K2 & K3). rewrite K1, K2, K3. by rewrite <- H1.
Qed.

Lemma transparent_try {B} (m : stx (metered A M S) B) m' h h' :
  transparent m m' → (∀ e, transparent (h e) (h' e)) → transparent (try_except m h) (try_except m' h').
Proof.
  intros Hm Hh s. destruct (Hm s) as (H1 & H2 & H3). rewrite !try_except_run.
  destruct (m s) as [[b|e] s1], (m' (mt_app s)) as [r a]; simplify_eq/=; [done|].
  destruct (Hh e s1) as (K1 & K2 & K3). split_and!; [done..|]. by rewrite K3.
Qed.

Lemma transparent_span {B} describe name attributes (m : stx (metered A M S) B) m' :
  transparent m m' → transparent (span describe name attributes m) m'.
Proof.
  intros Hm. unfold span, as_current_span.
  assert (transparent (_ ← for_each (λ kv, if is_none kv.2 then mret () else on_trace (set_attribute kv.1 kv.2)) attributes;
    try_except m (λ e, _ ← on_trace (record_exception e); _ ← on_trace (set_error (describe e)); raise e)) m') as Hin.
  { apply transparent_silent.
    - induction attributes as [|kv l IH]; [by intros s|]. cbn [for_each]. apply transparent_silent; [|exact IH].
      destruct (is_none kv.2); [apply transparent_ret|]. apply transparent_trace. intros t. apply attribute_keeps.
    - intros s. destruct (Hm s) as (H1 & H2 & H3). run. destruct (m s) as [[b|e] s1]; simplify_eq/=; [done|].
      rewrite error_keeps, exception_keeps. done. }
  set (body := (_ ← for_each _ attributes; _ : stx (metered A M S) B)) in *. clearbody body. intros s. run.
  destruct (Hin (Metered (mt_app s) (mt_metrics s) (start_span name (mt_trace s)))) as (H1 & H2 & H3). cbn [mt_app mt_trace mt_metrics] in *.
  destruct (body _) as [[b|e] s1]; cbn [fst snd] in *; run; cbn [fst snd mt_app mt_trace];
    rewrite exit_closes, H3, start_opens; done.
Qed.

Lemma transparent_attach {B} ctx (m : stx (metered A M S) B) m' : transparent m m' → transparent (attach_context ctx m) m'.
Proof.
  intros Hm. destruct ctx as [c|]; [|exact Hm]. intros s. unfold attach_context. run.
  pose proof (λ t, detach_restores c (mt_trace s) t) as Hd. destruct (attach c (mt_trace s)) as [tok t]. cbn [fst snd] in Hd.
  destruct (Hm (Metered (mt_app s) (mt_metrics s) t)) as (H1 & H2 & H3). cbn [mt_app mt_trace] in *. unfold try_finally.
  destruct (m _) as [r s1]. cbn [fst snd on_trace mt_trace mt_app] in *. split_and!; [done..|]. by apply Hd.
Qed.
End transparent.

(** ** The ingest application *)
Section ingest.
Context {F R M S : Type} `{HA : Arith F} `{HR : RedisClient F R} `{HML : PrometheusLaws F M} `{HTL : TracerLaws S}.
Context (describe : exn → string) (cfg : app_config F) (other : http_req → http_res).
Notation app := (metered (app_state R) M S).
Implicit Types (s : app) (w : world F).

Lemma shedding_transparent w tier : transparent (metered_shedding w tier : stx app _) (shedding w tier).
Proof.
  intros s. unfold metered_shedding, shedding. run. cbn [fst snd mt_app gets].
  destruct (a_shedder (mt_app s)) as [sh|] eqn:Es; run; [|by destruct s].
  destruct (should_shed tier _) as [decision sh']. run. by destruct (_ || _)%bool; run.
Qed.

Lemma limiting_transparent w tier r : transparent (metered_limiting cfg w tier r : stx app _) (limiting cfg w tier r).
Proof.
  intros s. unfold metered_limiting, limiting. destruct (limiter cfg) as [L|]; [|done]. run.
  destruct (Gcra.check L _ _ _ _ _) as [[v|e] l]; run; [|done].
  cbn [fst snd]; destruct (bool_decide _); run; (destruct (allowed v); run; [done|]); by destruct (headers v); run.
Qed.

Lemma next_transparent w r : is_metrics r = false → transparent (metered_next cfg other w r : stx app _) (call_next cfg other w r).
Proof. intros E. unfold metered_next. rewrite E. apply transparent_app. Qed.

Lemma backpressure_transparent w elapsed r : is_metrics r = false →
  transparent (metered_backpressure describe cfg other w elapsed r : stx app _) (backpressure cfg other w r).
Proof.
  intros Hm. unfold metered_backpressure, backpressure. apply transparent_bind; [apply shedding_transparent|].
  intros [res|]; [apply transparent_ret|]. apply transparent_bind; [apply limiting_transparent|].
  intros [res|]; [apply transparent_ret|]. case_bool_decide; [by apply next_transparent|].
  apply transparent_after.
  - apply transparent_span, transparent_after; [by apply next_transparent|]. intros res.
    apply transparent_silent; [|apply transparent_ret]. apply transparent_trace. intros t. apply attribute_keeps.
  - intros res. apply transparent_silent; [apply transparent_metrics|].
    apply transparent_silent; [apply transparent_metrics|apply transparent_ret].
Qed.

(** ** What is counted *)

(** The middleware lets the request through. *)
Definition admitted w (r : http_req) (a : app_state R) : bool :=
  match shedding w (classify r) a with
  | (Ok None, a1) => match limiting cfg w (classify r) r a1 with (Ok None, _) => true | _ => false end
  | _ => false
  end.

(** The outcome under which a request is counted, if it is. *)
Definition counted w r (a : app_state R) : option string :=
  if (admitted w r a && bool_decide (rq_path r = "/webhook"))%bool
  then match (backpressure cfg other w r a).1 with Ok res => Some (outcome_of (rs_status res)) | Err _ => None end
  else None.

(** The counters a request moves, by what the unmetered service does with it: the tier
    is at or over the level of a live shedder; the limiter gives a reason; the webhook is
    answered. *)
Definition shed_tally w tier (a : app_state R) : list series :=
  match a_shedder a with
  | Some sh =>
      let sh := match w_pressure w with Some p => (observe p sh).2 | None => sh end in
      if (enabled sh && (tier_int tier <? level sh))%bool
      then [SHED (tier_name tier) (if enforce sh then "true" else "false")] else []
  | None => []
  end.
Definition limit_tally w tier (r : http_req) (a : app_state R) : list series :=
  match limiter cfg with
  | Some L =>
      match (Gcra.check L (w_token w) (w_start w) (w_readings w) (tier_name tier +:+ ":" +:+ default "-" (rq_client r)) (a_limits a)).1 with
      | Ok verdict => if decide (d_reason verdict = "") then [] else [RATE_LIMITED (d_reason verdict)]
      | Err _ => []
      end
  | None => []
  end.
Definition tallied w r (a : app_state R) : list series :=
  shed_tally w (classify r) a ++
  (match shedding w (classify r) a with (Ok None, a1) => limit_tally w (classify r) r a1 | _ => [] end) ++
  (match counted w r a with Some o => [EVENTS o] | None => [] end).
Definition timed w (elapsed : F) r (a : app_state R) : list (series * F) :=
  match counted w r a with Some o => [(INGEST_LATENCY o, elapsed)] | None => [] end.

(** The registry moved by these increments and these observations, and by
    nothing else. *)
Record moved (l : list series) (obs : list (series * F)) (m m' : M) : Prop := {
  mv_counter : ∀ c, counter c m' = counter c m + Z.of_nat (count_occ series_eq_dec l c);
  mv_observed : ∀ h, observations h m' = observations h m ++ (filter (λ kv, kv.1 = h) obs).*2;
  mv_gauge : ∀ g, gauge g m' = gauge g m }.

Lemma moved_refl m : moved [] [] m m.
Proof. split; intros; cbn; [lia|by rewrite app_nil_r|done]. Qed.
Lemma moved_inc c m : moved [c] [] m (inc c m).
Proof.
  split; intros; cbn; [|by rewrite observations_inc, app_nil_r|apply gauge_inc].
  rewrite counter_inc. destruct (series_eq_dec _ _); case_decide; congruence || lia.
Qed.
Lemma moved_observe h x m : moved [] [(h, x)] m (observe_in h x m).
Proof.
  split; intros; [rewrite counter_observe; cbn; lia| |apply gauge_observe].
  rewrite observations_observe. f_equal. rewrite filter_cons. cbn. by case_decide.
Qed.
Lemma moved_trans l1 o1 l2 o2 m1 m2 m3 : moved l1 o1 m1 m2 → moved l2 o2 m2 m3 → moved (l1 ++ l2) (o1 ++ o2) m1 m3.
Proof.
  intros [H1 H2 H3] [K1 K2 K3]. split; intros x.
  - rewrite K1, H1, count_occ_app. lia.
  - by rewrite K2, H2, filter_app, fmap_app, app_assoc.
  - by rewrite K3.
Qed.

Definition quiet (m : stx app http_res) : Prop := ∀ s, mt_metrics (m s).2 = mt_metrics s.

Lemma span_quiet name attributes m : quiet m → quiet (span describe name attributes m).
Proof.
  intros Hm s. unfold span, as_current_span. run. set (s0 := Metered _ _ _).
  assert (∀ (l : list (string * pyval)) s1, mt_metrics (for_each (λ kv : string * pyval, if is_none kv.2 then mret () else on_trace (set_attribute kv.1 kv.2)) l s1).2 = mt_metrics s1 ∧
    (for_each (λ kv : string * pyval, if is_none kv.2 then mret () else on_trace (set_attribute kv.1 kv.2)) l s1).1 = Ok ()) as Hl.
  { clear. induction l as [|kv l IH]; intros s1; [done|]. cbn [for_each]. run. destruct (is_none kv.2); run; [apply IH|]. destruct (IH (Metered (mt_app s1) (mt_metrics s1) (set_attribute kv.1 kv.2 (mt_trace s1)))) as [E1 E2]. by split. }
  destruct (Hl attributes s0) as [E1 E2]. destruct (for_each _ attributes s0) as [r0 s1]. cbn [fst snd] in *. subst r0.
  specialize (Hm s1). destruct (m s1) as [[b|e] s2] eqn:Em; run; rewrite ?Em; run; cbn [fst snd mt_metrics] in *; by rewrite Hm.
Qed.

Lemma next_quiet w r : quiet (metered_next cfg other w r).
Proof. intros s. unfold metered_next. destruct (is_metrics r); run; done. Qed.

Lemma shedding_moved w tier s :
  moved (shed_tally w tier (mt_app s)) [] (mt_metrics s) (mt_metrics (metered_shedding w tier s : _ * app).2).
Proof.
  unfold metered_shedding, shed_tally. run. cbn [fst snd mt_app gets]. destruct (a_shedder (mt_app s)) as [sh|]; run; [|apply moved_refl].
  set (sh1 := match w_pressure w with Some p => _ | None => _ end). destruct (should_shed tier sh1) as [decision sh2] eqn:Ed. run.
  unfold should_shed in Ed. destruct (enabled sh1); simplify_eq/=; run; [|apply moved_refl].
  destruct (tier_int tier <? level sh1), (enforce sh1); cbn [andb orb negb]; run; cbn [fst snd mt_metrics]; apply moved_refl || apply moved_inc.
Qed.

Lemma limiting_moved w tier r s :
  moved (limit_tally w tier r (mt_app s)) [] (mt_metrics s) (mt_metrics (metered_limiting cfg w tier r s : _ * app).2).
Proof.
  unfold metered_limiting, limit_tally. destruct (limiter cfg) as [L|]; [|apply moved_refl]. run.
  destruct (Gcra.check L _ _ _ _ _) as [[v|e] l]; run; [|apply moved_refl]. cbn [fst snd].
  destruct (decide (d_reason v = "")) as [E|E]; [rewrite bool_decide_false by (by intros [])|rewrite bool_decide_true by done];
    run; (destruct (allowed v); run; [|destruct (headers v); run]); apply moved_refl || apply moved_inc.
Qed.

Lemma backpressure_moved w elapsed r s : is_metrics r = false →
  moved (tallied w r (mt_app s)) (timed w elapsed r (mt_app s)) (mt_metrics s)
    (mt_metrics (metered_backpressure describe cfg other w elapsed r s).2).
Proof.
  intros Hm. destruct (backpressure_transparent w elapsed r Hm s) as (Eres & _ & _). revert Eres. unfold metered_backpressure, tallied, timed. run.
  destruct (shedding_transparent w (classify r) s) as (E1 & E2 & _). pose proof (shedding_moved w (classify r) s) as E3.
  destruct (metered_shedding w (classify r) s) as [r1 s1]. cbn [fst snd] in *.
  assert (∀ x, counted w r (mt_app s) = Some x → admitted w r (mt_app s) = true ∧ rq_path r = "/webhook") as Hcnt.
  { intros x. unfold counted. destruct (admitted w r (mt_app s)); [|done]. by case_bool_decide. }
  unfold admitted in Hcnt. destruct (shedding w (classify r) (mt_app s)) as [r1' a1] eqn:Es. cbn [fst snd] in *. subst r1' a1.
  destruct r1 as [[res|]|e]; run.
  1, 3: intros _; destruct (counted w r (mt_app s)) as [o|]; [by destruct (Hcnt o eq_refl)|]; by rewrite !app_nil_r.
  pose proof (limiting_moved w (classify r) r s1) as F3. destruct (limiting_transparent w (classify r) r s1) as (F1 & F2 & _).
  destruct (metered_limiting cfg w (classify r) r s1) as [r2 s2]. cbn [fst snd] in *.
  pose proof (moved_trans _ _ _ _ _ _ _ E3 F3) as Hmv. rewrite (app_nil_r (A := series * F) []) in Hmv. rewrite (app_assoc (shed_tally _ _ _)).
  destruct (limiting cfg w (classify r) r (mt_app s1)) as [r2' a2] eqn:El. cbn [fst snd] in *. subst r2' a2.
  destruct r2 as [[res|]|e]; run.
  1, 3: intros _; destruct (counted w r (mt_app s)) as [o|]; [by destruct (Hcnt o eq_refl)|]; by rewrite app_nil_r.
  case_bool_decide as Hpath.
  { intros _. destruct (counted w r (mt_app s)) as [o|]; [by destruct (Hcnt o eq_refl)|]. rewrite next_quiet. by rewrite app_nil_r. }
  run. set (body := (response ← metered_next cfg other w r; _ : stx app http_res)).
  assert (quiet body) as Hq.
  { intros s3. subst body. run. pose proof (next_quiet w r s3) as Hn. by destruct (metered_next cfg other w r s3) as [[]]; run. }
  pose proof (span_quiet "ingest.webhook" [("lp.tier", PStr (tier_name (classify r)))] body Hq s2) as Hsp.
  assert (counted w r (mt_app s) = match (backpressure cfg other w r (mt_app s)).1 with Ok res => Some (outcome_of (rs_status res)) | Err _ => None end) as Hc.
  { unfold counted, admitted. rewrite Es, El. by rewrite bool_decide_true. }
  rewrite Hc. clear Hcnt Hc. destruct (span describe _ _ body s2) as [[response|e] s3]; cbn [fst snd] in *; run; cbn [fst snd mt_metrics];
    intros <-; rewrite Hsp; [|by rewrite app_nil_r].
  change [(INGEST_LATENCY (outcome_of (rs_status response)), elapsed)] with ([(INGEST_LATENCY (outcome_of (rs_status response)), elapsed)] ++ []).
  eapply moved_trans; [|apply moved_inc]. rewrite <- (app_nil_r (_ ++ _)). exact (moved_trans _ _ _ _ _ _ _ Hmv (moved_observe _ _ _)).
Qed.

Lemma refused_status w r res : accepted_event cfg w r = inl res → rs_status res = 400.
Proof.
  unfold accepted_event. destruct (MAX_BODY_BYTES <? _); [by intros [= <-]|]. destruct (verify _ _ _ _ _ _); [|by intros [= <-]].
  destruct (json_loads _) as [event|]; [|by intros [= <-]]. destruct (envelope_id event); [done|by intros [= <-]].
Qed.

Lemma webhook_statuses w r (a : app_state R) res a' : webhook cfg w r a = (Ok res, a') → rs_status res ∈ [200; 400; 500].
Proof.
  assert (∀ p i (b : app_state R) res b', enqueue_and_mark w p i b = (Ok res, b') → rs_status res ∈ [200; 400; 500]) as He.
  { intros p i b res' b'. unfold enqueue_and_mark. run. destruct (enqueue w p b) as [[[]|e] b1]; run; [|intros [= <- _]; cbn; set_solver].
    destruct (mark_queued_of w i b1) as [[[]|e] b2]; run; [|done]. intros [= <- _]. cbn. set_solver. }
  unfold webhook. destruct (accepted_event cfg w r) as [res'|[event id]] eqn:Ea.
  { intros [= -> _]. apply refused_status in Ea. rewrite Ea. set_solver. }
  run.
  destruct (check_and_record_of w event a) as [[result|e] a1]; run; [|done]. destruct (new result); cbn [negb]; [by apply He|].
  destruct (existing_status result), (existing_id result), (existing_payload result); try (intros [= <- _]; cbn; set_solver).
  case_bool_decide; [by apply He|intros [= <- _]; cbn; set_solver].
Qed.

Lemma counted_bounded w r a o : rq_method r = "POST" → counted w r a = Some o → o ∈ ["accepted"; "rejected"; "error"].
Proof.
  intros Hpost. unfold counted, admitted, backpressure. run. destruct (shedding w (classify r) a) as [[[res|]|e] a1]; [done| |done].
  run. destruct (limiting cfg w (classify r) r a1) as [[[res|]|e] a2]; [done| |done]. cbn [andb]. case_bool_decide as Hp; [|done].
  unfold call_next. rewrite bool_decide_true by done. destruct (webhook cfg w r a2) as [[res|e] a3] eqn:E; [|done]. cbn [fst].
  intros [= <-]. apply webhook_statuses in E. rewrite !elem_of_cons in E.
  destruct E as [-> | [-> | [-> | E]]]; [apply (bool_decide_unpack _); vm_compute; exact I..|by apply elem_of_nil in E].
Qed.
End ingest.

(** ** The worker *)
Section worker.
Context {M S : Type} `{HTL : TracerLaws S} (describe : exn → string).

(** A task under its spans is the task. *)
Lemma process_event_transparent client posts mark mark_failed retries draw message :
  transparent (metered_process_event describe client posts mark mark_failed retries draw message : stx (metered database M S) _)
    (process_event client posts mark mark_failed retries draw message).
Proof.
  unfold metered_process_event, process_event. apply transparent_lift_bind. intros parent _.
  apply transparent_lift_bind. intros event Es.
  assert (∃ d, event = PDict d) as [d ->].
  { destruct message; try done. unfold strip_trace_context in Es. destruct (dict_mem _ _); simplify_eq; by eexists. }
  apply transparent_try.
  - apply transparent_bind; [|intros h; apply transparent_ret]. apply transparent_attach.
    apply transparent_span, transparent_after; [apply transparent_app|]. intros h.
    apply transparent_silent; [|apply transparent_ret]. apply transparent_trace. intros t. apply attribute_keeps.
  - intros e. destruct (retries <? max_retries); [apply transparent_ret|]. apply transparent_bind; [|intros []; apply transparent_ret].
    apply transparent_try; [apply transparent_app|intros e'; apply transparent_ret].
Qed.
End worker.

(** ** The books on the board *)
Section gauges.
Context {F M : Type} `{HML : PrometheusLaws F M}.

Definition shows (m : M) (c : CurrencyCheck) : Prop :=
  gauge (INVARIANT_DIFFERENCE (cc_currency c)) m = difference c ∧ gauge (INVARIANT_OK (cc_currency c)) m = if cc_ok c then 1 else 0.

Lemma record_check_gauge m c g : gauge g (record_check m c) =
  if decide (g = INVARIANT_DIFFERENCE (cc_currency c)) then difference c
  else if decide (g = INVARIANT_OK (cc_currency c)) then (if cc_ok c then 1 else 0) else gauge g m.
Proof. unfold record_check. rewrite !gauge_set. repeat case_decide; congruence. Qed.

Lemma record_invariant_shows l : ∀ m, NoDup (cc_currency <$> l) → ∀ c, c ∈ l → shows (record_invariant l m) c.
Proof.
  assert (∀ k m c, cc_currency c ∉ cc_currency <$> k → shows m c → shows (record_invariant k m) c) as Hkeep.
  { induction k as [|x k IH]; intros m c Hn Hs; [done|]. rewrite fmap_cons in Hn. apply not_elem_of_cons in Hn as [Hne Hn].
    change (shows (record_invariant k (record_check m x)) c). apply IH; [done|]. destruct Hs as [H1 H2].
    split; rewrite record_check_gauge, !decide_False by (unfold INVARIANT_DIFFERENCE, INVARIANT_OK; congruence); done. }
  induction l as [|x l IH]; intros m Hnd c Hc; [by apply elem_of_nil in Hc|]. rewrite fmap_cons in Hnd. apply NoDup_cons in Hnd as [Hn Hnd].
  change (shows (record_invariant l (record_check m x)) c). apply elem_of_cons in Hc as [->|Hc]; [|by apply IH].
  apply Hkeep; [done|]. split; rewrite record_check_gauge; [by rewrite decide_True|].
  rewrite decide_False by (unfold INVARIANT_DIFFERENCE, INVARIANT_OK; congruence). by rewrite decide_True.
Qed.

Lemma check_currencies d : NoDup (cc_currency <$> Balances.check d).
Proof.
  unfold Balances.check. rewrite <- list_fmap_compose. rewrite (list_fmap_ext _ id) by done. rewrite list_fmap_id.
  unfold sort_strings. rewrite (merge_sort_Permutation _ _). apply NoDup_remove_dups.
Qed.
End gauges.

(** ** Sample libraries *)
Record sim_registry := SimRegistry { sim_counters : series → Z; sim_gauges : series → Z; sim_observed : series → list Q }.
Definition update {V} (k : series) (f : V → V) (g : series → V) : series → V := λ k', if decide (k = k') then f (g k') else g k'.
#[export] Instance sim_prometheus : Prometheus Q sim_registry := {
  inc c m := SimRegistry (update c (λ z, z + 1) (sim_counters m)) (sim_gauges m) (sim_observed m);
  set_gauge g v m := SimRegistry (sim_counters m) (update g (λ _, v) (sim_gauges m)) (sim_observed m);
  observe_in h x m := SimRegistry (sim_counters m) (sim_gauges m) (update h (λ l, l ++ [x]) (sim_observed m));
  generate_latest _ := ""; counter c m := sim_counters m c; gauge g m := sim_gauges m g; observations h m := sim_observed m h }.
#[export] Instance sim_prometheus_laws : PrometheusLaws Q sim_registry.
Proof.
  split; intros; cbn; unfold update; try done; case_decide; try done; [lia|]. by rewrite app_nil_r.
Qed.
Definition sim_empty : sim_registry := SimRegistry (λ _, 0) (λ _, 0) (λ _, []).

(** A tracer that only keeps the names of its open spans. *)
#[export] Instance sim_tracer : Tracer (list string) := {
  context := list (string * pyval); token := list string; extract c := c; attach c s := (s, "remote" :: s); detach tok _ := tok;
  start_span n s := n :: s; set_attribute _ _ s := s; record_exception _ s := s; set_error _ s := s; exit_span _ s := tail s;
  open_spans s := s }.
#[export] Instance sim_tracer_laws : TracerLaws (list string).
Proof. split; by intros. Qed.

(** ** Properties *)

(** C32: instrumentation changes nothing and counts exactly what happened.  A request
    (other than to /metrics) is answered, and changes the service, as without
    metrics and spans; the spans open before are those open after, exceptions
    included.  Of all series of the registry it moves these, each by one: the shed counter of its
    tier when the tier is over the level of an enabled shedder, marked by whether
    shedding is enforced or a dark launch; the limiter's counter of the reason when it gives
    one, allowed or not; and, for a webhook request let through and answered, the
    outcome counter, with one latency, of its status, which is one of three for a POST.
    So a 429 or 503 of the middleware and a handler that raises are in no
    outcome; and no gauge moves. *)
Theorem metered_request {F R M S} `{HA : Arith F} `{HR : RedisClient F R} `{HML : PrometheusLaws F M} `{HTL : TracerLaws S}
    describe (cfg : app_config F) other (w : world F) elapsed r (s : metered (app_state R) M S) : is_metrics r = false →
  let '(res, s') := metered_backpressure describe cfg other w elapsed r s in
  backpressure cfg other w r (mt_app s) = (res, mt_app s') ∧ open_spans (mt_trace s') = open_spans (mt_trace s) ∧
  moved (tallied cfg other w r (mt_app s)) (timed cfg other w elapsed r (mt_app s)) (mt_metrics s) (mt_metrics s') ∧
  (rq_method r = "POST" → ∀ o, counted cfg other w r (mt_app s) = Some o → o ∈ ["accepted"; "rejected"; "error"]).
Proof.
  intros Hm. destruct (backpressure_transparent describe cfg other w elapsed r Hm s) as (E1 & E2 & E3).
  pose proof (backpressure_moved describe cfg other w elapsed r s Hm) as Hacc.
  destruct (metered_backpressure _ _ _ _ _ _ _) as [res s']. cbn [fst snd] in *. split_and!; [|done..|by intros Hp o; apply counted_bounded].
  destruct (backpressure cfg other w r (mt_app s)). by simplify_eq/=.
Qed.

Definition sample_metered : metered (app_state sim_redis) sim_registry (list string) := Metered sample_state sim_empty [].

Lemma metered_request_witness :
  ∃ res s', metered_backpressure (λ _, "") sample_config no_route sample_world (1 # 8) sample_request sample_metered = (Ok res, s') ∧
    rs_status res = 200 ∧ counter (EVENTS "accepted") (mt_metrics s') = 1.
Proof.
  assert ((metered_backpressure (λ _, "") sample_config no_route sample_world (1 # 8) sample_request sample_metered).1
    = Ok (JSONResponse [("status", PStr "queued")] 200)) as E by (vm_compute; reflexivity).
  assert (counted sample_config no_route sample_world sample_request sample_state = Some "accepted") as Ec by (vm_compute; reflexivity).
  pose proof (metered_request (λ _, "") sample_config no_route sample_world (1 # 8) sample_request sample_metered eq_refl) as H.
  destruct (metered_backpressure _ _ _ _ _ _ _) as [res s']. cbn [fst] in E. subst res. destruct H as (_ & _ & H & _).
  exists (JSONResponse [("status", PStr "queued")] 200), s'. split; [reflexivity|]. split; [reflexivity|].
  rewrite (mv_counter _ _ _ _ H (EVENTS "accepted")). unfold tallied. change (mt_app sample_metered) with sample_state. rewrite Ec.
  vm_compute. reflexivity.
Defined.

(** The board shows the books: after an invariant check was recorded, the
    gauges of each currency of an account show the signed difference of that currency and whether it is zero,
    and in every committed state they show that the books balance. *)
Theorem gauges_tell_books {F M} `{HML : PrometheusLaws F M} (m : M) d currency : currency ∈ acc_currency <$> accounts d →
  let m' := record_invariant (Balances.check d) m in
  gauge (INVARIANT_DIFFERENCE currency) m' = normal_sum Debit currency d - normal_sum Credit currency d ∧
  (gauge (INVARIANT_OK currency) m' = 1 ↔ normal_sum Debit currency d = normal_sum Credit currency d) ∧
  (ledger_ok d → gauge (INVARIANT_OK currency) m' = 1).
Proof.
  intros Hc. cbv zeta. set (c := MkCurrencyCheck currency (normal_sum Debit currency d) (normal_sum Credit currency d)).
  assert (c ∈ Balances.check d) as Hin.
  { unfold Balances.check. apply list_elem_of_fmap. exists currency. split; [done|]. by apply sort_strings_elem, elem_of_remove_dups. }
  destruct (record_invariant_shows (Balances.check d) m (check_currencies d) c Hin) as [H1 H2]. cbn [cc_currency c] in *.
  rewrite H1, H2. split; [done|]. unfold cc_ok, difference. cbn. split.
  - destruct (_ =? 0) eqn:E; bool_to_prop; split; intros; lia || done.
  - intros Hok%check_ok. unfold invariant_ok in Hok. rewrite forallb_forall in Hok. pose proof (Hok c) as Hx.
    unfold cc_ok, difference in Hx. cbn in Hx. rewrite Hx; [done|]. by apply list_elem_of_In.
Qed.

Lemma gauges_tell_books_witness :
  gauge (INVARIANT_OK "USD") (record_invariant (Balances.check empty_db) sim_empty) = 1.
Proof.
  refine (proj2 (proj2 (gauges_tell_books sim_empty empty_db "USD" _)) empty_db_ok). apply (bool_decide_unpack _). vm_compute. exact I.
Defined.
