(* ===== verification/Scripts.v ===== *)
(** The scripts around the benchmark from their first line to their summary:
    scripts/bench_design_report.py, and the [main] of scripts/run_sweep.py and
    scripts/run_pilot.py over the loops of Sweep.v.  Token counts, model calls and
    shuffles are parameters; argparse and the prints are left out.  The artifacts directory is a map from names to texts.  Times of day and file names are strings. *)
From Stdlib Require Import SpecFloat QArith Lqa.
From S2P Require Import Prelude PyVal Json Gcra Recon Prompts Triage Bench Processes Sweep.
#[local] Open Scope Z_scope.

(** ** The artifacts directory *)

(** [s.endswith(p)] *)
Definition endswith (p s : string) : bool := String.eqb (String.substring (String.length s - String.length p) (String.length p) s) p.
(** The glob [chaos_*.jsonl]. *)
Definition is_chaos (name : string) : bool := (startswith "chaos_" name && endswith ".jsonl" name)%bool.
(** [load_cases(max(ARTIFACTS.glob("chaos_*.jsonl")))]: the text of the file whose name is last. *)
Definition newest_chaos (artifacts : gmap string string) : result string :=
  match last (sort_strings (filter is_chaos (map_to_list artifacts).*1)) with
  | Some name => of_option (OSError "no such file") (artifacts !! name)
  | None => Err (ValueError "max() iterable argument is empty")
  end.
(** [path.read_text()] *)
Definition artifact_text (artifacts : gmap string string) (name : string) : result string :=
  of_option (OSError "no such file") (artifacts !! name).
Definition REPAIR_STRATUM : string := "repair_stratum.jsonl".

(** ** scripts/bench_design_report.py *)
Definition MIN_CACHEABLE_PREFIX : list (string * Z) := [(OPUS, 512); (SONNET, 1024); (HAIKU, 4096)].
Definition ASSUMED_OUTPUT_TOKENS : Z := 1200.
Definition forty_percent : float := ratio 4 10.

Section projection.
Context {F : Type} `{Arith F}.
Definition mean_tokens (per_case : list Z) : F := f_div (f_of_Z (Zsum id per_case)) (f_of_Z (Z.of_nat (length per_case))).
(** One batched call, its prefix read from the cache. *)
Definition per_scenario (rates : F * F) (prefix_only : Z) (mean_case_only : F) : F :=
  let cached := f_mul (f_mul (f_of_Z prefix_only) rates.1) CACHE_READ_MULTIPLIER in
  let fresh := f_mul mean_case_only rates.1 in
  let out := f_mul (f_of_Z ASSUMED_OUTPUT_TOKENS) rates.2 in
  f_mul (f_div (f_add (f_add cached fresh) out) (f_of_Z 1000000)) BATCH_MULTIPLIER.
End projection.

Record Projection := MkProjection {
  usd_per_scenario_batched : float; usd_for_test_split : float; prefix_caches : bool; min_cacheable_prefix : Z }.

Record Design := MkDesign {
  ds_cases : list Case; ds_train : list Case; ds_test : list Case;
  ds_prefix : Z; ds_per_case : list Z; ds_projection : list (string * Projection); ds_prompt : string; ds_label : string }.

Section design.
(** [count_tokens model system messages] *)
Context (count_tokens : string → list pyval → list pyval → result Z) (shuffle : string → list Case → list Case).

Definition case_tokens (c : Case) : result Z :=
  params ← request_params OPUS (evidence c) None;
  system ← of_option (KeyError "system") (dict_get "system" params); system ← iterate system;
  messages ← of_option (KeyError "messages") (dict_get "messages" params); messages ← iterate messages;
  count_tokens OPUS system messages.

Definition mean_case_only (prefix_only : Z) (per_case : list Z) : float := f_sub (mean_tokens per_case) (f_of_Z prefix_only).

Definition project (prefix_only : Z) (per_case : list Z) (n_test : nat) (model : string) : result (string * Projection) :=
  rates ← of_option (KeyError model) (dict_get model PRICING);
  least ← of_option (KeyError model) (dict_get model MIN_CACHEABLE_PREFIX);
  let cost := per_scenario rates prefix_only (mean_case_only prefix_only per_case) in
  mret (model, MkProjection (round_to 6 cost) (round_to 4 (f_mul cost (f_of_Z (Z.of_nat n_test)))) (least <=? prefix_only) least).

Definition design (artifact : string) : result Design :=
  cases ← load_cases artifact;
  split ← stratified_split shuffle forty_percent cases;
  let '(train, test) := split in
  sample ← of_option (IllTyped "list index out of range") (head test);
  prefix_only ← count_tokens OPUS system_prefix [PDict [("role", PStr "user"); ("content", PStr "x")]];
  per_case ← map_result case_tokens (take 25 test);
  projection ← map_result (project prefix_only per_case (length test)) FRONTIER_MODELS;
  prompt ← render_case (evidence sample);
  mret (MkDesign cases train test prefix_only per_case projection prompt (label_fault sample)).
End design.

Definition every_class_in_test (d : Design) : bool :=
  bool_decide ((list_to_set (class_balance (ds_cases d)).*1 : gset string) = list_to_set (class_balance (ds_test d)).*1).
Definition frontier_total (d : Design) : float := float_sum ((λ kv, usd_for_test_split kv.2) <$> ds_projection d).
Definition effort_total (d : Design) : result float :=
  p ← of_option (KeyError SONNET) (dict_get SONNET (ds_projection d));
  mret (f_mul (usd_for_test_split p) (f_of_Z (Z.of_nat (length EFFORT_LEVELS)))).

Definition projection_figure (p : Projection) : figure :=
  FTree [("usd_per_scenario_batched", FNum (usd_per_scenario_batched p)); ("usd_for_test_split", FNum (usd_for_test_split p));
         ("prefix_caches", FFlag (prefix_caches p)); ("min_cacheable_prefix", FInt (min_cacheable_prefix p))].
Definition capability (model : string) : figure :=
  let effort := bool_decide (model ≠ HAIKU) in
  FTree [("effort_supported", FFlag effort); ("thinking", FText (if effort then "adaptive" else "enabled+budget_tokens"))].

Definition design_report (name : string) (d : Design) : result figure :=
  efforts ← effort_total d;
  let mean_total := mean_tokens (ds_per_case d) in
  let size l := FInt (Z.of_nat (length l)) in
  mret (FTree [
    ("artifact", FText name);
    ("labeled_set", FTree [("total_cases", size (ds_cases d)); ("class_balance", counts_figure (class_balance (ds_cases d)));
                           ("distinct_classes", FInt (Z.of_nat (length (class_balance (ds_cases d)))))]);
    ("split", FTree [("test_fraction", FNum forty_percent); ("train_n", size (ds_train d)); ("test_n", size (ds_test d));
                     ("train_balance", counts_figure (class_balance (ds_train d))); ("test_balance", counts_figure (class_balance (ds_test d)));
                     ("every_class_in_test", FFlag (every_class_in_test d))]);
    ("prompt_tokens", FTree [
      ("cached_system_prefix", FInt (ds_prefix d)); ("mean_case_evidence", FNum (round_to 1 (mean_case_only (ds_prefix d) (ds_per_case d))));
      ("mean_total_input", FNum (round_to 1 mean_total)); ("min_cacheable_prefix_by_model", counts_figure MIN_CACHEABLE_PREFIX);
      ("prefix_clears_every_model", FFlag (forallb (λ kv, kv.2 <=? ds_prefix d) MIN_CACHEABLE_PREFIX))]);
    ("cost_projection_usd", FTree [
      ("assumptions", FTree [
        ("output_tokens_per_call", FInt ASSUMED_OUTPUT_TOKENS); ("batch_discount", FNum BATCH_MULTIPLIER);
        ("cache_read_multiplier", FNum CACHE_READ_MULTIPLIER);
        ("note", FText "list prices; Sonnet 5 has a lower introductory rate through 2026-08-31")]);
      ("per_model", FTree ((λ kv, (kv.1, projection_figure kv.2)) <$> ds_projection d));
      ("frontier_sweep_total", FNum (round_to 2 (frontier_total d))); ("effort_sweep_total", FNum (round_to 2 efforts));
      ("grand_total", FNum (round_to 2 (f_add (frontier_total d) efforts)));
      ("pilot_30_cases", FNum (round_to 2 (f_mul (float_sum ((λ kv, usd_per_scenario_batched kv.2) <$> ds_projection d)) (f_of_Z 30))))]);
    ("model_capabilities_measured", FTree ((λ m, (m, capability m)) <$> FRONTIER_MODELS));
    ("sample_rendered_prompt", FText (ds_prompt d)); ("sample_hidden_label", FText (ds_label d))]).

(** ** The main of scripts/run_sweep.py *)
Definition new_guard (cap : float) : BudgetGuard float := MkBudgetGuard cap (f_of_Z 0) 0 [].

Definition aggregates (per_key : list (string * list Scored)) : result (list (string * figure)) :=
  map_result (λ kv, agg ← aggregate kv.2; mret (kv.1, FMetrics agg)) per_key.

Section sweep_main.
Context {W : Type} `{OS W} (validate : pyval → result Verdict) (schema : pyval).
Context (batches_create : list (string * list (string * pyval)) → stx W string).
Context (batches_retrieve : string → stx W string) (batches_results : string → stx W (list BatchResult)).
Context (shuffle : string → list Case → list Case).

(** The results are sorted by their key. *)
Definition sweep_main (cap test_fraction : float) (artifacts : gmap string string) (generated_at name : string)
    : stx (W * run_state) figure :=
  chaos ← lift (newest_chaos artifacts);
  classification ← lift (load_cases chaos);
  split ← lift (stratified_split shuffle test_fraction classification);
  repair ← lift (artifact_text artifacts REPAIR_STRATUM);
  repairs ← lift (load_repair_cases repair);
  let cases := split.2 ++ repairs in
  _ ← modify (λ s, (s.1, MkRunState (new_guard cap) []));
  results ← sweep_runs validate schema batches_create batches_retrieve batches_results cases sweep_plan [];
  g ← gets (λ s, rs_guard s.2);
  runs ← lift (aggregates (sort_items results));
  mret (FTree [
    ("generated_at", FText generated_at); ("cases", FInt (Z.of_nat (length cases)));
    ("classification_cases", FInt (Z.of_nat (length split.2))); ("repair_cases", FInt (Z.of_nat (length repairs)));
    ("cap_usd", FNum cap); ("spent_usd", FNum (round_to 4 (spent_usd g))); ("calls", FInt (calls g));
    ("runs", FTree runs); ("artifact", FText name)]).
End sweep_main.

(** ** The main of scripts/run_pilot.py *)
Section pilot_main.
Context (call : string → Case → result TriageResult).
Context (split_shuffle pick_shuffle : string → list Case → list Case) (repair_shuffle : list Case → list Case).

Fixpoint pilot_models (models : list string) (selected : list Case) : stx run_state (list (string * list Scored)) :=
  match models with
  | [] => mret []
  | model :: models =>
      scored ← pilot_model (call model) model selected;
      rest ← pilot_models models selected;
      mret ((model, scored) :: rest)
  end.

(** Without a repair artifact there are no repair cases. *)
Definition pilot_selection (per_model repair_cases : nat) (artifacts : gmap string string) : result (list Case) :=
  chaos ← newest_chaos artifacts;
  classification ← load_cases chaos;
  split ← stratified_split split_shuffle forty_percent classification;
  selected ← of_option (IllTyped "passes") (pick (S per_model) pick_shuffle split.2 per_model);
  match artifacts !! REPAIR_STRATUM, repair_cases with
  | Some text, S _ => cases ← load_repair_cases text; mret (selected ++ repair_selection repair_shuffle cases repair_cases)
  | _, _ => mret selected
  end.

Definition pilot_main (per_model repair_cases : nat) (cap : float) (artifacts : gmap string string) (generated_at name : string)
    : stx run_state figure :=
  selected ← lift (pilot_selection per_model repair_cases artifacts);
  _ ← modify (λ _, MkRunState (new_guard cap) []);
  per_model ← pilot_models FRONTIER_MODELS selected;
  g ← gets rs_guard;
  runs ← lift (aggregates per_model);
  mret (FTree [
    ("generated_at", FText generated_at); ("cases_per_model", FInt (Z.of_nat (length selected))); ("cap_usd", FNum cap);
    ("spent_usd", FNum (round_to 4 (spent_usd g))); ("calls", FInt (calls g)); ("per_model", FTree runs); ("artifact", FText name)]).
End pilot_main.

(** ** The artifact that is read *)

(** It is the one whose name, and so whose stamp, is greatest; there is none
    exactly when no name matches. *)
Theorem newest_chaos_latest artifacts :
  match newest_chaos artifacts with
  | Ok text => ∃ name, artifacts !! name = Some text ∧ is_chaos name = true ∧
      ∀ other, is_Some (artifacts !! other) → is_chaos other = true → string_le other name
  | Err _ => ∀ name, is_Some (artifacts !! name) → is_chaos name = false
  end.
Proof.
  unfold newest_chaos. set (names := filter is_chaos (map_to_list artifacts).*1).
  assert (∀ x, x ∈ sort_strings names ↔ is_chaos x = true ∧ is_Some (artifacts !! x)) as Hin.
  { intros x. unfold names. rewrite sort_strings_elem, list_elem_of_filter, list_elem_of_fmap, Is_true_true. apply and_iff_compat_l. split.
    - intros ([k v] & -> & Hkv%elem_of_map_to_list). by eexists.
    - intros [v Hv]. exists (x, v). split; [done|by apply elem_of_map_to_list]. }
  assert (Sorted string_le (sort_strings names)) as Hsort by (apply Sorted_merge_sort, _).
  destruct (last (sort_strings names)) as [name|] eqn:E.
  - apply last_Some in E as [front E]. assert (name ∈ sort_strings names) as Hn by (rewrite E; set_solver).
    apply Hin in Hn as [Hc [text Ht]]. rewrite Ht. cbn. exists name. split_and!; [done..|]. intros other Ho Hco.
    assert (other ∈ sort_strings names) as Hm by by apply Hin. rewrite E in Hm, Hsort.
    apply (Sorted_StronglySorted _), StronglySorted_app in Hsort as (Hle & _ & _).
    apply elem_of_app in Hm as [Hm | ->%list_elem_of_singleton]; [|apply string_le_preorder]. apply Hle; [done|by left].
  - apply last_None in E. intros name Hs. destruct (is_chaos name) eqn:Ec; [|done].
    assert (name ∈ sort_strings names) as Hm by by apply Hin. rewrite E in Hm. by apply elem_of_nil in Hm.
Qed.

Example newest_chaos_example :
  newest_chaos (list_to_map [("chaos_20250101T000000Z.jsonl", "a"); ("chaos_20250301T000000Z.jsonl", "c");
    ("chaos_20250401T000000Z_summary.json", "d"); ("pilot_20250501T000000Z.jsonl", "e"); ("chaos_20250201T000000Z.jsonl", "b")]) = Ok "c".
Proof. vm_compute. reflexivity. Qed.

(** ** The classes of a set of cases *)
Lemma counter_from (l : list string) : ∀ m : list (string * Z), NoDup m.*1 →
  let c := foldl (λ m x, dict_set x (default 0 (dict_get x m) + 1) m) m l in
  NoDup c.*1 ∧ (∀ f, f ∈ c.*1 ↔ f ∈ m.*1 ∨ f ∈ l) ∧
  ∀ f, default 0 (dict_get f c) = default 0 (dict_get f m) + Z.of_nat (length (filter (.= f) l)).
Proof.
  induction l as [|x l IH]; intros m Hm; cbn [foldl]; [split_and!; [done|set_solver|intros f; cbn; lia]|].
  destruct (IH _ (dict_set_NoDup x (default 0 (dict_get x m) + 1) m Hm)) as (H1 & H2 & H3). split_and!; [done| |].
  - intros f. rewrite H2, dict_set_keys, elem_of_cons. case_decide; [set_solver|]. rewrite elem_of_app, list_elem_of_singleton. tauto.
  - intros f. rewrite H3, filter_cons. destruct (decide (x = f)) as [->|Hne]; [rewrite dict_get_set_eq; cbn [default length from_option id]; lia|].
    by rewrite dict_get_set_ne.
Qed.

Lemma class_balance_count f cases : default 0 (dict_get f (class_balance cases)) = Z.of_nat (length (with_fault f cases)).
Proof.
  destruct (counter_from (label_fault <$> cases) [] (NoDup_nil_2)) as (H1 & _ & H3). unfold class_balance. rewrite dict_get_sort by exact H1.
  unfold counter. rewrite H3. cbn. unfold with_fault. clear. induction cases as [|c l IH]; [done|].
  rewrite fmap_cons, !filter_cons. case_decide; cbn [length]; lia.
Qed.

Lemma class_balance_keys f cases : f ∈ (class_balance cases).*1 ↔ f ∈ label_fault <$> cases.
Proof.
  destruct (counter_from (label_fault <$> cases) [] (NoDup_nil_2)) as (_ & H2 & _). unfold class_balance, sort_items.
  rewrite (merge_sort_Permutation key_le). unfold counter. rewrite H2. set_solver.
Qed.

(** The split the report shows is one: each class of the labelled set is counted
    once, in the training or in the test half, and none is missing from the test half. *)
Theorem design_classes count_tokens shuffle artifact d :
  (∀ f l, shuffle f l ≡ₚ l) → (∀ n, (n <= length (ds_cases d))%nat → is_ok (n_test n forty_percent) = true) →
  design count_tokens shuffle artifact = Ok d →
  load_cases artifact = Ok (ds_cases d) ∧ every_class_in_test d = true ∧
  (length (ds_train d) + length (ds_test d) = length (ds_cases d))%nat ∧
  ∀ f, default 0 (dict_get f (class_balance (ds_train d))) + default 0 (dict_get f (class_balance (ds_test d))) =
       default 0 (dict_get f (class_balance (ds_cases d))).
Proof.
  intros Hs Hn (cases & Ec & H)%bind_Ok. apply bind_Ok in H as ([train test] & Esplit & H). repeat (apply bind_Ok in H as (? & _ & H)). injection H as <-. cbn [ds_cases ds_train ds_test] in *.
  destruct (stratified_split_partitions shuffle forty_percent cases Hs Hn) as (train' & test' & E & Hp & Hall).
  rewrite Esplit in E. injection E as <- <-. split; [done|]. split; [|split].
  - unfold every_class_in_test. cbn [ds_cases ds_test]. apply bool_decide_true, set_eq. intros f. rewrite !elem_of_list_to_set, !class_balance_keys, !list_elem_of_fmap.
    split; intros (c & -> & Hc).
    + destruct (Hall c Hc) as (c' & Hc' & <-). by exists c'.
    + exists c. split; [done|]. rewrite <- Hp. apply elem_of_app. by right.
  - rewrite <- Hp, length_app. lia.
  - intros f. rewrite !class_balance_count. unfold with_fault. rewrite <- Hp, filter_app, length_app. lia.
Qed.

(** ** The projection is what the guard records *)
Definition batched_usage (prefix_only tokens : Z) : list (string * Z) :=
  [("input_tokens", tokens - prefix_only); ("cache_read_input_tokens", prefix_only); ("output_tokens", ASSUMED_OUTPUT_TOKENS)].
Definition record_all (model : string) (prefix_only : Z) (per_case : list Z) : stx (BudgetGuard Q) () :=
  for_each (λ n, _ ← record model (batched_usage prefix_only n) true; mret ()) per_case.

Lemma record_batched model rates prefix_only n (g : BudgetGuard Q) : dict_get model PRICING = Some rates →
  ∃ cost g', record model (batched_usage prefix_only n) true g = (Ok cost, g') ∧
  (spent_usd g' == spent_usd g + ((inject_Z n - inject_Z prefix_only) * rates.1 + inject_Z prefix_only * rates.1 * (1 # 10) +
                                  inject_Z ASSUMED_OUTPUT_TOKENS * rates.2) / 2000000)%Q.
Proof.
  intros Hr. unfold record, call_cost. rewrite Hr. destruct rates as [i o]. cbn [of_option]. rewrite bind_ok_run. run.
  eexists _, _. split; [reflexivity|]. cbn [spent_usd fst snd].
  change (dict_get "input_tokens" (batched_usage prefix_only n)) with (Some (n - prefix_only)).
  change (dict_get "cache_read_input_tokens" (batched_usage prefix_only n)) with (Some prefix_only).
  change (dict_get "cache_creation_input_tokens" (batched_usage prefix_only n)) with (@None Z).
  change (dict_get "output_tokens" (batched_usage prefix_only n)) with (Some ASSUMED_OUTPUT_TOKENS).
  unfold CACHE_READ_MULTIPLIER, CACHE_WRITE_MULTIPLIER, BATCH_MULTIPLIER. cbn [default from_option id f_add f_mul f_div f_of_Z Q_arith].
  change (inject_Z 0) with 0%Q. change (inject_Z 1) with 1%Q. change (inject_Z 10) with 10%Q. change (inject_Z 5) with 5%Q.
  change (inject_Z 4) with 4%Q. change (inject_Z 2) with 2%Q. change (inject_Z 1000000) with 1000000%Q.
  unfold Z.sub. rewrite inject_Z_plus, inject_Z_opp. field.
Qed.

Lemma record_all_spent model rates prefix_only per_case : dict_get model PRICING = Some rates → ∀ g,
  ∃ g', record_all model prefix_only per_case g = (Ok (), g') ∧
  (spent_usd g' == spent_usd g +
     ((inject_Z (Zsum id per_case) - inject_Z (Z.of_nat (length per_case)) * inject_Z prefix_only) * rates.1 +
      inject_Z (Z.of_nat (length per_case)) * (inject_Z prefix_only * rates.1 * (1 # 10) + inject_Z ASSUMED_OUTPUT_TOKENS * rates.2)) / 2000000)%Q.
Proof.
  intros Hr. unfold record_all. induction per_case as [|n l IH]; intros g.
  { exists g. split; [done|]. cbn [Zsum foldr length]. change (inject_Z 0) with 0%Q. cbn. field. }
  destruct (record_batched model rates prefix_only n g Hr) as (cost & g1 & E1 & H1). destruct (IH g1) as (g' & E2 & H2).
  exists g'. split; [cbn [for_each]; run; by rewrite E1|]. rewrite H2, H1. cbn [length]. rewrite Zsum_cons, Nat2Z.inj_succ. unfold id, Z.succ.
  rewrite !inject_Z_plus. change (inject_Z 1) with 1%Q. field.
Qed.

(** The projection of the report is what the guard would record: over a split of
    cases all measured, the projected price of a scenario times their number is the sum of the
    prices of the calls, each with its evidence at the full rate, the prefix read from the cache,
    and the assumed output; in exact arithmetic. *)
Theorem design_projects_spend model rates prefix_only per_case (g : BudgetGuard Q) :
  dict_get model PRICING = Some rates → per_case ≠ [] →
  ∃ g', record_all model prefix_only per_case g = (Ok (), g') ∧
  (spent_usd g' == spent_usd g + per_scenario rates prefix_only (f_sub (mean_tokens per_case) (f_of_Z prefix_only)) *
                                 inject_Z (Z.of_nat (length per_case)))%Q.
Proof.
  intros Hr Hne. destruct (record_all_spent model rates prefix_only per_case Hr g) as (g' & E & Hs). exists g'. split; [done|].
  rewrite Hs. unfold per_scenario, mean_tokens, CACHE_READ_MULTIPLIER, BATCH_MULTIPLIER. cbn.
  set (len := inject_Z (Z.of_nat (length per_case))). assert (~ len == 0)%Q as Hlen by (subst len; destruct per_case; [done|]; cbn; discriminate).
  change (inject_Z 10) with (10 # 1)%Q. field. done.
Qed.

(** ** What is paid is written *)
Section pilot_spec.
Context (call : string → Case → result TriageResult).

(** The answers of the models, one model after the other. *)
Definition pilot_answers (models : list string) (selected : list Case) : list (string * (Case * TriageResult)) :=
  m ← models; pair m <$> pilot_answered (call m) selected.
Definition pilot_rows (models : list string) (selected : list Case) : list (string * list Scored) :=
  (λ m, (m, answer_score m <$> pilot_answered (call m) selected)) <$> models.
Definition bill_of (a : string * (Case * TriageResult)) := answer_bill a.1 a.2.
Definition line_of (a : string * (Case * TriageResult)) : line := answer_line a.1 a.2.

Lemma pilot_model_answered model selected s : ∃ paid, paid `prefix_of` (pair model <$> pilot_answered (call model) selected) ∧
  spent_on s (pilot_model (call model) model selected s).2 (bill_of <$> paid) (line_of <$> paid) ∧
  ∀ scored, (pilot_model (call model) model selected s).1 = Ok scored →
    paid = pair model <$> pilot_answered (call model) selected ∧ scored = answer_score model <$> pilot_answered (call model) selected.
Proof.
  unfold pilot_model. run. destruct (pilot_calls_answered (call model) model selected s) as (paid & H1 & H2 & H3).
  exists (pair model <$> paid). rewrite <- !list_fmap_compose.
  destruct (pilot_calls (call model) model selected s) as [[scored|e] s1]; run; cbn [fst snd] in *.
  2: split_and!; [by destruct H1 as [k ->]; rewrite fmap_app; apply prefix_app_r|done|done].
  destruct (H3 scored eq_refl) as [-> ->]. destruct (pilot_line _); run; cbn [fst snd]; split_and!; try done. by intros ? [= <-].
Qed.

(** However the models end, a first part of the answers is paid for and written. *)
Lemma pilot_models_answered models selected : ∀ s, ∃ paid, paid `prefix_of` pilot_answers models selected ∧
  spent_on s (pilot_models call models selected s).2 (bill_of <$> paid) (line_of <$> paid) ∧
  ∀ rows, (pilot_models call models selected s).1 = Ok rows → paid = pilot_answers models selected ∧ rows = pilot_rows models selected.
Proof.
  induction models as [|m ms IH]; intros s; cbn [pilot_models]; run.
  { exists []. split_and!; [done|apply spent_nothing|by intros ? [= <-]]. }
  unfold pilot_answers. rewrite bind_cons. fold (pilot_answers ms selected).
  destruct (pilot_model_answered m selected s) as (paid & H1 & H2 & H3).
  destruct (pilot_model (call m) m selected s) as [[scored|e] s1]; run; cbn [fst snd] in *.
  2: exists paid; split_and!; [by destruct H1 as [k ->]; rewrite <- app_assoc; apply prefix_app_r|done|done].
  destruct (H3 scored eq_refl) as [-> ->]. destruct (IH s1) as (paid' & H1' & H2' & H3'). exists ((pair m <$> pilot_answered (call m) selected) ++ paid').
  rewrite !(fmap_app _ (pair m <$> _)).
  destruct (pilot_models call ms selected s1) as [[rest|e] s2]; run; cbn [fst snd] in *.
  all: split_and!; [by apply prefix_app|by eapply spent_trans|]. 2: done.
  intros rows [= <-]. by destruct (H3' rest eq_refl) as [-> ->].
Qed.
End pilot_spec.

(** C34: however the pilot ends, by its summary, the budget, the API or an error,
    what it has paid for and written are the same first part of the answers of the models
    to the selected cases: its file has one line for each call paid for, in order, with its
    model, its case, its score, its usage and its rounded cost, and the guard holds their number
    and the sum of their costs under the given cap.  When it ends with a summary that part
    is all the answers, and the summary is exactly their figures: a row for each model,
    which aggregates the scores of that model's own answers, the calls and the dollars
    spent, and the selected cases. *)
Theorem pilot_writes_what_it_pays call split_shuffle pick_shuffle repair_shuffle per_model repair_cases cap artifacts at_ name s :
  let '(res, s') := pilot_main call split_shuffle pick_shuffle repair_shuffle per_model repair_cases cap artifacts at_ name s in
  match pilot_selection split_shuffle pick_shuffle repair_shuffle per_model repair_cases artifacts with
  | Err e => (res, s') = (Err e, s)
  | Ok selected => ∃ paid, paid `prefix_of` pilot_answers call FRONTIER_MODELS selected ∧
      calls_log (rs_guard s') = bill_of <$> paid ∧ rs_lines s' = line_of <$> paid ∧ Forall2 bills (rs_lines s') (calls_log (rs_guard s')) ∧
      calls (rs_guard s') = Z.of_nat (length (rs_lines s')) ∧ cap_usd (rs_guard s') = cap ∧
      spent_usd (rs_guard s') = foldl f_add (f_of_Z 0) ((bill_of <$> paid).*2) ∧
      ∀ summary, res = Ok summary → paid = pilot_answers call FRONTIER_MODELS selected ∧
        ∃ runs, aggregates (pilot_rows call FRONTIER_MODELS selected) = Ok runs ∧
        summary = FTree [
          ("generated_at", FText at_); ("cases_per_model", FInt (Z.of_nat (length selected))); ("cap_usd", FNum cap);
          ("spent_usd", FNum (round_to 4 (spent_usd (rs_guard s')))); ("calls", FInt (Z.of_nat (length (rs_lines s'))));
          ("per_model", FTree runs); ("artifact", FText name)]
  end.
Proof.
  unfold pilot_main. run. destruct (pilot_selection _ _ _ _ _ _) as [selected|]; run; [|done].
  destruct (pilot_models_answered call FRONTIER_MODELS selected (MkRunState (new_guard cap) [])) as (paid & H1 & [A B C D E] & H3).
  assert (Forall2 bills (line_of <$> paid) (bill_of <$> paid)) as Hb.
  { apply Forall2_fmap, Forall_Forall2_diag, Forall_true. intros a. apply answer_line_bills. }
  cbn [rs_guard rs_lines new_guard calls_log calls cap_usd spent_usd] in A, B, C, D, E. rewrite app_nil_l in A, D.
  assert (∀ s1 : run_state, s1 = (pilot_models call FRONTIER_MODELS selected (MkRunState (new_guard cap) [])).2 →
    calls_log (rs_guard s1) = bill_of <$> paid ∧ rs_lines s1 = line_of <$> paid ∧ Forall2 bills (rs_lines s1) (calls_log (rs_guard s1)) ∧
    calls (rs_guard s1) = Z.of_nat (length (rs_lines s1)) ∧ cap_usd (rs_guard s1) = cap ∧
    spent_usd (rs_guard s1) = foldl f_add (f_of_Z 0) ((bill_of <$> paid).*2)) as Hs1.
  { intros s1 ->. rewrite A, B, C, D, E, !length_fmap. by split_and!. }
  destruct (pilot_models call FRONTIER_MODELS selected _) as [[rows|e] s1]; run; cbn [fst snd] in *; specialize (Hs1 s1 eq_refl).
  - destruct (H3 rows eq_refl) as [-> ->]. destruct Hs1 as (H4 & H5 & H6 & H7 & H8).
    destruct (aggregates _) as [runs|e]; run; exists (pilot_answers call FRONTIER_MODELS selected); split_and!; try done.
    intros summary [= <-]. split; [done|]. exists runs. by rewrite H7.
  - exists paid. destruct Hs1 as (H4 & H5 & H6 & H7 & H8). by split_and!.
Qed.

(** A set of one labelled case, and models that refuse, Haiku without a usage. *)
Definition sample_artifacts : gmap string string :=
  {["chaos_20250101T000000Z.jsonl" := json_dumps (PDict [("scenario_id", PStr "sc-1"); ("fault", PStr "DROP")])]}.
Definition sample_call (model : string) (c : Case) : result TriageResult :=
  Ok (MkTriageResult None model None (ratio 1 2) (if bool_decide (model = HAIKU) then [] else usage_dict sample_usage)
        (Some "refusal") true None "").

Lemma pilot_writes_what_it_pays_witness :
  let '(res, s') := pilot_main sample_call (λ _ l, l) (λ _ l, l) (λ l, l) 10 0 (f_of_Z 15) sample_artifacts "now" "pilot.jsonl" sample_run in
  is_ok res = true ∧ calls (rs_guard s') = 3 ∧ (dict_get "model" <$> rs_lines s') = (λ m, Some (FText m)) <$> FRONTIER_MODELS.
Proof.
  pose proof (pilot_writes_what_it_pays sample_call (λ _ l, l) (λ _ l, l) (λ l, l) 10 0 (f_of_Z 15) sample_artifacts "now" "pilot.jsonl" sample_run) as H.
  assert (is_ok (pilot_main sample_call (λ _ l, l) (λ _ l, l) (λ l, l) 10 0 (f_of_Z 15) sample_artifacts "now" "pilot.jsonl" sample_run).1 = true)
    as Hok by (vm_compute; reflexivity).
  destruct (pilot_main _ _ _ _ _ _ _ _ _ _ _) as [[summary|e] s']; [|discriminate Hok].
  destruct (pilot_selection _ _ _ _ _ _) as [selected|e] eqn:Es in H; [|discriminate H].
  destruct H as (paid & _ & _ & Hl & _ & Hc & _ & _ & Hs). destruct (Hs summary eq_refl) as [-> _].
  vm_compute in Es. injection Es as <-. split; [reflexivity|]. rewrite Hc, Hl. split; vm_compute; reflexivity.
Defined.

Section sweep_billed.
Context {W : Type} `{OS W} (validate : pyval → result Verdict) (schema : pyval).
Context (batches_create : list (string * list (string * pyval)) → stx W string).
Context (batches_retrieve : string → stx W string) (batches_results : string → stx W (list BatchResult)).
Notation sweep_run := (sweep_run validate schema batches_create batches_retrieve batches_results).
Notation sweep_runs := (sweep_runs validate schema batches_create batches_retrieve batches_results).

(** What a part of the sweep that ended as [res] left of the file and the bill. *)
Definition billed {A} (s s' : run_state) (res : result A) : Prop := ∃ log written unread,
  spent_on s s' (log ++ unread) written ∧ Forall2 bills written log ∧
  (length unread <= if is_ok res then 0 else 1)%nat.

Lemma billed_same {A} s (res : result A) : billed s s res.
Proof. exists [], [], []. split_and!; [apply spent_nothing|done|cbn; lia]. Qed.
Lemma billed_trans {A B} s s1 s2 (a : A) (res : result B) : billed s s1 (Ok a) → billed s1 s2 res → billed s s2 res.
Proof.
  intros (log & written & unread & H1 & H2 & H3) (log' & written' & unread' & H1' & H2' & H3'). cbn in H3.
  destruct unread; [|cbn in H3; lia]. rewrite app_nil_r in H1.
  exists (log ++ log'), (written ++ written'), unread'. rewrite <- app_assoc.
  split_and!; [by eapply spent_trans|by apply Forall2_app|done].
Qed.

Lemma sweep_run_billed cases model s : billed s.2 (sweep_run cases model s).2.2 (sweep_run cases model s).1.
Proof.
  destruct s as [w s]. unfold Sweep.sweep_run, on_run, on_world. run. cbn [fst snd].
  destruct (build_requests _ _ _ _ _) as [requests|e]; run; cbn [fst snd]; [|apply billed_same].
  rewrite spend_check. destruct (f_lt _ _); run; cbn [fst snd]; [apply billed_same|].
  destruct (submit_and_wait _ _ _ w) as [[id|e] w1]; run; cbn [fst snd]; [|apply billed_same].
  destruct (batches_results id w1) as [[results|e] w2]; run; cbn [fst snd]; [|apply billed_same].
  destruct (collect_billed validate (by_tag cases) model.1 (default "default" model.2) results s) as (log & written & unread & H1 & H2 & H3).
  destruct (collect _ _ _ _ _ s) as [[scored|e] s1]; cbn [fst snd] in *; exists log, written, unread.
  - destruct H3 as [-> _]. by split_and!.
  - by split_and!.
Qed.

Lemma sweep_runs_billed cases runs : ∀ results s, billed s.2 (sweep_runs cases runs results s).2.2 (sweep_runs cases runs results s).1.
Proof.
  induction runs as [|r runs IH]; intros results s; cbn [Sweep.sweep_runs]; run; [apply billed_same|].
  pose proof (sweep_run_billed cases r s) as H0. destruct (sweep_run cases r s) as [[scored|e] s1]; run; cbn [fst snd] in *; [|done].
  destruct (aggregate _) as [agg|e]; run; cbn [fst snd]; [|exact (billed_trans _ _ _ _ _ H0 (billed_same _ _))].
  exact (billed_trans _ _ _ _ _ H0 (IH _ s1)).
Qed.

(** However the sweep ends, it has not begun to spend, or its file has one line for
    each call paid for, in order; the last call alone may lack its line, and only
    when the sweep was ended by an exception. *)
Theorem sweep_writes_what_it_pays shuffle cap test_fraction artifacts at_ name s :
  let '(res, s') := sweep_main validate schema batches_create batches_retrieve batches_results shuffle cap test_fraction artifacts at_ name s in
  s'.2 = s.2 ∨
  ∃ log unread, calls_log (rs_guard s'.2) = log ++ unread ∧ Forall2 bills (rs_lines s'.2) log ∧
    (length unread <= if is_ok res then 0 else 1)%nat ∧ cap_usd (rs_guard s'.2) = cap ∧
    calls (rs_guard s'.2) = Z.of_nat (length log + length unread).
Proof.
  unfold sweep_main. run. destruct (newest_chaos artifacts); run; [|by left]. destruct (load_cases _); run; [|by left].
  destruct (stratified_split _ _ _) as [split|]; run; [|by left]. destruct (artifact_text _ _); run; [|by left].
  destruct (load_repair_cases _) as [repairs|]; run; [|by left].
  pose proof (sweep_runs_billed (split.2 ++ repairs) sweep_plan [] (s.1, MkRunState (new_guard cap) [])) as H0.
  destruct (sweep_runs _ _ _ _) as [res s1]; cbn [fst snd] in H0.
  assert (∀ out : result figure, (is_ok out = true → is_ok res = true) → ∃ log unread,
    calls_log (rs_guard s1.2) = log ++ unread ∧ Forall2 bills (rs_lines s1.2) log ∧ (length unread <= if is_ok out then 0 else 1)%nat ∧
    cap_usd (rs_guard s1.2) = cap ∧ calls (rs_guard s1.2) = Z.of_nat (length log + length unread)) as Hall.
  { intros out Hle. destruct H0 as (log & written & unread & [A B C D _] & H2 & H3). exists log, unread.
    rewrite A, B, C, D. cbn [rs_guard rs_lines]. rewrite length_app. split_and!; [done|done| |done|done].
    destruct (is_ok out); [by rewrite (Hle eq_refl) in H3|]. destruct (is_ok res); lia. }
  destruct res as [results|e]; run; cbn [fst snd]; [|right; by apply (Hall (Err e))].
  destruct (aggregates _) as [l|e]; run; right; [by apply (Hall (Ok _))|by apply (Hall (Err e))].
Qed.
End sweep_billed.

(** On the doubles of the code: 0.01125 dollars a scenario, 0.0225 for two. *)
Example projection_example :
  project 5000 [5900; 6100] 2 SONNET = Ok (SONNET, MkProjection (ratio 1125 100000) (ratio 225 10000) true 1024) ∧
  project 3000 [5900; 6100] 2 HAIKU = Ok (HAIKU, MkProjection (ratio 465 100000) (ratio 93 10000) false 4096).
Proof. vm_compute. auto. Qed.
